(** * Antigravity Claude proxy: dispatch engine, request builder and Kiro event stream

    A shallow embedding of the JavaScript sources
    - [src/constants.js]            (constants, [getModelFamily], [isThinkingModel];
                                     the second module of the file
                                     [src/cli/model-switch.js]),
    - [src/cloudcode/request-builder.js] ([buildCloudCodeRequest], [buildHeaders];
                                     the second module of the file
                                     [src/kiro/smithy-encoder.js]),
    - [src/cloudcode/message-handler.js]   ([sendMessage]),
    - [src/cloudcode/streaming-handler.js] ([sendMessageStream], [emitEmptyResponseFallback]),
    - [src/kiro/event-stream.js]    ([streamAnthropicToKiro]; the second module
                                     of the file [unnamed/part_000]),
    - [src/kiro/crc32.js]           ([crc32]; the first module of the file
                                     [unnamed/part_000]),
    - [src/kiro/smithy-encoder.js]  ([encodeStringHeader], [encodeEventStreamMessage]),
    - [src/kiro/transformer.js]     ([mapModelId], [transformTools], [kiroToAnthropic]),
    - [src/kiro/index.js]           (the handler of [POST /generateAssistantResponse];
                                     the second module of the file [unnamed/part_001]),
    - [src/cli/model-switch.js]     ([detectModelFamily], [loadSettings],
                                     [saveSettings], [main]),
    followed by the properties established about them.

    Conventions.  A JavaScript string is a [string]; one character stands for
    one code unit, so [String.length] is [.length] and [substring] is [.slice].
    Numbers that the code only compares, adds or multiplies are in [Z].
    [null] and [undefined] are [None].  Effects are threaded through a state,
    error and trace monad ([M]); the collaborators that the handlers import
    from files outside this development (account manager, [fetch], the SSE
    adapter, the error classifiers, ...) are the fields of [Env]. *)

From Stdlib Require Import ZArith List String Ascii Bool Lia Arith DecimalString.
From Equations Require Import Equations.
Import ListNotations.
Open Scope string_scope.

(* ===================================================================== *)
(** ** JavaScript primitives used by the sources *)
(* ===================================================================== *)

Module JS.

(** [c] is one of [A-Z]. *)
Definition isUpperAscii (c : ascii) : bool :=
  let n := nat_of_ascii c in (65 <=? n)%nat && (n <=? 90)%nat.

Definition lowerAscii (c : ascii) : ascii :=
  if isUpperAscii c then ascii_of_nat (nat_of_ascii c + 32) else c.

(** [s.toLowerCase()], on the ASCII letters. *)
Fixpoint toLowerCase (s : string) : string :=
  match s with
  | EmptyString => EmptyString
  | String c r => String (lowerAscii c) (toLowerCase r)
  end.

(** [s.startsWith(p)]. *)
Fixpoint startsWith (s p : string) {struct p} : bool :=
  match p, s with
  | EmptyString, _ => true
  | String _ _, EmptyString => false
  | String a p', String b s' => Ascii.eqb a b && startsWith s' p'
  end.

(** [s.includes(sub)]. *)
Fixpoint includes (s sub : string) : bool :=
  startsWith s sub ||
  match s with
  | EmptyString => false
  | String _ r => includes r sub
  end.

(** The regular-expression class [\d]. *)
Definition isDigit (c : ascii) : bool :=
  let n := nat_of_ascii c in (48 <=? n)%nat && (n <=? 57)%nat.

Definition digitValue (c : ascii) : Z := Z.of_nat (nat_of_ascii c - 48).

(** The longest prefix of [s] made of digits: what a greedy [\d+] consumes. *)
Fixpoint takeDigits (s : string) : string :=
  match s with
  | EmptyString => EmptyString
  | String c r => if isDigit c then String c (takeDigits r) else EmptyString
  end.

Fixpoint dropChars (n : nat) (s : string) : string :=
  match n, s with
  | O, _ => s
  | S _, EmptyString => EmptyString
  | S k, String _ r => dropChars k r
  end.

(** [parseInt(ds, 10)] on a non-empty run of digits (the only argument it
    receives here).  The exact integer is kept; the comparison [>= 3] that the
    source makes is not affected by the rounding of large values. *)
Fixpoint parseIntFrom (acc : Z) (ds : string) : Z :=
  match ds with
  | EmptyString => acc
  | String c r => parseIntFrom (acc * 10 + digitValue c) r
  end.

Definition parseInt (ds : string) : Z := parseIntFrom 0 ds.

(** [x || ''] for a possibly missing string. *)
Definition orEmpty (x : option string) : string :=
  match x with Some s => s | None => "" end.

(** Truthiness of a string: non-empty. *)
Definition truthy (s : string) : bool :=
  match s with EmptyString => false | String _ _ => true end.

(** Truthiness of a possibly missing string. *)
Definition truthyOpt (x : option string) : bool := truthy (orEmpty x).

(** Truthiness of a possibly missing number: present and not [0]. *)
Definition truthyNum (x : option Z) : bool :=
  match x with Some n => negb (n =? 0)%Z | None => false end.

(** [x || d] for a possibly missing number. *)
Definition numOr (x : option Z) (d : Z) : Z :=
  match x with Some n => if (n =? 0)%Z then d else n | None => d end.

(** [arr.join(sep)] on strings. *)
Fixpoint join (sep : string) (l : list string) : string :=
  match l with
  | [] => ""
  | [x] => x
  | x :: r => x ++ sep ++ join sep r
  end.

(** A template literal renders [undefined] as this text. *)
Definition showOpt (x : option string) : string :=
  match x with Some s => s | None => "undefined" end.

Definition newline : string := String (ascii_of_nat 10) EmptyString.

End JS.

(* ===================================================================== *)
(** ** [src/constants.js] *)
(* ===================================================================== *)

Module Constants.
Import JS.

Definition ANTIGRAVITY_ENDPOINT_DAILY : string := "https://daily-cloudcode-pa.googleapis.com".
Definition ANTIGRAVITY_ENDPOINT_PROD : string := "https://cloudcode-pa.googleapis.com".

(** Endpoint fallback order (daily, then prod). *)
Definition ANTIGRAVITY_ENDPOINT_FALLBACKS : list string :=
  [ANTIGRAVITY_ENDPOINT_DAILY; ANTIGRAVITY_ENDPOINT_PROD].

Definition DEFAULT_COOLDOWN_MS : Z := 10 * 1000.
Definition MAX_RETRIES : Z := 5.
Definition MAX_EMPTY_RESPONSE_RETRIES : nat := 2.
Definition MAX_ACCOUNTS : Z := 10.
Definition MAX_WAIT_BEFORE_ERROR_MS : Z := 120000.

(** The match of [/gemini-(\d+)/] anchored at the start of [s]: the captured
    digits. *)
Definition matchVersionHere (s : string) : option string :=
  if startsWith s "gemini-" then
    match takeDigits (dropChars 7 s) with
    | EmptyString => None
    | ds => Some ds
    end
  else None.

(** [lower.match(/gemini-(\d+)/)]: the capture group of the leftmost match. *)
Fixpoint matchGeminiVersion (s : string) : option string :=
  match matchVersionHere s with
  | Some ds => Some ds
  | None =>
      match s with
      | EmptyString => None
      | String _ r => matchGeminiVersion r
      end
  end.

Inductive modelFamily := claude | gemini | unknown.

Definition getModelFamily (modelName : option string) : modelFamily :=
  let lower := toLowerCase (orEmpty modelName) in
  if includes lower "claude" then claude
  else if includes lower "gemini" then gemini
  else unknown.

Definition isThinkingModel (modelName : option string) : bool :=
  let lower := toLowerCase (orEmpty modelName) in
  if includes lower "claude" && includes lower "thinking" then true
  else if includes lower "gemini" then
    if includes lower "thinking" then true
    else
      match matchGeminiVersion lower with
      | Some ds => if (3 <=? parseInt ds)%Z then true else false
      | None => false
      end
  else false.

(** The identity preamble, as the template literal of the source evaluates. *)
Definition ANTIGRAVITY_SYSTEM_INSTRUCTION : string :=
"<identity>
You are Antigravity, a powerful agentic AI coding assistant designed by the Google Deepmind team working on Advanced Agentic Coding.
You are pair programming with a USER to solve their coding task. The task may require creating a new codebase, modifying or debugging an existing codebase, or simply answering a question.
The USER will send you requests, which you must always prioritize addressing. Along with each USER request, we will attach additional metadata about their current state, such as what files they have open and where their cursor is.
This information may or may not be relevant to the coding task, it is up for you to decide.
</identity>

<tool_calling>
Call tools as you normally would. The following list provides additional guidance to help you avoid errors:
 - **Absolute paths only**. When using tools that accept file path arguments, ALWAYS use the absolute file path.
</tool_calling>

<web_application_development>
## Technology Stack,
Your web applications should be built using the following technologies:,
1. **Core**: Use HTML for structure and Javascript for logic.
2. **Styling (CSS)**: Use Vanilla CSS for maximum flexibility and control. Avoid using TailwindCSS unless the USER explicitly requests it; in this case, first confirm which TailwindCSS version to use.
3. **Web App**: If the USER specifies that they want a more complex web app, use a framework like Next.js or Vite. Only do this if the USER explicitly requests a web app.
4. **New Project Creation**: If you need to use a framework for a new app, use `npx` with the appropriate script, but there are some rules to follow:,
 - Use `npx -y` to automatically install the script and its dependencies
 - You MUST run the command with `--help` flag to see all available options first, 
 - Initialize the app in the current directory with `./` (example: `npx -y create-vite-app@latest ./`),
 - You should run in non-interactive mode so that the user doesn't need to input anything,
5. **Running Locally**: When running locally, use `npm run dev` or equivalent dev server. Only build the production bundle if the USER explicitly requests it or you are validating the code for correctness.

# Design Aesthetics,
1. **Use Rich Aesthetics**: The USER should be wowed at first glance by the design. Use best practices in modern web design (e.g. vibrant colors, dark modes, glassmorphism, and dynamic animations) to create a stunning first impression. Failure to do this is UNACCEPTABLE.
2. **Prioritize Visual Excellence**: Implement designs that will WOW the user and feel extremely premium:
		- Avoid generic colors (plain red, blue, green). Use curated, harmonious color palettes (e.g., HSL tailored colors, sleek dark modes).
 - Using modern typography (e.g., from Google Fonts like Inter, Roboto, or Outfit) instead of browser defaults.
		- Use smooth gradients,
		- Add subtle micro-animations for enhanced user experience,
3. **Use a Dynamic Design**: An interface that feels responsive and alive encourages interaction. Achieve this with hover effects and interactive elements. Micro-animations, in particular, are highly effective for improving user engagement.
4. **Premium Designs**. Make a design that feels premium and state of the art. Avoid creating simple minimum viable products.
4. **Don't use placeholders**. If you need an image, use your generate_image tool to create a working demonstration.,

## Implementation Workflow,
Follow this systematic approach when building web applications:,
1. **Plan and Understand**:,
		- Fully understand the user's requirements,
		- Draw inspiration from modern, beautiful, and dynamic web designs,
		- Outline the features needed for the initial version,
2. **Build the Foundation**:,
		- Start by creating/modifying `index.css`,
		- Implement the core design system with all tokens and utilities,
3. **Create Components**:,
		- Build necessary components using your design system,
		- Ensure all components use predefined styles, not ad-hoc utilities,
		- Keep components focused and reusable,
4. **Assemble Pages**:,
		- Update the main application to incorporate your design and components,
		- Ensure proper routing and navigation,
		- Implement responsive layouts,
5. **Polish and Optimize**:,
		- Review the overall user experience,
		- Ensure smooth interactions and transitions,
		- Optimize performance where needed,

## SEO Best Practices,
Automatically implement SEO best practices on every page:,
- **Title Tags**: Include proper, descriptive title tags for each page,
- **Meta Descriptions**: Add compelling meta descriptions that accurately summarize page content,
- **Heading Structure**: Use a single `<h1>` per page with proper heading hierarchy,
- **Semantic HTML**: Use appropriate HTML5 semantic elements,
- **Unique IDs**: Ensure all interactive elements have unique, descriptive IDs for browser testing,
- **Performance**: Ensure fast page load times through optimization,
CRITICAL REMINDER: AESTHETICS ARE VERY IMPORTANT. If your web app looks simple and basic then you have FAILED!
</web_application_development>
<ephemeral_message>
There will be an <EPHEMERAL_MESSAGE> appearing in the conversation at times. This is not coming from the user, but instead injected by the system as important information to pay attention to. 
Do not respond to nor acknowledge those messages, but do follow them strictly.
</ephemeral_message>


<communication_style>
- **Formatting**. Format your responses in github-style markdown to make your responses easier for the USER to parse. For example, use headers to organize your responses and bolded or italicized text to highlight important keywords. Use backticks to format file, directory, function, and class names. If providing a URL to the user, format this in markdown as well, for example `[label](example.com)`.
- **Proactiveness**. As an agent, you are allowed to be proactive, but only in the course of completing the user's task. For example, if the user asks you to add a new component, you can edit the code, verify build and test statuses, and take any other obvious follow-up actions, such as performing additional research. However, avoid surprising the user. For example, if the user asks HOW to approach something, you should answer their question and instead of jumping into editing a file.
- **Helpfulness**. Respond like a helpful software engineer who is explaining your work to a friendly collaborator on the project. Acknowledge mistakes or any backtracking you do as a result of new information.
- **Ask for clarification**. If you are unsure about the USER's intent, always ask for clarification rather than making assumptions.
</communication_style>".

(** Model fallback mapping, in the order of the source. *)
Definition MODEL_FALLBACK_MAP : list (string * string) :=
  [ ("gemini-3-pro-high", "claude-opus-4-5-thinking");
    ("gemini-3-pro-low", "claude-sonnet-4-5");
    ("gemini-3-flash", "claude-sonnet-4-5-thinking");
    ("claude-opus-4-5-thinking", "gemini-3-pro-high");
    ("claude-sonnet-4-5-thinking", "gemini-3-flash");
    ("claude-sonnet-4-5", "gemini-3-flash") ].

End Constants.

(* ===================================================================== *)
(** ** Values exchanged with the collaborators *)
(* ===================================================================== *)

(** A thrown JavaScript error: the fields that the handlers read. *)
Record JsError := mkJsError {
  name : string;
  message : string;
  is429 : bool;
  resetMs : option Z;
  errorText : option string
}.

(** [new Error(msg)]. *)
Definition newError (msg : string) : JsError :=
  {| name := "Error"; message := msg; is429 := false; resetMs := None; errorText := None |}.

(** The Anthropic streaming events (the canonical events of the spec). *)
Module Anthropic.

Inductive contentBlock :=
| text_block (text : string)
| thinking_block (thinking : string)
| tool_use_block (id name : option string).

Inductive blockDelta :=
| text_delta (text : option string)
| thinking_delta (thinking : string)
| signature_delta (signature : string)
| input_json_delta (partial_json : option string).

Inductive event :=
| message_start (id : string) (model : string) (input_tokens : option Z) (output_tokens : option Z)
| content_block_start (index : Z) (content_block : contentBlock)
| content_block_delta (index : Z) (delta : blockDelta)
| content_block_stop (index : Z)
| message_delta (stop_reason : option string) (output_tokens : option Z)
| message_stop
| error (error_message : option string).

End Anthropic.

Definition Headers := list (string * string).

(** A Google [systemInstruction]. *)
Record Part := { part_text : option string }.
Record SystemInstruction := { si_role : option string; si_parts : option (list Part) }.

(** [{ model, ...rest }]: an Anthropic request. *)
Record AnthropicRequestOf (RB : Type) := { model : string; body : RB }.
Arguments model {RB} a.
Arguments body {RB} a.

(** The Google request that the converter returns, and the Cloud Code
    envelope around it. *)
Record GoogleRequestOf (GB : Type) := {
  systemInstruction : option SystemInstruction;
  sessionId : option string;
  googleBody : GB
}.
Arguments systemInstruction {GB} g.
Arguments sessionId {GB} g.
Arguments googleBody {GB} g.

Record PayloadOf (GB : Type) := {
  project : string;
  payload_model : string;
  request : GoogleRequestOf GB;
  userAgent : string;
  requestType : string;
  requestId : string
}.
Arguments project {GB} p.
Arguments payload_model {GB} p.
Arguments request {GB} p.
Arguments userAgent {GB} p.
Arguments requestType {GB} p.
Arguments requestId {GB} p.

(** Decimal rendering of a number inside a template literal. *)
Definition showZ (z : Z) : string := DecimalString.NilZero.string_of_int (Z.to_int z).

(** The collaborators of the handlers that live in files outside this
    development, and the platform they run on.  [World] is everything the
    handlers do not own: the account pool, the token and project caches, the
    upstream servers, the clock and the random source.  A method that can
    reject returns an error on the left. *)
Record Env := {
  World : Type;
  Account : Type;
  Response : Type;
  (** the Anthropic request but its model; the Google request but its system
      instruction and session id; the one-shot Anthropic response *)
  RequestBody : Type;
  GoogleBody : Type;
  AnthropicResponse : Type;

  email : Account -> string;
  status : Response -> Z;
  (** [await response.text()] *)
  text : Response -> string;

  (** account-manager/index.js *)
  getAccountCount : World -> Z;
  clearExpiredLimits : World -> World;
  getAvailableAccounts : string -> World -> list Account;
  isAllRateLimited : string -> World -> bool;
  getMinWaitTimeMs : string -> World -> Z;
  getCurrentStickyAccount : string -> World -> option Account * World;
  pickNext : string -> World -> option Account * World;
  markRateLimited : string -> option Z -> string -> World -> World;
  clearTokenCache : string -> World -> World;
  clearProjectCache : string -> World -> World;
  getTokenForAccount : Account -> World -> (JsError + string) * World;
  getProjectForAccount : Account -> string -> World -> (JsError + string) * World;

  (** the platform: [fetch], [sleep], [Date.now], [crypto], [os] *)
  fetch : string -> Headers -> PayloadOf GoogleBody -> World -> (JsError + Response) * World;
  sleep : Z -> World -> World;
  dateNow : World -> Z;
  toISOString : Z -> string;
  randomUUID : World -> string * World;
  randomBytesHex : nat -> World -> string * World;
  platform : string;
  arch : string;

  (** errors.js, utils/helpers.js, rate-limit-parser.js, fallback-config.js *)
  isRateLimitError : JsError -> bool;
  isAuthError : JsError -> bool;
  isEmptyResponseError : JsError -> bool;
  isNetworkError : JsError -> bool;
  formatDuration : Z -> string;
  parseResetTime : Response -> string -> option Z;
  getFallbackModel : string -> option string;

  (** format/index.js, session-manager.js, [JSON.stringify] of a payload *)
  convertAnthropicToGoogle : AnthropicRequestOf RequestBody -> GoogleRequestOf GoogleBody;
  deriveSessionId : AnthropicRequestOf RequestBody -> string;
  responseJsonToAnthropic : Response -> string -> World -> (JsError + AnthropicResponse) * World;

  (** sse-parser.js and sse-streamer.js: what the adapter yields from a
      response, and the error it ends with, if any *)
  parseThinkingSSEResponse : Response -> string -> World -> (JsError + AnthropicResponse) * World;
  streamSSEResponse : Response -> string -> World -> (list Anthropic.event * option JsError) * World
}.

Existing Class Env.

(** [response.ok]: a status in the range 200-299. *)
Definition ok {E : Env} (r : Response E) : bool :=
  (200 <=? status E r)%Z && (status E r <=? 299)%Z.

(* ===================================================================== *)
(** ** The effects of a handler: state, errors and a trace *)
(* ===================================================================== *)

(** How a block of code ends: with a value, or with a thrown error. *)
Inductive Outcome (A : Type) :=
| Ok (a : A)
| Throw (e : JsError).
Arguments Ok {A} a.
Arguments Throw {A} e.

Section Effects.
Context {E : Env}.

Definition AnthropicRequest := AnthropicRequestOf (RequestBody E).
Definition GoogleRequest := GoogleRequestOf (GoogleBody E).
Definition Payload := PayloadOf (GoogleBody E).

(** [{ ...anthropicRequest, model: m }] *)
Definition withModel (r : AnthropicRequest) (m : string) : AnthropicRequest :=
  {| model := m; body := body r |}.

(** What a handler does to the outside, in order.  [AEnter] and [AAttempt]
    are ghost marks: the entry of a dispatch and the start of an iteration of
    its attempt loop. *)
Inductive Action :=
| AFetch (url : string) (headers : Headers) (payload : Payload)
| ASleep (ms : Z)
| AYield (ev : Anthropic.event)
| AMarkRateLimited (email : string) (resetMs : option Z) (model : string)
| AClearTokenCache (email : string)
| AClearProjectCache (email : string)
| APickNext (model : string)
| AEnter (model : string) (fallbackEnabled : bool)
| AAttempt (attempt : nat).

(** The locals of an attempt that outlive a [catch]. *)
Record St := {
  world : World E;
  lastError : option JsError;
  retriedOnce : bool
}.

Record Run (A : Type) := {
  trace : list Action;
  final : St;
  outcome : Outcome A
}.
Arguments trace {A} r.
Arguments final {A} r.
Arguments outcome {A} r.

Definition M (A : Type) := St -> Run A.

Definition ret {A} (a : A) : M A :=
  fun s => {| trace := []; final := s; outcome := Ok a |}.

Definition throw {A} (e : JsError) : M A :=
  fun s => {| trace := []; final := s; outcome := Throw e |}.

Definition bind {A B} (m : M A) (k : A -> M B) : M B :=
  fun s =>
    let r := m s in
    match outcome r with
    | Ok a =>
        let r' := k a (final r) in
        {| trace := trace r ++ trace r'; final := final r'; outcome := outcome r' |}
    | Throw e => {| trace := trace r; final := final r; outcome := Throw e |}
    end.

(** [try { m } catch (e) { h e }] *)
Definition tryCatch {A} (m : M A) (h : JsError -> M A) : M A :=
  fun s =>
    let r := m s in
    match outcome r with
    | Ok a => r
    | Throw e =>
        let r' := h e (final r) in
        {| trace := trace r ++ trace r'; final := final r'; outcome := outcome r' |}
    end.

Definition emit (a : Action) : M unit :=
  fun s => {| trace := [a]; final := s; outcome := Ok tt |}.

(** The run [r], after the actions [tr]. *)
Definition prepend {A} (tr : list Action) (r : Run A) : Run A :=
  {| trace := tr ++ trace r; final := final r; outcome := outcome r |}.

Definition setWorld (s : St) (w : World E) : St :=
  {| world := w; lastError := lastError s; retriedOnce := retriedOnce s |}.

(** A call that only changes the world. *)
Definition update (f : World E -> World E) : M unit :=
  fun s => {| trace := []; final := setWorld s (f (world s)); outcome := Ok tt |}.

(** A call that only reads the world. *)
Definition read {A} (f : World E -> A) : M A :=
  fun s => {| trace := []; final := s; outcome := Ok (f (world s)) |}.

(** A call that returns a value and changes the world. *)
Definition call {A} (f : World E -> A * World E) : M A :=
  fun s => let '(a, w) := f (world s) in
           {| trace := []; final := setWorld s w; outcome := Ok a |}.

(** An awaited call that resolves or rejects. *)
Definition await {A} (f : World E -> (JsError + A) * World E) : M A :=
  fun s => let '(r, w) := f (world s) in
           {| trace := []; final := setWorld s w;
              outcome := match r with inl e => Throw e | inr a => Ok a end |}.

Definition getLastError : M (option JsError) :=
  fun s => {| trace := []; final := s; outcome := Ok (lastError s) |}.

Definition setLastError (e : option JsError) : M unit :=
  fun s => {| trace := [];
              final := {| world := world s; lastError := e; retriedOnce := retriedOnce s |};
              outcome := Ok tt |}.

Definition getRetriedOnce : M bool :=
  fun s => {| trace := []; final := s; outcome := Ok (retriedOnce s) |}.

Definition setRetriedOnce (b : bool) : M unit :=
  fun s => {| trace := [];
              final := {| world := world s; lastError := lastError s; retriedOnce := b |};
              outcome := Ok tt |}.

End Effects.

Arguments trace {E A} r.
Arguments final {E A} r.
Arguments outcome {E A} r.

Declare Scope js_scope.
Delimit Scope js_scope with js.
Notation "x <- m ;; k" := (bind m (fun x => k))
  (at level 61, m at next level, right associativity) : js_scope.
Notation "m ;;; k" := (bind m (fun _ => k))
  (at level 61, right associativity) : js_scope.
Open Scope js_scope.

(* ===================================================================== *)
(** ** [src/cloudcode/request-builder.js] *)
(* ===================================================================== *)

Module RequestBuilder.
Import JS Constants.

Section Builder.
Context {E : Env}.

(** [parts.map(p => p.text || '').filter(t => t).join('\n')] *)
Definition existingText (parts : list Part) : string :=
  join newline (filter truthy (map (fun p => orEmpty (part_text p)) parts)).

(** The text injected as system instruction for a converted request. *)
Definition systemInstructionText (googleRequest : @GoogleRequest E) : string :=
  match systemInstruction googleRequest with
  | Some si =>
      match si_parts si with
      | Some parts =>
          if truthy (existingText parts)
          then ANTIGRAVITY_SYSTEM_INSTRUCTION ++ newline ++ newline ++ existingText parts
          else ANTIGRAVITY_SYSTEM_INSTRUCTION
      | None => ANTIGRAVITY_SYSTEM_INSTRUCTION
      end
  | None => ANTIGRAVITY_SYSTEM_INSTRUCTION
  end.

(** [buildCloudCodeRequest(anthropicRequest, projectId)]; [uuid] is the value
    of [crypto.randomUUID()] drawn by the caller. *)
Definition buildCloudCodeRequest (anthropicRequest : @AnthropicRequest E)
    (projectId : string) (uuid : string) : @Payload E :=
  let googleRequest := convertAnthropicToGoogle E anthropicRequest in
  {| project := projectId;
     payload_model := model anthropicRequest;
     request :=
       {| systemInstruction :=
            Some {| si_role := Some "user";
                    si_parts := Some [ {| part_text := Some (systemInstructionText googleRequest) |} ] |};
          sessionId := Some (deriveSessionId E anthropicRequest);
          googleBody := googleBody googleRequest |};
     userAgent := "antigravity";
     requestType := "agent";
     requestId := "agent-" ++ uuid |}.

Definition dq : string := String (ascii_of_nat 34) EmptyString.

(** [getPlatformUserAgent()] *)
Definition getPlatformUserAgent : string :=
  "antigravity/1.11.5 " ++ platform E ++ "/" ++ arch E.

Definition ANTIGRAVITY_HEADERS : Headers :=
  [ ("User-Agent", getPlatformUserAgent);
    ("X-Goog-Api-Client", "google-cloud-sdk vscode_cloudshelleditor/0.1");
    ("Client-Metadata",
      "{" ++ dq ++ "ideType" ++ dq ++ ":" ++ dq ++ "IDE_UNSPECIFIED" ++ dq ++ ","
          ++ dq ++ "platform" ++ dq ++ ":" ++ dq ++ "PLATFORM_UNSPECIFIED" ++ dq ++ ","
          ++ dq ++ "pluginType" ++ dq ++ ":" ++ dq ++ "GEMINI" ++ dq ++ "}") ].

(** [buildHeaders(token, model, accept)] *)
Definition buildHeaders (token : string) (model : string) (accept : string) : Headers :=
  List.app
    [ ("Authorization", "Bearer " ++ token);
      ("Content-Type", "application/json") ]
    (List.app ANTIGRAVITY_HEADERS
      (List.app
        (match getModelFamily (Some model) with
         | claude => if isThinkingModel (Some model)
                     then [("anthropic-beta", "interleaved-thinking-2025-05-14")] else []
         | _ => []
         end)
        (if String.eqb accept "application/json" then [] else [("Accept", accept)]))).

End Builder.
End RequestBuilder.

(* ===================================================================== *)
(** ** Calls on the collaborators, as the handlers make them *)
(* ===================================================================== *)

Module Calls.
Import JS Constants RequestBuilder.

Section Calls.
Context {E : Env}.

(** [await fetch(url, { method: 'POST', headers: buildHeaders(token, model,
    accept), body: JSON.stringify(payload) })] *)
Definition postJson (url token model accept : string) (payload : @Payload E) : M (Response E) :=
  emit (AFetch url (buildHeaders token model accept) payload) ;;;
  await (fetch E url (buildHeaders token model accept) payload).

Definition sleepMs (ms : Z) : M unit :=
  emit (ASleep ms) ;;; update (sleep E ms).

(** The greatest time value of a [Date], and the [RangeError] that
    [toISOString] throws on a date whose time value is beyond it. *)
Definition MAX_TIME_VALUE : Z := 8640000000000000.

Definition invalidTime : JsError :=
  {| name := "RangeError"; message := "Invalid time value";
     is429 := false; resetMs := None; errorText := None |}.

(** [new Date(t).toISOString()] *)
Definition isoString (t : Z) : M string :=
  if (Z.abs t <=? MAX_TIME_VALUE)%Z then ret (toISOString E t) else throw invalidTime.

Definition markLimited (account : Account E) (resetMs : option Z) (model : string) : M unit :=
  emit (AMarkRateLimited (email E account) resetMs model) ;;;
  update (markRateLimited E (email E account) resetMs model).

Definition clearCaches (account : Account E) : M unit :=
  emit (AClearTokenCache (email E account)) ;;;
  update (clearTokenCache E (email E account)) ;;;
  emit (AClearProjectCache (email E account)) ;;;
  update (clearProjectCache E (email E account)).

Definition pickNextAccount (model : string) : M (option (Account E)) :=
  emit (APickNext model) ;;; call (pickNext E model).

Fixpoint yieldAll (evs : list Anthropic.event) : M unit :=
  match evs with
  | [] => ret tt
  | ev :: rest => emit (AYield ev) ;;; yieldAll rest
  end.

(** [yield* streamSSEResponse(response, model)]: everything the adapter
    yields is passed on, then its error, if it ends with one, is thrown. *)
Definition yieldStream (response : Response E) (model : string) : M unit :=
  r <- call (streamSSEResponse E response model) ;;
  yieldAll (fst r) ;;;
  match snd r with
  | Some e => throw e
  | None => ret tt
  end.

(** The handling of a caught error that ends an attempt (the outer [catch]
    of both handlers): [true] when the attempt loop continues. *)
Definition is5xxMessage (msg : string) : bool :=
  includes msg "API error 5" || includes msg "500" || includes msg "503".

End Calls.
End Calls.

(** How a [try] block inside a loop of a handler ends when it does not throw:
    with the [return] of the handler (and the value returned, [tt] for a
    generator), or with the next iteration
    ([continue], or the end of the block). *)
Inductive Completion (R : Type) :=
| Return (r : R)
| Next.
Arguments Return {R} r.
Arguments Next {R}.

(* ===================================================================== *)
(** ** [src/cloudcode/streaming-handler.js] *)
(* ===================================================================== *)

Module StreamingHandler.
Import JS Constants RequestBuilder Calls Anthropic.

Section Handler.
Context {E : Env}.

(** [emitEmptyResponseFallback(model)] *)
Definition emitEmptyResponseFallback (model : string) : M unit :=
  hex <- call (randomBytesHex E 16) ;;
  let messageId := "msg_" ++ hex in
  yieldAll
    [ message_start messageId model (Some 0%Z) (Some 0%Z);
      content_block_start 0 (text_block "");
      content_block_delta 0 (text_delta (Some "[No response after retries - please try again]"));
      content_block_stop 0;
      message_delta (Some "end_turn") (Some 0%Z);
      message_stop ].

Definition sseUrl (endpoint : string) : string :=
  endpoint ++ "/v1internal:streamGenerateContent?alt=sse".

Section Attempt.
(** The variables of one attempt that its inner blocks close over. *)
Variable anthropicRequest : @AnthropicRequest E.
Variable account : Account E.
Variable token : string.
Variable payload : @Payload E.

Let model := model anthropicRequest.

Definition post (url : string) : M (Response E) :=
  postJson url token model "text/event-stream" payload.

(** How the [try]/[catch] inside the empty-response loop ends when it does
    not throw. *)
Inductive EmptyStep :=
| StreamCompleted
| FallbackEmitted
| Refetched (currentResponse : Response E).

(** The [catch (streamError)] block of the empty-response loop. *)
Definition onStreamError (url : string) (emptyRetries : nat) (streamError : JsError) : M EmptyStep :=
  if negb (isEmptyResponseError E streamError) then throw streamError
  else if (MAX_EMPTY_RESPONSE_RETRIES <=? emptyRetries)%nat then
    emitEmptyResponseFallback model ;;;
    ret FallbackEmitted
  else
    let backoffMs := (500 * 2 ^ Z.of_nat emptyRetries)%Z in
    sleepMs backoffMs ;;;
    currentResponse <- post url ;;
    if negb (ok currentResponse) then
      let retryErrorText := text E currentResponse in
      if (status E currentResponse =? 429)%Z then
        let resetMs := parseResetTime E currentResponse retryErrorText in
        markLimited account resetMs model ;;;
        throw (newError ("429 RESOURCE_EXHAUSTED during retry: " ++ retryErrorText))
      else if (status E currentResponse =? 401)%Z then
        clearCaches account ;;;
        throw (newError ("401 AUTH_INVALID during retry: " ++ retryErrorText))
      else if (500 <=? status E currentResponse)%Z then
        sleepMs 1000 ;;;
        currentResponse' <- post url ;;
        if ok currentResponse' then ret (Refetched currentResponse')
        else throw (newError ("Empty response retry failed: "
                                ++ showZ (status E currentResponse') ++ " - " ++ retryErrorText))
      else throw (newError ("Empty response retry failed: "
                              ++ showZ (status E currentResponse) ++ " - " ++ retryErrorText))
    else ret (Refetched currentResponse).

(** [for (let emptyRetries = 0; emptyRetries <= MAX_EMPTY_RESPONSE_RETRIES;
    emptyRetries++)], by the number of iterations that remain. *)
Fixpoint streamWithEmptyRetries (url : string) (remaining emptyRetries : nat)
    (currentResponse : Response E) : M (Completion unit) :=
  match remaining with
  | O => ret Next
  | S remaining' =>
      step <- tryCatch (yieldStream currentResponse model ;;; ret StreamCompleted)
                       (onStreamError url emptyRetries) ;;
      match step with
      | StreamCompleted => ret (Return tt)
      | FallbackEmitted => ret (Return tt)
      | Refetched currentResponse' =>
          streamWithEmptyRetries url remaining' (S emptyRetries) currentResponse'
      end
  end.

(** The branch [response.status === 429] of an endpoint. *)
Definition on429 (url : string) (response : Response E) (errorText : string) : M (Completion unit) :=
  let resetMs := parseResetTime E response errorText in
  if truthyNum resetMs && (numOr resetMs 0 >? DEFAULT_COOLDOWN_MS)%Z then
    markLimited account resetMs model ;;;
    throw (newError ("QUOTA_EXHAUSTED: " ++ errorText))
  else
    let waitMs := numOr resetMs DEFAULT_COOLDOWN_MS in
    retried <- getRetriedOnce ;;
    if negb retried then
      setRetriedOnce true ;;;
      sleepMs waitMs ;;;
      retryResponse <- post url ;;
      if ok retryResponse then
        yieldStream retryResponse model ;;;
        ret (Return tt)
      else
        let retryErrorText := text E retryResponse in
        let retryResetMs := parseResetTime E retryResponse retryErrorText in
        markLimited account (Some (numOr retryResetMs waitMs)) model ;;;
        throw (newError ("RATE_LIMITED_AFTER_RETRY: " ++ retryErrorText))
    else
      markLimited account (Some waitMs) model ;;;
      throw (newError ("RATE_LIMITED: " ++ errorText)).

(** The [try] block of one iteration of the endpoint loop. *)
Definition tryEndpoint (endpoint : string) : M (Completion unit) :=
  let url := sseUrl endpoint in
  response <- post url ;;
  if negb (ok response) then
    let errorText := text E response in
    if (status E response =? 401)%Z then
      clearCaches account ;;;
      ret Next
    else if (status E response =? 429)%Z then
      on429 url response errorText
    else
      setLastError (Some (newError ("API error " ++ showZ (status E response) ++ ": " ++ errorText))) ;;;
      (if (500 <=? status E response)%Z then sleepMs 1000 else ret tt) ;;;
      ret Next
  else
    streamWithEmptyRetries url (S MAX_EMPTY_RESPONSE_RETRIES) 0 response.

(** The [catch (endpointError)] block of the endpoint loop. *)
Definition onEndpointError (endpointError : JsError) : M (Completion unit) :=
  if isRateLimitError E endpointError then throw endpointError
  else if isEmptyResponseError E endpointError then throw endpointError
  else setLastError (Some endpointError) ;;; ret Next.

(** [for (const endpoint of ANTIGRAVITY_ENDPOINT_FALLBACKS)] *)
Fixpoint endpointLoop (endpoints : list string) : M (Completion unit) :=
  match endpoints with
  | [] => ret Next
  | endpoint :: rest =>
      c <- tryCatch (tryEndpoint endpoint) onEndpointError ;;
      match c with
      | Return _ => ret (Return tt)
      | Next => endpointLoop rest
      end
  end.

(** What follows the endpoint loop inside the outer [try]. *)
Definition afterEndpoints : M (Completion unit) :=
  lastError <- getLastError ;;
  match lastError with
  | Some e =>
      if is429 e then
        markLimited account (resetMs e) model ;;;
        throw (newError ("Rate limited: " ++ showOpt (errorText e)))
      else throw e
  | None => ret Next
  end.

End Attempt.

(** The outer [try] block of an attempt. *)
Definition tryAttempt (anthropicRequest : @AnthropicRequest E) (account : Account E) : M (Completion unit) :=
  token <- await (getTokenForAccount E account) ;;
  project <- await (getProjectForAccount E account token) ;;
  uuid <- call (randomUUID E) ;;
  let payload := buildCloudCodeRequest anthropicRequest project uuid in
  setLastError None ;;;
  setRetriedOnce false ;;;
  c <- endpointLoop anthropicRequest account token payload ANTIGRAVITY_ENDPOINT_FALLBACKS ;;
  match c with
  | Return _ => ret (Return tt)
  | Next => afterEndpoints anthropicRequest account
  end.

(** The outer [catch (error)] block of an attempt. *)
Definition onAttemptError (model : string) (error : JsError) : M (Completion unit) :=
  if isRateLimitError E error then ret Next
  else if isAuthError E error then ret Next
  else if is5xxMessage (message error) then
    pickNextAccount model ;;; ret Next
  else if isNetworkError E error then
    sleepMs 1000 ;;;
    pickNextAccount model ;;; ret Next
  else throw error.

(** [getFallbackModel(model)] when it is truthy. *)
Definition fallbackModelFor (model : string) : option string :=
  match getFallbackModel E model with
  | Some m => if truthy m then Some m else None
  | None => None
  end.

Section Dispatch.
(** The function itself, for its two recursive calls. *)
Variable self : @AnthropicRequest E -> bool -> M unit.
Variable anthropicRequest : @AnthropicRequest E.
Variable fallbackEnabled : bool.

Let model := model anthropicRequest.

(** What follows the attempt loop. *)
Definition afterAttempts : M unit :=
  match (if fallbackEnabled then fallbackModelFor model else None) with
  | Some fallbackModel => self (withModel anthropicRequest fallbackModel) false
  | None => throw (newError "Max retries exceeded")
  end.

(** The branch [availableAccounts.length === 0], up to its [continue]:
    [Next] when the loop continues. *)
Definition onNoAccounts : M (Completion unit) :=
  allLimited <- read (isAllRateLimited E model) ;;
  if allLimited then
    minWaitMs <- read (getMinWaitTimeMs E model) ;;
    now <- read (dateNow E) ;;
    resetTime <- isoString (now + minWaitMs) ;;
    if (minWaitMs >? MAX_WAIT_BEFORE_ERROR_MS)%Z then
      match (if fallbackEnabled then fallbackModelFor model else None) with
      | Some fallbackModel =>
          self (withModel anthropicRequest fallbackModel) false ;;;
          ret (Return tt)
      | None =>
          throw (newError ("RESOURCE_EXHAUSTED: Rate limited on " ++ model
                             ++ ". Quota will reset after " ++ formatDuration E minWaitMs
                             ++ ". Next available: " ++ resetTime))
      end
    else
      sleepMs (minWaitMs + 500) ;;;
      update (clearExpiredLimits E) ;;;
      ret Next
  else throw (newError "No accounts available").

(** The body of the attempt loop. *)
Definition attempt (attemptNo : nat) : M (Completion unit) :=
  emit (AAttempt attemptNo) ;;;
  update (clearExpiredLimits E) ;;;
  availableAccounts <- read (getAvailableAccounts E model) ;;
  match availableAccounts with
  | [] => onNoAccounts
  | _ :: _ =>
      sticky <- call (getCurrentStickyAccount E model) ;;
      account <- match sticky with
                 | Some a => ret (Some a)
                 | None => pickNextAccount model
                 end ;;
      match account with
      | None => ret Next
      | Some account =>
          tryCatch (tryAttempt anthropicRequest account) (onAttemptError model)
      end
  end.

(** [for (let attempt = 0; attempt < maxAttempts; attempt++)], by the number
    of iterations that remain, and what follows the loop. *)
Fixpoint attemptLoop (remaining attemptNo : nat) : M unit :=
  match remaining with
  | O => afterAttempts
  | S remaining' =>
      c <- attempt attemptNo ;;
      match c with
      | Return _ => ret tt
      | Next => attemptLoop remaining' (S attemptNo)
      end
  end.

(** [Math.max(MAX_RETRIES, accountManager.getAccountCount() + 1)] *)
Definition maxAttempts (w : World E) : nat :=
  Z.to_nat (Z.max MAX_RETRIES (getAccountCount E w + 1)).

(** The body of [sendMessageStream]. *)
Definition sendMessageStreamBody : M unit :=
  emit (AEnter model fallbackEnabled) ;;;
  n <- read maxAttempts ;;
  attemptLoop n 0.

End Dispatch.

(** [sendMessageStream], unfolded [depth] times; [base] stands for the calls
    that are nested deeper. *)
Fixpoint sendMessageStreamAt (depth : nat) (base : @AnthropicRequest E -> bool -> M unit)
    : @AnthropicRequest E -> bool -> M unit :=
  match depth with
  | O => base
  | S d => sendMessageStreamBody (sendMessageStreamAt d base)
  end.

(** [sendMessageStream(anthropicRequest, accountManager, fallbackEnabled)].
    Two levels are all that a dispatch uses: the recursive call is made with
    [fallbackEnabled] set to [false], and such a call makes none, so the base
    is never reached. *)
Definition sendMessageStream : @AnthropicRequest E -> bool -> M unit :=
  sendMessageStreamAt 2 (fun _ _ => throw (newError "Maximum call stack size exceeded")).

End Handler.
End StreamingHandler.

(* ===================================================================== *)
(** ** [src/cloudcode/message-handler.js] *)
(* ===================================================================== *)

Module MessageHandler.
Import JS Constants RequestBuilder Calls.

Section Handler.
Context {E : Env}.

(** The URL of an endpoint: the SSE path for thinking models. *)
Definition endpointUrl (isThinking : bool) (endpoint : string) : string :=
  if isThinking
  then endpoint ++ "/v1internal:streamGenerateContent?alt=sse"
  else endpoint ++ "/v1internal:generateContent".

Definition acceptFor (isThinking : bool) : string :=
  if isThinking then "text/event-stream" else "application/json".

Section Attempt.
Variable anthropicRequest : @AnthropicRequest E.
Variable account : Account E.
Variable token : string.
Variable payload : @Payload E.

Let model := model anthropicRequest.
Let isThinking := isThinkingModel (Some model).

Definition post (url : string) : M (Response E) :=
  postJson url token model (acceptFor isThinking) payload.

(** The processing of a response taken as a success: the SSE parser for
    thinking models, the JSON body and its conversion otherwise. *)
Definition readResponse (response : Response E) : M (AnthropicResponse E) :=
  if isThinking
  then await (parseThinkingSSEResponse E response model)
  else await (responseJsonToAnthropic E response model).

(** The branch [response.status === 429] of an endpoint. *)
Definition on429 (url : string) (response : Response E) (errorText : string)
    : M (Completion (AnthropicResponse E)) :=
  let resetMs := parseResetTime E response errorText in
  if truthyNum resetMs && (numOr resetMs 0 >? DEFAULT_COOLDOWN_MS)%Z then
    markLimited account resetMs model ;;;
    throw (newError ("QUOTA_EXHAUSTED: " ++ errorText))
  else
    let waitMs := numOr resetMs DEFAULT_COOLDOWN_MS in
    retried <- getRetriedOnce ;;
    if negb retried then
      setRetriedOnce true ;;;
      sleepMs waitMs ;;;
      retryResponse <- post url ;;
      if ok retryResponse then
        r <- readResponse retryResponse ;;
        ret (Return r)
      else
        let retryErrorText := text E retryResponse in
        let retryResetMs := parseResetTime E retryResponse retryErrorText in
        markLimited account (Some (numOr retryResetMs waitMs)) model ;;;
        throw (newError ("RATE_LIMITED_AFTER_RETRY: " ++ retryErrorText))
    else
      markLimited account (Some waitMs) model ;;;
      throw (newError ("RATE_LIMITED: " ++ errorText)).

(** The [try] block of one iteration of the endpoint loop. *)
Definition tryEndpoint (endpoint : string) : M (Completion (AnthropicResponse E)) :=
  let url := endpointUrl isThinking endpoint in
  response <- post url ;;
  let success := r <- readResponse response ;; ret (Return r) in
  if negb (ok response) then
    let errorText := text E response in
    if (status E response =? 401)%Z then
      clearCaches account ;;;
      ret Next
    else if (status E response =? 429)%Z then
      on429 url response errorText
    else if (400 <=? status E response)%Z then
      setLastError (Some (newError ("API error " ++ showZ (status E response) ++ ": " ++ errorText))) ;;;
      (if (500 <=? status E response)%Z then sleepMs 1000 else ret tt) ;;;
      ret Next
    else success
  else success.

(** The [catch (endpointError)] block of the endpoint loop. *)
Definition onEndpointError (endpointError : JsError) : M (Completion (AnthropicResponse E)) :=
  if isRateLimitError E endpointError then throw endpointError
  else setLastError (Some endpointError) ;;; ret Next.

(** [for (const endpoint of ANTIGRAVITY_ENDPOINT_FALLBACKS)] *)
Fixpoint endpointLoop (endpoints : list string) : M (Completion (AnthropicResponse E)) :=
  match endpoints with
  | [] => ret Next
  | endpoint :: rest =>
      c <- tryCatch (tryEndpoint endpoint) onEndpointError ;;
      match c with
      | Return r => ret (Return r)
      | Next => endpointLoop rest
      end
  end.

(** What follows the endpoint loop inside the outer [try]. *)
Definition afterEndpoints : M (Completion (AnthropicResponse E)) :=
  lastError <- getLastError ;;
  match lastError with
  | Some e =>
      if is429 e then
        markLimited account (resetMs e) model ;;;
        throw (newError ("Rate limited: " ++ showOpt (errorText e)))
      else throw e
  | None => ret Next
  end.

End Attempt.

(** The outer [try] block of an attempt. *)
Definition tryAttempt (anthropicRequest : @AnthropicRequest E) (account : Account E)
    : M (Completion (AnthropicResponse E)) :=
  token <- await (getTokenForAccount E account) ;;
  project <- await (getProjectForAccount E account token) ;;
  uuid <- call (randomUUID E) ;;
  let payload := buildCloudCodeRequest anthropicRequest project uuid in
  setLastError None ;;;
  setRetriedOnce false ;;;
  c <- endpointLoop anthropicRequest account token payload ANTIGRAVITY_ENDPOINT_FALLBACKS ;;
  match c with
  | Return r => ret (Return r)
  | Next => afterEndpoints anthropicRequest account
  end.

(** The outer [catch (error)] block of an attempt. *)
Definition onAttemptError (model : string) (error : JsError)
    : M (Completion (AnthropicResponse E)) :=
  if isRateLimitError E error then ret Next
  else if isAuthError E error then ret Next
  else if is5xxMessage (message error) then
    pickNextAccount model ;;; ret Next
  else if isNetworkError E error then
    sleepMs 1000 ;;;
    pickNextAccount model ;;; ret Next
  else throw error.

(** [getFallbackModel(model)] when it is truthy. *)
Definition fallbackModelFor (model : string) : option string :=
  match getFallbackModel E model with
  | Some m => if truthy m then Some m else None
  | None => None
  end.

Section Dispatch.
(** The function itself, for its two recursive calls. *)
Variable self : @AnthropicRequest E -> bool -> M (AnthropicResponse E).
Variable anthropicRequest : @AnthropicRequest E.
Variable fallbackEnabled : bool.

Let model := model anthropicRequest.

(** What follows the attempt loop. *)
Definition afterAttempts : M (AnthropicResponse E) :=
  match (if fallbackEnabled then fallbackModelFor model else None) with
  | Some fallbackModel => self (withModel anthropicRequest fallbackModel) false
  | None => throw (newError "Max retries exceeded")
  end.

(** The branch [availableAccounts.length === 0], up to its [continue]. *)
Definition onNoAccounts : M (Completion (AnthropicResponse E)) :=
  allLimited <- read (isAllRateLimited E model) ;;
  if allLimited then
    minWaitMs <- read (getMinWaitTimeMs E model) ;;
    now <- read (dateNow E) ;;
    resetTime <- isoString (now + minWaitMs) ;;
    if (minWaitMs >? MAX_WAIT_BEFORE_ERROR_MS)%Z then
      match (if fallbackEnabled then fallbackModelFor model else None) with
      | Some fallbackModel =>
          r <- self (withModel anthropicRequest fallbackModel) false ;;
          ret (Return r)
      | None =>
          throw (newError ("RESOURCE_EXHAUSTED: Rate limited on " ++ model
                             ++ ". Quota will reset after " ++ formatDuration E minWaitMs
                             ++ ". Next available: " ++ resetTime))
      end
    else
      sleepMs (minWaitMs + 500) ;;;
      update (clearExpiredLimits E) ;;;
      ret Next
  else throw (newError "No accounts available").

(** The body of the attempt loop. *)
Definition attempt (attemptNo : nat) : M (Completion (AnthropicResponse E)) :=
  emit (AAttempt attemptNo) ;;;
  update (clearExpiredLimits E) ;;;
  availableAccounts <- read (getAvailableAccounts E model) ;;
  match availableAccounts with
  | [] => onNoAccounts
  | _ :: _ =>
      sticky <- call (getCurrentStickyAccount E model) ;;
      account <- match sticky with
                 | Some a => ret (Some a)
                 | None => pickNextAccount model
                 end ;;
      match account with
      | None => ret Next
      | Some account =>
          tryCatch (tryAttempt anthropicRequest account) (onAttemptError model)
      end
  end.

(** [for (let attempt = 0; attempt < maxAttempts; attempt++)], by the number
    of iterations that remain, and what follows the loop. *)
Fixpoint attemptLoop (remaining attemptNo : nat) : M (AnthropicResponse E) :=
  match remaining with
  | O => afterAttempts
  | S remaining' =>
      c <- attempt attemptNo ;;
      match c with
      | Return r => ret r
      | Next => attemptLoop remaining' (S attemptNo)
      end
  end.

(** [Math.max(MAX_RETRIES, accountManager.getAccountCount() + 1)] *)
Definition maxAttempts (w : World E) : nat :=
  Z.to_nat (Z.max MAX_RETRIES (getAccountCount E w + 1)).

(** The body of [sendMessage]. *)
Definition sendMessageBody : M (AnthropicResponse E) :=
  emit (AEnter model fallbackEnabled) ;;;
  n <- read maxAttempts ;;
  attemptLoop n 0.

End Dispatch.

(** [sendMessage], unfolded [depth] times; [base] stands for the calls that
    are nested deeper. *)
Fixpoint sendMessageAt (depth : nat)
    (base : @AnthropicRequest E -> bool -> M (AnthropicResponse E))
    : @AnthropicRequest E -> bool -> M (AnthropicResponse E) :=
  match depth with
  | O => base
  | S d => sendMessageBody (sendMessageAt d base)
  end.

(** [sendMessage(anthropicRequest, accountManager, fallbackEnabled)]. *)
Definition sendMessage : @AnthropicRequest E -> bool -> M (AnthropicResponse E) :=
  sendMessageAt 2 (fun _ _ => throw (newError "Maximum call stack size exceeded")).

End Handler.
End MessageHandler.

(* ===================================================================== *)
(** ** [src/kiro/event-stream.js] *)
(* ===================================================================== *)

Module Kiro.
Import JS Anthropic.

(** The payloads handed to the event-stream encoder
    ([createAssistantResponseEvent], [createToolUseEvent], ...), before their
    binary framing.  The two closing events carry the token counts from which
    the source computes its floating-point figures. *)
Inductive Frame :=
| assistantResponseEvent (content : string)
| toolUseEvent (name toolUseId : option string) (input : option string) (stop : bool)
| meteringEvent (totalTokens : Z)
| contextUsageEvent (inputTokens : Z).

(** What the transformer does to the response: [res.write], the pacing delay
    between chunks, [res.end]. *)
Inductive Output :=
| WriteFrame (frame : Frame)
| Delay (ms : Z)
| EndResponse.

Record State := {
  fullContent : string;
  inputTokens : Z;
  outputTokens : Z;
  hasEmittedContent : bool;
  currentToolId : option string;
  currentToolName : option string
}.

Definition initialState : State :=
  {| fullContent := ""; inputTokens := 0; outputTokens := 0;
     hasEmittedContent := false; currentToolId := None; currentToolName := None |}.

Definition chunkSize : nat := 8.

(** [for (let i = 0; i < partialJson.length; i += chunkSize)]: each turn
    writes the slice [partialJson.slice(i, i + chunkSize)] and, for inputs
    longer than 10, waits 8 ms. *)
Equations? chunkLoop (name toolUseId : option string) (partialJson : string) (i : nat)
    : list Output by wf (String.length partialJson - i) lt :=
  chunkLoop name toolUseId partialJson i with lt_dec i (String.length partialJson) => {
    | left _ =>
        let chunk := substring i chunkSize partialJson in
        List.app
          (WriteFrame (toolUseEvent name toolUseId (Some chunk) false)
           :: (if (10 <? String.length partialJson)%nat then [Delay 8] else []))
          (chunkLoop name toolUseId partialJson (i + chunkSize));
    | right _ => []
  }.
Proof. unfold chunkSize. lia. Qed.

(** The body of [for await (const event of sendMessageStream(...))]: the
    outputs and the new state, or the error thrown on an [error] event. *)
Definition onEvent (st : State) (event : Anthropic.event) : Outcome (list Output * State) :=
  match event with
  | message_start _ _ input_tokens _ =>
      Ok ([], {| fullContent := fullContent st;
                 inputTokens := numOr input_tokens 0;
                 outputTokens := outputTokens st;
                 hasEmittedContent := hasEmittedContent st;
                 currentToolId := currentToolId st;
                 currentToolName := currentToolName st |})
  | content_block_start _ (tool_use_block id name) =>
      Ok ([WriteFrame (toolUseEvent name id None false)],
          {| fullContent := fullContent st;
             inputTokens := inputTokens st;
             outputTokens := outputTokens st;
             hasEmittedContent := true;
             currentToolId := id;
             currentToolName := name |})
  | content_block_start _ _ => Ok ([], st)
  | content_block_delta _ (text_delta t) =>
      let text := orEmpty t in
      if truthy text then
        Ok ([WriteFrame (assistantResponseEvent text)],
            {| fullContent := fullContent st ++ text;
               inputTokens := inputTokens st;
               outputTokens := outputTokens st;
               hasEmittedContent := true;
               currentToolId := currentToolId st;
               currentToolName := currentToolName st |})
      else Ok ([], st)
  | content_block_delta _ (input_json_delta pj) =>
      let partialJson := orEmpty pj in
      if truthy partialJson && truthyOpt (currentToolId st) && truthyOpt (currentToolName st) then
        Ok (chunkLoop (currentToolName st) (currentToolId st) partialJson 0,
            {| fullContent := fullContent st;
               inputTokens := inputTokens st;
               outputTokens := outputTokens st;
               hasEmittedContent := true;
               currentToolId := currentToolId st;
               currentToolName := currentToolName st |})
      else Ok ([], st)
  | content_block_delta _ _ => Ok ([], st)
  | content_block_stop _ =>
      if truthyOpt (currentToolId st) && truthyOpt (currentToolName st) then
        Ok ([WriteFrame (toolUseEvent (currentToolName st) (currentToolId st) None true)],
            {| fullContent := fullContent st;
               inputTokens := inputTokens st;
               outputTokens := outputTokens st;
               hasEmittedContent := hasEmittedContent st;
               currentToolId := None;
               currentToolName := None |})
      else Ok ([], st)
  | message_delta _ output_tokens =>
      Ok ([], {| fullContent := fullContent st;
                 inputTokens := inputTokens st;
                 outputTokens := numOr output_tokens (outputTokens st);
                 hasEmittedContent := hasEmittedContent st;
                 currentToolId := currentToolId st;
                 currentToolName := currentToolName st |})
  | message_stop => Ok ([], st)
  | error msg =>
      Throw (newError (if truthyOpt msg then orEmpty msg else "Unknown streaming error"))
  end.

(** The loop over the events that the generator yields; the state is
    returned in both cases, for the [catch] block reads it. *)
Fixpoint consume (st : State) (events : list Anthropic.event)
    : list Output * State * option JsError :=
  match events with
  | [] => ([], st, None)
  | event :: rest =>
      match onEvent st event with
      | Ok (out, st') =>
          let '(outs, st'', err) := consume st' rest in
          (List.app out outs, st'', err)
      | Throw e => ([], st, Some e)
      end
  end.

(** [streamAnthropicToKiro]: [events] is what [sendMessageStream] yields and
    [ended] the error it ends with, if any.  The result is what is done to
    the response and the error rethrown to the caller, if any. *)
Definition streamAnthropicToKiro (events : list Anthropic.event) (ended : option JsError)
    : list Output * option JsError :=
  let '(outs, st, err) := consume initialState events in
  match (match err with Some e => Some e | None => ended end) with
  | Some e =>
      if hasEmittedContent st then (List.app outs [EndResponse], None) else (outs, Some e)
  | None =>
      let fallback :=
        if hasEmittedContent st then [] else [WriteFrame (assistantResponseEvent "...")] in
      (List.app outs
         (List.app fallback
            [ WriteFrame (meteringEvent (inputTokens st + outputTokens st));
              WriteFrame (contextUsageEvent (inputTokens st));
              EndResponse ]),
       None)
  end.

End Kiro.

(* ===================================================================== *)
(** ** A concrete environment *)
(* ===================================================================== *)

(** An executable instance of [Env], on which the handlers run by
    computation: a scripted upstream, and the account pool and caches that
    the spec describes. *)
Module Scenario.
Import JS Constants Anthropic.

(** An upstream response: its status and body text, the reset time that the
    rate-limit parser reads from it, and what the SSE adapter makes of its
    body (the events it yields and the error it ends with, if any). *)
Record response := {
  r_status : Z;
  r_text : string;
  r_resetMs : option Z;
  r_events : list Anthropic.event;
  r_error : option JsError
}.

Record sim := {
  accounts : list string;
  limits : list (string * string * Z);
  sticky : list (string * string);
  cursor : nat;
  now : Z;
  tokenCache : list (string * string);
  projectCache : list (string * string);
  tokensIssued : Z;
  upstream : list (JsError + response)
}.

Fixpoint lookup (k : string) (l : list (string * string)) : option string :=
  match l with
  | [] => None
  | (k', v) :: r => if String.eqb k k' then Some v else lookup k r
  end.

Definition remove (k : string) (l : list (string * string)) : list (string * string) :=
  filter (fun kv => negb (String.eqb k (fst kv))) l.

(** Modelled from the spec: the account pool (account-manager/index.js is
    not among the sources).  Section 3: a rate-limit state is free or
    limited-until(T); a limited entry is cleared when its instant is past. *)
Definition limitedUntil (w : sim) (email model : string) : option Z :=
  match filter (fun l => String.eqb (fst (fst l)) email && String.eqb (snd (fst l)) model
                         && (now w <? snd l)%Z) (limits w) with
  | [] => None
  | l :: r => Some (fold_left Z.max (map snd r) (snd l))
  end.

Definition isFree (w : sim) (model email : string) : bool :=
  match limitedUntil w email model with Some _ => false | None => true end.

(** Modelled from the spec: [availableFor(model)], the accounts whose state
    for the model is free. *)
Definition availableFor (model : string) (w : sim) : list string :=
  filter (isFree w model) (accounts w).

(** Modelled from the spec: [allLimited(model)]. *)
Definition allLimited (model : string) (w : sim) : bool :=
  match accounts w with
  | [] => false
  | _ => forallb (fun e => negb (isFree w model e)) (accounts w)
  end.

(** Modelled from the spec: [minWaitMs(model)], the minimum remaining wait
    across the pool. *)
Definition minWaitMs (model : string) (w : sim) : Z :=
  let waits := flat_map (fun e => match limitedUntil w e model with
                                  | Some t => [(t - now w)%Z]
                                  | None => []
                                  end) (accounts w) in
  match waits with
  | [] => 0
  | x :: r => fold_left Z.min r x
  end.

(** Modelled from the spec: [clearExpired()], the sweep of the states whose
    reset instant is past. *)
Definition clearExpired (w : sim) : sim :=
  {| accounts := accounts w;
     limits := filter (fun l => (now w <? snd l)%Z) (limits w);
     sticky := sticky w; cursor := cursor w; now := now w;
     tokenCache := tokenCache w; projectCache := projectCache w;
     tokensIssued := tokensIssued w; upstream := upstream w |}.

(** Modelled from the spec: [sticky(model)], the current sticky account if
    it is still free, else null. *)
Definition stickyFor (model : string) (w : sim) : option string * sim :=
  (match lookup model (sticky w) with
   | Some e => if isFree w model e then Some e else None
   | None => None
   end, w).

(** The first free account at or after position [i], going round. *)
Fixpoint nextFree (w : sim) (model : string) (n i : nat) : option (nat * string) :=
  match n with
  | O => None
  | S n' =>
      let j := (i mod List.length (accounts w))%nat in
      match nth_error (accounts w) j with
      | Some e => if isFree w model e then Some (j, e) else nextFree w model n' (S j)
      | None => None
      end
  end.

(** Modelled from the spec: [pickNext(model)] advances the round-robin
    index, returns the next free account and makes it the sticky one. *)
Definition pickNextFree (model : string) (w : sim) : option string * sim :=
  match nextFree w model (List.length (accounts w)) (S (cursor w)) with
  | Some (j, e) =>
      (Some e,
       {| accounts := accounts w; limits := limits w;
          sticky := (model, e) :: remove model (sticky w);
          cursor := j; now := now w;
          tokenCache := tokenCache w; projectCache := projectCache w;
          tokensIssued := tokensIssued w; upstream := upstream w |})
  | None => (None, w)
  end.

(** Modelled from the spec: [markLimited(email, resetMs, model)] sets
    limited-until(now + resetMs) and clears the sticky account if it is the
    one marked; a missing [resetMs] counts as the default cooldown. *)
Definition markLimitedUntil (email : string) (resetMs : option Z) (model : string) (w : sim) : sim :=
  {| accounts := accounts w;
     limits := (email, model, (now w + numOr resetMs DEFAULT_COOLDOWN_MS)%Z) :: limits w;
     sticky := match lookup model (sticky w) with
               | Some e => if String.eqb e email then remove model (sticky w) else sticky w
               | None => sticky w
               end;
     cursor := cursor w; now := now w;
     tokenCache := tokenCache w; projectCache := projectCache w;
     tokensIssued := tokensIssued w; upstream := upstream w |}.

(** Modelled from the spec: [tokenFor(account)] returns the cached access
    token, and otherwise refreshes it and stores the new one (section 4.3). *)
Definition tokenFor (email : string) (w : sim) : (JsError + string) * sim :=
  match lookup email (tokenCache w) with
  | Some t => (inr t, w)
  | None =>
      let t := "token-" ++ showZ (tokensIssued w + 1) in
      (inr t,
       {| accounts := accounts w; limits := limits w; sticky := sticky w;
          cursor := cursor w; now := now w;
          tokenCache := (email, t) :: tokenCache w; projectCache := projectCache w;
          tokensIssued := (tokensIssued w + 1)%Z; upstream := upstream w |})
  end.

(** Modelled from the spec: [projectFor(account, token)] returns the cached
    project id, and otherwise discovers and caches it. *)
Definition projectFor (email token : string) (w : sim) : (JsError + string) * sim :=
  match lookup email (projectCache w) with
  | Some p => (inr p, w)
  | None =>
      (inr "project-1",
       {| accounts := accounts w; limits := limits w; sticky := sticky w;
          cursor := cursor w; now := now w;
          tokenCache := tokenCache w; projectCache := (email, "project-1") :: projectCache w;
          tokensIssued := tokensIssued w; upstream := upstream w |})
  end.

Definition invalidateToken (email : string) (w : sim) : sim :=
  {| accounts := accounts w; limits := limits w; sticky := sticky w;
     cursor := cursor w; now := now w;
     tokenCache := remove email (tokenCache w); projectCache := projectCache w;
     tokensIssued := tokensIssued w; upstream := upstream w |}.

Definition invalidateProject (email : string) (w : sim) : sim :=
  {| accounts := accounts w; limits := limits w; sticky := sticky w;
     cursor := cursor w; now := now w;
     tokenCache := tokenCache w; projectCache := remove email (projectCache w);
     tokensIssued := tokensIssued w; upstream := upstream w |}.

(** The upstream answers in the order of its script; past its end the
    connection fails. *)
Definition scriptedFetch (w : sim) : (JsError + response) * sim :=
  match upstream w with
  | [] => (inl (newError "fetch failed"), w)
  | a :: rest =>
      (a,
       {| accounts := accounts w; limits := limits w; sticky := sticky w;
          cursor := cursor w; now := now w;
          tokenCache := tokenCache w; projectCache := projectCache w;
          tokensIssued := tokensIssued w; upstream := rest |})
  end.

Definition advance (ms : Z) (w : sim) : sim :=
  {| accounts := accounts w; limits := limits w; sticky := sticky w;
     cursor := cursor w; now := (now w + Z.max 0 ms)%Z;
     tokenCache := tokenCache w; projectCache := projectCache w;
     tokensIssued := tokensIssued w; upstream := upstream w |}.

(** Modelled from the spec: the error kinds of section 7 (errors.js and
    utils/helpers.js are not among the sources).  A rate-limit error is one
    whose message names a 429, an exhausted quota or a rate limit; an
    authentication error one that names invalid credentials; the empty
    response is told by its name; a network error by the failed transport. *)
Definition rateLimitError (e : JsError) : bool :=
  let m := toLowerCase (message e) in
  includes m "429" || includes m "resource_exhausted" || includes m "quota_exhausted"
  || includes m "rate_limited" || includes m "rate limited".

Definition authError (e : JsError) : bool :=
  let m := toLowerCase (message e) in
  includes m "auth_invalid" || includes m "invalid_grant".

Definition emptyResponseError (e : JsError) : bool :=
  String.eqb (name e) "EmptyResponseError".

Definition networkError (e : JsError) : bool :=
  let m := toLowerCase (message e) in
  includes m "fetch failed" || includes m "network error" || includes m "econnreset"
  || includes m "etimedout" || includes m "socket hang up".

(** Modelled from the spec: the static mapping from a model to its fallback
    model (fallback-config.js is not among the sources), read from
    [MODEL_FALLBACK_MAP]. *)
Definition fallbackOf (model : string) : option string :=
  lookup model MODEL_FALLBACK_MAP.

(** The one-shot readers: the text of the body, or the error the body ends
    with. *)
Definition readBody (r : response) (model : string) (w : sim) : (JsError + string) * sim :=
  (match r_error r with Some e => inl e | None => inr (r_text r) end, w).

(** The request body is the caller's system text, if any; the converter
    turns it into one part of a system instruction. *)
Definition convert (a : AnthropicRequestOf (option string)) : GoogleRequestOf unit :=
  {| systemInstruction :=
       match body a with
       | Some t => Some {| si_role := None; si_parts := Some [ {| part_text := Some t |} ] |}
       | None => None
       end;
     sessionId := None;
     googleBody := tt |}.

(** The environment, by its stream adapter. *)
Definition envWith
    (adapter : response -> string -> sim -> (list Anthropic.event * option JsError) * sim)
    : Env := {|
  World := sim;
  Account := string;
  Response := response;
  RequestBody := option string;
  GoogleBody := unit;
  AnthropicResponse := string;
  email := fun a => a;
  status := r_status;
  text := r_text;
  getAccountCount := fun w => Z.of_nat (List.length (accounts w));
  clearExpiredLimits := clearExpired;
  getAvailableAccounts := availableFor;
  isAllRateLimited := allLimited;
  getMinWaitTimeMs := minWaitMs;
  getCurrentStickyAccount := stickyFor;
  pickNext := pickNextFree;
  markRateLimited := markLimitedUntil;
  clearTokenCache := invalidateToken;
  clearProjectCache := invalidateProject;
  getTokenForAccount := tokenFor;
  getProjectForAccount := projectFor;
  fetch := fun _ _ _ => scriptedFetch;
  sleep := advance;
  dateNow := now;
  toISOString := fun t => "T+" ++ showZ t;
  randomUUID := fun w => ("00000000-0000-4000-8000-000000000000", w);
  randomBytesHex := fun _ w => ("000102030405060708090a0b0c0d0e0f", w);
  platform := "linux";
  arch := "x64";
  isRateLimitError := rateLimitError;
  isAuthError := authError;
  isEmptyResponseError := emptyResponseError;
  isNetworkError := networkError;
  formatDuration := fun ms => showZ ms ++ "ms";
  parseResetTime := fun r _ => r_resetMs r;
  getFallbackModel := fallbackOf;
  convertAnthropicToGoogle := convert;
  deriveSessionId := fun _ => "session";
  responseJsonToAnthropic := readBody;
  parseThinkingSSEResponse := readBody;
  streamSSEResponse := adapter
|}.

(** The adapter yields the events of the body, then raises the error the
    body ends with, if any. *)
#[export] Instance env : Env :=
  envWith (fun r _ w => ((r_events r, r_error r), w)).

(** The same with an adapter that has yielded nothing when it raises. *)
Definition strictEnv : Env :=
  envWith (fun r _ w =>
             match r_error r with
             | Some e => (([], Some e), w)
             | None => ((r_events r, None), w)
             end).

(** A pool of the given accounts, all free, with empty caches. *)
Definition freshWorld (emails : list string) (script : list (JsError + response)) : sim :=
  {| accounts := emails; limits := []; sticky := []; cursor := 0; now := 0;
     tokenCache := []; projectCache := []; tokensIssued := 0; upstream := script |}.

Definition start {E : Env} (w : World E) : @St E :=
  {| world := w; lastError := None; retriedOnce := false |}.

(** The state of an attempt that has used its retry. *)
Definition retried {E : Env} (w : World E) : @St E :=
  {| world := w; lastError := None; retriedOnce := true |}.

(** Upstream answers. *)
Definition http (status : Z) (body : string) (reset : option Z) : JsError + response :=
  inr {| r_status := status; r_text := body; r_resetMs := reset; r_events := []; r_error := None |}.

Definition emptyError : JsError :=
  {| name := "EmptyResponseError"; message := "No content parts received from API";
     is429 := false; resetMs := None; errorText := None |}.

(** A 200 whose stream has no content: the adapter raises the empty
    response. *)
Definition okEmpty : JsError + response :=
  inr {| r_status := 200; r_text := ""; r_resetMs := None; r_events := []; r_error := Some emptyError |}.

(** A 200 whose stream the adapter turns into [events]. *)
Definition okStream (events : list Anthropic.event) : JsError + response :=
  inr {| r_status := 200; r_text := ""; r_resetMs := None; r_events := events; r_error := None |}.

(** A 200 whose stream breaks after [events]: the read of the body rejects. *)
Definition okBroken (events : list Anthropic.event) : JsError + response :=
  inr {| r_status := 200; r_text := ""; r_resetMs := None; r_events := events;
         r_error := Some (newError "terminated") |}.

Definition hello : list Anthropic.event :=
  [ message_start "msg_1" "claude-sonnet-4-5" (Some 3%Z) (Some 0%Z);
    content_block_start 0 (text_block "");
    content_block_delta 0 (text_delta (Some "hello"));
    content_block_stop 0;
    message_delta (Some "end_turn") (Some 1%Z);
    message_stop ].

Definition request (model : string) : AnthropicRequestOf (option string) :=
  {| model := model; body := None |}.

(** *** Upstream scripts *)

Definition sonnet : AnthropicRequestOf (option string) := request "claude-sonnet-4-5".

Definition unavailable : JsError + response := http 503 "unavailable" None.

(** One account; the upstream answers with an empty stream, then twice with
    a 503, and so on. *)
Definition emptyThenUnavailable : sim :=
  freshWorld ["a@x"] (List.concat (repeat [okEmpty; unavailable; unavailable] 10)).

(** One account; the stream of the first endpoint breaks after three
    events, the second endpoint answers in full. *)
Definition brokenStream : sim :=
  freshWorld ["a@x"] [okBroken (firstn 3 hello); okStream hello].

(** One account; an empty stream, then a 429 that resets in 3 s on the
    refetch. *)
Definition limitedOnRefetch : sim :=
  freshWorld ["a@x"] [okEmpty; http 429 "slow down" (Some 3000%Z); okStream hello].

(** One account; empty streams, with a 503 on each refetch. *)
Definition emptyBetweenErrors : sim :=
  freshWorld ["a@x"] [okEmpty; unavailable; okEmpty; unavailable; okEmpty].

(** One account; three empty streams. *)
Definition alwaysEmpty : sim :=
  freshWorld ["a@x"] [okEmpty; okEmpty; okEmpty].

(** One account; the stream of the first endpoint breaks after three
    events, the second endpoint answers with three empty streams. *)
Definition brokenThenEmpty : sim :=
  freshWorld ["a@x"] [okBroken (firstn 3 hello); okEmpty; okEmpty; okEmpty].

(** One account; a 401 on the first endpoint. *)
Definition unauthorized : sim :=
  freshWorld ["a@x"] [http 401 "unauthorized" None; okStream hello].

(** One account, limited for 45 s, that the upstream limits for 45 s again
    each time it is used. *)
Definition limitedPool : sim :=
  {| accounts := ["a@x"]; limits := [("a@x", "claude-sonnet-4-5", 45000%Z)]; sticky := [];
     cursor := 0; now := 0; tokenCache := []; projectCache := []; tokensIssued := 0;
     upstream := [http 429 "slow down" (Some 45000%Z); http 429 "slow down" (Some 45000%Z);
                  okStream hello] |}.

(** One account, limited until an instant that no [Date] holds. *)
Definition limitedBeyondDate : sim :=
  {| accounts := ["a@x"]; limits := [("a@x", "claude-sonnet-4-5", 9000000000000000%Z)];
     sticky := []; cursor := 0; now := 0; tokenCache := []; projectCache := [];
     tokensIssued := 0; upstream := [okStream hello] |}.

(** One account; a 429 that resets in 45 s. *)
Definition longLimit : sim :=
  freshWorld ["a@x"] [http 429 "quota" (Some 45000%Z); okStream hello].

(** One account; a 429 that resets in 3 s, then the stream. *)
Definition shortLimit : sim :=
  freshWorld ["a@x"] [http 429 "slow down" (Some 3000%Z); okStream hello].

End Scenario.

(* ===================================================================== *)
(** ** Thinking models, in the words of the specification *)
(* ===================================================================== *)

(** The reading of [isThinkingModel] that the specification gives, stated
    without the string functions of the source: lower case, digits, numerals
    and occurrences are defined here on their own. *)
Module ThinkingSpec.

(** The letters [A] to [Z] in lower case; every other character is kept. *)
Definition lowerLetter (c : ascii) : ascii :=
  match c with
  | "A"%char => "a"%char
  | "B"%char => "b"%char
  | "C"%char => "c"%char
  | "D"%char => "d"%char
  | "E"%char => "e"%char
  | "F"%char => "f"%char
  | "G"%char => "g"%char
  | "H"%char => "h"%char
  | "I"%char => "i"%char
  | "J"%char => "j"%char
  | "K"%char => "k"%char
  | "L"%char => "l"%char
  | "M"%char => "m"%char
  | "N"%char => "n"%char
  | "O"%char => "o"%char
  | "P"%char => "p"%char
  | "Q"%char => "q"%char
  | "R"%char => "r"%char
  | "S"%char => "s"%char
  | "T"%char => "t"%char
  | "U"%char => "u"%char
  | "V"%char => "v"%char
  | "W"%char => "w"%char
  | "X"%char => "x"%char
  | "Y"%char => "y"%char
  | "Z"%char => "z"%char
  | _ => c
  end.

(** The name in lower case. *)
Fixpoint lowerCase (s : string) : string :=
  match s with
  | EmptyString => EmptyString
  | String c r => String (lowerLetter c) (lowerCase r)
  end.

(** [sub] occurs in [s]. *)
Definition Contains (s sub : string) : Prop :=
  exists pre post, s = pre ++ sub ++ post.

(** The number that a decimal digit denotes. *)
Definition digitNumber (c : ascii) : option Z :=
  match c with
  | "0"%char => Some 0%Z
  | "1"%char => Some 1%Z
  | "2"%char => Some 2%Z
  | "3"%char => Some 3%Z
  | "4"%char => Some 4%Z
  | "5"%char => Some 5%Z
  | "6"%char => Some 6%Z
  | "7"%char => Some 7%Z
  | "8"%char => Some 8%Z
  | "9"%char => Some 9%Z
  | _ => None
  end.

Definition Digit (c : ascii) : Prop := exists d, digitNumber c = Some d.

Fixpoint AllDigits (ds : string) : Prop :=
  match ds with
  | EmptyString => True
  | String c r => Digit c /\ AllDigits r
  end.

Definition StartsWithDigit (s : string) : Prop :=
  match s with
  | EmptyString => False
  | String c _ => Digit c
  end.

(** [s] begins with [gemini-N]: the numeral [ds] is the whole run of digits
    after the dash. *)
Definition VersionHere (s ds : string) : Prop :=
  ds <> "" /\ AllDigits ds /\
  exists rest, s = "gemini-" ++ ds ++ rest /\ ~ StartsWithDigit rest.

(** [ds] is the numeral of the leftmost [gemini-N] in [s], the one that
    [String.prototype.match] reports. *)
Inductive LeftmostVersion : string -> string -> Prop :=
| version_here s ds :
    VersionHere s ds -> LeftmostVersion s ds
| version_later c s ds :
    (forall ds', ~ VersionHere (String c s) ds') ->
    LeftmostVersion s ds -> LeftmostVersion (String c s) ds.

(** The integer that a decimal numeral denotes. *)
Fixpoint decimalValue (ds : string) : Z :=
  match ds with
  | EmptyString => 0
  | String c r =>
      match digitNumber c with Some d => d | None => 0 end
        * 10 ^ Z.of_nat (String.length r) + decimalValue r
  end.

(** The lower-cased name is that of a thinking model, with the version read
    from the leftmost [gemini-N]. *)
Definition ThinkingName (lower : string) : Prop :=
  (Contains lower "claude" /\ Contains lower "thinking") \/
  (Contains lower "gemini" /\
   (Contains lower "thinking" \/
    exists ds, LeftmostVersion lower ds /\ (3 <= decimalValue ds)%Z)).

(** The same with the version read from any [gemini-N] that occurs in the
    name: the condition in the wording "matches gemini-N for an integer
    N >= 3". *)
Definition ThinkingNameAnyVersion (lower : string) : Prop :=
  (Contains lower "claude" /\ Contains lower "thinking") \/
  (Contains lower "gemini" /\
   (Contains lower "thinking" \/
    exists ds, ds <> "" /\ AllDigits ds /\ Contains lower ("gemini-" ++ ds)
               /\ (3 <= decimalValue ds)%Z)).

End ThinkingSpec.

(** The system text that the converted request carries, stated without the
    array functions of the source: the texts of the parts of its system
    instruction, those that are missing or empty left out, one per line. *)
Module BuilderSpec.
Import RequestBuilder.

Definition lineBreak : string := String "010"%char EmptyString.

(** The separation of the preamble from the caller's text. *)
Definition blankLine : string := lineBreak ++ lineBreak.

Fixpoint linesOf (parts : list Part) : string :=
  match parts with
  | [] => ""
  | p :: rest =>
      match part_text p with
      | Some (String c text) =>
          match linesOf rest with
          | EmptyString => String c text
          | more => String c text ++ lineBreak ++ more
          end
      | _ => linesOf rest
      end
  end.

Definition callerSystemText {E : Env} (googleRequest : @GoogleRequest E) : string :=
  match systemInstruction googleRequest with
  | Some si =>
      match si_parts si with
      | Some parts => linesOf parts
      | None => ""
      end
  | None => ""
  end.

End BuilderSpec.

(** The frames written to the response, in order. *)
Module KiroSpec.
Import Kiro.

Fixpoint written (outs : list Output) : list Frame :=
  match outs with
  | [] => []
  | WriteFrame f :: r => f :: written r
  | _ :: r => written r
  end.

(** The input chunk of a [toolUseEvent] frame. *)
Definition inputOf (f : Frame) : option string :=
  match f with
  | toolUseEvent _ _ input _ => input
  | _ => None
  end.



End KiroSpec.

(* ===================================================================== *)
(** ** Readings of a trace *)
(* ===================================================================== *)

Module Trace.

Section Trace.
Context {E : Env}.

Definition isFetch (a : @Action E) : bool :=
  match a with AFetch _ _ _ => true | _ => false end.

Definition isYield (a : @Action E) : bool :=
  match a with AYield _ => true | _ => false end.

Definition isAttempt (a : @Action E) : bool :=
  match a with AAttempt _ => true | _ => false end.

Definition isEnter (a : @Action E) : bool :=
  match a with AEnter _ _ => true | _ => false end.

(** An action of an attempt: neither of the two ghost marks. *)
Definition plain (a : @Action E) : bool := negb (isAttempt a) && negb (isEnter a).

(** The number of upstream calls. *)
Definition fetches (tr : list (@Action E)) : nat := List.length (filter isFetch tr).

(** The number of iterations of attempt loops that were started. *)
Definition attempts (tr : list (@Action E)) : nat := List.length (filter isAttempt tr).

(** The events passed downstream, in order. *)
Fixpoint yielded (tr : list (@Action E)) : list Anthropic.event :=
  match tr with
  | [] => []
  | AYield ev :: r => ev :: yielded r
  | _ :: r => yielded r
  end.

(** The dispatches that were entered, in order: the model and the value of
    [fallbackEnabled] of each. *)
Fixpoint entered (tr : list (@Action E)) : list (string * bool) :=
  match tr with
  | [] => []
  | AEnter m f :: r => (m, f) :: entered r
  | _ :: r => entered r
  end.

(** The URLs called, in order, each with the [Authorization] header sent. *)
Fixpoint calls (tr : list (@Action E)) : list (string * option string) :=
  match tr with
  | [] => []
  | AFetch url headers _ :: r =>
      (url, option_map snd (find (fun h => String.eqb (fst h) "Authorization") headers)) :: calls r
  | _ :: r => calls r
  end.

(** The trace without the payloads and headers of its calls. *)
Inductive Step :=
| fetched (url : string)
| slept (ms : Z)
| yield (ev : Anthropic.event)
| marked (email : string) (resetMs : option Z) (model : string)
| clearedToken (email : string)
| clearedProject (email : string)
| pickedNext (model : string)
| entry (model : string) (fallbackEnabled : bool)
| attemptNo (n : nat).

Definition step (a : @Action E) : Step :=
  match a with
  | AFetch url _ _ => fetched url
  | ASleep ms => slept ms
  | AYield ev => yield ev
  | AMarkRateLimited e r m => marked e r m
  | AClearTokenCache e => clearedToken e
  | AClearProjectCache e => clearedProject e
  | APickNext m => pickedNext m
  | AEnter m f => entry m f
  | AAttempt n => attemptNo n
  end.

Definition steps (tr : list (@Action E)) : list Step := map step tr.

(** No upstream call follows a yielded event: the trace is a part without
    yields followed by a part without calls. *)
Definition NoFetchAfterYield (tr : list (@Action E)) : Prop :=
  exists pre post, tr = (pre ++ post)%list /\ yielded pre = [] /\ fetches post = 0%nat.

(** The test of the same: [seen] tells whether an event was yielded
    before the trace. *)
Fixpoint fetchAfterYield (seen : bool) (tr : list (@Action E)) : bool :=
  match tr with
  | [] => false
  | AYield _ :: r => fetchAfterYield true r
  | AFetch _ _ _ :: r => seen || fetchAfterYield seen r
  | _ :: r => fetchAfterYield seen r
  end.

(** The waits, in order. *)
Fixpoint sleeps (tr : list (@Action E)) : list Z :=
  match tr with
  | [] => []
  | ASleep ms :: r => ms :: sleeps r
  | _ :: r => sleeps r
  end.

End Trace.
End Trace.

(* ===================================================================== *)
(** ** Measures of runs *)
(* ===================================================================== *)

Module Measure.
Import Trace.

Section Measure.
Context {E : Env}.

(** A potential of the state, by which a run may exceed its bound when it
    raises the potential.  It does not depend on the world or on
    [lastError]. *)
Record Potential := {
  phi : @St E -> nat;
  phi_world : forall s w, phi (setWorld s w) = phi s;
  phi_lastError : forall s e,
    phi {| world := world s; lastError := e; retriedOnce := retriedOnce s |} = phi s
}.

Definition noPotential : Potential :=
  {| phi := fun _ => 0;
     phi_world := fun _ _ => eq_refl;
     phi_lastError := fun _ _ => eq_refl |}.

(** One unit once the retry of the attempt is used: [retriedOnce] is set. *)
Definition retryPotential : Potential :=
  {| phi := fun s => if retriedOnce s then 1 else 0;
     phi_world := fun _ _ => eq_refl;
     phi_lastError := fun _ _ => eq_refl |}.

(** The block [m] makes at most [n] upstream calls, and as many more as it
    raises the potential. *)
Definition Bound (P : Potential) {A} (n : nat) (m : M A) : Prop :=
  forall s, fetches (trace (m s)) + phi P s <= n + phi P (final (m s)).

(** Every action of the block [m] passes the test [p]. *)
Definition Only (p : @Action E -> bool) {A} (m : M A) : Prop :=
  forall s, forallb p (trace (m s)) = true.

Definition noYield (a : @Action E) : bool := negb (isYield a).
Definition noFetch (a : @Action E) : bool := negb (isFetch a).

(** A part of a trace that is the dispatch's own: at most [nA] attempts
    started and [nF] calls made, and no dispatch entered. *)
Definition Own (nA nF : nat) (tr : list (@Action E)) : Prop :=
  attempts tr <= nA /\ fetches tr <= nF /\ entered tr = [].

Section Dispatch.
(** The handler, for its recursive call, and its reading of the fallback
    table. *)
Variable T : Type.
Variable self : @AnthropicRequest E -> bool -> M T.
Variable fallbackModelFor : string -> option string.
Variable anthropicRequest : @AnthropicRequest E.
Variable fallbackEnabled : bool.

(** The trace of the one fallback dispatch: the handler called on the
    fallback model with its own fallback disabled. *)
Definition Hop (tr : list (@Action E)) : Prop :=
  exists fm s', fallbackEnabled = true
    /\ fallbackModelFor (model anthropicRequest) = Some fm
    /\ tr = trace (self (withModel anthropicRequest fm) false s').

(** A run of a part of an attempt: all its own, or its own part and then
    the fallback dispatch, after which the loop does not continue. *)
Definition Split {R} (nA nF : nat) (r : Run (Completion R)) : Prop :=
  Own nA nF (trace r) \/
  exists pre post, trace r = (pre ++ post)%list /\ Own nA 0 pre /\ Hop post
                   /\ outcome r <> Ok Next.

End Dispatch.

(** The adapter raises only before it has yielded anything. *)
Definition RaisesBeforeYield : Prop :=
  forall response model w evs e w',
    streamSSEResponse E response model w = ((evs, Some e), w') -> evs = [].

(** A run that made no call after its first yield and that, if it yielded
    anything, ended with a value that ends the handler ([fin]). *)
Definition Settled {A} (fin : A -> bool) (r : Run A) : Prop :=
  NoFetchAfterYield (trace r)
  /\ (yielded (trace r) = [] \/ exists a, outcome r = Ok a /\ fin a = true).

Definition returns {R} (c : Completion R) : bool :=
  match c with Return _ => true | Next => false end.

Definition ends (step : StreamingHandler.EmptyStep) : bool :=
  match step with StreamingHandler.Refetched _ => false | _ => true end.

Definition always {A} (_ : A) : bool := true.

(** The synthetic message of an empty response, by its model and the random
    part of its id. *)
Definition syntheticMessage (model hex : string) : list Anthropic.event :=
  [ Anthropic.message_start ("msg_" ++ hex) model (Some 0%Z) (Some 0%Z);
    Anthropic.content_block_start 0 (Anthropic.text_block "");
    Anthropic.content_block_delta 0
      (Anthropic.text_delta (Some "[No response after retries - please try again]"));
    Anthropic.content_block_stop 0;
    Anthropic.message_delta (Some "end_turn") (Some 0%Z);
    Anthropic.message_stop ].

(** Events of one source: all that the adapter yielded from one response,
    on which it completed, or the synthetic message. *)
Definition FromAdapter (evs : list Anthropic.event) : Prop :=
  exists response model w w', streamSSEResponse E response model w = ((evs, None), w').

Definition Synthetic (evs : list Anthropic.event) : Prop :=
  exists model hex, evs = syntheticMessage model hex.

(** A run that, if it yielded anything, yielded the events of one source
    and ended with a value that ends the handler ([fin]). *)
Definition Served {A} (fin : A -> bool) (r : Run A) : Prop :=
  yielded (trace r) = []
  \/ ((FromAdapter (yielded (trace r)) \/ Synthetic (yielded (trace r)))
      /\ exists a, outcome r = Ok a /\ fin a = true).

End Measure.
End Measure.

(* ===================================================================== *)
(** ** Readings of what the Kiro transformer does to the response *)
(* ===================================================================== *)

Module KiroReadings.
Import JS Anthropic Kiro KiroSpec.

(** The text of the [assistantResponseEvent] frames, in order. *)
Fixpoint contents (frames : list Frame) : string :=
  match frames with
  | [] => ""
  | assistantResponseEvent c :: r => c ++ contents r
  | _ :: r => contents r
  end.

(** The text of the text deltas of a stream, in order. *)
Fixpoint texts (events : list Anthropic.event) : string :=
  match events with
  | [] => ""
  | content_block_delta _ (text_delta t) :: r => orEmpty t ++ texts r
  | _ :: r => texts r
  end.

Definition isError (event : Anthropic.event) : bool :=
  match event with error _ => true | _ => false end.

Definition isEnd (out : Output) : bool :=
  match out with EndResponse => true | _ => false end.

(** A tool is open: both its id and its name are known. *)
Definition toolOpen (st : State) : bool :=
  truthyOpt (currentToolId st) && truthyOpt (currentToolName st).

(** While nothing was emitted no tool is open. *)
Definition Quiet (st : State) : Prop :=
  hasEmittedContent st = false -> toolOpen st = false.

End KiroReadings.

(* ===================================================================== *)
(** ** [src/kiro/transformer.js] *)
(* ===================================================================== *)

(** The Kiro request and the Anthropic request built from it.  A missing or
    [null] property is [None]; JSON values that the transformer only passes
    on are of the type [Json] of the section. *)
Module KiroTransformer.
Import JS.

(** The value of [getModelConfig()]: one of the presets of
    [src/kiro/config.js]. *)
Record ModelConfig := {
  vibe_primary : string;
  vibe_secondary : string;
  simple : string
}.

(** [MODEL_PRESETS.gemini] and [MODEL_PRESETS.claude] *)
Definition geminiPreset : ModelConfig :=
  {| vibe_primary := "gemini-3-pro-high";
     vibe_secondary := "gemini-3-flash";
     simple := "gemini-2.5-flash-lite" |}.

Definition claudePreset : ModelConfig :=
  {| vibe_primary := "claude-opus-4-5-thinking";
     vibe_secondary := "claude-sonnet-4-5-thinking";
     simple := "gemini-2.5-flash-lite" |}.

(** [x === 'lit'] for a possibly missing string. *)
Definition strictEq (x : option string) (lit : string) : bool :=
  match x with Some s => String.eqb s lit | None => false end.

(** [x?.includes(sub)], as a condition. *)
Definition optIncludes (x : option string) (sub : string) : bool :=
  match x with Some s => includes s sub | None => false end.

(** [mapModelId(kiroModelId, agentMode)] *)
Definition mapModelId (config : ModelConfig) (kiroModelId agentMode : option string) : string :=
  if strictEq kiroModelId "simple-task" || strictEq agentMode "intent-classification" then simple config
  else if truthyOpt kiroModelId && negb (strictEq kiroModelId "auto")
          && negb (strictEq kiroModelId "simple-task") then orEmpty kiroModelId
  else if strictEq agentMode "vibe" then
    if optIncludes kiroModelId "sonnet" || optIncludes kiroModelId "flash"
    then vibe_secondary config
    else vibe_primary config
  else vibe_secondary config.

Section Transformer.
Variable Json : Type.
(** Truthiness of a JSON value, its conversion to a string by
    [Array.prototype.join], and the two object literals of the source:
    [{}] and [{ type: 'object', properties: {} }]. *)
Variable jsonTruthy : Json -> bool.
Variable jsonToString : Json -> string.
Variable emptyObject : Json.
Variable objectSchema : Json.

(** The Kiro request. *)
Record InputSchema := { json : option Json }.

Record ToolSpecification := {
  spec_name : option string;
  spec_description : option string;
  inputSchema : option InputSchema
}.

Record KiroTool := { toolSpecification : option ToolSpecification }.

Record ToolResultContent := { trc_text : option string; trc_json : option Json }.

Record ToolResult := {
  tr_toolUseId : option string;
  tr_content : option (list ToolResultContent);
  tr_status : option string
}.

Record UserInputMessageContext := {
  toolResults : option (list ToolResult);
  tools : option (list KiroTool)
}.

Record UserInputMessage := {
  uim_content : option string;
  modelId : option string;
  userInputMessageContext : option UserInputMessageContext
}.

Record ToolUse := {
  tu_toolUseId : option string;
  tu_name : option string;
  tu_input : option Json
}.

Record AssistantResponseMessage := {
  arm_content : option string;
  toolUses : option (list ToolUse)
}.

(** An entry of the history, and the current message. *)
Record ChatMessage := {
  userInputMessage : option UserInputMessage;
  assistantResponseMessage : option AssistantResponseMessage
}.

Record ConversationState := {
  currentMessage : option ChatMessage;
  history : option (list ChatMessage);
  agentTaskType : option string;
  conversationId : option string
}.

Record KiroRequest := { conversationState : option ConversationState }.

(** The Anthropic request. *)
Inductive Block :=
| text_block (text : string)
| tool_use_block (id name : option string) (input : Json)
| tool_result_block (tool_use_id : option string) (content : string) (is_error : bool).

(** The content of a message: the content of a user message of the history
    as it is found, or a list of blocks. *)
Inductive Content :=
| plain (content : option string)
| blocks (content : list Block).

Record Message := { role : string; content : Content }.

Record Tool := {
  tool_name : string;
  tool_description : option string;
  input_schema : Json
}.

Record Request := {
  model : string;
  messages : list Message;
  max_tokens : Z;
  stream : bool;
  request_tools : option (list Tool)
}.

(** [x || d] for a possibly missing JSON value. *)
Definition jsonOr (x : option Json) (d : Json) : Json :=
  match x with Some j => if jsonTruthy j then j else d | None => d end.

(** [t.toolSpecification?.name] *)
Definition specName (t : KiroTool) : option string :=
  match toolSpecification t with Some s => spec_name s | None => None end.

(** [transformTools(kiroTools)] *)
Definition transformTools (kiroTools : option (list KiroTool)) : option (list Tool) :=
  match kiroTools with
  | None => None
  | Some [] => None
  | Some l =>
      Some (map (fun t =>
                   {| tool_name := orEmpty (specName t);
                      tool_description :=
                        match toolSpecification t with
                        | Some s => spec_description s
                        | None => None
                        end;
                      input_schema :=
                        jsonOr (match toolSpecification t with
                                | Some s => match inputSchema s with
                                            | Some i => json i
                                            | None => None
                                            end
                                | None => None
                                end) objectSchema |})
                (filter (fun t => truthyOpt (specName t)) l))
  end.

(** The blocks of an assistant message of the history. *)
Definition assistantBlocks (a : AssistantResponseMessage) : list Block :=
  List.app
    (if truthyOpt (arm_content a) then [text_block (orEmpty (arm_content a))] else [])
    (match toolUses a with
     | Some l =>
         map (fun toolUse =>
                tool_use_block (tu_toolUseId toolUse) (tu_name toolUse)
                  (jsonOr (tu_input toolUse) emptyObject)) l
     | None => []
     end).

(** The body of the loop over the history: the messages pushed for one
    entry. *)
Definition historyMessages (msg : ChatMessage) : list Message :=
  match userInputMessage msg with
  | Some u => [ {| role := "user"; content := plain (uim_content u) |} ]
  | None =>
      match assistantResponseMessage msg with
      | Some a =>
          match assistantBlocks a with
          | [] => []
          | content => [ {| role := "assistant"; content := blocks content |} ]
          end
      | None => []
      end
  end.

(** [c.text || c.json || ''], then its place in [join('\n')]. *)
Definition resultText (c : ToolResultContent) : string :=
  if truthyOpt (trc_text c) then orEmpty (trc_text c)
  else match trc_json c with
       | Some j => if jsonTruthy j then jsonToString j else ""
       | None => ""
       end.

Definition toolResultBlock (result : ToolResult) : Block :=
  tool_result_block (tr_toolUseId result)
    (match tr_content result with
     | Some ((_ :: _) as l) => join newline (map resultText l)
     | _ => ""
     end)
    (strictEq (tr_status result) "error").

(** The blocks of the current message. *)
Definition currentBlocks (u : UserInputMessage) : list Block :=
  List.app
    (if truthyOpt (uim_content u) then [text_block (orEmpty (uim_content u))] else [])
    (match userInputMessageContext u with
     | Some ctx =>
         match toolResults ctx with
         | Some l => map toolResultBlock l
         | None => []
         end
     | None => []
     end).

Definition currentMessages (current : option ChatMessage) : list Message :=
  match current with
  | Some c =>
      match userInputMessage c with
      | Some u =>
          match currentBlocks u with
          | [] => []
          | content => [ {| role := "user"; content := blocks content |} ]
          end
      | None => []
      end
  | None => []
  end.

(** [currentMessage?.userInputMessage] *)
Definition currentInput (current : option ChatMessage) : option UserInputMessage :=
  match current with Some c => userInputMessage c | None => None end.

(** The [TypeError] of a destructuring of [undefined]. *)
Definition typeError (msg : string) : JsError :=
  {| name := "TypeError"; message := msg; is429 := false; resetMs := None; errorText := None |}.

(** [kiroToAnthropic(kiroRequest, agentMode)], with the value of
    [getModelConfig()]. *)
Definition kiroToAnthropic (config : ModelConfig) (kiroRequest : KiroRequest)
    (agentMode : option string) : Outcome Request :=
  match conversationState kiroRequest with
  | None =>
      Throw (typeError
               "Cannot destructure property 'currentMessage' of 'conversationState' as it is undefined.")
  | Some state =>
      let messages :=
        List.app
          (match history state with
           | Some h => flat_map historyMessages h
           | None => []
           end)
          (currentMessages (currentMessage state)) in
      let effectiveAgentMode :=
        if truthyOpt agentMode then agentMode else agentTaskType state in
      let input := currentInput (currentMessage state) in
      let modelId :=
        mapModelId config
          (match input with Some u => modelId u | None => None end)
          effectiveAgentMode in
      let tools :=
        transformTools
          (match input with
           | Some u => match userInputMessageContext u with
                       | Some ctx => tools ctx
                       | None => None
                       end
           | None => None
           end) in
      Ok {| model := modelId;
            messages := messages;
            max_tokens := 8192;
            stream := true;
            request_tools := tools |}
  end.

End Transformer.

End KiroTransformer.

(** The messages of a conversation, stated on their own: entry by entry and
    without the functions above. *)
Module TransformerSpec.
Import KiroTransformer.

Section Spec.
Variable Json : Type.
Variable jsonTruthy : Json -> bool.
Variable jsonToString : Json -> string.
Variable emptyObject : Json.

Definition lineBreak : string := String "010"%char EmptyString.

(** The text block of a content that is given and not empty. *)
Definition textBlocks (text : option string) : list (Block Json) :=
  match text with
  | Some (String c s) => [text_block Json (String c s)]
  | _ => []
  end.

(** The [tool_use] block of a tool use of the history: its input, or the
    empty object when there is none. *)
Definition toolUseBlock (toolUse : ToolUse Json) : Block Json :=
  tool_use_block Json (tu_toolUseId Json toolUse) (tu_name Json toolUse)
    (match tu_input Json toolUse with
     | Some input => if jsonTruthy input then input else emptyObject
     | None => emptyObject
     end).

(** The message of an entry of the history, if it gives one: a user message
    with the content as it is, or an assistant message with the text and the
    tool uses, unless it has neither. *)
Definition entryMessage (msg : ChatMessage Json) : option (Message Json) :=
  match userInputMessage Json msg, assistantResponseMessage Json msg with
  | Some u, _ => Some {| role := "user"; content := plain Json (uim_content Json u) |}
  | None, Some a =>
      match (textBlocks (arm_content Json a)
             ++ match toolUses Json a with
                | Some uses => map toolUseBlock uses
                | None => []
                end)%list with
      | [] => None
      | content => Some {| role := "assistant"; content := blocks Json content |}
      end
  | None, None => None
  end.

Fixpoint convertedHistory (entries : list (ChatMessage Json)) : list (Message Json) :=
  match entries with
  | [] => []
  | msg :: rest =>
      match entryMessage msg with
      | Some m => m :: convertedHistory rest
      | None => convertedHistory rest
      end
  end.

(** The text of an item of a tool result: its text, else its JSON value. *)
Definition itemText (item : ToolResultContent Json) : string :=
  match trc_text Json item with
  | Some (String c s) => String c s
  | _ =>
      match trc_json Json item with
      | Some value => if jsonTruthy value then jsonToString value else ""
      | None => ""
      end
  end.

(** The [tool_result] block of a tool result: the texts of all its items,
    one per line. *)
Definition toolResult (result : ToolResult Json) : Block Json :=
  tool_result_block Json (tr_toolUseId Json result)
    (match tr_content Json result with
     | Some items => String.concat lineBreak (map itemText items)
     | None => ""
     end)
    (match tr_status Json result with
     | Some status => if string_dec status "error" then true else false
     | None => false
     end).

(** The message of the current turn, if it gives one: a user message with
    the text and the tool results, unless it has neither. *)
Definition currentTurn (current : option (ChatMessage Json)) : option (Message Json) :=
  match current with
  | Some c =>
      match userInputMessage Json c with
      | Some u =>
          match (textBlocks (uim_content Json u)
                 ++ match userInputMessageContext Json u with
                    | Some ctx =>
                        match toolResults Json ctx with
                        | Some results => map toolResult results
                        | None => []
                        end
                    | None => []
                    end)%list with
          | [] => None
          | content => Some {| role := "user"; content := blocks Json content |}
          end
      | None => None
      end
  | None => None
  end.

Definition optionList {A : Type} (x : option A) : list A :=
  match x with Some a => [a] | None => [] end.

(** The messages of a conversation. *)
Definition conversation (state : ConversationState Json) : list (Message Json) :=
  (convertedHistory (match history Json state with Some h => h | None => [] end)
   ++ optionList (currentTurn (currentMessage Json state)))%list.

End Spec.
End TransformerSpec.

(* ===================================================================== *)
(** ** [src/kiro/index.js]: the handler of [POST /generateAssistantResponse] *)
(* ===================================================================== *)

Module KiroServer.
Import JS Kiro KiroTransformer.

(** What the handler does to the response: [res.setHeader], what
    [streamAnthropicToKiro] does, and
    [res.status(status).json({ type: 'error', error: { type: 'api_error', message } })]. *)
Inductive Action :=
| SetHeader (name value : string)
| Stream (out : Kiro.Output)
| SendError (status : Z) (message : string).


Section Handler.
Variable Json : Type.
Variable jsonTruthy : Json -> bool.
Variable jsonToString : Json -> string.
Variable emptyObject : Json.
Variable objectSchema : Json.




End Handler.

Definition isSetHeader (a : Action) : bool :=
  match a with SetHeader _ _ => true | _ => false end.

End KiroServer.

(* ===================================================================== *)
(** ** [src/kiro/crc32.js] *)
(* ===================================================================== *)

(** The 32-bit integer operations of JavaScript, on [Z]: an operand is
    first taken modulo [2^32], as a signed integer for [^] and [&] and as an
    unsigned one for [>>>]. *)
Module Int32.

Definition toUint32 (z : Z) : Z := (z mod 2 ^ 32)%Z.

Definition toInt32 (z : Z) : Z :=
  let u := toUint32 z in
  if (u <? 2 ^ 31)%Z then u else (u - 2 ^ 32)%Z.

(** [a ^ b] *)
Definition xor (a b : Z) : Z := Z.lxor (toInt32 a) (toInt32 b).

(** [a & b] *)
Definition and (a b : Z) : Z := Z.land (toInt32 a) (toInt32 b).

(** [a >>> n], for [0 <= n < 32] *)
Definition ushr (a n : Z) : Z := Z.shiftr (toUint32 a) n.

End Int32.

Module Crc32.
Import Int32.

(** A buffer: its bytes, each in [0, 255]. *)
Definition Buffer := list Z.

Definition polynomial : Z := 0xEDB88320.

(** The body of the inner loop of [initCrc32Table]. *)
Definition tableStep (crc : Z) : Z :=
  if (and crc 1 =? 0)%Z then ushr crc 1 else xor (ushr crc 1) polynomial.

(** [crc32Table[i]], as [initCrc32Table] leaves it. *)
Definition tableEntry (i : Z) : Z :=
  ushr (Nat.iter 8 tableStep i) 0.

Definition crc32Table : list Z :=
  Eval vm_compute in map (fun i => tableEntry (Z.of_nat i)) (seq 0 256).

(** [crc32Table[i]] for an index of the table. *)
Definition tableAt (i : Z) : Z := nth (Z.to_nat i) crc32Table 0%Z.

(** [crc32(data)] *)
Definition crc32 (data : Buffer) : Z :=
  let crc :=
    fold_left (fun crc byte => xor (ushr crc 8) (tableAt (and (xor crc byte) 0xFF)))
      data 0xFFFFFFFF%Z in
  ushr (xor crc 0xFFFFFFFF) 0.

End Crc32.

(** The checksum as it is defined bit by bit: the reflected CRC-32 with
    polynomial [0xEDB88320], initial value and final complement
    [0xFFFFFFFF]. *)
Module Crc32Spec.

Definition bitStep (c : Z) : Z :=
  if Z.testbit c 0 then Z.lxor (Z.shiftr c 1) 0xEDB88320 else Z.shiftr c 1.

Definition byteStep (c byte : Z) : Z := Nat.iter 8 bitStep (Z.lxor c byte).

Definition crcBitwise (data : list Z) : Z :=
  Z.lxor (fold_left byteStep data 0xFFFFFFFF%Z) 0xFFFFFFFF.

Definition isByte (b : Z) : Prop := (0 <= b < 256)%Z.

End Crc32Spec.

(* ===================================================================== *)
(** ** [src/kiro/smithy-encoder.js] *)
(* ===================================================================== *)

(** The operations of Node's [Buffer] that the encoder calls.  A buffer is
    the list of its bytes; a write outside the range of the field or outside
    the buffer throws a [RangeError], a copy stops at the end of the target. *)
Module NodeBuffer.
Import Crc32.
Local Open Scope Z_scope.

(** The [RangeError] of a write ([ERR_OUT_OF_RANGE]); the message of Node
    also gives the bounds and the value received. *)
Definition rangeError : JsError :=
  {| name := "RangeError"; message := "The value is out of range.";
     is429 := false; resetMs := None; errorText := None |}.

(** The UTF-8 bytes of one character of a string (a code unit below 256). *)
Definition utf8Unit (c : ascii) : Buffer :=
  let n := Z.of_nat (nat_of_ascii c) in
  if n <? 128 then [n]
  else [Z.lor 0xC0 (Z.shiftr n 6); Z.lor 0x80 (Z.land n 0x3F)].

(** [Buffer.from(s, 'utf8')] *)
Definition from (s : string) : Buffer := flat_map utf8Unit (list_ascii_of_string s).

(** [Buffer.alloc(size)] *)
Definition alloc (size : nat) : Buffer := repeat 0 size.

(** [buf[offset] = byte], inside the buffer. *)
Fixpoint store (buf : Buffer) (offset : nat) (byte : Z) : Buffer :=
  match buf, offset with
  | [], _ => []
  | _ :: rest, O => byte :: rest
  | b :: rest, S k => b :: store rest k byte
  end.

(** What an element of a [Uint8Array] keeps of a number. *)
Definition uint8 (v : Z) : Z := Z.land v 255.

(** The check of the [writeUInt*] methods: the value, then the bounds. *)
Definition checkInt (buf : Buffer) (value : Z) (offset width : nat) : bool :=
  (0 <=? value) && (value <? 2 ^ (8 * Z.of_nat width))
  && (offset + width <=? List.length buf)%nat.

(** [buf.writeUInt8(value, offset)] *)
Definition writeUInt8 (buf : Buffer) (value : Z) (offset : nat) : Outcome Buffer :=
  if checkInt buf value offset 1 then Ok (store buf offset value)
  else Throw rangeError.

(** [buf.writeUInt16BE(value, offset)] *)
Definition writeUInt16BE (buf : Buffer) (value : Z) (offset : nat) : Outcome Buffer :=
  if checkInt buf value offset 2 then
    let buf := store buf offset (uint8 (Z.shiftr value 8)) in
    Ok (store buf (offset + 1) (uint8 value))
  else Throw rangeError.

(** [buf.writeUInt32BE(value, offset)] *)
Definition writeUInt32BE (buf : Buffer) (value : Z) (offset : nat) : Outcome Buffer :=
  if checkInt buf value offset 4 then
    let buf := store buf (offset + 3) (uint8 value) in
    let value := Z.shiftr value 8 in
    let buf := store buf (offset + 2) (uint8 value) in
    let value := Z.shiftr value 8 in
    let buf := store buf (offset + 1) (uint8 value) in
    let value := Z.shiftr value 8 in
    Ok (store buf offset (uint8 value))
  else Throw rangeError.

(** The bytes of [source] over the first bytes of [target]. *)
Fixpoint overlay (source target : Buffer) : Buffer :=
  match source, target with
  | s :: source, _ :: target => s :: overlay source target
  | _, _ => target
  end.

(** [source.copy(target, targetStart)]: the target after the copy. *)
Fixpoint copy (source target : Buffer) (targetStart : nat) {struct targetStart} : Buffer :=
  match targetStart, target with
  | O, _ => overlay source target
  | S k, t :: target => t :: copy source target k
  | S _, [] => []
  end.

(** [buf.subarray(0, end)] *)
Definition subarray (buf : Buffer) (start stop : nat) : Buffer :=
  firstn (stop - start) (skipn start buf).

(** [Buffer.concat(list)] *)
Definition concat (list : list Buffer) : Buffer := List.concat list.

(** Statements in a row, the first throw ends them. *)
Definition andThen {A B : Type} (o : Outcome A) (k : A -> Outcome B) : Outcome B :=
  match o with
  | Ok a => k a
  | Throw e => Throw e
  end.

End NodeBuffer.

Declare Scope buffer_scope.
Notation "x <- m ;; k" := (NodeBuffer.andThen m (fun x => k))
  (at level 61, m at next level, right associativity) : buffer_scope.

Module SmithyEncoder.
Import Crc32 NodeBuffer.
Local Open Scope buffer_scope.

(** [encodeStringHeader(name, value)] *)
Definition encodeStringHeader (name value : string) : Outcome Buffer :=
  let nameBuffer := from name in
  let valueBuffer := from value in
  let header := alloc (1 + List.length nameBuffer + 1 + 2 + List.length valueBuffer) in
  let offset := 0%nat in
  header <- writeUInt8 header (Z.of_nat (List.length nameBuffer)) offset ;;
  let offset := (offset + 1)%nat in
  let header := copy nameBuffer header offset in
  let offset := (offset + List.length nameBuffer)%nat in
  header <- writeUInt8 header 7 offset ;;
  let offset := (offset + 1)%nat in
  header <- writeUInt16BE header (Z.of_nat (List.length valueBuffer)) offset ;;
  let offset := (offset + 2)%nat in
  let header := copy valueBuffer header offset in
  Ok header.

Section Encoder.
(** The payload of an event and [JSON.stringify] on it. *)
Variable Payload : Type.
Variable stringify : Payload -> string.

(** [encodeEventStreamMessage(eventType, payload)] *)
Definition encodeEventStreamMessage (eventType : string) (payload : Payload)
  : Outcome Buffer :=
  h1 <- encodeStringHeader ":event-type" eventType ;;
  h2 <- encodeStringHeader ":content-type" "application/json" ;;
  h3 <- encodeStringHeader ":message-type" "event" ;;
  let headers := [h1; h2; h3] in
  let headersBuffer := concat headers in
  let payloadBuffer := from (stringify payload) in
  let preludeLength := 12%nat in
  let headersLength := List.length headersBuffer in
  let payloadLength := List.length payloadBuffer in
  let messageCrcLength := 4%nat in
  let totalLength := (preludeLength + headersLength + payloadLength + messageCrcLength)%nat in
  let message := alloc totalLength in
  let offset := 0%nat in
  message <- writeUInt32BE message (Z.of_nat totalLength) offset ;;
  let offset := (offset + 4)%nat in
  message <- writeUInt32BE message (Z.of_nat headersLength) offset ;;
  let offset := (offset + 4)%nat in
  let preludeCrc := crc32 (subarray message 0 8) in
  message <- writeUInt32BE message preludeCrc offset ;;
  let offset := (offset + 4)%nat in
  let message := copy headersBuffer message offset in
  let offset := (offset + headersLength)%nat in
  let message := copy payloadBuffer message offset in
  let offset := (offset + payloadLength)%nat in
  let messageCrc := crc32 (subarray message 0 offset) in
  message <- writeUInt32BE message messageCrc offset ;;
  Ok message.

End Encoder.
End SmithyEncoder.

(** The frame as the header of [smithy-encoder.js] describes it, and how a
    receiver reads it back. *)
Module SmithySpec.
Import Crc32 Crc32Spec NodeBuffer.
Local Open Scope Z_scope.
Local Open Scope list_scope.

(** A number in [width] bytes, the highest first. *)
Fixpoint bigEndian (width : nat) (v : Z) : Buffer :=
  match width with
  | O => []
  | S k => bigEndian k (v / 256) ++ [v mod 256]
  end.

(** The number that bytes, the highest first, stand for. *)
Definition beValue (bytes : Buffer) : Z :=
  fold_left (fun acc b => acc * 256 + b) bytes 0.

(** A string header: the length of the name, the name, the type 7, the
    length of the value in two bytes, the value. *)
Definition stringHeader (name value : string) : Buffer :=
  [Z.of_nat (List.length (from name))] ++ from name ++ [7]
  ++ bigEndian 2 (Z.of_nat (List.length (from value))) ++ from value.

(** The three headers of an event. *)
Definition eventHeaders (eventType : string) : Buffer :=
  stringHeader ":event-type" eventType
  ++ stringHeader ":content-type" "application/json"
  ++ stringHeader ":message-type" "event".

(** The frame around headers and a payload. *)
Definition frame (headers payload : Buffer) : Buffer :=
  let total := Z.of_nat (16 + List.length headers + List.length payload) in
  let prelude := bigEndian 4 total ++ bigEndian 4 (Z.of_nat (List.length headers)) in
  let front := prelude ++ bigEndian 4 (crcBitwise prelude) ++ headers ++ payload in
  front ++ bigEndian 4 (crcBitwise front).

(** A receiver: it takes the first frame off a stream of bytes, checks both
    checksums, and gives the headers, the payload and the bytes left. *)
Definition readFrame (stream : Buffer) : option (Buffer * Buffer * Buffer) :=
  let total := Z.to_nat (beValue (firstn 4 stream)) in
  let headersLength := Z.to_nat (beValue (firstn 4 (skipn 4 stream))) in
  let preludeCrc := beValue (firstn 4 (skipn 8 stream)) in
  if (total <? 16 + headersLength)%nat || (List.length stream <? total)%nat then None
  else
    let message := firstn total stream in
    let messageCrc := beValue (skipn (total - 4) message) in
    if (crcBitwise (firstn 8 message) =? preludeCrc)
       && (crcBitwise (firstn (total - 4) message) =? messageCrc)
    then Some (firstn headersLength (skipn 12 message),
               firstn (total - 16 - headersLength) (skipn (12 + headersLength) message),
               skipn total stream)
    else None.

End SmithySpec.

(* ===================================================================== *)
(** ** What a handler may reach *)
(* ===================================================================== *)

Module Reach.
Import JS Constants RequestBuilder.

Section Reach.
Context {E : Env}.

Definition among (x : string) (l : list string) : bool := existsb (String.eqb x) l.

(** The value of a header of a call. *)
Definition headerOf (name : string) (headers : Headers) : option string :=
  option_map snd (find (fun h => String.eqb (fst h) name) headers).

Definition sameOption (a b : option string) : bool :=
  match a, b with
  | Some x, Some y => String.eqb x y
  | None, None => true
  | _, _ => false
  end.

(** The test of an action of a handler that serves [models].  A call
    carries a payload for one of the models, goes to the URL of that model
    at one of the endpoints, and asks for the content type of that model; an
    account is marked, and the pool is asked for the next account, for one of
    the models only. *)
Definition confined (urlFor : string -> string -> string)
    (acceptFor : string -> option string) (models : list string) (a : @Action E) : bool :=
  match a with
  | AFetch url headers payload =>
      let m := payload_model payload in
      among m models
      && among url (map (urlFor m) ANTIGRAVITY_ENDPOINT_FALLBACKS)
      && sameOption (headerOf "Accept" headers) (acceptFor m)
  | AMarkRateLimited _ _ m => among m models
  | APickNext m => among m models
  | AEnter m _ => among m models
  | _ => true
  end.

(** The models that a dispatch serves: its own and, when the fallback is
    enabled, the fallback model. *)
Definition servedModels (fallbackModelFor : string -> option string)
    (model : string) (fallbackEnabled : bool) : list string :=
  model :: match (if fallbackEnabled then fallbackModelFor model else None) with
           | Some m => [m]
           | None => []
           end.

(** The [Accept] header of a call of [sendMessage]: none for the JSON
    endpoint, as [buildHeaders] leaves the default out. *)
Definition messageAccept (m : string) : option string :=
  if isThinkingModel (Some m) then Some "text/event-stream" else None.

End Reach.
End Reach.

(** A pool of one account that is the sticky account of the model, with
    empty caches, and an error that none of the collaborators knows. *)
Module EdgeScenario.
Import Scenario.

Definition pool (script : list (JsError + response)) : sim :=
  {| accounts := ["a@x"]; limits := []; sticky := [("claude-sonnet-4-5", "a@x")];
     cursor := 0; now := 0; tokenCache := []; projectCache := []; tokensIssued := 0;
     upstream := script |}.

(** The pool once the token and the project of the account are cached. *)
Definition served (ms : Z) (script : list (JsError + response)) : sim :=
  {| accounts := ["a@x"]; limits := []; sticky := [("claude-sonnet-4-5", "a@x")];
     cursor := 0; now := ms;
     tokenCache := [("a@x", "token-1")]; projectCache := [("a@x", "project-1")];
     tokensIssued := 1; upstream := script |}.

Definition expired : JsError := newError "certificate has expired".

Definition notModified : response :=
  {| r_status := 304; r_text := ""; r_resetMs := None; r_events := []; r_error := None |}.

End EdgeScenario.
(* ===================================================================== *)
(** ** [src/cli/model-switch.js] *)
(* ===================================================================== *)

(** The settings file of Claude Code and the switch of its model
    configuration.  The file may hold any JSON text: the value that
    [JSON.parse] returns is of the type [Json].  The properties of an object
    are kept in the order of their insertion, each name once.  The lines
    printed on the console are not part of the model. *)
Module ModelSwitch.
Import JS.

Inductive family := Claude | Gemini.

(** What a function of the script does: it returns, or throws a
    [TypeError] that nothing catches. *)
Inductive Result (A : Type) :=
| Returns (a : A)
| ThrowsTypeError.
Arguments Returns {A} a.
Arguments ThrowsTypeError {A}.

Section Json.
(** The numbers of JSON, and those that are zero. *)
Variable Number : Type.
Variable isZero : Number -> bool.

#[local] Set Warnings "-register-all".

Inductive Json :=
| null
| boolean (b : bool)
| number (n : Number)
| str (s : string)
| array (items : list Json)
| object (props : list (string * Json)).

Definition Props := list (string * Json).

(** Truthiness of a value. *)
Definition truthyJson (v : Json) : bool :=
  match v with
  | null => false
  | boolean b => b
  | number n => negb (isZero n)
  | str s => truthy s
  | array _ | object _ => true
  end.

(** [o[k]] *)
Fixpoint get (k : string) (o : Props) : option Json :=
  match o with
  | [] => None
  | (k', v) :: rest => if String.eqb k k' then Some v else get k rest
  end.

(** [o[k] = v]: a property that exists keeps its place. *)
Fixpoint set (k : string) (v : Json) (o : Props) : Props :=
  match o with
  | [] => [(k, v)]
  | (k', v') :: rest =>
      if String.eqb k k' then (k, v) :: rest else (k', v') :: set k v rest
  end.

(** [{ ...a, ...b }] *)
Definition spread (a b : Props) : Props :=
  fold_left (fun o kv => set (fst kv) (snd kv) o) b a.

(** [v.env] and [v.ANTHROPIC_MODEL] on a value that is not [null]: only an
    object has a property of one of these names. *)
Definition property (k : string) (v : Json) : option Json :=
  match v with
  | object o => get k o
  | _ => None
  end.

Definition indexed {A : Type} (f : A -> Json) (l : list A) : Props :=
  map (fun p => (showZ (Z.of_nat (fst p)), f (snd p))) (combine (seq 0 (List.length l)) l).

(** The own properties that [{ ...v }] copies. *)
Definition ownProps (v : Json) : Props :=
  match v with
  | object o => o
  | array items => indexed (fun item => item) items
  | str s => indexed (fun c => str (String c EmptyString)) (list_ascii_of_string s)
  | _ => []
  end.

Definition CLAUDE_ENV : Props :=
  [ ("ANTHROPIC_AUTH_TOKEN", str "test");
    ("ANTHROPIC_BASE_URL", str "http://localhost:8080");
    ("ANTHROPIC_MODEL", str "claude-opus-4-5-thinking");
    ("ANTHROPIC_DEFAULT_OPUS_MODEL", str "claude-opus-4-5-thinking");
    ("ANTHROPIC_DEFAULT_SONNET_MODEL", str "claude-sonnet-4-5-thinking");
    ("ANTHROPIC_DEFAULT_HAIKU_MODEL", str "gemini-2.5-flash-lite");
    ("CLAUDE_CODE_SUBAGENT_MODEL", str "claude-sonnet-4-5-thinking") ].

Definition GEMINI_ENV : Props :=
  [ ("ANTHROPIC_AUTH_TOKEN", str "test");
    ("ANTHROPIC_BASE_URL", str "http://localhost:8080");
    ("ANTHROPIC_MODEL", str "gemini-3-pro-high");
    ("ANTHROPIC_DEFAULT_OPUS_MODEL", str "gemini-3-pro-high");
    ("ANTHROPIC_DEFAULT_SONNET_MODEL", str "gemini-3-flash");
    ("ANTHROPIC_DEFAULT_HAIKU_MODEL", str "gemini-2.5-flash-lite");
    ("CLAUDE_CODE_SUBAGENT_MODEL", str "gemini-3-flash") ].

(** [detectModelFamily(env)]; the argument [None] is [undefined] and the
    result [None] is [null].  A model that is truthy and no string has no
    method [toLowerCase]: the call throws. *)
Definition detectModelFamily (env : option Json) : Result (option family) :=
  match env with
  | None => Returns None
  | Some env =>
      if negb (truthyJson env) then Returns None
      else
        match property "ANTHROPIC_MODEL" env with
        | None => Returns None
        | Some m =>
            if negb (truthyJson m) then Returns None
            else
              match m with
              | str s =>
                  let model := toLowerCase s in
                  if includes model "claude" then Returns (Some Claude)
                  else if includes model "gemini" then Returns (Some Gemini)
                  else Returns None
              | _ => ThrowsTypeError
              end
        end
  end.

(** The settings file: missing; there but not read or not parsed; or
    holding the text of a value. *)
Inductive File :=
| Missing
| Unreadable
| Holds (value : Json).

(** [loadSettings()] *)
Definition loadSettings (file : File) : Json :=
  match file with
  | Holds value => value
  | Missing | Unreadable => object []
  end.

(** [settings.env], which throws on [null]. *)
Definition readEnv (settings : Json) : Result (option Json) :=
  match settings with
  | null => ThrowsTypeError
  | _ => Returns (property "env" settings)
  end.

(** [settings.env = env], in the strict mode of a module: a boolean, a
    number or a string takes no property.  An array takes it, but
    [JSON.stringify] writes the items of an array only: the result is the
    value as it is written. *)
Definition assignEnv (settings : Json) (env : Json) : Result Json :=
  match settings with
  | object o => Returns (object (set "env" env o))
  | array items => Returns (array items)
  | _ => ThrowsTypeError
  end.

(** [saveSettings(settings)]; [writable] tells whether the directory and
    the file can be written.  The result is that of the function and the
    value whose text was written, if any. *)
Definition saveSettings (writable : bool) (settings : Json) : bool * option Json :=
  if writable then (true, Some settings) else (false, None).

(** [main()]: the value whose text it writes to the file, if any, and the
    exit code of the process; an error that nothing catches ends the process
    with the code 1. *)
Definition main (writable : bool) (file : File) : option Json * Z :=
  let settings := loadSettings file in
  match readEnv settings with
  | ThrowsTypeError => (None, 1%Z)
  | Returns env =>
      match detectModelFamily env with
      | ThrowsTypeError => (None, 1%Z)
      | Returns None =>
          match assignEnv settings (object CLAUDE_ENV) with
          | ThrowsTypeError => (None, 1%Z)
          | Returns settings =>
              let '(_, written) := saveSettings writable settings in
              (written, 0%Z)
          end
      | Returns (Some currentFamily) =>
          let newFamily := match currentFamily with Claude => Gemini | Gemini => Claude end in
          let newEnv := match newFamily with Claude => CLAUDE_ENV | Gemini => GEMINI_ENV end in
          match assignEnv settings
                  (object (spread (match env with Some e => ownProps e | None => [] end)
                             newEnv)) with
          | ThrowsTypeError => (None, 1%Z)
          | Returns settings =>
              let '(saved, written) := saveSettings writable settings in
              if saved then (written, 0%Z) else (written, 1%Z)
          end
      end
  end.

(** The other family, and its configuration. *)
Definition other (f : family) : family :=
  match f with Claude => Gemini | Gemini => Claude end.

Definition envOf (f : family) : Props :=
  match f with Claude => CLAUDE_ENV | Gemini => GEMINI_ENV end.

End Json.

End ModelSwitch.

(* ===================================================================== *)
(** * Properties *)
(* ===================================================================== *)

(** ** Strings *)

Module StringFacts.
Import JS ThinkingSpec.

Lemma startsWith_iff s p :
  startsWith s p = true <-> exists post, s = p ++ post.
Proof.
  revert s. induction p as [|a p IH]; intros s; simpl.
  - split; [intros _; exists s; reflexivity | reflexivity].
  - destruct s as [|b s].
    + split; [discriminate | intros [post H]; discriminate].
    + rewrite andb_true_iff, Ascii.eqb_eq, IH. split.
      * intros [-> [post ->]]. exists post. reflexivity.
      * intros [post H]. injection H as -> ->. split; [reflexivity | eauto].
Qed.

Lemma includes_iff s sub :
  includes s sub = true <-> Contains s sub.
Proof.
  unfold Contains. induction s as [|c s IH].
  - simpl. rewrite orb_false_r, startsWith_iff. split.
    + intros [post H]. exists "", post. exact H.
    + intros [pre [post H]]. destruct pre; [exists post; exact H | discriminate].
  - change (includes (String c s) sub)
      with (startsWith (String c s) sub || includes s sub).
    rewrite orb_true_iff, startsWith_iff, IH. split.
    + intros [[post H] | [pre [post H]]].
      * exists "", post. exact H.
      * exists (String c pre), post. simpl. rewrite H. reflexivity.
    + intros [pre [post H]]. destruct pre as [|d pre].
      * left. exists post. exact H.
      * right. simpl in H. injection H as _ H. exists pre, post. exact H.
Qed.

Lemma lowerAscii_letter c : lowerAscii c = lowerLetter c.
Proof. destruct c as [[] [] [] [] [] [] [] []]; reflexivity. Qed.

Lemma toLowerCase_lowerCase s : toLowerCase s = lowerCase s.
Proof.
  induction s as [|c s IH]; [reflexivity |].
  cbn [toLowerCase lowerCase]. rewrite lowerAscii_letter, IH. reflexivity.
Qed.

Lemma isDigit_number c :
  isDigit c = true -> digitNumber c = Some (digitValue c).
Proof. destruct c as [[] [] [] [] [] [] [] []]; (reflexivity || discriminate). Qed.

Lemma isDigit_iff c : isDigit c = true <-> Digit c.
Proof.
  split.
  - intros H. exists (digitValue c). apply isDigit_number, H.
  - intros [d H]. destruct c as [[] [] [] [] [] [] [] []]; (reflexivity || discriminate).
Qed.

Lemma isDigit_false c : isDigit c = false -> ~ Digit c.
Proof. intros H Hd. apply isDigit_iff in Hd. congruence. Qed.

Lemma takeDigits_split s :
  exists rest, s = takeDigits s ++ rest /\ ~ StartsWithDigit rest.
Proof.
  induction s as [|c s [rest [H1 H2]]]; simpl.
  - exists "". split; [reflexivity | intros []].
  - destruct (isDigit c) eqn:Hc.
    + exists rest. simpl. split; [rewrite <- H1; reflexivity | exact H2].
    + exists (String c s). split; [reflexivity |]. simpl. apply isDigit_false, Hc.
Qed.

Lemma takeDigits_all s : AllDigits (takeDigits s).
Proof.
  induction s as [|c s IH]; simpl; [exact I |].
  destruct (isDigit c) eqn:Hc; simpl; [| exact I].
  split; [apply isDigit_iff, Hc | exact IH].
Qed.

Lemma takeDigits_app ds rest :
  AllDigits ds -> ~ StartsWithDigit rest -> takeDigits (ds ++ rest) = ds.
Proof.
  intros Hds Hrest. induction ds as [|c ds IH]; simpl.
  - destruct rest as [|c r]; [reflexivity |]. simpl in *.
    destruct (isDigit c) eqn:Hc; [| reflexivity].
    contradiction Hrest. apply isDigit_iff, Hc.
  - destruct Hds as [Hc Hds]. apply isDigit_iff in Hc.
    rewrite Hc, IH by assumption. reflexivity.
Qed.

Lemma parseIntFrom_value acc ds :
  AllDigits ds ->
  parseIntFrom acc ds = (acc * 10 ^ Z.of_nat (String.length ds) + decimalValue ds)%Z.
Proof.
  revert acc. induction ds as [|c ds IH]; intros acc Hds;
    cbn [decimalValue parseIntFrom].
  - simpl. lia.
  - destruct Hds as [Hc Hds]. apply isDigit_iff, isDigit_number in Hc.
    rewrite IH, Hc by exact Hds.
    cbn [String.length]. rewrite Nat2Z.inj_succ, Z.pow_succ_r by lia. ring.
Qed.

Lemma parseInt_value ds : AllDigits ds -> parseInt ds = decimalValue ds.
Proof. intros H. unfold parseInt. rewrite parseIntFrom_value by exact H. lia. Qed.

End StringFacts.

(** ** [isThinkingModel] *)

Module ThinkingFacts.
Import JS Constants ThinkingSpec StringFacts.

Lemma matchVersionHere_iff s ds :
  matchVersionHere s = Some ds <-> VersionHere s ds.
Proof.
  unfold matchVersionHere, VersionHere. split.
  - destruct (startsWith s "gemini-") eqn:Hp; [| discriminate].
    apply startsWith_iff in Hp. destruct Hp as [post ->].
    change (dropChars 7 ("gemini-" ++ post)) with post.
    destruct (takeDigits_split post) as [rest [Hs Hr]].
    pose proof (takeDigits_all post) as Hall.
    destruct (takeDigits post) as [|c t] eqn:Ht; [discriminate |].
    intros H. injection H as <-.
    split; [discriminate | split; [exact Hall |]].
    exists rest. split; [rewrite Hs at 1; reflexivity | exact Hr].
  - intros [Hne [Hall [rest [-> Hr]]]].
    change (startsWith ("gemini-" ++ ds ++ rest) "gemini-") with true.
    change (dropChars 7 ("gemini-" ++ ds ++ rest)) with (ds ++ rest).
    rewrite takeDigits_app by assumption.
    destruct ds; [contradiction Hne; reflexivity | reflexivity].
Qed.

Lemma matchGeminiVersion_iff s ds :
  matchGeminiVersion s = Some ds <-> LeftmostVersion s ds.
Proof.
  split.
  - induction s as [|c s IH]; cbn [matchGeminiVersion].
    + destruct (matchVersionHere "") eqn:Hm; [| discriminate].
      intros H. injection H as <-. apply version_here, matchVersionHere_iff, Hm.
    + destruct (matchVersionHere (String c s)) eqn:Hm.
      * intros H. injection H as <-. apply version_here, matchVersionHere_iff, Hm.
      * intros H. apply version_later; [| exact (IH H)].
        intros ds' Hv. apply matchVersionHere_iff in Hv. congruence.
  - induction 1 as [s ds Hv | c s ds Hno _ IH].
    + apply matchVersionHere_iff in Hv.
      destruct s; cbn [matchGeminiVersion]; rewrite Hv; reflexivity.
    + cbn [matchGeminiVersion]. destruct (matchVersionHere (String c s)) eqn:Hm.
      * apply matchVersionHere_iff in Hm. contradiction (Hno _ Hm).
      * exact IH.
Qed.

Lemma leftmost_digits s ds : LeftmostVersion s ds -> ds <> "" /\ AllDigits ds.
Proof.
  induction 1 as [s ds (Hne & Hall & _) | c s ds _ _ IH]; [split; assumption | exact IH].
Qed.

Lemma leftmost_contains s ds : LeftmostVersion s ds -> Contains s ("gemini-" ++ ds).
Proof.
  induction 1 as [s ds (_ & _ & rest & -> & _) | c s ds _ _ (pre & post & ->)].
  - exists "", rest. reflexivity.
  - exists (String c pre), post. reflexivity.
Qed.

Lemma string_app_assoc (a b c : string) : (a ++ b) ++ c = a ++ b ++ c.
Proof. induction a as [|x a IH]; [reflexivity |]. simpl. rewrite IH. reflexivity. Qed.

Lemma contains_prefix s a b : Contains s (a ++ b) -> Contains s a.
Proof.
  intros (pre & post & ->). exists pre, (b ++ post).
  rewrite string_app_assoc. reflexivity.
Qed.

Lemma isThinkingModel_lower m :
  isThinkingModel m = true <-> ThinkingName (toLowerCase (orEmpty m)).
Proof.
  unfold isThinkingModel, ThinkingName.
  set (lower := toLowerCase (orEmpty m)).
  rewrite <- !includes_iff.
  destruct (includes lower "claude") eqn:Hc, (includes lower "thinking") eqn:Ht;
    simpl; try (split; [intros _; left; split; reflexivity | reflexivity]).
  all: destruct (includes lower "gemini") eqn:Hg.
  all: try (split; [intros _; right; split; [reflexivity | left; reflexivity] | reflexivity]).
  all: try (split; [discriminate | intros [[H1 H2] | [H1 _]]; discriminate]).
  all: destruct (matchGeminiVersion lower) as [ds|] eqn:Hm.
  all: try (split; [discriminate |
                    intros [[H1 H2] | [_ [H1 | [ds [H1 _]]]]]; try discriminate;
                    apply matchGeminiVersion_iff in H1; congruence]).
  all: rewrite parseInt_value
         by (apply (leftmost_digits lower), matchGeminiVersion_iff, Hm);
       destruct (3 <=? decimalValue ds)%Z eqn:Hv.
  all: try (split; [intros _; right; split; [reflexivity | right; exists ds; split;
                      [apply matchGeminiVersion_iff, Hm | apply Z.leb_le, Hv]] | reflexivity]).
  all: split; [discriminate |
               intros [[H1 H2] | [_ [H1 | [ds' [H1 H2]]]]]; try discriminate;
               apply matchGeminiVersion_iff in H1; rewrite Hm in H1; injection H1 as <-;
               apply Z.leb_gt in Hv; lia].
Qed.

Lemma isThinkingModel_iff m :
  isThinkingModel m = true
  <-> exists name, m = Some name /\ ThinkingName (lowerCase name).
Proof.
  rewrite isThinkingModel_lower. destruct m as [name|]; cbn [orEmpty].
  - rewrite toLowerCase_lowerCase. split.
    + intros H. exists name. split; [reflexivity | exact H].
    + intros (name' & Heq & H). injection Heq as <-. exact H.
  - split.
    + intros [[(pre & post & H) _] | [(pre & post & H) _]];
        destruct pre; discriminate.
    + intros (name & Heq & _). discriminate.
Qed.

Lemma thinkingName_anyVersion lower :
  ThinkingName lower -> ThinkingNameAnyVersion lower.
Proof.
  intros [H | [Hg [Ht | (ds & Hv & Hn)]]]; [left; exact H | right; split; [exact Hg |]..].
  - left. exact Ht.
  - right. exists ds. destruct (leftmost_digits _ _ Hv) as [Hne Hall].
    repeat split; [exact Hne | exact Hall | apply leftmost_contains, Hv | exact Hn].
Qed.

End ThinkingFacts.

(** ** [buildCloudCodeRequest] *)

Module BuilderFacts.
Import JS Constants RequestBuilder BuilderSpec StringFacts.

Section Facts.
Context {E : Env}.

Lemma startsWith_app p x : startsWith (p ++ x) p = true.
Proof. apply startsWith_iff. exists x. reflexivity. Qed.

Lemma startsWith_refl p : startsWith p p = true.
Proof.
  apply startsWith_iff. exists "". induction p as [|c p IH]; simpl; congruence.
Qed.

Lemma truthy_false s : truthy s = false <-> s = "".
Proof. destruct s; simpl; split; congruence. Qed.

Lemma join_truthy (l : list string) :
  Forall (fun x => truthy x = true) l -> join newline l = "" -> l = [].
Proof.
  intros Hall. destruct Hall as [|x l Hx _]; [reflexivity |].
  destruct x as [|c x]; [discriminate |].
  destruct l; discriminate.
Qed.

Lemma filter_truthy (l : list string) :
  Forall (fun x => truthy x = true) (filter truthy l).
Proof. apply Forall_forall. intros x Hx. apply filter_In in Hx. apply Hx. Qed.

(** The joined texts of the source are the lines of the specification. *)
Lemma existingText_lines (parts : list Part) : existingText parts = linesOf parts.
Proof.
  unfold existingText. induction parts as [|p rest IH]; [reflexivity |].
  cbn [map filter linesOf].
  destruct (part_text p) as [[|c text]|]; cbn [orEmpty truthy]; try exact IH.
  pose proof (filter_truthy (map (fun p => orEmpty (part_text p)) rest)) as Hall.
  destruct (filter truthy (map (fun p => orEmpty (part_text p)) rest)) as [|y l] eqn:Hf.
  - rewrite <- IH. reflexivity.
  - rewrite <- IH.
    destruct (join newline (y :: l)) as [|d more] eqn:Hj.
    + apply join_truthy in Hj; [discriminate | exact Hall].
    + cbn [join]. rewrite <- Hj. reflexivity.
Qed.

Lemma systemInstructionText_cases (g : @GoogleRequest E) :
  systemInstructionText g =
    if truthy (callerSystemText g)
    then ANTIGRAVITY_SYSTEM_INSTRUCTION ++ blankLine ++ callerSystemText g
    else ANTIGRAVITY_SYSTEM_INSTRUCTION.
Proof.
  unfold systemInstructionText, callerSystemText.
  destruct (systemInstruction g) as [si|]; [| reflexivity].
  destruct (si_parts si) as [parts|]; [| reflexivity].
  rewrite existingText_lines. reflexivity.
Qed.

End Facts.
End BuilderFacts.

(** ** The chunks of a tool input *)

Module KiroFacts.
Import JS Anthropic Kiro KiroSpec.

Lemma substring_split s : forall i a b,
  substring i (a + b) s = substring i a s ++ substring (i + a) b s.
Proof.
  induction s as [|c s IH]; intros i a b.
  - destruct i, a, b; reflexivity.
  - destruct i as [|i].
    + destruct a as [|a].
      * reflexivity.
      * simpl. f_equal. apply (IH 0%nat).
    + simpl. apply IH.
Qed.

Lemma substring_length s : forall i m,
  String.length (substring i m s) = Nat.min m (String.length s - i).
Proof.
  induction s as [|c s IH]; intros i m.
  - destruct i, m; reflexivity.
  - destruct i as [|i].
    + destruct m as [|m]; [reflexivity |]. simpl. rewrite IH. f_equal. f_equal. lia.
    + simpl. apply IH.
Qed.


Lemma substring_past s : forall i m, String.length s <= i -> substring i m s = "".
Proof.
  induction s as [|c s IH]; intros i m H.
  - destruct i, m; reflexivity.
  - destruct i as [|i]; simpl in *; [lia |]. apply IH. lia.
Qed.

Lemma append_empty x : x ++ "" = x.
Proof. induction x; simpl; congruence. Qed.

(** A slice that reaches the end of the string is the rest of the string. *)
Lemma substring_clip s i m :
  String.length s <= i + m ->
  substring i m s = substring i (String.length s - i) s.
Proof.
  intros H. destruct (le_lt_dec (String.length s) i) as [Hle | Hlt].
  - rewrite !substring_past by exact Hle. reflexivity.
  - assert (Hm : m = (String.length s - i) + (i + m - String.length s)) by lia.
    rewrite Hm at 1. rewrite substring_split.
    rewrite (substring_past s (i + (String.length s - i))) by lia.
    apply append_empty.
Qed.

Lemma concat_cons x l : String.concat "" (x :: l) = x ++ String.concat "" l.
Proof. destruct l; simpl; [rewrite append_empty |]; reflexivity. Qed.

Lemma written_app a b : written (a ++ b) = (written a ++ written b)%list.
Proof.
  induction a as [|o a IH]; [reflexivity |].
  destruct o; simpl; rewrite IH; reflexivity.
Qed.

(** From index [i] on, the loop writes the rest of the input in slices of
    1 to 8 characters. *)
Lemma chunkLoop_chunks name toolUseId partialJson i :
  exists chunks,
    written (chunkLoop name toolUseId partialJson i)
      = map (fun c => toolUseEvent name toolUseId (Some c) false) chunks
    /\ Forall (fun c => 1 <= String.length c <= 8) chunks
    /\ String.concat "" chunks = substring i (String.length partialJson - i) partialJson.
Proof.
  funelim (chunkLoop name toolUseId partialJson i).
  - destruct H as [chunks [Hw [Hlen Hcat]]].
    exists (substring i chunkSize partialJson :: chunks).
    rewrite written_app. cbn [written].
    assert (Hd : written (if (10 <? String.length partialJson)%nat then [Delay 8] else []) = [])
      by (destruct (10 <? String.length partialJson)%nat; reflexivity).
    rewrite Hd, Hw. split; [reflexivity |]. split.
    + constructor; [| exact Hlen]. rewrite substring_length. unfold chunkSize. lia.
    + rewrite concat_cons, Hcat.
      destruct (le_lt_dec (String.length partialJson) (i + chunkSize)) as [Hle | Hgt].
      * rewrite (substring_past partialJson (i + chunkSize)) by exact Hle.
        rewrite append_empty. apply substring_clip. exact Hle.
      * assert (Hm : String.length partialJson - i
                     = chunkSize + (String.length partialJson - (i + chunkSize))) by lia.
        rewrite Hm at 1. rewrite substring_split. reflexivity.
  - exists []. split; [reflexivity |]. split; [constructor |].
    rewrite substring_past by lia. reflexivity.
Qed.





End KiroFacts.

(* ===================================================================== *)
(** ** The request builder, the tool-input chunks and the thinking models *)
(* ===================================================================== *)

Module BuilderTheorems.
Import JS Constants RequestBuilder BuilderSpec StringFacts BuilderFacts.

(** C7: the payload that [buildCloudCodeRequest] builds carries a system
    instruction of role "user" with exactly one part.  The text of that part
    starts with the identity preamble [ANTIGRAVITY_SYSTEM_INSTRUCTION]; when
    the converted request carries system text (the non-empty texts of the
    parts of its system instruction, one per line), the text is the preamble,
    a blank line and that text, and otherwise it is the preamble itself. *)
Theorem system_instruction_preamble {E : Env}
    (anthropicRequest : @AnthropicRequest E) (projectId uuid : string) :
  let payload := buildCloudCodeRequest anthropicRequest projectId uuid in
  let callerText := callerSystemText (convertAnthropicToGoogle E anthropicRequest) in
  exists text,
    systemInstruction (request payload)
      = Some {| si_role := Some "user"; si_parts := Some [ {| part_text := Some text |} ] |}
    /\ (exists rest, text = ANTIGRAVITY_SYSTEM_INSTRUCTION ++ rest)
    /\ (callerText <> "" ->
        text = ANTIGRAVITY_SYSTEM_INSTRUCTION ++ blankLine ++ callerText)
    /\ (callerText = "" -> text = ANTIGRAVITY_SYSTEM_INSTRUCTION).
Proof.
  cbv zeta. eexists. split; [reflexivity |].
  rewrite systemInstructionText_cases.
  destruct (truthy (callerSystemText (convertAnthropicToGoogle E anthropicRequest))) eqn:Ht.
  - split; [apply startsWith_iff, startsWith_app |]. split; [reflexivity |].
    intros H. apply truthy_false in H. congruence.
  - apply truthy_false in Ht. split; [apply startsWith_iff, startsWith_refl |].
    split; [| reflexivity]. intros H. contradiction.
Qed.

(** The caller's text of a system instruction of four parts, of which one
    has no text and one an empty text. *)
Example caller_system_text :
  linesOf [ {| part_text := Some "Be brief." |}; {| part_text := None |};
            {| part_text := Some "" |}; {| part_text := Some "Use tabs." |} ]
    = "Be brief." ++ lineBreak ++ "Use tabs.".
Proof. reflexivity. Qed.

End BuilderTheorems.

Module KiroTheorems.
Import JS Anthropic Kiro KiroSpec KiroFacts BuilderFacts.



(** The frames written in that run. *)
Example tool_input_frames :
  written (fst (streamAnthropicToKiro
                  [ message_start "msg_1" "claude-sonnet-4-5" (Some 12%Z) None;
                    content_block_start 0 (tool_use_block (Some "toolu_1") (Some "read_file"));
                    content_block_delta 0 (input_json_delta (Some "{'path': 'a/b.txt'}"));
                    content_block_stop 0;
                    message_delta (Some "tool_use") (Some 7%Z);
                    message_stop ]
                  None))
  = [ toolUseEvent (Some "read_file") (Some "toolu_1") None false;
      toolUseEvent (Some "read_file") (Some "toolu_1") (Some "{'path':") false;
      toolUseEvent (Some "read_file") (Some "toolu_1") (Some " 'a/b.tx") false;
      toolUseEvent (Some "read_file") (Some "toolu_1") (Some "t'}") false;
      toolUseEvent (Some "read_file") (Some "toolu_1") None true;
      meteringEvent 19;
      contextUsageEvent 12 ].
Proof. vm_compute. reflexivity. Qed.

End KiroTheorems.

Module ThinkingTheorems.
Import JS Constants ThinkingSpec StringFacts ThinkingFacts.

(** C10 (amended): [isThinkingModel(m)] is true exactly when a name is given
    and, in lower case, it contains "claude" and "thinking", or contains "gemini"
    and either contains "thinking" or the match of [gemini-(\d+)] (the
    leftmost one, with all its digits) has a number of at least 3.  So a
    name whose leftmost match is [gemini-N] with [N >= 3] is a thinking
    model whatever else it contains, and [sendMessage] sends it to the SSE
    path; a missing name is not a thinking model; and every thinking model
    satisfies the condition read with any occurrence of [gemini-N]. *)
Theorem thinking_model_iff :
  (forall m, isThinkingModel m = true
             <-> exists name, m = Some name /\ ThinkingName (lowerCase name))
  /\ (forall model ds,
        LeftmostVersion (lowerCase model) ds -> (3 <= decimalValue ds)%Z ->
        isThinkingModel (Some model) = true
        /\ forall endpoint,
             MessageHandler.endpointUrl (isThinkingModel (Some model)) endpoint
               = endpoint ++ "/v1internal:streamGenerateContent?alt=sse"
             /\ MessageHandler.acceptFor (isThinkingModel (Some model)) = "text/event-stream")
  /\ isThinkingModel None = false
  /\ (forall model, isThinkingModel (Some model) = true ->
                    ThinkingNameAnyVersion (lowerCase model)).
Proof.
  split; [exact isThinkingModel_iff |]. split; [| split; [reflexivity |]].
  - intros model ds Hv Hn.
    assert (Ht : isThinkingModel (Some model) = true).
    { apply isThinkingModel_iff. exists model. split; [reflexivity |]. right. split.
      - apply (contains_prefix _ "gemini" ("-" ++ ds)), leftmost_contains, Hv.
      - right. exists ds. split; assumption. }
    split; [exact Ht |]. intros endpoint. rewrite Ht. split; reflexivity.
  - intros model H. apply isThinkingModel_iff in H.
    destruct H as (name & Heq & H). injection Heq as <-.
    apply thinkingName_anyVersion, H.
Qed.

(** C10 fails as stated: the name below contains "gemini" and [gemini-3], so
    it satisfies the condition read with any occurrence of [gemini-N], but
    the match that the source reads is the leftmost one, [gemini-2], and it
    is no thinking model. *)
Lemma thinking_model_second_version :
  isThinkingModel (Some "gemini-2-gemini-3") = false
  /\ ThinkingNameAnyVersion (lowerCase "gemini-2-gemini-3").
Proof.
  split; [reflexivity |]. right. split.
  - exists "", "-2-gemini-3". reflexivity.
  - right. exists "3". split; [discriminate |]. split.
    + split; [exists 3%Z; reflexivity | exact I].
    + split; [exists "gemini-2-", ""; reflexivity | cbn; lia].
Qed.

(** Names of the two kinds, and names that are not of a thinking model. *)
Example thinking_model_names :
  isThinkingModel (Some "gemini-3-pro-high") = true
  /\ isThinkingModel (Some "Gemini-10-Flash") = true
  /\ isThinkingModel (Some "claude-opus-4-5-thinking") = true
  /\ isThinkingModel (Some "gemini-2.5-flash-thinking") = true
  /\ isThinkingModel (Some "gemini-2.5-flash") = false
  /\ isThinkingModel (Some "claude-sonnet-4-5") = false
  /\ isThinkingModel (Some "") = false.
Proof. repeat split. Qed.

End ThinkingTheorems.

(** ** The effect monad *)

Module MonadFacts.
Import Trace Measure.

Section Facts.
Context {E : Env}.

Lemma bind_ext {A B} (m : M A) (f g : A -> M B) s :
  (forall a s', f a s' = g a s') -> bind m f s = bind m g s.
Proof.
  intros H. unfold bind. destruct (outcome (m s)); [rewrite H |]; reflexivity.
Qed.

Lemma tryCatch_ext {A} (m m' : M A) (h : JsError -> M A) s :
  m s = m' s -> tryCatch m h s = tryCatch m' h s.
Proof. intros H. unfold tryCatch. rewrite H. reflexivity. Qed.

(** *** Running a sequence from its head *)

Lemma prepend_nil {A} (r : Run A) : prepend [] r = r.
Proof. destruct r. reflexivity. Qed.

Lemma prepend_prepend {A} a b (r : Run A) :
  prepend a (prepend b r) = prepend (a ++ b) r.
Proof. unfold prepend. simpl. rewrite app_assoc. reflexivity. Qed.

Lemma run_bind_assoc {A B C} (m : M A) (f : A -> M B) (g : B -> M C) s :
  bind (bind m f) g s = bind m (fun a => bind (f a) g) s.
Proof.
  unfold bind. destruct (outcome (m s)) as [a|e]; simpl; [| reflexivity].
  destruct (outcome (f a (final (m s)))); simpl; [rewrite app_assoc |]; reflexivity.
Qed.

Lemma run_bind_ret {A B} (a : A) (f : A -> M B) s : bind (ret a) f s = f a s.
Proof. unfold bind. simpl. apply (prepend_nil (f a s)). Qed.

Lemma run_bind_throw {A B} e (f : A -> M B) s : bind (throw e) f s = throw e s.
Proof. reflexivity. Qed.

Lemma run_bind_emit {B} a (f : unit -> M B) s :
  bind (emit a) f s = prepend [a] (f tt s).
Proof. reflexivity. Qed.

Lemma run_bind_update {B} g (f : unit -> M B) s :
  bind (update g) f s = f tt (setWorld s (g (world s))).
Proof. unfold bind. simpl. apply (prepend_nil (f tt _)). Qed.

Lemma run_bind_read {A B} (g : World E -> A) (f : A -> M B) s :
  bind (read g) f s = f (g (world s)) s.
Proof. unfold bind. simpl. apply (prepend_nil (f _ s)). Qed.

Lemma run_bind_call {A B} (g : World E -> A * World E) (f : A -> M B) s a w :
  g (world s) = (a, w) -> bind (call g) f s = f a (setWorld s w).
Proof. intros H. unfold bind, call. rewrite H. simpl. apply (prepend_nil (f a _)). Qed.

Lemma run_bind_await {A B} (g : World E -> (JsError + A) * World E) (f : A -> M B) s a w :
  g (world s) = (inr a, w) -> bind (await g) f s = f a (setWorld s w).
Proof. intros H. unfold bind, await. rewrite H. simpl. apply (prepend_nil (f a _)). Qed.

Lemma run_bind_await_error {A B} (g : World E -> (JsError + A) * World E) (f : A -> M B) s e w :
  g (world s) = (inl e, w) -> bind (await g) f s = throw e (setWorld s w).
Proof. intros H. unfold bind, await. rewrite H. reflexivity. Qed.

Lemma run_bind_getLastError {B} (f : option JsError -> M B) s :
  bind getLastError f s = f (lastError s) s.
Proof. unfold bind. simpl. apply (prepend_nil (f _ s)). Qed.

Lemma run_bind_setLastError {B} e (f : unit -> M B) s :
  bind (setLastError e) f s
  = f tt {| world := world s; lastError := e; retriedOnce := retriedOnce s |}.
Proof. unfold bind. simpl. apply (prepend_nil (f tt _)). Qed.

Lemma run_bind_getRetriedOnce {B} (f : bool -> M B) s :
  bind getRetriedOnce f s = f (retriedOnce s) s.
Proof. unfold bind. simpl. apply (prepend_nil (f _ s)). Qed.

Lemma run_bind_setRetriedOnce {B} b (f : unit -> M B) s :
  bind (setRetriedOnce b) f s
  = f tt {| world := world s; lastError := lastError s; retriedOnce := b |}.
Proof. unfold bind. simpl. apply (prepend_nil (f tt _)). Qed.

Lemma run_bind_prepend {A B} (m : M A) (f : A -> M B) s tr (r : Run A) :
  m s = prepend tr r ->
  bind m f s
  = prepend tr (match outcome r with
                | Ok a => prepend (trace r) (f a (final r))
                | Throw e => {| trace := trace r; final := final r; outcome := Throw e |}
                end).
Proof.
  intros H. unfold bind. rewrite H. unfold prepend. simpl.
  destruct (outcome r); simpl; [rewrite app_assoc |]; reflexivity.
Qed.

Lemma run_bind_then {A B} (m : M A) (f : A -> M B) s tr a s' :
  m s = prepend tr (ret a s') -> bind m f s = prepend tr (f a s').
Proof.
  intros H. unfold bind. rewrite H. unfold prepend. simpl.
  rewrite app_nil_r. reflexivity.
Qed.

Lemma run_bind_thrown {A B} (m : M A) (f : A -> M B) s tr e s' :
  m s = prepend tr (throw e s') -> bind m f s = prepend tr (throw e s').
Proof.
  intros H. unfold bind. rewrite H. unfold prepend. simpl.
  rewrite app_nil_r. reflexivity.
Qed.

Lemma run_tryCatch_ok {A} (m : M A) h s tr a s' :
  m s = prepend tr (ret a s') -> tryCatch m h s = prepend tr (ret a s').
Proof. intros H. unfold tryCatch. rewrite H. reflexivity. Qed.

Lemma run_tryCatch_throw {A} (m : M A) h s tr e s' :
  m s = prepend tr (throw e s') -> tryCatch m h s = prepend tr (h e s').
Proof.
  intros H. unfold tryCatch. rewrite H. unfold prepend. simpl.
  rewrite app_nil_r. reflexivity.
Qed.

Lemma fetches_app (a b : list (@Action E)) : fetches (a ++ b) = fetches a + fetches b.
Proof. unfold fetches. rewrite filter_app, length_app. reflexivity. Qed.

Lemma attempts_app (a b : list (@Action E)) : attempts (a ++ b) = attempts a + attempts b.
Proof. unfold attempts. rewrite filter_app, length_app. reflexivity. Qed.

Lemma yielded_app (a b : list (@Action E)) : yielded (a ++ b) = (yielded a ++ yielded b)%list.
Proof.
  induction a as [|x a IH]; [reflexivity |].
  destruct x; simpl; rewrite IH; reflexivity.
Qed.

Lemma entered_app (a b : list (@Action E)) : entered (a ++ b) = (entered a ++ entered b)%list.
Proof.
  induction a as [|x a IH]; [reflexivity |].
  destruct x; simpl; rewrite IH; reflexivity.
Qed.

Lemma steps_app (a b : list (@Action E)) : steps (a ++ b) = (steps a ++ steps b)%list.
Proof. apply map_app. Qed.

(** *** Bounds on the number of upstream calls *)

Section Measure.
Variable P : Potential.

Local Abbreviation Bound := (Bound P).

Lemma bound_weaken {A} k n (m : M A) : Bound k m -> k <= n -> Bound n m.
Proof. intros H Hle s. specialize (H s). lia. Qed.

Lemma bound_ret {A} n (a : A) : Bound n (ret a).
Proof. intros s. simpl. lia. Qed.

Lemma bound_throw {A} n e : Bound n (@throw E A e).
Proof. intros s. simpl. lia. Qed.

Lemma bound_emit a : Bound (fetches [a]) (emit a).
Proof. intros s. simpl. lia. Qed.

Lemma bound_update n f : Bound n (update f).
Proof. intros s. simpl. rewrite phi_world. unfold fetches. simpl. lia. Qed.

Lemma bound_read {A} n (f : World E -> A) : Bound n (read f).
Proof. intros s. simpl. lia. Qed.

Lemma bound_call {A} n (f : World E -> A * World E) : Bound n (call f).
Proof.
  intros s. unfold call. destruct (f (world s)). simpl.
  rewrite phi_world. unfold fetches. simpl. lia.
Qed.

Lemma bound_await {A} n (f : World E -> (JsError + A) * World E) : Bound n (await f).
Proof.
  intros s. unfold await. destruct (f (world s)). simpl.
  rewrite phi_world. unfold fetches. simpl. lia.
Qed.

Lemma bound_getLastError n : Bound n getLastError.
Proof. intros s. simpl. lia. Qed.

Lemma bound_setLastError n e : Bound n (setLastError e).
Proof. intros s. simpl. rewrite phi_lastError. unfold fetches. simpl. lia. Qed.

Lemma bound_getRetriedOnce n : Bound n getRetriedOnce.
Proof. intros s. simpl. lia. Qed.

Lemma bound_bind {A B} k n (m : M A) (f : A -> M B) :
  Bound k m -> k <= n -> (forall a, Bound (n - k) (f a)) -> Bound n (bind m f).
Proof.
  intros Hm Hle Hf s. unfold bind. specialize (Hm s).
  destruct (outcome (m s)) as [a|e]; simpl.
  - rewrite fetches_app. specialize (Hf a (final (m s))). lia.
  - lia.
Qed.

Lemma bound_tryCatch {A} k n (m : M A) (h : JsError -> M A) :
  Bound k m -> k <= n -> (forall e, Bound (n - k) (h e)) -> Bound n (tryCatch m h).
Proof.
  intros Hm Hle Hh s. unfold tryCatch. specialize (Hm s).
  destruct (outcome (m s)) as [a|e]; simpl.
  - lia.
  - rewrite fetches_app. specialize (Hh e (final (m s))). lia.
Qed.

End Measure.

Lemma bound_setRetriedOnce_none n b : Bound noPotential n (setRetriedOnce b).
Proof. intros s. simpl. lia. Qed.

Lemma bound_setRetriedOnce_true n : Bound retryPotential n (setRetriedOnce true).
Proof. intros s. simpl. destruct (retriedOnce s); unfold fetches; simpl; lia. Qed.

(** *** Runs whose every action satisfies a test *)

Section Only.
Variable p : @Action E -> bool.

Local Abbreviation Only := (Only p).

Lemma only_ret {A} (a : A) : Only (ret a).
Proof. intros s. reflexivity. Qed.

Lemma only_throw {A} e : Only (@throw E A e).
Proof. intros s. reflexivity. Qed.

Lemma only_emit a : p a = true -> Only (emit a).
Proof. intros H s. simpl. rewrite H. reflexivity. Qed.

Lemma only_update f : Only (update f).
Proof. intros s. reflexivity. Qed.

Lemma only_read {A} (f : World E -> A) : Only (read f).
Proof. intros s. reflexivity. Qed.

Lemma only_call {A} (f : World E -> A * World E) : Only (call f).
Proof. intros s. unfold call. destruct (f (world s)). reflexivity. Qed.

Lemma only_await {A} (f : World E -> (JsError + A) * World E) : Only (await f).
Proof. intros s. unfold await. destruct (f (world s)). reflexivity. Qed.

Lemma only_getLastError : Only getLastError.
Proof. intros s. reflexivity. Qed.

Lemma only_setLastError e : Only (setLastError e).
Proof. intros s. reflexivity. Qed.

Lemma only_getRetriedOnce : Only getRetriedOnce.
Proof. intros s. reflexivity. Qed.

Lemma only_setRetriedOnce b : Only (setRetriedOnce b).
Proof. intros s. reflexivity. Qed.

Lemma only_bind {A B} (m : M A) (f : A -> M B) :
  Only m -> (forall a, Only (f a)) -> Only (bind m f).
Proof.
  intros Hm Hf s. unfold bind. specialize (Hm s).
  destruct (outcome (m s)) as [a|e]; simpl; [| exact Hm].
  rewrite forallb_app, Hm. apply Hf.
Qed.

Lemma only_tryCatch {A} (m : M A) (h : JsError -> M A) :
  Only m -> (forall e, Only (h e)) -> Only (tryCatch m h).
Proof.
  intros Hm Hh s. unfold tryCatch. specialize (Hm s).
  destruct (outcome (m s)) as [a|e]; simpl; [exact Hm |].
  rewrite forallb_app, Hm. apply Hh.
Qed.

End Only.

Lemma no_yield_yielded (tr : list (@Action E)) :
  forallb (fun a => negb (isYield a)) tr = true -> yielded tr = [].
Proof.
  induction tr as [|a tr IH]; [reflexivity |].
  simpl. destruct a; simpl; try exact IH. discriminate.
Qed.

Lemma no_fetch_fetches (tr : list (@Action E)) :
  forallb (fun a => negb (isFetch a)) tr = true -> fetches tr = 0.
Proof.
  unfold fetches. induction tr as [|a tr IH]; [reflexivity |].
  simpl. destruct a; simpl; try exact IH. discriminate.
Qed.

Lemma plain_marks (tr : list (@Action E)) :
  forallb plain tr = true -> attempts tr = 0 /\ entered tr = [].
Proof.
  unfold attempts. induction tr as [|a tr IH]; [split; reflexivity |].
  simpl. destruct a; simpl; try exact IH; discriminate.
Qed.

Lemma no_attempt_attempts (tr : list (@Action E)) :
  forallb (fun a => negb (isAttempt a)) tr = true -> attempts tr = 0.
Proof.
  unfold attempts. induction tr as [|a tr IH]; [reflexivity |].
  simpl. destruct a; simpl; try exact IH. discriminate.
Qed.

End Facts.
End MonadFacts.

(** ** The building blocks of the handlers *)

Module CallFacts.
Import JS Constants RequestBuilder Calls Trace Measure MonadFacts.

(** A leaf of a bound: a primitive of the monad, with the bound [0] when it
    is still open, or a lemma of the hint base. *)
Ltac bound_leaf :=
  first
    [ apply bound_emit
    | apply (bound_ret _ 0) | apply (bound_throw _ 0) | apply (bound_update _ 0)
    | apply (bound_read _ 0) | apply (bound_call _ 0) | apply (bound_await _ 0)
    | apply (bound_getLastError _ 0) | apply (bound_setLastError _ 0)
    | apply (bound_getRetriedOnce _ 0)
    | apply (bound_setRetriedOnce_none 0) | apply (bound_setRetriedOnce_true 0)
    | solve [eauto with bounds] ].

Ltac arith := cbn [fetches filter isFetch List.length Nat.sub Nat.add]; lia.

(** A bound by the structure of the code: the first part of a sequence is a
    leaf, and takes its share of the bound; both branches of a test get the
    whole of it. *)
Ltac bound :=
  lazymatch goal with
  | |- Bound _ _ (bind (if ?c then _ else _) _) => destruct c; bound
  | |- Bound _ _ (bind (match ?x with _ => _ end) _) => destruct x; bound
  | |- Bound _ _ (bind _ _) =>
      eapply bound_bind; [ bound_leaf | arith | intros; bound ]
  | |- Bound _ _ (tryCatch _ _) =>
      eapply bound_tryCatch; [ bound_leaf | arith | intros; bound ]
  | |- Bound _ _ (if ?c then _ else _) => destruct c; bound
  | |- Bound _ _ (match ?x with _ => _ end) => destruct x; bound
  | |- Bound _ _ (let _ := _ in _) => cbv zeta; bound
  | |- Bound _ _ _ => eapply bound_weaken; [ bound_leaf | arith ]
  end.

(** The same for the absence of a kind of action. *)
Ltac only_leaf :=
  first
    [ apply only_emit; solve [ auto | reflexivity ]
    | apply only_ret | apply only_throw | apply only_update | apply only_read
    | apply only_call | apply only_await | apply only_getLastError
    | apply only_setLastError | apply only_getRetriedOnce | apply only_setRetriedOnce
    | solve [eauto with onlys] ].

Ltac scan :=
  lazymatch goal with
  | |- Only _ (bind _ _) => apply only_bind; [ scan | intros; scan ]
  | |- Only _ (tryCatch _ _) => apply only_tryCatch; [ scan | intros; scan ]
  | |- Only _ (if ?c then _ else _) => destruct c; scan
  | |- Only _ (match ?x with _ => _ end) => destruct x; scan
  | |- Only _ (let _ := _ in _) => cbv zeta; scan
  | |- Only _ _ => only_leaf
  end.

Create HintDb bounds.
Create HintDb onlys.

Section Facts.
Context {E : Env}.
Variable P : @Potential E.
Variable p : @Action E -> bool.

Lemma postJson_bound url token model accept payload :
  Bound P 1 (postJson url token model accept payload).
Proof. unfold postJson. bound. Qed.

Lemma sleepMs_bound ms : Bound P 0 (sleepMs ms).
Proof. unfold sleepMs. bound. Qed.

Lemma isoString_bound t : Bound P 0 (isoString t).
Proof. unfold isoString. bound. Qed.

Lemma isoString_only t : Only p (isoString t).
Proof. unfold isoString. scan. Qed.

Lemma markLimited_bound account resetMs model : Bound P 0 (markLimited account resetMs model).
Proof. unfold markLimited. bound. Qed.

Lemma clearCaches_bound account : Bound P 0 (clearCaches account).
Proof. unfold clearCaches. bound. Qed.

Lemma pickNextAccount_bound model : Bound P 0 (pickNextAccount model).
Proof. unfold pickNextAccount. bound. Qed.

Lemma yieldAll_bound evs : Bound P 0 (yieldAll evs).
Proof.
  induction evs as [|ev evs IH]; simpl; [bound |].
  eapply bound_bind; [bound_leaf | arith | intros; exact IH].
Qed.

Lemma yieldStream_bound response model : Bound P 0 (yieldStream response model).
Proof.
  unfold yieldStream.
  eapply bound_bind; [bound_leaf | arith | intros r].
  eapply bound_bind; [apply yieldAll_bound | arith | intros _]. bound.
Qed.

Lemma postJson_only url token model accept payload :
  (forall u h b, p (AFetch u h b) = true) ->
  Only p (postJson url token model accept payload).
Proof. intros H. unfold postJson. scan. Qed.

Lemma sleepMs_only ms : p (ASleep ms) = true -> Only p (sleepMs ms).
Proof. intros H. unfold sleepMs. scan. Qed.

Lemma markLimited_only account resetMs model :
  (forall e r m, p (AMarkRateLimited e r m) = true) ->
  Only p (markLimited account resetMs model).
Proof. intros H. unfold markLimited. scan. Qed.

Lemma clearCaches_only account :
  (forall e, p (AClearTokenCache e) = true) ->
  (forall e, p (AClearProjectCache e) = true) ->
  Only p (clearCaches account).
Proof. intros H1 H2. unfold clearCaches. scan. Qed.

Lemma pickNextAccount_only model :
  p (APickNext model) = true -> Only p (pickNextAccount model).
Proof. intros H. unfold pickNextAccount. scan. Qed.

Lemma yieldAll_only evs :
  (forall ev, p (AYield ev) = true) -> Only p (yieldAll evs).
Proof.
  intros H. induction evs as [|ev evs IH]; simpl; [scan |].
  apply only_bind; [scan | intros; exact IH].
Qed.

Lemma yieldStream_only response model :
  (forall ev, p (AYield ev) = true) -> Only p (yieldStream response model).
Proof.
  intros H. unfold yieldStream.
  apply only_bind; [scan | intros r].
  apply only_bind; [apply yieldAll_only, H | intros _]. scan.
Qed.

End Facts.

#[export] Hint Resolve postJson_bound sleepMs_bound isoString_bound markLimited_bound
  clearCaches_bound pickNextAccount_bound yieldAll_bound yieldStream_bound : bounds.
#[export] Hint Resolve isoString_only : onlys.

(** The blocks emit none of the two ghost marks. *)
Section Plain.
Context {E : Env}.

Lemma postJson_plain url token model accept (payload : @Payload E) :
  Only plain (postJson url token model accept payload).
Proof. apply postJson_only. reflexivity. Qed.

Lemma sleepMs_plain ms : Only (@plain E) (sleepMs ms).
Proof. apply sleepMs_only. reflexivity. Qed.

Lemma markLimited_plain (account : Account E) resetMs model :
  Only plain (markLimited account resetMs model).
Proof. apply markLimited_only. reflexivity. Qed.

Lemma clearCaches_plain (account : Account E) : Only plain (clearCaches account).
Proof. apply clearCaches_only; reflexivity. Qed.

Lemma pickNextAccount_plain model : Only (@plain E) (pickNextAccount model).
Proof. apply pickNextAccount_only. reflexivity. Qed.

Lemma yieldAll_plain evs : Only (@plain E) (yieldAll evs).
Proof. apply yieldAll_only. reflexivity. Qed.

Lemma yieldStream_plain (response : Response E) model :
  Only plain (yieldStream response model).
Proof. apply yieldStream_only. reflexivity. Qed.

End Plain.

#[export] Hint Resolve postJson_plain sleepMs_plain markLimited_plain clearCaches_plain
  pickNextAccount_plain yieldAll_plain yieldStream_plain : onlys.

End CallFacts.

(** ** The streaming handler: calls and marks of one attempt *)

Module StreamFacts.
Import JS Constants RequestBuilder Calls Trace Measure MonadFacts CallFacts StreamingHandler.

Section Facts.
Context {E : Env}.

Lemma stream_fallback_bound model :
  Bound noPotential 0 (emitEmptyResponseFallback model).
Proof. unfold emitEmptyResponseFallback. bound. Qed.

Lemma stream_fallback_plain model : Only plain (emitEmptyResponseFallback model).
Proof. unfold emitEmptyResponseFallback. scan. Qed.

Hint Resolve stream_fallback_bound : bounds.
Hint Resolve stream_fallback_plain : onlys.

Variable anthropicRequest : @AnthropicRequest E.
Variable account : Account E.
Variable token : string.
Variable payload : @Payload E.

Lemma stream_post_bound url :
  Bound noPotential 1 (post anthropicRequest token payload url).
Proof. unfold post. apply postJson_bound. Qed.

Lemma stream_post_plain url : Only plain (post anthropicRequest token payload url).
Proof. unfold post. apply postJson_plain. Qed.

Hint Resolve stream_post_bound : bounds.
Hint Resolve stream_post_plain : onlys.

Lemma onStreamError_bound url k e :
  Bound noPotential 2 (onStreamError anthropicRequest account token payload url k e).
Proof. unfold onStreamError. bound. Qed.

(** On the last turn of the loop the [catch] block makes no call. *)
Lemma onStreamError_last url k e :
  MAX_EMPTY_RESPONSE_RETRIES <= k ->
  Bound noPotential 0 (onStreamError anthropicRequest account token payload url k e).
Proof.
  intros Hk. unfold onStreamError.
  destruct (negb (isEmptyResponseError E e)); [bound |].
  destruct (MAX_EMPTY_RESPONSE_RETRIES <=? k)%nat eqn:Hle; [bound |].
  apply Nat.leb_gt in Hle. lia.
Qed.

Lemma onStreamError_plain url k e :
  Only plain (onStreamError anthropicRequest account token payload url k e).
Proof. unfold onStreamError. scan. Qed.

Hint Resolve onStreamError_bound : bounds.
Hint Resolve onStreamError_plain : onlys.

(** The empty-response loop makes two calls for each turn but the last. *)
Lemma streamWithEmptyRetries_bound url : forall remaining k response,
  k + remaining = S MAX_EMPTY_RESPONSE_RETRIES ->
  Bound noPotential (2 * (remaining - 1))
    (streamWithEmptyRetries anthropicRequest account token payload url remaining k response).
Proof.
  induction remaining as [|r IH]; intros k response Hk; cbn [streamWithEmptyRetries].
  - bound.
  - destruct r as [|r'].
    + eapply bound_bind with (k := 0); [| arith |].
      * eapply bound_tryCatch with (k := 0); [bound | arith |].
        intros e. apply onStreamError_last. lia.
      * intros step. destruct step; cbn [streamWithEmptyRetries]; bound.
    + eapply bound_bind with (k := 2); [| arith |].
      * eapply bound_tryCatch with (k := 0); [bound | arith |].
        intros e. apply onStreamError_bound.
      * intros step. destruct step; [bound | bound |].
        eapply bound_weaken; [apply IH; lia | arith].
Qed.

Lemma streamWithEmptyRetries_plain url : forall remaining k response,
  Only plain
    (streamWithEmptyRetries anthropicRequest account token payload url remaining k response).
Proof.
  induction remaining as [|r IH]; intros k response; cbn [streamWithEmptyRetries].
  - scan.
  - apply only_bind; [scan |]. intros step. destruct step; [scan | scan | apply IH].
Qed.

Lemma stream_on429_bound url response errorText :
  Bound noPotential 1 (on429 anthropicRequest account token payload url response errorText).
Proof. unfold on429. bound. Qed.

Lemma stream_on429_plain url response errorText :
  Only plain (on429 anthropicRequest account token payload url response errorText).
Proof. unfold on429. scan. Qed.

Hint Resolve stream_on429_bound : bounds.
Hint Resolve stream_on429_plain streamWithEmptyRetries_plain : onlys.

(** One endpoint costs at most five calls: its own, and two for each of the
    two empty-response retries. *)
Lemma stream_tryEndpoint_bound endpoint :
  Bound noPotential 5 (tryEndpoint anthropicRequest account token payload endpoint).
Proof.
  unfold tryEndpoint. cbv zeta.
  eapply bound_bind; [bound_leaf | arith |]. intros response.
  destruct (negb (ok response)); [bound |].
  eapply bound_weaken; [apply streamWithEmptyRetries_bound; reflexivity |].
  unfold MAX_EMPTY_RESPONSE_RETRIES. arith.
Qed.

Lemma stream_tryEndpoint_plain endpoint :
  Only plain (tryEndpoint anthropicRequest account token payload endpoint).
Proof. unfold tryEndpoint. scan. Qed.

Lemma stream_onEndpointError_bound e : Bound noPotential 0 (onEndpointError e).
Proof. unfold onEndpointError. bound. Qed.

Lemma stream_onEndpointError_plain e : Only plain (onEndpointError e).
Proof. unfold onEndpointError. scan. Qed.

Hint Resolve stream_tryEndpoint_plain stream_onEndpointError_plain : onlys.

Lemma stream_endpointLoop_bound endpoints :
  Bound noPotential (5 * List.length endpoints)
    (endpointLoop anthropicRequest account token payload endpoints).
Proof.
  induction endpoints as [|endpoint rest IH]; cbn [endpointLoop].
  - bound.
  - eapply bound_bind with (k := 5); [| cbn [List.length]; lia |].
    + eapply bound_tryCatch with (k := 5);
        [ apply stream_tryEndpoint_bound | lia
        | intros; eapply bound_weaken; [apply stream_onEndpointError_bound | lia] ].
    + intros c. destruct c; [bound |].
      eapply bound_weaken; [exact IH | cbn [List.length]; lia].
Qed.

Lemma stream_endpointLoop_plain endpoints :
  Only plain (endpointLoop anthropicRequest account token payload endpoints).
Proof.
  induction endpoints as [|endpoint rest IH]; cbn [endpointLoop].
  - scan.
  - apply only_bind; [scan |]. intros c. destruct c; [scan | exact IH].
Qed.

Lemma stream_afterEndpoints_bound :
  Bound noPotential 0 (afterEndpoints anthropicRequest account).
Proof. unfold afterEndpoints. bound. Qed.

Lemma stream_afterEndpoints_plain :
  Only plain (afterEndpoints anthropicRequest account).
Proof. unfold afterEndpoints. scan. Qed.

End Facts.

Section Attempt.
Context {E : Env}.

Lemma stream_tryAttempt_bound anthropicRequest account :
  Bound noPotential (5 * List.length ANTIGRAVITY_ENDPOINT_FALLBACKS)
    (tryAttempt anthropicRequest account).
Proof.
  unfold tryAttempt.
  eapply bound_bind with (k := 0); [bound_leaf | lia |]. intros token.
  eapply bound_bind with (k := 0); [bound_leaf | lia |]. intros project.
  eapply bound_bind with (k := 0); [bound_leaf | lia |]. intros uuid.
  cbv zeta.
  eapply bound_bind with (k := 0); [bound_leaf | lia |]. intros _.
  eapply bound_bind with (k := 0); [bound_leaf | lia |]. intros _.
  eapply bound_bind; [apply stream_endpointLoop_bound | lia |].
  intros c. destruct c; [bound |].
  eapply bound_weaken; [apply stream_afterEndpoints_bound | lia].
Qed.

Lemma stream_tryAttempt_plain anthropicRequest account :
  Only plain (tryAttempt anthropicRequest account).
Proof.
  unfold tryAttempt.
  repeat (apply only_bind; [only_leaf | intros]).
  cbv zeta.
  repeat (apply only_bind; [only_leaf | intros]).
  apply only_bind; [apply stream_endpointLoop_plain |].
  intros c. destruct c; [scan | apply stream_afterEndpoints_plain].
Qed.

Lemma stream_onAttemptError_bound model e : Bound noPotential 0 (onAttemptError model e).
Proof. unfold onAttemptError. bound. Qed.

Lemma stream_onAttemptError_plain model e : Only plain (onAttemptError model e).
Proof. unfold onAttemptError. scan. Qed.

End Attempt.
End StreamFacts.

(** ** A dispatch and its fallback hop *)

Module DispatchFacts.
Import JS Constants RequestBuilder Calls Trace Measure MonadFacts CallFacts.

Section Facts.
Context {E : Env}.

Lemma own_nil nA nF : Own nA nF [].
Proof. unfold Own, attempts, fetches. simpl. repeat split; lia. Qed.

Lemma own_app nA nF mA mF a b : Own nA nF a -> Own mA mF b -> Own (nA + mA) (nF + mF) (a ++ b).
Proof.
  intros (H1 & H2 & H3) (H4 & H5 & H6). unfold Own.
  rewrite attempts_app, fetches_app, entered_app, H3, H6. repeat split; lia.
Qed.

Lemma own_weaken nA nF mA mF a : Own nA nF a -> nA <= mA -> nF <= mF -> Own mA mF a.
Proof. intros (H1 & H2 & H3) ? ?. repeat split; auto; lia. Qed.

Lemma own_plain {A} (m : M A) nF s :
  Only plain m -> Bound noPotential nF m -> Own 0 nF (trace (m s)).
Proof.
  intros Ho Hb. destruct (plain_marks _ (Ho s)) as [Ha He].
  specialize (Hb s). simpl in Hb. repeat split; auto; lia.
Qed.

(** The handler, for its recursive call, and its reading of the fallback
    table. *)
Variable T : Type.
Variable self : @AnthropicRequest E -> bool -> M T.
Variable fallbackModelFor : string -> option string.
Variable anthropicRequest : @AnthropicRequest E.
Variable fallbackEnabled : bool.

Local Abbreviation Hop := (Hop T self fallbackModelFor anthropicRequest fallbackEnabled).
Local Abbreviation Split := (Split T self fallbackModelFor anthropicRequest fallbackEnabled).

Lemma split_own {R} (m : M (Completion R)) nA nF s :
  Only plain m -> Bound noPotential nF m -> Split nA nF (m s).
Proof.
  intros Ho Hb. left. eapply own_weaken; [apply own_plain; eassumption | lia | lia].
Qed.

Lemma split_bind {A R} (m : M A) (f : A -> M (Completion R)) nA nF s :
  Only plain m -> Bound noPotential 0 m ->
  (forall a s', Split nA nF (f a s')) -> Split nA nF (bind m f s).
Proof.
  intros Ho Hb Hf. pose proof (own_plain m 0 s Ho Hb) as Hown.
  unfold bind. destruct (outcome (m s)) as [a|e] eqn:Hout; simpl.
  - destruct (Hf a (final (m s))) as [H | (pre & post & Htr & Hpre & Hhop & Hne)].
    + left. apply (own_app 0 0 nA nF); assumption.
    + right. exists (trace (m s) ++ pre)%list, post. rewrite Htr, app_assoc.
      split; [reflexivity |]. split; [| split; assumption].
      apply (own_app 0 0 nA 0); assumption.
  - left. eapply own_weaken; [exact Hown | lia | lia].
Qed.

Lemma split_attempt_mark {R} (k : M (Completion R)) nA nF no s :
  (forall s', Split nA nF (k s')) ->
  Split (S nA) nF (bind (emit (AAttempt no)) (fun _ => k) s).
Proof.
  intros Hk. unfold bind, emit. simpl.
  assert (Hmark : Own 1 0 [@AAttempt E no])
    by (unfold Own, attempts, fetches; simpl; repeat split; lia).
  destruct (Hk s) as [H | (pre & post & Htr & Hpre & Hhop & Hne)].
  - left. apply (own_app 1 0 nA nF [AAttempt no]); assumption.
  - right. exists (AAttempt no :: pre), post. rewrite Htr.
    split; [reflexivity |]. split; [| split; assumption].
    apply (own_app 1 0 nA 0 [AAttempt no]); assumption.
Qed.

Lemma split_weaken {R} nA nF mF (r : Run (Completion R)) :
  Split nA nF r -> nF <= mF -> Split nA mF r.
Proof.
  intros [H | H] Hle; [left | right; exact H].
  eapply own_weaken; [exact H | lia | lia].
Qed.

End Facts.
End DispatchFacts.

(** ** The streaming handler: the attempt loop and the fallback hop *)

Module StreamDispatch.
Import JS Constants RequestBuilder Calls Trace Measure MonadFacts CallFacts DispatchFacts
  StreamingHandler StreamFacts.

Section Facts.
Context {E : Env}.
Variable self : @AnthropicRequest E -> bool -> M unit.
Variable anthropicRequest : @AnthropicRequest E.
Variable fallbackEnabled : bool.

Local Abbreviation Hop := (Hop unit self fallbackModelFor anthropicRequest fallbackEnabled).
Local Abbreviation Split := (Split unit self fallbackModelFor anthropicRequest fallbackEnabled).

Lemma stream_onNoAccounts_split s :
  Split 0 0 (onNoAccounts self anthropicRequest fallbackEnabled s).
Proof.
  unfold onNoAccounts.
  apply split_bind; [scan | bound |]. intros allLimited s1.
  destruct allLimited; [| apply split_own; [scan | bound]].
  apply split_bind; [scan | bound |]. intros minWaitMs s2.
  apply split_bind; [scan | bound |]. intros now s3.
  apply split_bind; [scan | bound |]. intros resetTime s4.
  destruct (minWaitMs >? MAX_WAIT_BEFORE_ERROR_MS)%Z; [| apply split_own; [scan | bound]].
  destruct fallbackEnabled eqn:Hfb; [| apply split_own; [scan | bound]].
  destruct (fallbackModelFor (model anthropicRequest)) as [fm|] eqn:Hfm;
    [| apply split_own; [scan | bound]].
  right. exists [], (trace (self (withModel anthropicRequest fm) false s4)).
  unfold bind. destruct (outcome (self (withModel anthropicRequest fm) false s4)); simpl.
  - rewrite app_nil_r. split; [reflexivity |]. split; [apply own_nil |].
    split; [exists fm, s4; auto | discriminate].
  - split; [reflexivity |]. split; [apply own_nil |].
    split; [exists fm, s4; auto | discriminate].
Qed.

Lemma stream_attempt_split no s :
  Split 1 (5 * List.length ANTIGRAVITY_ENDPOINT_FALLBACKS)
    (attempt self anthropicRequest fallbackEnabled no s).
Proof.
  unfold attempt. apply split_attempt_mark. intros s0.
  apply split_bind; [scan | bound |]. intros _ s1.
  apply split_bind; [scan | bound |]. intros availableAccounts s2.
  destruct availableAccounts as [|a l].
  - eapply split_weaken; [apply stream_onNoAccounts_split | lia].
  - apply split_bind; [scan | bound |]. intros sticky s3.
    apply split_bind; [destruct sticky; scan | destruct sticky; bound |]. intros account s4.
    destruct account as [account|]; [| apply split_own; [scan | bound]].
    apply split_own.
    + apply only_tryCatch; [apply stream_tryAttempt_plain | intros; apply stream_onAttemptError_plain].
    + eapply bound_tryCatch;
        [ apply stream_tryAttempt_bound | lia
        | intros; eapply bound_weaken; [apply stream_onAttemptError_bound | lia] ].
Qed.

(** The attempt loop: at most [remaining] attempts of five calls per
    endpoint, then at most one fallback dispatch. *)
Lemma stream_attemptLoop_split : forall remaining no s,
  exists tr1 tr2,
    trace (attemptLoop self anthropicRequest fallbackEnabled remaining no s) = (tr1 ++ tr2)%list
    /\ Own remaining (remaining * (5 * List.length ANTIGRAVITY_ENDPOINT_FALLBACKS)) tr1
    /\ (tr2 = [] \/ Hop tr2).
Proof.
  induction remaining as [|r IH]; intros no s; cbn [attemptLoop].
  - unfold afterAttempts.
    destruct fallbackEnabled eqn:Hfb;
      [| exists [], []; split; [reflexivity | split; [apply own_nil | left; reflexivity]]].
    destruct (fallbackModelFor (model anthropicRequest)) as [fm|] eqn:Hfm;
      [| exists [], []; split; [reflexivity | split; [apply own_nil | left; reflexivity]]].
    exists [], (trace (self (withModel anthropicRequest fm) false s)).
    split; [reflexivity | split; [apply own_nil | right; exists fm, s; auto]].
  - pose proof (stream_attempt_split no s) as Hsp.
    remember (5 * List.length ANTIGRAVITY_ENDPOINT_FALLBACKS) as per eqn:Hper.
    clear Hper. unfold bind.
    remember (attempt self anthropicRequest fallbackEnabled no s) as r0 eqn:Hr0.
    clear Hr0.
    destruct Hsp as [Hown | (pre & post & Htr & Hpre & Hhop & Hne)];
      destruct (outcome r0) as [[u|]|e] eqn:Hout; cbn [trace final outcome ret].
    + exists (trace r0), [].
      split; [reflexivity | split; [| left; reflexivity]].
      eapply own_weaken; [exact Hown | lia | lia].
    + destruct (IH (S no) (final r0)) as (tr1 & tr2 & Htr & Hown' & Htail).
      exists (trace r0 ++ tr1)%list, tr2.
      rewrite Htr, app_assoc. split; [reflexivity | split; [| exact Htail]].
      eapply own_weaken; [apply (own_app _ _ _ _ _ _ Hown Hown') | lia | lia].
    + exists (trace r0), [].
      rewrite app_nil_r. split; [reflexivity | split; [| left; reflexivity]].
      eapply own_weaken; [exact Hown | lia | lia].
    + exists pre, post. rewrite app_nil_r.
      split; [exact Htr | split; [| right; exact Hhop]].
      eapply own_weaken; [exact Hpre | lia | lia].
    + contradiction Hne. reflexivity.
    + exists pre, post.
      split; [exact Htr | split; [| right; exact Hhop]].
      eapply own_weaken; [exact Hpre | lia | lia].
Qed.

End Facts.
End StreamDispatch.

(** ** The streaming handler: the depth of the dispatch *)

Module StreamDepth.
Import JS Constants RequestBuilder Calls Trace Measure MonadFacts CallFacts DispatchFacts
  StreamingHandler StreamFacts StreamDispatch.

Section Ext.
Context {E : Env}.
Variables self1 self2 : @AnthropicRequest E -> bool -> M unit.
Variable anthropicRequest : @AnthropicRequest E.
Variable fallbackEnabled : bool.

(** The two stand-ins for the recursive call agree on the calls that a
    dispatch with this value of [fallbackEnabled] can make. *)
Hypothesis Hself :
  fallbackEnabled = true -> forall r s, self1 r false s = self2 r false s.

Lemma stream_afterAttempts_ext s :
  afterAttempts self1 anthropicRequest fallbackEnabled s
  = afterAttempts self2 anthropicRequest fallbackEnabled s.
Proof.
  unfold afterAttempts. destruct fallbackEnabled; [| reflexivity].
  destruct (fallbackModelFor (model anthropicRequest)); [| reflexivity].
  apply Hself. reflexivity.
Qed.

Lemma stream_onNoAccounts_ext s :
  onNoAccounts self1 anthropicRequest fallbackEnabled s
  = onNoAccounts self2 anthropicRequest fallbackEnabled s.
Proof.
  unfold onNoAccounts. apply bind_ext. intros allLimited s1.
  destruct allLimited; [| reflexivity].
  apply bind_ext. intros minWaitMs s2. apply bind_ext. intros now s3.
  apply bind_ext. intros resetTime s4.
  destruct (minWaitMs >? MAX_WAIT_BEFORE_ERROR_MS)%Z; [| reflexivity].
  destruct fallbackEnabled; [| reflexivity].
  destruct (fallbackModelFor (model anthropicRequest)); [| reflexivity].
  unfold bind. rewrite Hself by reflexivity. reflexivity.
Qed.

Lemma stream_attempt_ext no s :
  attempt self1 anthropicRequest fallbackEnabled no s
  = attempt self2 anthropicRequest fallbackEnabled no s.
Proof.
  unfold attempt. apply bind_ext. intros _ s1. apply bind_ext. intros _ s2.
  apply bind_ext. intros availableAccounts s3.
  destruct availableAccounts; [apply stream_onNoAccounts_ext | reflexivity].
Qed.

Lemma stream_attemptLoop_ext : forall remaining no s,
  attemptLoop self1 anthropicRequest fallbackEnabled remaining no s
  = attemptLoop self2 anthropicRequest fallbackEnabled remaining no s.
Proof.
  induction remaining as [|r IH]; intros no s; cbn [attemptLoop].
  - apply stream_afterAttempts_ext.
  - unfold bind. rewrite stream_attempt_ext.
    destruct (outcome (attempt self2 anthropicRequest fallbackEnabled no s)) as [[u|]|e];
      [reflexivity | rewrite IH; reflexivity | reflexivity].
Qed.

Lemma stream_body_ext s :
  sendMessageStreamBody self1 anthropicRequest fallbackEnabled s
  = sendMessageStreamBody self2 anthropicRequest fallbackEnabled s.
Proof.
  unfold sendMessageStreamBody. apply bind_ext. intros _ s1.
  apply bind_ext. intros n s2. apply stream_attemptLoop_ext.
Qed.

End Ext.

Section Depth.
Context {E : Env}.

(** A dispatch with its fallback disabled makes no recursive call. *)
Lemma stream_body_flat self1 self2 (anthropicRequest : @AnthropicRequest E) s :
  sendMessageStreamBody self1 anthropicRequest false s
  = sendMessageStreamBody self2 anthropicRequest false s.
Proof. apply stream_body_ext. discriminate. Qed.

(** No dispatch nests deeper than two: the third level is never reached. *)
Lemma stream_depth n base1 base2 (anthropicRequest : @AnthropicRequest E) fallbackEnabled s :
  sendMessageStreamAt (2 + n) base1 anthropicRequest fallbackEnabled s
  = sendMessageStreamAt 2 base2 anthropicRequest fallbackEnabled s.
Proof.
  cbn [sendMessageStreamAt Nat.add]. apply stream_body_ext.
  intros _ r s'. apply stream_body_flat.
Qed.

(** The trace of a dispatch: its entry, its own attempts, and then at most
    one fallback dispatch. *)
Lemma stream_body_split self (anthropicRequest : @AnthropicRequest E) fallbackEnabled s :
  exists own hop,
    trace (sendMessageStreamBody self anthropicRequest fallbackEnabled s)
      = AEnter (model anthropicRequest) fallbackEnabled :: (own ++ hop)%list
    /\ Own (maxAttempts (world s))
           (maxAttempts (world s) * (5 * List.length ANTIGRAVITY_ENDPOINT_FALLBACKS)) own
    /\ (hop = [] \/ Hop unit self fallbackModelFor anthropicRequest fallbackEnabled hop).
Proof.
  unfold sendMessageStreamBody, bind, emit, read. cbn [trace final outcome].
  destruct (stream_attemptLoop_split self anthropicRequest fallbackEnabled
              (maxAttempts (world s)) 0 s) as (own & hop & Htr & Hown & Hhop).
  exists own, hop. rewrite Htr. auto.
Qed.

End Depth.
End StreamDepth.

(** ** The one-shot handler: calls and marks of one attempt *)

Module MessageFacts.
Import JS Constants RequestBuilder Calls Trace Measure MonadFacts CallFacts MessageHandler.

Section Facts.
Context {E : Env}.
Variable anthropicRequest : @AnthropicRequest E.
Variable account : Account E.
Variable token : string.
Variable payload : @Payload E.

Lemma message_post_bound P url :
  Bound P 1 (post anthropicRequest token payload url).
Proof. unfold post. apply postJson_bound. Qed.

Lemma message_post_plain url : Only plain (post anthropicRequest token payload url).
Proof. unfold post. apply postJson_plain. Qed.

Lemma readResponse_bound P response :
  Bound P 0 (readResponse anthropicRequest response).
Proof. unfold readResponse. bound. Qed.

Lemma readResponse_plain response : Only plain (readResponse anthropicRequest response).
Proof. unfold readResponse. scan. Qed.

Hint Resolve message_post_bound readResponse_bound : bounds.
Hint Resolve message_post_plain readResponse_plain : onlys.

(** The retry of a short rate limit is paid by the flag [retriedOnce]: it is
    made only while the flag is unset, and sets it. *)
Lemma bound_retry_once {A} (retry already : M A) :
  Bound retryPotential 1 retry -> Bound retryPotential 0 already ->
  Bound retryPotential 0
    (retried <- getRetriedOnce ;;
     if negb retried then setRetriedOnce true ;;; retry else already).
Proof.
  intros Hretry Halready s. unfold bind, getRetriedOnce, setRetriedOnce.
  cbn [trace final outcome].
  destruct (retriedOnce s) eqn:Hr; cbn [negb app trace final outcome].
  - apply Halready.
  - specialize (Hretry {| world := world s; lastError := lastError s; retriedOnce := true |}).
    cbn [phi retryPotential retriedOnce] in *. rewrite Hr.
    lia.
Qed.

Lemma message_on429_bound url response errorText :
  Bound retryPotential 0
    (on429 anthropicRequest account token payload url response errorText).
Proof.
  unfold on429. cbv zeta.
  destruct (truthyNum _ && _); [bound |].
  apply bound_retry_once; bound.
Qed.

Lemma message_on429_plain url response errorText :
  Only plain (on429 anthropicRequest account token payload url response errorText).
Proof. unfold on429. scan. Qed.

Hint Resolve message_on429_bound : bounds.
Hint Resolve message_on429_plain : onlys.

(** One endpoint costs one call, and the retry if it is still unused. *)
Lemma message_tryEndpoint_bound endpoint :
  Bound retryPotential 1 (tryEndpoint anthropicRequest account token payload endpoint).
Proof. unfold tryEndpoint. bound. Qed.

Lemma message_tryEndpoint_plain endpoint :
  Only plain (tryEndpoint anthropicRequest account token payload endpoint).
Proof. unfold tryEndpoint. scan. Qed.

Lemma message_onEndpointError_bound e : Bound retryPotential 0 (onEndpointError e).
Proof. unfold onEndpointError. bound. Qed.

Lemma message_onEndpointError_plain e : Only plain (onEndpointError e).
Proof. unfold onEndpointError. scan. Qed.

Hint Resolve message_tryEndpoint_plain message_onEndpointError_plain : onlys.

Lemma message_endpointLoop_bound endpoints :
  Bound retryPotential (List.length endpoints)
    (endpointLoop anthropicRequest account token payload endpoints).
Proof.
  induction endpoints as [|endpoint rest IH]; cbn [endpointLoop].
  - bound.
  - eapply bound_bind with (k := 1); [| cbn [List.length]; lia |].
    + eapply bound_tryCatch with (k := 1);
        [ apply message_tryEndpoint_bound | lia
        | intros; eapply bound_weaken; [apply message_onEndpointError_bound | lia] ].
    + intros c. destruct c; [bound |].
      eapply bound_weaken; [exact IH | cbn [List.length]; lia].
Qed.

Lemma message_endpointLoop_plain endpoints :
  Only plain (endpointLoop anthropicRequest account token payload endpoints).
Proof.
  induction endpoints as [|endpoint rest IH]; cbn [endpointLoop].
  - scan.
  - apply only_bind; [scan |]. intros c. destruct c; [scan | exact IH].
Qed.

Lemma message_afterEndpoints_bound :
  Bound retryPotential 0 (afterEndpoints anthropicRequest account).
Proof. unfold afterEndpoints. bound. Qed.

Lemma message_afterEndpoints_plain :
  Only plain (afterEndpoints anthropicRequest account).
Proof. unfold afterEndpoints. scan. Qed.

End Facts.

Section Attempt.
Context {E : Env}.

(** With the flag reset, a block bounded by [n] up to the retry makes at
    most [n + 1] calls. *)
Lemma bound_reset {A} n (k : M A) :
  Bound retryPotential n k ->
  Bound noPotential (n + 1) (setRetriedOnce false ;;; k).
Proof.
  intros Hk s. unfold bind, setRetriedOnce. cbn [trace final outcome app].
  specialize (Hk {| world := world s; lastError := lastError s; retriedOnce := false |}).
  cbn [phi retryPotential noPotential retriedOnce] in *.
  match type of Hk with
  | context [retriedOnce ?s'] => destruct (retriedOnce s'); lia
  end.
Qed.

Lemma message_tryAttempt_bound (anthropicRequest : @AnthropicRequest E) account :
  Bound noPotential (List.length ANTIGRAVITY_ENDPOINT_FALLBACKS + 1)
    (tryAttempt anthropicRequest account).
Proof.
  unfold tryAttempt.
  eapply bound_bind with (k := 0); [bound_leaf | lia |]. intros token.
  eapply bound_bind with (k := 0); [bound_leaf | lia |]. intros project.
  eapply bound_bind with (k := 0); [bound_leaf | lia |]. intros uuid.
  cbv zeta.
  eapply bound_bind with (k := 0); [bound_leaf | lia |]. intros _.
  eapply bound_weaken;
    [apply (bound_reset (List.length ANTIGRAVITY_ENDPOINT_FALLBACKS)) | lia].
  eapply bound_bind; [apply message_endpointLoop_bound | lia |].
  intros c. destruct c; [bound |].
  eapply bound_weaken; [apply message_afterEndpoints_bound | lia].
Qed.

Lemma message_tryAttempt_plain (anthropicRequest : @AnthropicRequest E) account :
  Only plain (tryAttempt anthropicRequest account).
Proof.
  unfold tryAttempt.
  repeat (apply only_bind; [only_leaf | intros]).
  cbv zeta.
  repeat (apply only_bind; [only_leaf | intros]).
  apply only_bind; [apply message_endpointLoop_plain |].
  intros c. destruct c; [scan | apply message_afterEndpoints_plain].
Qed.

Lemma message_onAttemptError_bound model e :
  Bound noPotential 0 (@onAttemptError E model e).
Proof. unfold onAttemptError. bound. Qed.

Lemma message_onAttemptError_plain model e : Only plain (@onAttemptError E model e).
Proof. unfold onAttemptError. scan. Qed.

End Attempt.
End MessageFacts.
(** ** The one-shot handler: the attempt loop and the fallback hop *)

Module MessageDispatch.
Import JS Constants RequestBuilder Calls Trace Measure MonadFacts CallFacts DispatchFacts
  MessageHandler MessageFacts.

Section Facts.
Context {E : Env}.
Variable self : @AnthropicRequest E -> bool -> M (AnthropicResponse E).
Variable anthropicRequest : @AnthropicRequest E.
Variable fallbackEnabled : bool.

Local Abbreviation Hop := (Hop (AnthropicResponse E) self fallbackModelFor anthropicRequest fallbackEnabled).
Local Abbreviation Split := (Split (AnthropicResponse E) self fallbackModelFor anthropicRequest fallbackEnabled).

Lemma message_onNoAccounts_split s :
  Split 0 0 (onNoAccounts self anthropicRequest fallbackEnabled s).
Proof.
  unfold onNoAccounts.
  apply split_bind; [scan | bound |]. intros allLimited s1.
  destruct allLimited; [| apply split_own; [scan | bound]].
  apply split_bind; [scan | bound |]. intros minWaitMs s2.
  apply split_bind; [scan | bound |]. intros now s3.
  apply split_bind; [scan | bound |]. intros resetTime s4.
  destruct (minWaitMs >? MAX_WAIT_BEFORE_ERROR_MS)%Z; [| apply split_own; [scan | bound]].
  destruct fallbackEnabled eqn:Hfb; [| apply split_own; [scan | bound]].
  destruct (fallbackModelFor (model anthropicRequest)) as [fm|] eqn:Hfm;
    [| apply split_own; [scan | bound]].
  right. exists [], (trace (self (withModel anthropicRequest fm) false s4)).
  unfold bind. destruct (outcome (self (withModel anthropicRequest fm) false s4)); simpl.
  - rewrite app_nil_r. split; [reflexivity |]. split; [apply own_nil |].
    split; [exists fm, s4; auto | discriminate].
  - split; [reflexivity |]. split; [apply own_nil |].
    split; [exists fm, s4; auto | discriminate].
Qed.

Lemma message_attempt_split no s :
  Split 1 (List.length ANTIGRAVITY_ENDPOINT_FALLBACKS + 1)
    (attempt self anthropicRequest fallbackEnabled no s).
Proof.
  unfold attempt. apply split_attempt_mark. intros s0.
  apply split_bind; [scan | bound |]. intros _ s1.
  apply split_bind; [scan | bound |]. intros availableAccounts s2.
  destruct availableAccounts as [|a l].
  - eapply split_weaken; [apply message_onNoAccounts_split | lia].
  - apply split_bind; [scan | bound |]. intros sticky s3.
    apply split_bind; [destruct sticky; scan | destruct sticky; bound |]. intros account s4.
    destruct account as [account|]; [| apply split_own; [scan | bound]].
    apply split_own.
    + apply only_tryCatch; [apply message_tryAttempt_plain | intros; apply message_onAttemptError_plain].
    + eapply bound_tryCatch;
        [ apply message_tryAttempt_bound | lia
        | intros; eapply bound_weaken; [apply message_onAttemptError_bound | lia] ].
Qed.

(** The attempt loop: at most [remaining] attempts of one call per
    endpoint and one retry, then at most one fallback dispatch. *)
Lemma message_attemptLoop_split : forall remaining no s,
  exists tr1 tr2,
    trace (attemptLoop self anthropicRequest fallbackEnabled remaining no s) = (tr1 ++ tr2)%list
    /\ Own remaining (remaining * (List.length ANTIGRAVITY_ENDPOINT_FALLBACKS + 1)) tr1
    /\ (tr2 = [] \/ Hop tr2).
Proof.
  induction remaining as [|r IH]; intros no s; cbn [attemptLoop].
  - unfold afterAttempts.
    destruct fallbackEnabled eqn:Hfb;
      [| exists [], []; split; [reflexivity | split; [apply own_nil | left; reflexivity]]].
    destruct (fallbackModelFor (model anthropicRequest)) as [fm|] eqn:Hfm;
      [| exists [], []; split; [reflexivity | split; [apply own_nil | left; reflexivity]]].
    exists [], (trace (self (withModel anthropicRequest fm) false s)).
    split; [reflexivity | split; [apply own_nil | right; exists fm, s; auto]].
  - pose proof (message_attempt_split no s) as Hsp.
    remember (List.length ANTIGRAVITY_ENDPOINT_FALLBACKS + 1) as per eqn:Hper.
    clear Hper. unfold bind.
    remember (attempt self anthropicRequest fallbackEnabled no s) as r0 eqn:Hr0.
    clear Hr0.
    destruct Hsp as [Hown | (pre & post & Htr & Hpre & Hhop & Hne)];
      destruct (outcome r0) as [[u|]|e] eqn:Hout; cbn [trace final outcome ret].
    + exists (trace r0), [].
      split; [reflexivity | split; [| left; reflexivity]].
      eapply own_weaken; [exact Hown | lia | lia].
    + destruct (IH (S no) (final r0)) as (tr1 & tr2 & Htr & Hown' & Htail).
      exists (trace r0 ++ tr1)%list, tr2.
      rewrite Htr, app_assoc. split; [reflexivity | split; [| exact Htail]].
      eapply own_weaken; [apply (own_app _ _ _ _ _ _ Hown Hown') | lia | lia].
    + exists (trace r0), [].
      rewrite app_nil_r. split; [reflexivity | split; [| left; reflexivity]].
      eapply own_weaken; [exact Hown | lia | lia].
    + exists pre, post. rewrite app_nil_r.
      split; [exact Htr | split; [| right; exact Hhop]].
      eapply own_weaken; [exact Hpre | lia | lia].
    + contradiction Hne. reflexivity.
    + exists pre, post.
      split; [exact Htr | split; [| right; exact Hhop]].
      eapply own_weaken; [exact Hpre | lia | lia].
Qed.

End Facts.
End MessageDispatch.

(** ** The one-shot handler: the depth of the dispatch *)

Module MessageDepth.
Import JS Constants RequestBuilder Calls Trace Measure MonadFacts CallFacts DispatchFacts
  MessageHandler MessageFacts MessageDispatch.

Section Ext.
Context {E : Env}.
Variables self1 self2 : @AnthropicRequest E -> bool -> M (AnthropicResponse E).
Variable anthropicRequest : @AnthropicRequest E.
Variable fallbackEnabled : bool.

(** The two stand-ins for the recursive call agree on the calls that a
    dispatch with this value of [fallbackEnabled] can make. *)
Hypothesis Hself :
  fallbackEnabled = true -> forall r s, self1 r false s = self2 r false s.

Lemma message_afterAttempts_ext s :
  afterAttempts self1 anthropicRequest fallbackEnabled s
  = afterAttempts self2 anthropicRequest fallbackEnabled s.
Proof.
  unfold afterAttempts. destruct fallbackEnabled; [| reflexivity].
  destruct (fallbackModelFor (model anthropicRequest)); [| reflexivity].
  apply Hself. reflexivity.
Qed.

Lemma message_onNoAccounts_ext s :
  onNoAccounts self1 anthropicRequest fallbackEnabled s
  = onNoAccounts self2 anthropicRequest fallbackEnabled s.
Proof.
  unfold onNoAccounts. apply bind_ext. intros allLimited s1.
  destruct allLimited; [| reflexivity].
  apply bind_ext. intros minWaitMs s2. apply bind_ext. intros now s3.
  apply bind_ext. intros resetTime s4.
  destruct (minWaitMs >? MAX_WAIT_BEFORE_ERROR_MS)%Z; [| reflexivity].
  destruct fallbackEnabled; [| reflexivity].
  destruct (fallbackModelFor (model anthropicRequest)); [| reflexivity].
  unfold bind. rewrite Hself by reflexivity. reflexivity.
Qed.

Lemma message_attempt_ext no s :
  attempt self1 anthropicRequest fallbackEnabled no s
  = attempt self2 anthropicRequest fallbackEnabled no s.
Proof.
  unfold attempt. apply bind_ext. intros _ s1. apply bind_ext. intros _ s2.
  apply bind_ext. intros availableAccounts s3.
  destruct availableAccounts; [apply message_onNoAccounts_ext | reflexivity].
Qed.

Lemma message_attemptLoop_ext : forall remaining no s,
  attemptLoop self1 anthropicRequest fallbackEnabled remaining no s
  = attemptLoop self2 anthropicRequest fallbackEnabled remaining no s.
Proof.
  induction remaining as [|r IH]; intros no s; cbn [attemptLoop].
  - apply message_afterAttempts_ext.
  - unfold bind. rewrite message_attempt_ext.
    destruct (outcome (attempt self2 anthropicRequest fallbackEnabled no s)) as [[u|]|e];
      [reflexivity | rewrite IH; reflexivity | reflexivity].
Qed.

Lemma message_body_ext s :
  sendMessageBody self1 anthropicRequest fallbackEnabled s
  = sendMessageBody self2 anthropicRequest fallbackEnabled s.
Proof.
  unfold sendMessageBody. apply bind_ext. intros _ s1.
  apply bind_ext. intros n s2. apply message_attemptLoop_ext.
Qed.

End Ext.

Section Depth.
Context {E : Env}.

(** A dispatch with its fallback disabled makes no recursive call. *)
Lemma message_body_flat self1 self2 (anthropicRequest : @AnthropicRequest E) s :
  sendMessageBody self1 anthropicRequest false s
  = sendMessageBody self2 anthropicRequest false s.
Proof. apply message_body_ext. discriminate. Qed.

(** No dispatch nests deeper than two: the third level is never reached. *)
Lemma message_depth n base1 base2 (anthropicRequest : @AnthropicRequest E) fallbackEnabled s :
  sendMessageAt (2 + n) base1 anthropicRequest fallbackEnabled s
  = sendMessageAt 2 base2 anthropicRequest fallbackEnabled s.
Proof.
  cbn [sendMessageAt Nat.add]. apply message_body_ext.
  intros _ r s'. apply message_body_flat.
Qed.

(** The trace of a dispatch: its entry, its own attempts, and then at most
    one fallback dispatch. *)
Lemma message_body_split self (anthropicRequest : @AnthropicRequest E) fallbackEnabled s :
  exists own hop,
    trace (sendMessageBody self anthropicRequest fallbackEnabled s)
      = AEnter (model anthropicRequest) fallbackEnabled :: (own ++ hop)%list
    /\ Own (maxAttempts (world s))
           (maxAttempts (world s) * (List.length ANTIGRAVITY_ENDPOINT_FALLBACKS + 1)) own
    /\ (hop = [] \/ Hop (AnthropicResponse E) self fallbackModelFor anthropicRequest fallbackEnabled hop).
Proof.
  unfold sendMessageBody, bind, emit, read. cbn [trace final outcome].
  destruct (message_attemptLoop_split self anthropicRequest fallbackEnabled
              (maxAttempts (world s)) 0 s) as (own & hop & Htr & Hown & Hhop).
  exists own, hop. rewrite Htr. auto.
Qed.

End Depth.
End MessageDepth.

(** ** The fallback hop and the retry bound *)

Module DispatchTheorems.
Import JS Constants RequestBuilder Calls Trace Measure MonadFacts CallFacts DispatchFacts.

Section Stream.
Context {E : Env}.
Import StreamingHandler StreamFacts StreamDispatch StreamDepth.

Lemma stream_flat_dispatch base (anthropicRequest : @AnthropicRequest E) s :
  sendMessageStreamAt 1 base anthropicRequest false s
  = sendMessageStream anthropicRequest false s.
Proof. apply stream_body_flat. Qed.

(** A dispatch with its fallback disabled is all its own. *)
Lemma stream_flat_split (anthropicRequest : @AnthropicRequest E) s :
  exists own,
    trace (sendMessageStream anthropicRequest false s)
      = AEnter (model anthropicRequest) false :: own
    /\ Own (maxAttempts (world s))
           (maxAttempts (world s) * (5 * List.length ANTIGRAVITY_ENDPOINT_FALLBACKS)) own.
Proof.
  destruct (stream_body_split
              (sendMessageStreamAt 1 (fun _ _ => throw (newError "Maximum call stack size exceeded")))
              anthropicRequest false s)
    as (own & hop & Htr & Hown & [-> | (fm & s' & Hfb & _)]); [| discriminate].
  exists own. rewrite app_nil_r in Htr. auto.
Qed.

Lemma stream_dispatch_split (anthropicRequest : @AnthropicRequest E) fallbackEnabled s :
  exists own hop,
    trace (sendMessageStream anthropicRequest fallbackEnabled s)
      = AEnter (model anthropicRequest) fallbackEnabled :: (own ++ hop)%list
    /\ Own (maxAttempts (world s))
           (maxAttempts (world s) * (5 * List.length ANTIGRAVITY_ENDPOINT_FALLBACKS)) own
    /\ (hop = [] \/
        exists fm s' own',
          fallbackEnabled = true
          /\ fallbackModelFor (model anthropicRequest) = Some fm
          /\ hop = trace (sendMessageStream (withModel anthropicRequest fm) false s')
          /\ hop = AEnter fm false :: own'
          /\ Own (maxAttempts (world s'))
                 (maxAttempts (world s') * (5 * List.length ANTIGRAVITY_ENDPOINT_FALLBACKS)) own').
Proof.
  destruct (stream_body_split
              (sendMessageStreamAt 1 (fun _ _ => throw (newError "Maximum call stack size exceeded")))
              anthropicRequest fallbackEnabled s)
    as (own & hop & Htr & Hown & Hhop).
  exists own, hop. split; [exact Htr | split; [exact Hown |]].
  destruct Hhop as [-> | (fm & s' & Hfb & Hfm & ->)]; [left; reflexivity | right].
  rewrite stream_flat_dispatch.
  destruct (stream_flat_split (withModel anthropicRequest fm) s') as (own' & Htr' & Hown').
  exists fm, s', own'. auto.
Qed.

End Stream.

Section Message.
Context {E : Env}.
Import MessageHandler MessageFacts MessageDispatch MessageDepth.

Lemma message_flat_dispatch base (anthropicRequest : @AnthropicRequest E) s :
  sendMessageAt 1 base anthropicRequest false s
  = sendMessage anthropicRequest false s.
Proof. apply message_body_flat. Qed.

Lemma message_flat_split (anthropicRequest : @AnthropicRequest E) s :
  exists own,
    trace (sendMessage anthropicRequest false s)
      = AEnter (model anthropicRequest) false :: own
    /\ Own (maxAttempts (world s))
           (maxAttempts (world s) * (List.length ANTIGRAVITY_ENDPOINT_FALLBACKS + 1)) own.
Proof.
  destruct (message_body_split
              (sendMessageAt 1 (fun _ _ => throw (newError "Maximum call stack size exceeded")))
              anthropicRequest false s)
    as (own & hop & Htr & Hown & [-> | (fm & s' & Hfb & _)]); [| discriminate].
  exists own. rewrite app_nil_r in Htr. auto.
Qed.

Lemma message_dispatch_split (anthropicRequest : @AnthropicRequest E) fallbackEnabled s :
  exists own hop,
    trace (sendMessage anthropicRequest fallbackEnabled s)
      = AEnter (model anthropicRequest) fallbackEnabled :: (own ++ hop)%list
    /\ Own (maxAttempts (world s))
           (maxAttempts (world s) * (List.length ANTIGRAVITY_ENDPOINT_FALLBACKS + 1)) own
    /\ (hop = [] \/
        exists fm s' own',
          fallbackEnabled = true
          /\ fallbackModelFor (model anthropicRequest) = Some fm
          /\ hop = trace (sendMessage (withModel anthropicRequest fm) false s')
          /\ hop = AEnter fm false :: own'
          /\ Own (maxAttempts (world s'))
                 (maxAttempts (world s') * (List.length ANTIGRAVITY_ENDPOINT_FALLBACKS + 1)) own').
Proof.
  destruct (message_body_split
              (sendMessageAt 1 (fun _ _ => throw (newError "Maximum call stack size exceeded")))
              anthropicRequest fallbackEnabled s)
    as (own & hop & Htr & Hown & Hhop).
  exists own, hop. split; [exact Htr | split; [exact Hown |]].
  destruct Hhop as [-> | (fm & s' & Hfb & Hfm & ->)]; [left; reflexivity | right].
  rewrite message_flat_dispatch.
  destruct (message_flat_split (withModel anthropicRequest fm) s') as (own' & Htr' & Hown').
  exists fm, s', own'. auto.
Qed.

End Message.

Section Claims.
Context {E : Env}.

(** C6.  The fallback hop happens at most once per request.  For both
    handlers: unfolding the recursion deeper than two levels changes
    nothing, whatever stands for the deeper calls, so the recursion depth of
    a dispatch is at most 2; and the dispatches entered by a request are the
    request itself and at most one more, made on the fallback model with
    [fallbackEnabled] set to [false].  In particular a dispatch whose
    fallback is disabled enters no other (the second case needs
    [fallbackEnabled = true]). *)
Theorem fallback_hop_at_most_once
    (anthropicRequest : @AnthropicRequest E) (fallbackEnabled : bool) (s : @St E) :
  (forall n base,
      StreamingHandler.sendMessageStreamAt (2 + n) base anthropicRequest fallbackEnabled s
      = StreamingHandler.sendMessageStream anthropicRequest fallbackEnabled s)
  /\ (entered (trace (StreamingHandler.sendMessageStream anthropicRequest fallbackEnabled s))
        = [(model anthropicRequest, fallbackEnabled)]
      \/ exists fm,
           fallbackEnabled = true
           /\ StreamingHandler.fallbackModelFor (model anthropicRequest) = Some fm
           /\ entered (trace (StreamingHandler.sendMessageStream anthropicRequest fallbackEnabled s))
                = [(model anthropicRequest, true); (fm, false)])
  /\ (forall n base,
      MessageHandler.sendMessageAt (2 + n) base anthropicRequest fallbackEnabled s
      = MessageHandler.sendMessage anthropicRequest fallbackEnabled s)
  /\ (entered (trace (MessageHandler.sendMessage anthropicRequest fallbackEnabled s))
        = [(model anthropicRequest, fallbackEnabled)]
      \/ exists fm,
           fallbackEnabled = true
           /\ MessageHandler.fallbackModelFor (model anthropicRequest) = Some fm
           /\ entered (trace (MessageHandler.sendMessage anthropicRequest fallbackEnabled s))
                = [(model anthropicRequest, true); (fm, false)]).
Proof.
  split; [intros n base; apply StreamDepth.stream_depth |].
  split.
  { destruct (stream_dispatch_split anthropicRequest fallbackEnabled s)
      as (own & hop & Htr & (_ & _ & Hown) & [-> | (fm & s' & own' & Hfb & Hfm & _ & -> & (_ & _ & Hown'))]);
      rewrite Htr; cbn [entered]; rewrite entered_app, Hown; cbn [entered app].
    - left. reflexivity.
    - right. exists fm. rewrite Hown', Hfb. auto. }
  split; [intros n base; apply MessageDepth.message_depth |].
  destruct (message_dispatch_split anthropicRequest fallbackEnabled s)
    as (own & hop & Htr & (_ & _ & Hown) & [-> | (fm & s' & own' & Hfb & Hfm & _ & -> & (_ & _ & Hown'))]);
    rewrite Htr; cbn [entered]; rewrite entered_app, Hown; cbn [entered app].
  - left. reflexivity.
  - right. exists fm. rewrite Hown', Hfb. auto.
Qed.

(** C1, as amended.  A dispatch starts at most
    [max(MAX_RETRIES, accounts + 1)] iterations of its attempt loop
    ([maxAttempts]).  Its trace is its entry, then a part of its own, then
    the trace of at most one fallback dispatch, which is a dispatch with its
    fallback disabled.  The own part of [sendMessageStream] holds at most
    five upstream calls for each endpoint of each attempt (the call, and two
    for each of the two empty-response retries); that of [sendMessage] at
    most one call for each endpoint of each attempt and one retry per
    attempt.  The same bounds hold for the fallback dispatch, with the
    number of accounts read when it starts. *)
Theorem retry_bound
    (anthropicRequest : @AnthropicRequest E) (fallbackEnabled : bool) (s : @St E) :
  (exists own hop,
      trace (StreamingHandler.sendMessageStream anthropicRequest fallbackEnabled s)
        = AEnter (model anthropicRequest) fallbackEnabled :: (own ++ hop)%list
      /\ attempts own <= StreamingHandler.maxAttempts (world s)
      /\ fetches own <= StreamingHandler.maxAttempts (world s)
                        * (5 * List.length ANTIGRAVITY_ENDPOINT_FALLBACKS)
      /\ (hop = [] \/
          exists fm s',
            fallbackEnabled = true
            /\ hop = trace (StreamingHandler.sendMessageStream (withModel anthropicRequest fm) false s')
            /\ attempts hop <= StreamingHandler.maxAttempts (world s')
            /\ fetches hop <= StreamingHandler.maxAttempts (world s')
                              * (5 * List.length ANTIGRAVITY_ENDPOINT_FALLBACKS)))
  /\ (exists own hop,
      trace (MessageHandler.sendMessage anthropicRequest fallbackEnabled s)
        = AEnter (model anthropicRequest) fallbackEnabled :: (own ++ hop)%list
      /\ attempts own <= MessageHandler.maxAttempts (world s)
      /\ fetches own <= MessageHandler.maxAttempts (world s)
                        * (List.length ANTIGRAVITY_ENDPOINT_FALLBACKS + 1)
      /\ (hop = [] \/
          exists fm s',
            fallbackEnabled = true
            /\ hop = trace (MessageHandler.sendMessage (withModel anthropicRequest fm) false s')
            /\ attempts hop <= MessageHandler.maxAttempts (world s')
            /\ fetches hop <= MessageHandler.maxAttempts (world s')
                              * (List.length ANTIGRAVITY_ENDPOINT_FALLBACKS + 1))).
Proof.
  split.
  - destruct (stream_dispatch_split anthropicRequest fallbackEnabled s)
      as (own & hop & Htr & (Ha & Hf & _) & Hhop).
    exists own, hop. repeat (split; [assumption |]).
    destruct Hhop as [-> | (fm & s' & own' & Hfb & Hfm & Hhop & Hown & (Ha' & Hf' & _))];
      [left; reflexivity | right].
    exists fm, s'. split; [exact Hfb | split; [exact Hhop |]].
    rewrite Hown. unfold attempts, fetches in *. cbn [filter isAttempt isFetch]. auto.
  - destruct (message_dispatch_split anthropicRequest fallbackEnabled s)
      as (own & hop & Htr & (Ha & Hf & _) & Hhop).
    exists own, hop. repeat (split; [assumption |]).
    destruct Hhop as [-> | (fm & s' & own' & Hfb & Hfm & Hhop & Hown & (Ha' & Hf' & _))];
      [left; reflexivity | right].
    exists fm, s'. split; [exact Hfb | split; [exact Hhop |]].
    rewrite Hown. unfold attempts, fetches in *. cbn [filter isAttempt isFetch]. auto.
Qed.

End Claims.

(** C1 fails as stated: with one account and two endpoints the claim allows
    [max(5, 1 + 1) * 2 = 10] upstream calls of a request whose fallback is
    disabled.  Against an upstream that answers each first call of an
    endpoint with an empty stream and each refetch with a 503,
    [sendMessageStream] makes three calls for each endpoint of each of its
    five attempts. *)
Lemma retry_bound_exceeded :
  let s := @Scenario.start Scenario.env Scenario.emptyThenUnavailable in
  let r := @StreamingHandler.sendMessageStream Scenario.env Scenario.sonnet false s in
  StreamingHandler.maxAttempts (world s) * List.length ANTIGRAVITY_ENDPOINT_FALLBACKS = 10
  /\ entered (trace r) = [("claude-sonnet-4-5", false)]
  /\ attempts (trace r) = 5
  /\ fetches (trace r) = 30
  /\ outcome r = Throw (newError "Max retries exceeded").
Proof. cbv zeta. repeat split; vm_compute; reflexivity. Qed.

End DispatchTheorems.

(** ** The streaming handler: no call after the first event *)

Module StreamOrder.
Import JS Constants RequestBuilder Calls Trace Measure MonadFacts CallFacts StreamingHandler.

Section Facts.
Context {E : Env}.

Lemma quiet_settled {A} (fin : A -> bool) (r : Run A) :
  yielded (trace r) = [] -> Settled fin r.
Proof.
  intros H. split; [| left; exact H].
  exists (trace r), []. rewrite app_nil_r. auto.
Qed.

Lemma settled_quiet {A} (fin : A -> bool) (m : M A) s :
  Only noYield m -> Settled fin (m s).
Proof. intros H. apply quiet_settled, no_yield_yielded, H. Qed.

Lemma settled_prefix {A} (fin : A -> bool) (t0 : list (@Action E)) (r r' : Run A) :
  yielded t0 = [] -> Settled fin r ->
  trace r' = (t0 ++ trace r)%list -> outcome r' = outcome r -> Settled fin r'.
Proof.
  intros Hq [(pre & post & Htr & Hpre & Hpost) Hfin] Ht Ho. split.
  - exists (t0 ++ pre)%list, post. rewrite Ht, Htr, app_assoc, yielded_app, Hq, Hpre. auto.
  - rewrite Ht, Ho, yielded_app, Hq. exact Hfin.
Qed.

Lemma settled_bind_quiet {A B} (fin : B -> bool) (m : M A) (f : A -> M B) s :
  Only noYield m -> (forall a s', Settled fin (f a s')) -> Settled fin (bind m f s).
Proof.
  intros Hm Hf. pose proof (no_yield_yielded _ (Hm s)) as Hq.
  unfold bind. destruct (outcome (m s)) as [a|e].
  - eapply settled_prefix; [exact Hq | apply (Hf a (final (m s))) | reflexivity | reflexivity].
  - apply quiet_settled. exact Hq.
Qed.

Lemma settled_bind_fin {A B} (finA : A -> bool) (finB : B -> bool)
    (m : M A) (f : A -> M B) s :
  Settled finA (m s) ->
  (forall a, finA a = true -> exists b, f a = ret b /\ finB b = true) ->
  (forall a s', finA a = false -> Settled finB (f a s')) ->
  Settled finB (bind m f s).
Proof.
  intros [Hnf Hfin] Hend Hgo. unfold bind.
  destruct (outcome (m s)) as [a|e] eqn:Hout.
  - destruct (finA a) eqn:Ha.
    + destruct (Hend a Ha) as (b & -> & Hb). cbn [ret trace final outcome].
      rewrite app_nil_r. split; [exact Hnf | right; exists b; auto].
    + assert (Hq : yielded (trace (m s)) = []).
      { destruct Hfin as [Hq | (a' & Ha' & Hfa')]; [exact Hq |].
        injection Ha' as <-. congruence. }
      eapply settled_prefix; [exact Hq | apply (Hgo a (final (m s)) Ha) | reflexivity | reflexivity].
  - apply quiet_settled. cbn [trace].
    destruct Hfin as [Hq | (a' & Ha' & _)]; [exact Hq | discriminate].
Qed.

Lemma settled_tryCatch {A} (fin : A -> bool) (m : M A) (h : JsError -> M A) s :
  Settled fin (m s) -> (forall e s', Settled fin (h e s')) -> Settled fin (tryCatch m h s).
Proof.
  intros Hm Hh. unfold tryCatch. destruct (outcome (m s)) as [a|e] eqn:Hout; [exact Hm |].
  assert (Hq : yielded (trace (m s)) = []).
  { destruct Hm as [_ [Hq | (a' & Ha' & _)]]; [exact Hq | congruence]. }
  eapply settled_prefix; [exact Hq | apply (Hh e (final (m s))) | reflexivity | reflexivity].
Qed.

(** A block that only yields, and does not throw. *)
Lemma yieldAll_run evs s :
  fetches (trace (yieldAll evs s)) = 0 /\ outcome (yieldAll evs s) = Ok tt.
Proof.
  revert s. induction evs as [|ev evs IH]; intros s; [split; reflexivity |].
  cbn [yieldAll]. unfold bind, emit. cbn [trace final outcome].
  destruct (IH s) as [Hf Ho]. rewrite Ho. cbn [trace final outcome].
  split; [| reflexivity]. rewrite fetches_app, Hf. reflexivity.
Qed.

Lemma yieldAll_nil_trace s : trace (@yieldAll E [] s) = [].
Proof. reflexivity. Qed.

Hypothesis Hadapter : RaisesBeforeYield.

Lemma yieldStream_settled response model s :
  Settled always (yieldStream response model s).
Proof.
  unfold yieldStream, bind, call.
  destruct (streamSSEResponse E response model (world s)) as [[evs err] w'] eqn:Hs.
  cbn [trace final outcome fst snd].
  destruct (yieldAll_run evs (setWorld s w')) as [Hf Ho]. rewrite Ho.
  cbn [trace final outcome app].
  destruct err as [e|].
  - rewrite (Hadapter _ _ _ _ _ _ Hs). apply quiet_settled. reflexivity.
  - cbn [ret throw trace final outcome]. rewrite app_nil_r. split.
    + exists [], (trace (yieldAll evs (setWorld s w'))). auto.
    + right. exists tt. auto.
Qed.

Lemma fallback_settled model s :
  Settled always (emitEmptyResponseFallback model s).
Proof.
  unfold emitEmptyResponseFallback, bind, call.
  destruct (randomBytesHex E 16 (world s)) as [hex w'].
  cbn [trace final outcome app].
  match goal with
  | |- context [yieldAll ?evs ?s'] => destruct (yieldAll_run evs s') as [Hf Ho]; rewrite Ho
  end.
  cbn [trace final outcome]. split.
  - eexists [], _. split; [reflexivity | split; [reflexivity | exact Hf]].
  - right. exists tt. auto.
Qed.

Ltac quiet := apply settled_quiet; scan.

Variable anthropicRequest : @AnthropicRequest E.
Variable account : Account E.
Variable token : string.
Variable payload : @Payload E.

Lemma post_quiet url : Only noYield (post anthropicRequest token payload url).
Proof. unfold post. apply postJson_only. reflexivity. Qed.

Hint Resolve post_quiet : onlys.

Lemma onStreamError_settled url k e s :
  Settled ends (onStreamError anthropicRequest account token payload url k e s).
Proof.
  unfold onStreamError.
  destruct (negb (isEmptyResponseError E e)); [quiet |].
  destruct (MAX_EMPTY_RESPONSE_RETRIES <=? k)%nat.
  - eapply settled_bind_fin; [apply fallback_settled | | discriminate].
    intros _ _. exists FallbackEmitted. auto.
  - quiet.
Qed.

Lemma streamWithEmptyRetries_settled url : forall remaining k response s,
  Settled returns
    (streamWithEmptyRetries anthropicRequest account token payload url remaining k response s).
Proof.
  induction remaining as [|r IH]; intros k response s; cbn [streamWithEmptyRetries].
  - quiet.
  - eapply settled_bind_fin with (finA := ends).
    + apply settled_tryCatch; [| intros; apply onStreamError_settled].
      eapply settled_bind_fin; [apply yieldStream_settled | | discriminate].
      intros _ _. exists StreamCompleted. auto.
    + intros [| |r'] Hend; [eexists; split; reflexivity .. | discriminate].
    + intros [| |r'] s' Hend; try discriminate. apply IH.
Qed.

Lemma on429_settled url response errorText s :
  Settled returns (on429 anthropicRequest account token payload url response errorText s).
Proof.
  unfold on429. cbv zeta.
  destruct (truthyNum _ && _); [quiet |].
  apply settled_bind_quiet; [scan |]. intros retried s1.
  destruct (negb retried); [| quiet].
  apply settled_bind_quiet; [scan |]. intros _ s2.
  apply settled_bind_quiet; [scan |]. intros _ s3.
  apply settled_bind_quiet; [scan |]. intros retryResponse s4.
  destruct (ok retryResponse); [| quiet].
  eapply settled_bind_fin; [apply yieldStream_settled | | discriminate].
  intros _ _. exists (Return tt). auto.
Qed.

Lemma tryEndpoint_settled endpoint s :
  Settled returns (tryEndpoint anthropicRequest account token payload endpoint s).
Proof.
  unfold tryEndpoint. cbv zeta.
  apply settled_bind_quiet; [scan |]. intros response s1.
  destruct (negb (ok response)); [| apply streamWithEmptyRetries_settled].
  destruct (status E response =? 401)%Z; [quiet |].
  destruct (status E response =? 429)%Z; [apply on429_settled | quiet].
Qed.

Lemma endpointLoop_settled : forall endpoints s,
  Settled returns (endpointLoop anthropicRequest account token payload endpoints s).
Proof.
  induction endpoints as [|endpoint rest IH]; intros s; cbn [endpointLoop].
  - quiet.
  - eapply settled_bind_fin with (finA := returns).
    + apply settled_tryCatch; [apply tryEndpoint_settled |].
      intros e s'. unfold onEndpointError. quiet.
    + intros [u|] Hc; [destruct u; eexists; split; reflexivity | discriminate].
    + intros [u|] s' Hc; [discriminate | apply IH].
Qed.

End Facts.

Section Attempt.
Context {E : Env}.
Hypothesis Hadapter : @RaisesBeforeYield E.

Ltac quiet := apply settled_quiet; scan.

Lemma tryAttempt_settled (anthropicRequest : @AnthropicRequest E) account s :
  Settled returns (tryAttempt anthropicRequest account s).
Proof.
  unfold tryAttempt.
  apply settled_bind_quiet; [scan |]. intros token s1.
  apply settled_bind_quiet; [scan |]. intros project s2.
  apply settled_bind_quiet; [scan |]. intros uuid s3. cbv zeta.
  apply settled_bind_quiet; [scan |]. intros _ s4.
  apply settled_bind_quiet; [scan |]. intros _ s5.
  eapply settled_bind_fin with (finA := returns).
  - apply endpointLoop_settled, Hadapter.
  - intros [u|] Hc; [destruct u; eexists; split; reflexivity | discriminate].
  - intros [u|] s' Hc; [discriminate |]. unfold afterEndpoints. quiet.
Qed.

Variable self : @AnthropicRequest E -> bool -> M unit.
Hypothesis Hself : forall r s, Settled always (self r false s).
Variable anthropicRequest : @AnthropicRequest E.
Variable fallbackEnabled : bool.

Lemma onNoAccounts_settled s :
  Settled returns (onNoAccounts self anthropicRequest fallbackEnabled s).
Proof.
  unfold onNoAccounts.
  apply settled_bind_quiet; [scan |]. intros allLimited s1.
  destruct allLimited; [| quiet].
  apply settled_bind_quiet; [scan |]. intros minWaitMs s2.
  apply settled_bind_quiet; [scan |]. intros now s3.
  apply settled_bind_quiet; [scan |]. intros resetTime s4.
  destruct (minWaitMs >? MAX_WAIT_BEFORE_ERROR_MS)%Z; [| quiet].
  destruct (if fallbackEnabled then fallbackModelFor (model anthropicRequest) else None);
    [| quiet].
  eapply settled_bind_fin; [apply Hself | | discriminate].
  intros _ _. exists (Return tt). auto.
Qed.

Lemma attempt_settled no s :
  Settled returns (attempt self anthropicRequest fallbackEnabled no s).
Proof.
  unfold attempt.
  apply settled_bind_quiet; [scan |]. intros _ s1.
  apply settled_bind_quiet; [scan |]. intros _ s2.
  apply settled_bind_quiet; [scan |]. intros availableAccounts s3.
  destruct availableAccounts; [apply onNoAccounts_settled |].
  apply settled_bind_quiet; [scan |]. intros sticky s4.
  apply settled_bind_quiet; [destruct sticky; scan |]. intros account s5.
  destruct account as [account|]; [| quiet].
  apply settled_tryCatch; [apply tryAttempt_settled |].
  intros e s'. unfold onAttemptError. quiet.
Qed.

Lemma attemptLoop_settled : forall remaining no s,
  Settled always (attemptLoop self anthropicRequest fallbackEnabled remaining no s).
Proof.
  induction remaining as [|r IH]; intros no s; cbn [attemptLoop].
  - unfold afterAttempts.
    destruct (if fallbackEnabled then fallbackModelFor (model anthropicRequest) else None);
      [apply Hself | quiet].
  - eapply settled_bind_fin with (finA := returns).
    + apply attempt_settled.
    + intros [u|] Hc; [eexists; split; reflexivity | discriminate].
    + intros [u|] s' Hc; [discriminate | apply IH].
Qed.

Lemma body_settled s :
  Settled always (sendMessageStreamBody self anthropicRequest fallbackEnabled s).
Proof.
  unfold sendMessageStreamBody.
  apply settled_bind_quiet; [scan |]. intros _ s1.
  apply settled_bind_quiet; [scan |]. intros n s2.
  apply attemptLoop_settled.
Qed.

End Attempt.
End StreamOrder.

(* ===================================================================== *)
(** ** No upstream call after the first event *)
(* ===================================================================== *)

Module OrderTheorems.
Import JS Constants RequestBuilder Calls Trace Measure MonadFacts CallFacts.
Import StreamingHandler StreamOrder.

Section Test.
Context {E : Env}.

Lemma fetchAfterYield_quiet (post : list (@Action E)) :
  fetches post = 0 -> forall seen, fetchAfterYield seen post = false.
Proof.
  induction post as [|a post IH]; intros H seen; [reflexivity |].
  destruct a; cbn [fetchAfterYield]; try (apply IH; exact H).
  discriminate H.
Qed.

Lemma fetchAfterYield_prefix (pre post : list (@Action E)) :
  yielded pre = [] ->
  fetchAfterYield false (pre ++ post) = fetchAfterYield false post.
Proof.
  induction pre as [|a pre IH]; intros H; [reflexivity |].
  destruct a; cbn [fetchAfterYield app yielded] in *; try (apply IH; exact H).
  discriminate H.
Qed.

(** The test finds every call that follows a yield. *)
Lemma fetchAfterYield_sound (tr : list (@Action E)) :
  NoFetchAfterYield tr -> fetchAfterYield false tr = false.
Proof.
  intros (pre & post & -> & Hpre & Hpost).
  rewrite fetchAfterYield_prefix by exact Hpre.
  apply fetchAfterYield_quiet. exact Hpost.
Qed.

End Test.

(** C2 (amended): with a stream adapter that raises only before it has
    yielded anything, no upstream call of a streaming request follows an
    event that [sendMessageStream] has yielded, and a request that yielded
    an event ends with the normal return of the handler. *)
Theorem no_call_after_first_event {E : Env}
    (anthropicRequest : @AnthropicRequest E) (fallbackEnabled : bool) (s : @St E) :
  RaisesBeforeYield ->
  let r := sendMessageStream anthropicRequest fallbackEnabled s in
  NoFetchAfterYield (trace r) /\ (yielded (trace r) = [] \/ outcome r = Ok tt).
Proof.
  intros Hadapter r.
  assert (H : Settled always r).
  { apply body_settled; [exact Hadapter |]. intros r1 s1.
    apply (body_settled Hadapter); intros r2 s2.
    apply quiet_settled. reflexivity. }
  destruct H as [Hno [Hq | ([] & Ho & _)]]; auto.
Qed.

Lemma strict_adapter : @RaisesBeforeYield Scenario.strictEnv.
Proof.
  intros response model w evs e w' H. cbn in H.
  destruct (Scenario.r_error response); congruence.
Qed.

(** With the adapter that yields nothing of a stream that breaks, the
    second endpoint is called before any event. *)
Lemma no_call_after_first_event_witness :
  let r := @sendMessageStream Scenario.strictEnv Scenario.sonnet false
             (@Scenario.start Scenario.strictEnv Scenario.brokenStream) in
  @RaisesBeforeYield Scenario.strictEnv
  /\ NoFetchAfterYield (trace r) /\ (yielded (trace r) = [] \/ outcome r = Ok tt).
Proof.
  split; [exact strict_adapter |].
  exact (@no_call_after_first_event Scenario.strictEnv Scenario.sonnet false
           (@Scenario.start Scenario.strictEnv Scenario.brokenStream) strict_adapter).
Defined.

(** C2 fails as stated: the stream of the first endpoint breaks after
    three events have been yielded; the handler calls the second endpoint
    and yields its events after them. *)
Lemma call_after_first_event :
  let r := @sendMessageStream Scenario.env Scenario.sonnet false
             (@Scenario.start Scenario.env Scenario.brokenStream) in
  steps (trace r)
  = ([ entry "claude-sonnet-4-5" false; attemptNo 0; pickedNext "claude-sonnet-4-5";
       fetched "https://daily-cloudcode-pa.googleapis.com/v1internal:streamGenerateContent?alt=sse" ]
     ++ map yield (firstn 3 Scenario.hello)
     ++ [ fetched "https://cloudcode-pa.googleapis.com/v1internal:streamGenerateContent?alt=sse" ]
     ++ map yield Scenario.hello)%list
  /\ outcome r = Ok tt
  /\ ~ NoFetchAfterYield (trace r).
Proof.
  cbv zeta. split; [vm_compute; reflexivity |]. split; [vm_compute; reflexivity |].
  intros H. apply fetchAfterYield_sound in H. vm_compute in H. discriminate H.
Qed.

End OrderTheorems.

(** ** Running the handlers step by step *)

Module RunFacts.
Import JS Constants RequestBuilder Calls Trace Measure MonadFacts.

(** One step at the head of a run; the calls on the upstream and on the
    collaborators that return a value take it from a hypothesis. *)
Ltac run_step :=
  first
    [ rewrite run_bind_assoc
    | rewrite run_bind_ret
    | rewrite run_bind_throw
    | rewrite run_bind_emit
    | rewrite run_bind_update
    | rewrite run_bind_read
    | rewrite run_bind_getLastError
    | rewrite run_bind_setLastError
    | rewrite run_bind_getRetriedOnce
    | rewrite run_bind_setRetriedOnce
    | erewrite run_bind_await by (cbn [world setWorld]; eassumption)
    | erewrite run_bind_await_error by (cbn [world setWorld]; eassumption)
    | erewrite run_bind_call by (cbn [world setWorld]; eassumption) ];
  cbv beta; cbn [world setWorld lastError retriedOnce].

End RunFacts.

(* ===================================================================== *)
(** ** An endpoint that answers 429 *)
(* ===================================================================== *)

Module RateLimitFacts.
Import JS Constants RequestBuilder Calls Trace Measure MonadFacts RunFacts.

Lemma long_reset r ms :
  r = Some ms -> (ms > DEFAULT_COOLDOWN_MS)%Z ->
  truthyNum r && (numOr r 0 >? DEFAULT_COOLDOWN_MS)%Z = true.
Proof.
  intros -> H. unfold DEFAULT_COOLDOWN_MS in *. cbn [truthyNum numOr].
  destruct (Z.eqb_spec ms 0) as [-> | _]; [lia |]. cbn [negb andb].
  apply Z.gtb_lt. lia.
Qed.

Lemma short_reset r :
  (forall ms, r = Some ms -> (ms <= DEFAULT_COOLDOWN_MS)%Z) ->
  truthyNum r && (numOr r 0 >? DEFAULT_COOLDOWN_MS)%Z = false.
Proof.
  intros H. destruct r as [ms|]; [| reflexivity].
  specialize (H ms eq_refl). cbn [truthyNum numOr].
  destruct (Z.eqb_spec ms 0) as [-> | _]; [reflexivity |]. cbn [negb andb].
  destruct (ms >? DEFAULT_COOLDOWN_MS)%Z eqn:Hgt; [| reflexivity].
  apply Z.gtb_lt in Hgt. lia.
Qed.

(** A run that throws is the run of its actions, then the throw. *)
Lemma run_throws {E : Env} {A} (r : @Run E A) e :
  outcome r = Throw e -> r = prepend (trace r) (throw e (final r)).
Proof.
  destruct r as [tr fin out]. cbn. intros ->. unfold prepend. cbn.
  rewrite app_nil_r. reflexivity.
Qed.

Section Stream.
Import StreamingHandler.
Context {E : Env}.
Variable anthropicRequest : @AnthropicRequest E.
Variable account : Account E.
Variable token : string.
Variable payload : @Payload E.

Let model := model anthropicRequest.
Let headers := buildHeaders token model "text/event-stream".
Let mark (resetMs : option Z) := markRateLimited E (email E account) resetMs model.

Lemma stream_on429_long url response errorText s ms :
  parseResetTime E response errorText = Some ms ->
  (ms > DEFAULT_COOLDOWN_MS)%Z ->
  on429 anthropicRequest account token payload url response errorText s
  = prepend [AMarkRateLimited (email E account) (Some ms) model]
      (throw (newError ("QUOTA_EXHAUSTED: " ++ errorText))
         (setWorld s (mark (Some ms) (world s)))).
Proof.
  intros Hreset Hlong. unfold on429.
  rewrite (long_reset _ ms Hreset Hlong). rewrite Hreset.
  unfold markLimited. repeat run_step. reflexivity.
Qed.

Lemma stream_on429_retry url response errorText s retryResponse w2 :
  let resetMs := parseResetTime E response errorText in
  let waitMs := numOr resetMs DEFAULT_COOLDOWN_MS in
  (forall ms, resetMs = Some ms -> (ms <= DEFAULT_COOLDOWN_MS)%Z) ->
  retriedOnce s = false ->
  fetch E url headers payload (sleep E waitMs (world s)) = (inr retryResponse, w2) ->
  let s2 := {| world := w2; lastError := lastError s; retriedOnce := true |} in
  on429 anthropicRequest account token payload url response errorText s
  = prepend [ASleep waitMs; AFetch url headers payload]
      (if ok retryResponse
       then (yieldStream retryResponse model ;;; ret (Return tt)) s2
       else
         let retryErrorText := text E retryResponse in
         let cooldown := numOr (parseResetTime E retryResponse retryErrorText) waitMs in
         prepend [AMarkRateLimited (email E account) (Some cooldown) model]
           (throw (newError ("RATE_LIMITED_AFTER_RETRY: " ++ retryErrorText))
              (setWorld s2 (mark (Some cooldown) w2)))).
Proof.
  intros resetMs waitMs Hshort Hnot Hfetch s2. unfold on429.
  fold resetMs. rewrite (short_reset _ Hshort). fold waitMs.
  run_step. rewrite Hnot. cbn [negb].
  unfold sleepMs, post, postJson. fold model headers. repeat run_step.
  rewrite prepend_prepend. cbn [app].
  destruct (ok retryResponse); [reflexivity |].
  cbv zeta. unfold markLimited. repeat run_step. reflexivity.
Qed.

Lemma stream_on429_again url response errorText s :
  let resetMs := parseResetTime E response errorText in
  let waitMs := numOr resetMs DEFAULT_COOLDOWN_MS in
  (forall ms, resetMs = Some ms -> (ms <= DEFAULT_COOLDOWN_MS)%Z) ->
  retriedOnce s = true ->
  on429 anthropicRequest account token payload url response errorText s
  = prepend [AMarkRateLimited (email E account) (Some waitMs) model]
      (throw (newError ("RATE_LIMITED: " ++ errorText))
         (setWorld s (mark (Some waitMs) (world s)))).
Proof.
  intros resetMs waitMs Hshort Hdone. unfold on429.
  fold resetMs. rewrite (short_reset _ Hshort). fold waitMs.
  run_step. rewrite Hdone. cbn [negb].
  unfold markLimited. repeat run_step. reflexivity.
Qed.

Lemma stream_tryEndpoint_429 endpoint s response w1 :
  fetch E (sseUrl endpoint) headers payload (world s) = (inr response, w1) ->
  status E response = 429%Z ->
  tryEndpoint anthropicRequest account token payload endpoint s
  = prepend [AFetch (sseUrl endpoint) headers payload]
      (on429 anthropicRequest account token payload (sseUrl endpoint) response
         (text E response) (setWorld s w1)).
Proof.
  intros Hfetch Hstatus. unfold tryEndpoint, post, postJson. fold model headers.
  repeat run_step. unfold ok. rewrite Hstatus. reflexivity.
Qed.

(** The refetch of the empty-response loop that is answered 429. *)
Lemma stream_refetch_429 url k streamError s response w1 :
  isEmptyResponseError E streamError = true ->
  k < MAX_EMPTY_RESPONSE_RETRIES ->
  let backoffMs := (500 * 2 ^ Z.of_nat k)%Z in
  fetch E url headers payload (sleep E backoffMs (world s)) = (inr response, w1) ->
  status E response = 429%Z ->
  let resetMs := parseResetTime E response (text E response) in
  onStreamError anthropicRequest account token payload url k streamError s
  = prepend [ASleep backoffMs; AFetch url headers payload;
             AMarkRateLimited (email E account) resetMs model]
      (throw (newError ("429 RESOURCE_EXHAUSTED during retry: " ++ text E response))
         (setWorld s (mark resetMs w1))).
Proof.
  intros Hempty Hk backoffMs Hfetch Hstatus resetMs. unfold onStreamError.
  rewrite Hempty. cbn [negb].
  destruct (Nat.leb_spec MAX_EMPTY_RESPONSE_RETRIES k) as [Hle | _]; [lia |].
  fold backoffMs. unfold sleepMs, post, postJson. fold model headers.
  repeat run_step. unfold ok. rewrite Hstatus. cbn.
  unfold markLimited. repeat run_step. reflexivity.
Qed.

Lemma stream_rate_limit_leaves endpoint rest s e :
  isRateLimitError E e = true ->
  outcome (tryEndpoint anthropicRequest account token payload endpoint s) = Throw e ->
  endpointLoop anthropicRequest account token payload (endpoint :: rest) s
  = tryEndpoint anthropicRequest account token payload endpoint s.
Proof.
  intros Hrate Hthrow. cbn [endpointLoop]. unfold bind, tryCatch.
  rewrite Hthrow. unfold onEndpointError. rewrite Hrate.
  destruct (tryEndpoint anthropicRequest account token payload endpoint s) as [tr fin out].
  cbn in *. rewrite app_nil_r. congruence.
Qed.

Lemma stream_rate_limit_continues s e :
  isRateLimitError E e = true ->
  onAttemptError model e s = ret Next s.
Proof. intros Hrate. unfold onAttemptError. rewrite Hrate. reflexivity. Qed.

End Stream.

Section Message.
Import MessageHandler.
Context {E : Env}.
Variable anthropicRequest : @AnthropicRequest E.
Variable account : Account E.
Variable token : string.
Variable payload : @Payload E.

Let model := model anthropicRequest.
Let isThinking := isThinkingModel (Some model).
Let headers := buildHeaders token model (acceptFor isThinking).
Let mark (resetMs : option Z) := markRateLimited E (email E account) resetMs model.

Lemma message_on429_long url response errorText s ms :
  parseResetTime E response errorText = Some ms ->
  (ms > DEFAULT_COOLDOWN_MS)%Z ->
  on429 anthropicRequest account token payload url response errorText s
  = prepend [AMarkRateLimited (email E account) (Some ms) model]
      (throw (newError ("QUOTA_EXHAUSTED: " ++ errorText))
         (setWorld s (mark (Some ms) (world s)))).
Proof.
  intros Hreset Hlong. unfold on429.
  rewrite (long_reset _ ms Hreset Hlong). rewrite Hreset.
  unfold markLimited. repeat run_step. reflexivity.
Qed.

Lemma message_on429_retry url response errorText s retryResponse w2 :
  let resetMs := parseResetTime E response errorText in
  let waitMs := numOr resetMs DEFAULT_COOLDOWN_MS in
  (forall ms, resetMs = Some ms -> (ms <= DEFAULT_COOLDOWN_MS)%Z) ->
  retriedOnce s = false ->
  fetch E url headers payload (sleep E waitMs (world s)) = (inr retryResponse, w2) ->
  let s2 := {| world := w2; lastError := lastError s; retriedOnce := true |} in
  on429 anthropicRequest account token payload url response errorText s
  = prepend [ASleep waitMs; AFetch url headers payload]
      (if ok retryResponse
       then (r <- readResponse anthropicRequest retryResponse ;; ret (Return r)) s2
       else
         let retryErrorText := text E retryResponse in
         let cooldown := numOr (parseResetTime E retryResponse retryErrorText) waitMs in
         prepend [AMarkRateLimited (email E account) (Some cooldown) model]
           (throw (newError ("RATE_LIMITED_AFTER_RETRY: " ++ retryErrorText))
              (setWorld s2 (mark (Some cooldown) w2)))).
Proof.
  intros resetMs waitMs Hshort Hnot Hfetch s2. unfold on429.
  fold resetMs. rewrite (short_reset _ Hshort). fold waitMs.
  run_step. rewrite Hnot. cbn [negb].
  unfold sleepMs, post, postJson. fold model isThinking headers. repeat run_step.
  rewrite prepend_prepend. cbn [app].
  destruct (ok retryResponse); [reflexivity |].
  cbv zeta. unfold markLimited. repeat run_step. reflexivity.
Qed.

Lemma message_on429_again url response errorText s :
  let resetMs := parseResetTime E response errorText in
  let waitMs := numOr resetMs DEFAULT_COOLDOWN_MS in
  (forall ms, resetMs = Some ms -> (ms <= DEFAULT_COOLDOWN_MS)%Z) ->
  retriedOnce s = true ->
  on429 anthropicRequest account token payload url response errorText s
  = prepend [AMarkRateLimited (email E account) (Some waitMs) model]
      (throw (newError ("RATE_LIMITED: " ++ errorText))
         (setWorld s (mark (Some waitMs) (world s)))).
Proof.
  intros resetMs waitMs Hshort Hdone. unfold on429.
  fold resetMs. rewrite (short_reset _ Hshort). fold waitMs.
  run_step. rewrite Hdone. cbn [negb].
  unfold markLimited. repeat run_step. reflexivity.
Qed.

Lemma message_tryEndpoint_429 endpoint s response w1 :
  fetch E (endpointUrl isThinking endpoint) headers payload (world s) = (inr response, w1) ->
  status E response = 429%Z ->
  tryEndpoint anthropicRequest account token payload endpoint s
  = prepend [AFetch (endpointUrl isThinking endpoint) headers payload]
      (on429 anthropicRequest account token payload (endpointUrl isThinking endpoint) response
         (text E response) (setWorld s w1)).
Proof.
  intros Hfetch Hstatus. unfold tryEndpoint, post, postJson. fold model isThinking headers.
  repeat run_step. unfold ok. rewrite Hstatus. reflexivity.
Qed.

Lemma message_rate_limit_leaves endpoint rest s e :
  isRateLimitError E e = true ->
  outcome (tryEndpoint anthropicRequest account token payload endpoint s) = Throw e ->
  endpointLoop anthropicRequest account token payload (endpoint :: rest) s
  = tryEndpoint anthropicRequest account token payload endpoint s.
Proof.
  intros Hrate Hthrow. cbn [endpointLoop]. unfold bind, tryCatch.
  rewrite Hthrow. unfold onEndpointError. rewrite Hrate.
  destruct (tryEndpoint anthropicRequest account token payload endpoint s) as [tr fin out].
  cbn in *. rewrite app_nil_r. congruence.
Qed.

Lemma message_rate_limit_continues s e :
  isRateLimitError E e = true ->
  onAttemptError model e s = ret Next s.
Proof. intros Hrate. unfold onAttemptError. rewrite Hrate. reflexivity. Qed.

End Message.
End RateLimitFacts.

Module RateLimitTheorems.
Import JS Constants RequestBuilder Calls Trace Measure MonadFacts RunFacts RateLimitFacts.

Section Claim.
Context {E : Env}.
Variable anthropicRequest : @AnthropicRequest E.
Variable account : Account E.
Variable token : string.
Variable payload : @Payload E.
Variable endpoint : string.
Variable s : @St E.
Variable response : Response E.
Variable w1 : World E.

(** C3 (amended): when the first call of an endpoint iteration is answered
    429, in both handlers.  With a parsed reset time above 10 000 ms the
    account is marked limited with that time and the iteration throws
    [QUOTA_EXHAUSTED].  Otherwise the wait is the parsed time, or 10 000 ms
    when none was parsed or it is 0; if the attempt has not retried yet, the
    handler sleeps the wait and calls the same URL again once, sets
    [retriedOnce], and goes on with the answer if it is a success, and else
    marks the account limited with the reset time of the second answer (or
    the wait) and throws [RATE_LIMITED_AFTER_RETRY]; if the attempt has
    retried already, it marks the account limited with the wait and throws
    [RATE_LIMITED] without a call.  A thrown error that [isRateLimitError]
    accepts ends the endpoint loop with no further call, and the catch of the
    attempt takes it as the end of the iteration of the attempt loop.  The
    refetch of the empty-response loop of the streaming handler is not
    handled so: answered 429, the account is marked limited at once with the
    parsed reset time, whatever it is, and no wait or second call is made. *)
Theorem rate_limit_429 :
  let model := model anthropicRequest in
  let errorText := text E response in
  let resetMs := parseResetTime E response errorText in
  let waitMs := numOr resetMs DEFAULT_COOLDOWN_MS in
  let mark (r : option Z) := markRateLimited E (email E account) r model in
  let marked (r : option Z) := AMarkRateLimited (email E account) r model in
  let after (w2 : World E) := {| world := w2; lastError := lastError s; retriedOnce := true |} in
  status E response = 429%Z ->
  (* the streaming handler *)
  (let url := StreamingHandler.sseUrl endpoint in
   let headers := buildHeaders token model "text/event-stream" in
   let run := StreamingHandler.tryEndpoint anthropicRequest account token payload endpoint s in
   fetch E url headers payload (world s) = (inr response, w1) ->
   (forall ms, resetMs = Some ms -> (ms > 10000)%Z ->
      run = prepend [AFetch url headers payload; marked (Some ms)]
              (throw (newError ("QUOTA_EXHAUSTED: " ++ errorText))
                 (setWorld s (mark (Some ms) w1))))
   /\ ((forall ms, resetMs = Some ms -> (ms <= 10000)%Z) ->
       (retriedOnce s = false ->
        forall retryResponse w2,
          fetch E url headers payload (sleep E waitMs w1) = (inr retryResponse, w2) ->
          run = prepend [AFetch url headers payload; ASleep waitMs; AFetch url headers payload]
                  (if ok retryResponse
                   then (yieldStream retryResponse model ;;; ret (Return tt)) (after w2)
                   else
                     let retryErrorText := text E retryResponse in
                     let cooldown :=
                       numOr (parseResetTime E retryResponse retryErrorText) waitMs in
                     prepend [marked (Some cooldown)]
                       (throw (newError ("RATE_LIMITED_AFTER_RETRY: " ++ retryErrorText))
                          (setWorld (after w2) (mark (Some cooldown) w2)))))
       /\ (retriedOnce s = true ->
           run = prepend [AFetch url headers payload; marked (Some waitMs)]
                   (throw (newError ("RATE_LIMITED: " ++ errorText))
                      (setWorld s (mark (Some waitMs) w1)))))
   /\ (forall e, isRateLimitError E e = true -> outcome run = Throw e ->
       (forall rest,
          StreamingHandler.endpointLoop anthropicRequest account token payload
            (endpoint :: rest) s = run)
       /\ (forall s', StreamingHandler.onAttemptError model e s' = ret Next s')))
  (* the one-shot handler *)
  /\ (let isThinking := isThinkingModel (Some model) in
      let url := MessageHandler.endpointUrl isThinking endpoint in
      let headers := buildHeaders token model (MessageHandler.acceptFor isThinking) in
      let run := MessageHandler.tryEndpoint anthropicRequest account token payload endpoint s in
      fetch E url headers payload (world s) = (inr response, w1) ->
      (forall ms, resetMs = Some ms -> (ms > 10000)%Z ->
         run = prepend [AFetch url headers payload; marked (Some ms)]
                 (throw (newError ("QUOTA_EXHAUSTED: " ++ errorText))
                    (setWorld s (mark (Some ms) w1))))
      /\ ((forall ms, resetMs = Some ms -> (ms <= 10000)%Z) ->
          (retriedOnce s = false ->
           forall retryResponse w2,
             fetch E url headers payload (sleep E waitMs w1) = (inr retryResponse, w2) ->
             run = prepend [AFetch url headers payload; ASleep waitMs;
                            AFetch url headers payload]
                     (if ok retryResponse
                      then (r <- MessageHandler.readResponse anthropicRequest retryResponse ;;
                            ret (Return r)) (after w2)
                      else
                        let retryErrorText := text E retryResponse in
                        let cooldown :=
                          numOr (parseResetTime E retryResponse retryErrorText) waitMs in
                        prepend [marked (Some cooldown)]
                          (throw (newError ("RATE_LIMITED_AFTER_RETRY: " ++ retryErrorText))
                             (setWorld (after w2) (mark (Some cooldown) w2)))))
          /\ (retriedOnce s = true ->
              run = prepend [AFetch url headers payload; marked (Some waitMs)]
                      (throw (newError ("RATE_LIMITED: " ++ errorText))
                         (setWorld s (mark (Some waitMs) w1)))))
      /\ (forall e, isRateLimitError E e = true -> outcome run = Throw e ->
          (forall rest,
             MessageHandler.endpointLoop anthropicRequest account token payload
               (endpoint :: rest) s = run)
          /\ (forall s', MessageHandler.onAttemptError model e s' = ret Next s')))
  (* the refetch of the empty-response loop *)
  /\ (forall url k streamError s0,
        let headers := buildHeaders token model "text/event-stream" in
        let backoffMs := (500 * 2 ^ Z.of_nat k)%Z in
        isEmptyResponseError E streamError = true ->
        k < MAX_EMPTY_RESPONSE_RETRIES ->
        fetch E url headers payload (sleep E backoffMs (world s0)) = (inr response, w1) ->
        StreamingHandler.onStreamError anthropicRequest account token payload url k streamError s0
        = prepend [ASleep backoffMs; AFetch url headers payload; marked resetMs]
            (throw (newError ("429 RESOURCE_EXHAUSTED during retry: " ++ errorText))
               (setWorld s0 (mark resetMs w1)))).
Proof.
  intros model errorText resetMs waitMs mark marked after Hstatus.
  subst model errorText resetMs waitMs mark marked after. cbv beta.
  split; [| split].
  - intros url headers run Hfetch. subst url headers run.
    rewrite (stream_tryEndpoint_429 _ _ _ _ _ _ _ _ Hfetch Hstatus).
    split; [| split].
    + intros ms Hreset Hlong.
      rewrite (stream_on429_long anthropicRequest account token payload _ response _
                 (setWorld s w1) ms Hreset)
        by (unfold DEFAULT_COOLDOWN_MS; lia).
      rewrite prepend_prepend. reflexivity.
    + intros Hshort. split.
      * intros Hnot retryResponse w2 Hretry.
        rewrite (stream_on429_retry anthropicRequest account token payload _ response _
                   (setWorld s w1) retryResponse w2 Hshort Hnot Hretry).
        rewrite prepend_prepend. reflexivity.
      * intros Hdone.
        rewrite (stream_on429_again anthropicRequest account token payload _ response _
                   (setWorld s w1) Hshort Hdone).
        rewrite prepend_prepend. reflexivity.
    + intros e Hrate Hthrow.
      rewrite <- (stream_tryEndpoint_429 _ _ _ _ _ _ _ _ Hfetch Hstatus) in *.
      split.
      * intros rest. apply stream_rate_limit_leaves with (e := e); assumption.
      * intros s'. apply stream_rate_limit_continues. exact Hrate.
  - intros isThinking url headers run Hfetch. subst isThinking url headers run.
    rewrite (message_tryEndpoint_429 _ _ _ _ _ _ _ _ Hfetch Hstatus).
    split; [| split].
    + intros ms Hreset Hlong.
      rewrite (message_on429_long anthropicRequest account token payload _ response _
                 (setWorld s w1) ms Hreset)
        by (unfold DEFAULT_COOLDOWN_MS; lia).
      rewrite prepend_prepend. reflexivity.
    + intros Hshort. split.
      * intros Hnot retryResponse w2 Hretry.
        rewrite (message_on429_retry anthropicRequest account token payload _ response _
                   (setWorld s w1) retryResponse w2 Hshort Hnot Hretry).
        rewrite prepend_prepend. reflexivity.
      * intros Hdone.
        rewrite (message_on429_again anthropicRequest account token payload _ response _
                   (setWorld s w1) Hshort Hdone).
        rewrite prepend_prepend. reflexivity.
    + intros e Hrate Hthrow.
      rewrite <- (message_tryEndpoint_429 _ _ _ _ _ _ _ _ Hfetch Hstatus) in *.
      split.
      * intros rest. apply message_rate_limit_leaves with (e := e); assumption.
      * intros s'. apply message_rate_limit_continues. exact Hrate.
  - intros url k streamError s0 headers backoffMs Hempty Hk Hfetch.
    subst headers backoffMs.
    apply stream_refetch_429; assumption.
Qed.

End Claim.

(** A 429 that resets in 3 s, answered to the first call of the first
    endpoint of an attempt that has not retried: the handler waits 3 s and
    calls the endpoint again, and streams the answer. *)
Lemma rate_limit_429_witness :
  let endpoint := "https://daily-cloudcode-pa.googleapis.com" in
  let url := StreamingHandler.sseUrl endpoint in
  let headers := @buildHeaders Scenario.env "token-1" "claude-sonnet-4-5" "text/event-stream" in
  let payload := @buildCloudCodeRequest Scenario.env Scenario.sonnet "project-1" "uuid" in
  let response :=
    {| Scenario.r_status := 429; Scenario.r_text := "slow down";
       Scenario.r_resetMs := Some 3000%Z; Scenario.r_events := [];
       Scenario.r_error := None |} in
  let retryResponse :=
    {| Scenario.r_status := 200; Scenario.r_text := "";
       Scenario.r_resetMs := None; Scenario.r_events := Scenario.hello;
       Scenario.r_error := None |} in
  let s := @Scenario.start Scenario.env Scenario.shortLimit in
  let w2 := Scenario.freshWorld ["a@x"] [] in
  status Scenario.env response = 429%Z
  /\ @StreamingHandler.tryEndpoint Scenario.env Scenario.sonnet "a@x" "token-1" payload endpoint s
     = prepend [AFetch url headers payload; ASleep 3000; AFetch url headers payload]
         ((@yieldStream Scenario.env retryResponse "claude-sonnet-4-5" ;;; ret (Return tt))
            (@Scenario.retried Scenario.env (Scenario.advance 3000 w2))).
Proof.
  cbv zeta. split; [reflexivity |].
  pose proof (@rate_limit_429 Scenario.env Scenario.sonnet "a@x" "token-1"
                (@buildCloudCodeRequest Scenario.env Scenario.sonnet "project-1" "uuid")
                "https://daily-cloudcode-pa.googleapis.com"
                (@Scenario.start Scenario.env Scenario.shortLimit)
                {| Scenario.r_status := 429; Scenario.r_text := "slow down";
                   Scenario.r_resetMs := Some 3000%Z; Scenario.r_events := [];
                   Scenario.r_error := None |}
                (Scenario.freshWorld ["a@x"] [Scenario.okStream Scenario.hello])
                eq_refl) as [Hstream _].
  destruct (Hstream eq_refl) as (_ & Hshort & _).
  destruct Hshort as [Hretry _].
  { intros ms Hms. injection Hms as <-. lia. }
  exact (Hretry eq_refl _ _ eq_refl).
Defined.

(** C3 fails as stated: the first call is answered with an empty stream,
    and its refetch, 500 ms later, with a 429 that resets in 3 s.  The
    handler does not wait the 3 s and call the endpoint again: it marks the
    account limited at once, and the next attempt waits for the account. *)
Lemma refetch_429_marks_at_once :
  let r := @StreamingHandler.sendMessageStream Scenario.env Scenario.sonnet false
             (@Scenario.start Scenario.env Scenario.limitedOnRefetch) in
  steps (trace r)
  = ([ entry "claude-sonnet-4-5" false; attemptNo 0; pickedNext "claude-sonnet-4-5";
       fetched "https://daily-cloudcode-pa.googleapis.com/v1internal:streamGenerateContent?alt=sse";
       slept 500;
       fetched "https://daily-cloudcode-pa.googleapis.com/v1internal:streamGenerateContent?alt=sse";
       marked "a@x" (Some 3000%Z) "claude-sonnet-4-5";
       attemptNo 1; slept 3500;
       attemptNo 2; pickedNext "claude-sonnet-4-5";
       fetched "https://daily-cloudcode-pa.googleapis.com/v1internal:streamGenerateContent?alt=sse" ]
     ++ map yield Scenario.hello)%list
  /\ outcome r = Ok tt.
Proof. cbv zeta. split; vm_compute; reflexivity. Qed.

End RateLimitTheorems.

(* ===================================================================== *)
(** ** The empty-response loop of the streaming handler *)
(* ===================================================================== *)

Module EmptyResponseFacts.
Import JS Constants RequestBuilder Calls Trace Measure MonadFacts RunFacts Anthropic StreamingHandler.

Section Facts.
Context {E : Env}.

Lemma yieldAll_prepend evs (s : @St E) :
  yieldAll evs s = prepend (map AYield evs) (ret tt s).
Proof.
  induction evs as [|ev evs IH]; [reflexivity |].
  cbn [yieldAll map]. run_step. rewrite IH, prepend_prepend. reflexivity.
Qed.

Lemma yieldStream_prepend response model (s : @St E) evs err w' :
  streamSSEResponse E response model (world s) = ((evs, err), w') ->
  yieldStream response model s
  = prepend (map AYield evs)
      (match err with Some e => throw e | None => ret tt end (setWorld s w')).
Proof.
  intros H. unfold yieldStream. run_step. cbn [fst snd].
  erewrite run_bind_prepend by apply yieldAll_prepend.
  cbn [ret outcome trace final]. rewrite (prepend_nil (A := unit)).
  reflexivity.
Qed.

(** The events of [emitEmptyResponseFallback]. *)
Lemma fallback_prepend model (s : @St E) hex w' :
  randomBytesHex E 16 (world s) = (hex, w') ->
  emitEmptyResponseFallback model s
  = prepend
      (map AYield
         [ message_start ("msg_" ++ hex) model (Some 0%Z) (Some 0%Z);
           content_block_start 0 (text_block "");
           content_block_delta 0
             (text_delta (Some "[No response after retries - please try again]"));
           content_block_stop 0;
           message_delta (Some "end_turn") (Some 0%Z);
           message_stop ])
      (ret tt (setWorld s w')).
Proof.
  intros H. unfold emitEmptyResponseFallback. run_step.
  apply yieldAll_prepend.
Qed.

Variable anthropicRequest : @AnthropicRequest E.
Variable account : Account E.
Variable token : string.
Variable payload : @Payload E.

Let model := model anthropicRequest.
Let headers := buildHeaders token model "text/event-stream".

Section Turn.
Variable url : string.
Variable k : nat.
Variable s : @St E.

(** The [try] and [catch] of one turn of the loop. *)
Lemma turn_completed currentResponse evs w' :
  streamSSEResponse E currentResponse model (world s) = ((evs, None), w') ->
  tryCatch (yieldStream currentResponse model ;;; ret StreamCompleted)
    (onStreamError anthropicRequest account token payload url k) s
  = prepend (map AYield evs) (ret StreamCompleted (setWorld s w')).
Proof.
  intros H. apply run_tryCatch_ok.
  erewrite run_bind_then by (apply yieldStream_prepend with (1 := H)). reflexivity.
Qed.

Lemma turn_raised currentResponse evs e w' :
  streamSSEResponse E currentResponse model (world s) = ((evs, Some e), w') ->
  tryCatch (yieldStream currentResponse model ;;; ret StreamCompleted)
    (onStreamError anthropicRequest account token payload url k) s
  = prepend (map AYield evs)
      (onStreamError anthropicRequest account token payload url k e (setWorld s w')).
Proof.
  intros H. apply run_tryCatch_throw.
  erewrite run_bind_thrown by (apply yieldStream_prepend with (1 := H)). reflexivity.
Qed.

Lemma onStreamError_other e :
  isEmptyResponseError E e = false ->
  onStreamError anthropicRequest account token payload url k e s = throw e s.
Proof. intros H. unfold onStreamError. rewrite H. reflexivity. Qed.

Lemma onStreamError_fallback e hex w' :
  isEmptyResponseError E e = true ->
  MAX_EMPTY_RESPONSE_RETRIES <= k ->
  randomBytesHex E 16 (world s) = (hex, w') ->
  onStreamError anthropicRequest account token payload url k e s
  = prepend
      (map AYield
         [ message_start ("msg_" ++ hex) model (Some 0%Z) (Some 0%Z);
           content_block_start 0 (text_block "");
           content_block_delta 0
             (text_delta (Some "[No response after retries - please try again]"));
           content_block_stop 0;
           message_delta (Some "end_turn") (Some 0%Z);
           message_stop ])
      (ret FallbackEmitted (setWorld s w')).
Proof.
  intros He Hk Hhex. unfold onStreamError. rewrite He. cbn [negb].
  destruct (Nat.leb_spec MAX_EMPTY_RESPONSE_RETRIES k) as [_ | Hlt]; [| lia].
  erewrite run_bind_then by (apply fallback_prepend; exact Hhex). reflexivity.
Qed.

Lemma onStreamError_refetch e currentResponse w2 :
  let backoffMs := (500 * 2 ^ Z.of_nat k)%Z in
  isEmptyResponseError E e = true ->
  k < MAX_EMPTY_RESPONSE_RETRIES ->
  fetch E url headers payload (sleep E backoffMs (world s)) = (inr currentResponse, w2) ->
  ok currentResponse = true ->
  onStreamError anthropicRequest account token payload url k e s
  = prepend [ASleep backoffMs; AFetch url headers payload]
      (ret (Refetched currentResponse) (setWorld s w2)).
Proof.
  intros backoffMs He Hk Hfetch Hok. unfold onStreamError. rewrite He. cbn [negb].
  destruct (Nat.leb_spec MAX_EMPTY_RESPONSE_RETRIES k) as [Hle | _]; [lia |].
  fold backoffMs. unfold sleepMs, post, postJson. fold model headers.
  repeat run_step. rewrite Hok. cbn [negb].
  rewrite prepend_prepend. reflexivity.
Qed.

Lemma onStreamError_refetch_5xx e currentResponse w2 currentResponse' w3 :
  let backoffMs := (500 * 2 ^ Z.of_nat k)%Z in
  isEmptyResponseError E e = true ->
  k < MAX_EMPTY_RESPONSE_RETRIES ->
  fetch E url headers payload (sleep E backoffMs (world s)) = (inr currentResponse, w2) ->
  (500 <= status E currentResponse)%Z ->
  fetch E url headers payload (sleep E 1000 w2) = (inr currentResponse', w3) ->
  ok currentResponse' = true ->
  onStreamError anthropicRequest account token payload url k e s
  = prepend [ASleep backoffMs; AFetch url headers payload;
             ASleep 1000; AFetch url headers payload]
      (ret (Refetched currentResponse') (setWorld s w3)).
Proof.
  intros backoffMs He Hk Hfetch H5xx Hfetch' Hok. unfold onStreamError. rewrite He. cbn [negb].
  destruct (Nat.leb_spec MAX_EMPTY_RESPONSE_RETRIES k) as [Hle | _]; [lia |].
  fold backoffMs. unfold sleepMs, post, postJson. fold model headers.
  repeat run_step.
  assert (Hnot : ok currentResponse = false).
  { unfold ok. destruct (Z.leb_spec (status E currentResponse) 299); [lia |].
    apply andb_false_r. }
  rewrite Hnot. cbn [negb].
  destruct (Z.eqb_spec (status E currentResponse) 429) as [H429 | _]; [lia |].
  destruct (Z.eqb_spec (status E currentResponse) 401) as [H401 | _]; [lia |].
  destruct (Z.leb_spec 500 (status E currentResponse)) as [_ | Hlt]; [| lia].
  repeat run_step. rewrite Hok.
  repeat rewrite prepend_prepend. reflexivity.
Qed.

End Turn.

(** The loop, by the way its first turn ends. *)
Section Loop.
Variable url : string.
Variable n k : nat.
Variable currentResponse : Response E.
Variable s : @St E.
Variable evs : list Anthropic.event.
Variable w' : World E.

Let run := streamWithEmptyRetries anthropicRequest account token payload url (S n) k
             currentResponse s.

Lemma loop_completed :
  streamSSEResponse E currentResponse model (world s) = ((evs, None), w') ->
  run = prepend (map AYield evs) (ret (Return tt) (setWorld s w')).
Proof.
  intros H. unfold run. cbn [streamWithEmptyRetries].
  erewrite run_bind_then by (apply turn_completed; exact H). reflexivity.
Qed.

Lemma loop_raised_other e :
  streamSSEResponse E currentResponse model (world s) = ((evs, Some e), w') ->
  isEmptyResponseError E e = false ->
  run = prepend (map AYield evs) (throw e (setWorld s w')).
Proof.
  intros H He. unfold run. cbn [streamWithEmptyRetries].
  erewrite run_bind_thrown
    by (erewrite turn_raised by exact H;
        rewrite onStreamError_other by exact He;
        reflexivity).
  reflexivity.
Qed.

Lemma loop_fallback e hex w2 :
  streamSSEResponse E currentResponse model (world s) = ((evs, Some e), w') ->
  isEmptyResponseError E e = true ->
  MAX_EMPTY_RESPONSE_RETRIES <= k ->
  randomBytesHex E 16 w' = (hex, w2) ->
  run = prepend
          (map AYield evs ++
           map AYield
             [ message_start ("msg_" ++ hex) model (Some 0%Z) (Some 0%Z);
               content_block_start 0 (text_block "");
               content_block_delta 0
                 (text_delta (Some "[No response after retries - please try again]"));
               content_block_stop 0;
               message_delta (Some "end_turn") (Some 0%Z);
               message_stop ])
          (ret (Return tt) (setWorld s w2)).
Proof.
  intros H He Hk Hhex. unfold run. cbn [streamWithEmptyRetries].
  erewrite run_bind_then
    by (erewrite turn_raised by exact H;
        erewrite onStreamError_fallback by (cbn [world setWorld]; eassumption);
        rewrite prepend_prepend;
        reflexivity).
  reflexivity.
Qed.

Lemma loop_refetch e currentResponse' w2 :
  let backoffMs := (500 * 2 ^ Z.of_nat k)%Z in
  streamSSEResponse E currentResponse model (world s) = ((evs, Some e), w') ->
  isEmptyResponseError E e = true ->
  k < MAX_EMPTY_RESPONSE_RETRIES ->
  fetch E url headers payload (sleep E backoffMs w') = (inr currentResponse', w2) ->
  ok currentResponse' = true ->
  run = prepend (map AYield evs ++ [ASleep backoffMs; AFetch url headers payload])
          (streamWithEmptyRetries anthropicRequest account token payload url n (S k)
             currentResponse' (setWorld s w2)).
Proof.
  intros backoffMs H He Hk Hfetch Hok. unfold run. cbn [streamWithEmptyRetries].
  erewrite run_bind_then
    by (erewrite turn_raised by exact H;
        erewrite onStreamError_refetch by (cbn [world setWorld]; eassumption);
        rewrite prepend_prepend;
        reflexivity).
  reflexivity.
Qed.

Lemma loop_refetch_5xx e currentResponse' w2 currentResponse'' w3 :
  let backoffMs := (500 * 2 ^ Z.of_nat k)%Z in
  streamSSEResponse E currentResponse model (world s) = ((evs, Some e), w') ->
  isEmptyResponseError E e = true ->
  k < MAX_EMPTY_RESPONSE_RETRIES ->
  fetch E url headers payload (sleep E backoffMs w') = (inr currentResponse', w2) ->
  (500 <= status E currentResponse')%Z ->
  fetch E url headers payload (sleep E 1000 w2) = (inr currentResponse'', w3) ->
  ok currentResponse'' = true ->
  run = prepend (map AYield evs ++ [ASleep backoffMs; AFetch url headers payload;
                                    ASleep 1000; AFetch url headers payload])
          (streamWithEmptyRetries anthropicRequest account token payload url n (S k)
             currentResponse'' (setWorld s w3)).
Proof.
  intros backoffMs H He Hk Hfetch H5xx Hfetch' Hok. unfold run. cbn [streamWithEmptyRetries].
  erewrite run_bind_then
    by (erewrite turn_raised by exact H;
        erewrite onStreamError_refetch_5xx by (cbn [world setWorld]; eassumption);
        rewrite prepend_prepend;
        reflexivity).
  reflexivity.
Qed.

End Loop.

(** A success of the first call of an endpoint enters the loop. *)
Lemma stream_tryEndpoint_ok endpoint s response w1 :
  fetch E (sseUrl endpoint) headers payload (world s) = (inr response, w1) ->
  ok response = true ->
  tryEndpoint anthropicRequest account token payload endpoint s
  = prepend [AFetch (sseUrl endpoint) headers payload]
      (streamWithEmptyRetries anthropicRequest account token payload (sseUrl endpoint)
         (S MAX_EMPTY_RESPONSE_RETRIES) 0 response (setWorld s w1)).
Proof.
  intros Hfetch Hok. unfold tryEndpoint, post, postJson. fold model headers.
  repeat run_step. rewrite Hok. reflexivity.
Qed.

End Facts.
End EmptyResponseFacts.

(* ===================================================================== *)
(** ** The streaming handler: what a request yields *)
(* ===================================================================== *)

Module ServedFacts.
Import JS Constants RequestBuilder Calls Trace Measure MonadFacts CallFacts StreamingHandler.
Import EmptyResponseFacts.

Section Facts.
Context {E : Env}.

Lemma quiet_served {A} (fin : A -> bool) (r : Run A) :
  yielded (trace r) = [] -> Served fin r.
Proof. intros H. left. exact H. Qed.

Lemma served_quiet {A} (fin : A -> bool) (m : M A) s :
  Only noYield m -> Served fin (m s).
Proof. intros H. apply quiet_served, no_yield_yielded, H. Qed.

Lemma served_prefix {A} (fin : A -> bool) (t0 : list (@Action E)) (r r' : Run A) :
  yielded t0 = [] -> Served fin r ->
  trace r' = (t0 ++ trace r)%list -> outcome r' = outcome r -> Served fin r'.
Proof.
  intros Hq Hr Ht Ho. unfold Served. rewrite Ht, Ho, yielded_app, Hq. exact Hr.
Qed.

Lemma served_bind_quiet {A B} (fin : B -> bool) (m : M A) (f : A -> M B) s :
  Only noYield m -> (forall a s', Served fin (f a s')) -> Served fin (bind m f s).
Proof.
  intros Hm Hf. pose proof (no_yield_yielded _ (Hm s)) as Hq.
  unfold bind. destruct (outcome (m s)) as [a|e].
  - eapply served_prefix; [exact Hq | apply (Hf a (final (m s))) | reflexivity | reflexivity].
  - apply quiet_served. exact Hq.
Qed.

Lemma served_bind_fin {A B} (finA : A -> bool) (finB : B -> bool)
    (m : M A) (f : A -> M B) s :
  Served finA (m s) ->
  (forall a, finA a = true -> exists b, f a = ret b /\ finB b = true) ->
  (forall a s', finA a = false -> Served finB (f a s')) ->
  Served finB (bind m f s).
Proof.
  intros Hfin Hend Hgo. unfold Served in Hfin. unfold bind.
  destruct (outcome (m s)) as [a|e] eqn:Hout.
  - destruct (finA a) eqn:Ha.
    + destruct (Hend a Ha) as (b & -> & Hb). unfold Served. cbn [ret trace final outcome].
      rewrite app_nil_r.
      destruct Hfin as [Hq | [Hsrc _]]; [left; exact Hq | right].
      split; [exact Hsrc | exists b; auto].
    + assert (Hq : yielded (trace (m s)) = []).
      { destruct Hfin as [Hq | [_ (a' & Ha' & Hfa')]]; [exact Hq |].
        injection Ha' as <-. congruence. }
      eapply served_prefix; [exact Hq | apply (Hgo a (final (m s)) Ha) | reflexivity | reflexivity].
  - apply quiet_served. cbn [trace].
    destruct Hfin as [Hq | [_ (a' & Ha' & _)]]; [exact Hq | discriminate].
Qed.

Lemma served_tryCatch {A} (fin : A -> bool) (m : M A) (h : JsError -> M A) s :
  Served fin (m s) -> (forall e s', Served fin (h e s')) -> Served fin (tryCatch m h s).
Proof.
  intros Hm Hh. unfold tryCatch.
  destruct (outcome (m s)) as [a|e] eqn:Hout; [exact Hm |]. unfold Served in Hm.
  assert (Hq : yielded (trace (m s)) = []).
  { destruct Hm as [Hq | [_ (a' & Ha' & _)]]; [exact Hq | congruence]. }
  eapply served_prefix; [exact Hq | apply (Hh e (final (m s))) | reflexivity | reflexivity].
Qed.

Lemma yielded_yields (evs : list Anthropic.event) : yielded (map (@AYield E) evs) = evs.
Proof. induction evs as [|ev evs IH]; [reflexivity |]. cbn. rewrite IH. reflexivity. Qed.

Hypothesis Hadapter : RaisesBeforeYield.

Lemma yieldStream_served response model s :
  Served always (yieldStream response model s).
Proof.
  destruct (streamSSEResponse E response model (world s)) as [[evs err] w'] eqn:Hs.
  rewrite (yieldStream_prepend _ _ _ _ _ _ Hs). destruct err as [e|].
  - rewrite (Hadapter _ _ _ _ _ _ Hs). apply quiet_served. reflexivity.
  - right. cbn [prepend ret trace outcome]. rewrite app_nil_r, yielded_yields. split.
    + left. exists response, model, (world s), w'. exact Hs.
    + exists tt. auto.
Qed.

Lemma fallback_served model s :
  Served always (emitEmptyResponseFallback model s).
Proof.
  destruct (randomBytesHex E 16 (world s)) as [hex w'] eqn:Hhex.
  rewrite (fallback_prepend _ _ _ _ Hhex). right.
  cbn [prepend ret trace outcome]. rewrite app_nil_r, yielded_yields. split.
  - right. exists model, hex. reflexivity.
  - exists tt. auto.
Qed.

Ltac quiet := apply served_quiet; scan.

Variable anthropicRequest : @AnthropicRequest E.
Variable account : Account E.
Variable token : string.
Variable payload : @Payload E.

Lemma post_no_yield url : Only noYield (post anthropicRequest token payload url).
Proof. unfold post. apply postJson_only. reflexivity. Qed.

Hint Resolve post_no_yield : onlys.

Lemma onStreamError_served url k e s :
  Served ends (onStreamError anthropicRequest account token payload url k e s).
Proof.
  unfold onStreamError.
  destruct (negb (isEmptyResponseError E e)); [quiet |].
  destruct (MAX_EMPTY_RESPONSE_RETRIES <=? k)%nat.
  - eapply served_bind_fin; [apply fallback_served | | discriminate].
    intros _ _. exists FallbackEmitted. auto.
  - quiet.
Qed.

Lemma streamWithEmptyRetries_served url : forall remaining k response s,
  Served returns
    (streamWithEmptyRetries anthropicRequest account token payload url remaining k response s).
Proof.
  induction remaining as [|r IH]; intros k response s; cbn [streamWithEmptyRetries].
  - quiet.
  - eapply served_bind_fin with (finA := ends).
    + apply served_tryCatch; [| intros; apply onStreamError_served].
      eapply served_bind_fin; [apply yieldStream_served | | discriminate].
      intros _ _. exists StreamCompleted. auto.
    + intros [| |r'] Hend; [eexists; split; reflexivity .. | discriminate].
    + intros [| |r'] s' Hend; try discriminate. apply IH.
Qed.

Lemma on429_served url response errorText s :
  Served returns (on429 anthropicRequest account token payload url response errorText s).
Proof.
  unfold on429. cbv zeta.
  destruct (truthyNum _ && _); [quiet |].
  apply served_bind_quiet; [scan |]. intros retried s1.
  destruct (negb retried); [| quiet].
  apply served_bind_quiet; [scan |]. intros _ s2.
  apply served_bind_quiet; [scan |]. intros _ s3.
  apply served_bind_quiet; [scan |]. intros retryResponse s4.
  destruct (ok retryResponse); [| quiet].
  eapply served_bind_fin; [apply yieldStream_served | | discriminate].
  intros _ _. exists (Return tt). auto.
Qed.

Lemma tryEndpoint_served endpoint s :
  Served returns (tryEndpoint anthropicRequest account token payload endpoint s).
Proof.
  unfold tryEndpoint. cbv zeta.
  apply served_bind_quiet; [scan |]. intros response s1.
  destruct (negb (ok response)); [| apply streamWithEmptyRetries_served].
  destruct (status E response =? 401)%Z; [quiet |].
  destruct (status E response =? 429)%Z; [apply on429_served | quiet].
Qed.

Lemma endpointLoop_served : forall endpoints s,
  Served returns (endpointLoop anthropicRequest account token payload endpoints s).
Proof.
  induction endpoints as [|endpoint rest IH]; intros s; cbn [endpointLoop].
  - quiet.
  - eapply served_bind_fin with (finA := returns).
    + apply served_tryCatch; [apply tryEndpoint_served |].
      intros e s'. unfold onEndpointError. quiet.
    + intros [u|] Hc; [destruct u; eexists; split; reflexivity | discriminate].
    + intros [u|] s' Hc; [discriminate | apply IH].
Qed.

End Facts.

Section Attempt.
Context {E : Env}.
Hypothesis Hadapter : @RaisesBeforeYield E.

Ltac quiet := apply served_quiet; scan.

Lemma tryAttempt_served (anthropicRequest : @AnthropicRequest E) account s :
  Served returns (tryAttempt anthropicRequest account s).
Proof.
  unfold tryAttempt.
  apply served_bind_quiet; [scan |]. intros token s1.
  apply served_bind_quiet; [scan |]. intros project s2.
  apply served_bind_quiet; [scan |]. intros uuid s3. cbv zeta.
  apply served_bind_quiet; [scan |]. intros _ s4.
  apply served_bind_quiet; [scan |]. intros _ s5.
  eapply served_bind_fin with (finA := returns).
  - apply endpointLoop_served, Hadapter.
  - intros [u|] Hc; [destruct u; eexists; split; reflexivity | discriminate].
  - intros [u|] s' Hc; [discriminate |]. unfold afterEndpoints. quiet.
Qed.

Variable self : @AnthropicRequest E -> bool -> M unit.
Hypothesis Hself : forall r s, Served always (self r false s).
Variable anthropicRequest : @AnthropicRequest E.
Variable fallbackEnabled : bool.

Lemma onNoAccounts_served s :
  Served returns (onNoAccounts self anthropicRequest fallbackEnabled s).
Proof.
  unfold onNoAccounts.
  apply served_bind_quiet; [scan |]. intros allLimited s1.
  destruct allLimited; [| quiet].
  apply served_bind_quiet; [scan |]. intros minWaitMs s2.
  apply served_bind_quiet; [scan |]. intros now s3.
  apply served_bind_quiet; [scan |]. intros resetTime s4.
  destruct (minWaitMs >? MAX_WAIT_BEFORE_ERROR_MS)%Z; [| quiet].
  destruct (if fallbackEnabled then fallbackModelFor (model anthropicRequest) else None);
    [| quiet].
  eapply served_bind_fin; [apply Hself | | discriminate].
  intros _ _. exists (Return tt). auto.
Qed.

Lemma attempt_served no s :
  Served returns (attempt self anthropicRequest fallbackEnabled no s).
Proof.
  unfold attempt.
  apply served_bind_quiet; [scan |]. intros _ s1.
  apply served_bind_quiet; [scan |]. intros _ s2.
  apply served_bind_quiet; [scan |]. intros availableAccounts s3.
  destruct availableAccounts; [apply onNoAccounts_served |].
  apply served_bind_quiet; [scan |]. intros sticky s4.
  apply served_bind_quiet; [destruct sticky; scan |]. intros account s5.
  destruct account as [account|]; [| quiet].
  apply served_tryCatch; [apply tryAttempt_served |].
  intros e s'. unfold onAttemptError. quiet.
Qed.

Lemma attemptLoop_served : forall remaining no s,
  Served always (attemptLoop self anthropicRequest fallbackEnabled remaining no s).
Proof.
  induction remaining as [|r IH]; intros no s; cbn [attemptLoop].
  - unfold afterAttempts.
    destruct (if fallbackEnabled then fallbackModelFor (model anthropicRequest) else None);
      [apply Hself | quiet].
  - eapply served_bind_fin with (finA := returns).
    + apply attempt_served.
    + intros [u|] Hc; [eexists; split; reflexivity | discriminate].
    + intros [u|] s' Hc; [discriminate | apply IH].
Qed.

Lemma body_served s :
  Served always (sendMessageStreamBody self anthropicRequest fallbackEnabled s).
Proof.
  unfold sendMessageStreamBody.
  apply served_bind_quiet; [scan |]. intros _ s1.
  apply served_bind_quiet; [scan |]. intros n s2.
  apply attemptLoop_served.
Qed.

End Attempt.

(** With an adapter that raises only before it has yielded anything, what a
    streaming request yields is of one source. *)
Lemma sendMessageStream_served {E : Env}
    (anthropicRequest : @AnthropicRequest E) (fallbackEnabled : bool) (s : @St E) :
  RaisesBeforeYield -> Served always (sendMessageStream anthropicRequest fallbackEnabled s).
Proof.
  intros Hadapter. apply body_served; [exact Hadapter |]. intros r1 s1.
  apply (body_served Hadapter); intros r2 s2.
  apply quiet_served. reflexivity.
Qed.

End ServedFacts.

Module EmptyResponseTheorems.
Import JS Constants RequestBuilder Calls Trace Measure MonadFacts RunFacts Anthropic.
Import StreamingHandler StreamFacts EmptyResponseFacts ServedFacts.

Section Claim.
Context {E : Env}.
Variable anthropicRequest : @AnthropicRequest E.
Variable account : Account E.
Variable token : string.
Variable payload : @Payload E.
Variable url : string.
Variable n k : nat.
Variable currentResponse : Response E.
Variable s : @St E.
Variable evs : list Anthropic.event.
Variable err : option JsError.
Variable w' : World E.

(** C4 (amended): a turn of the empty-response loop, which streams the
    current response of an endpoint; [k] counts the turns before it.  When
    the adapter completes, or raises an error that is not the empty
    response, the loop ends with that: the handler returns, or the error is
    thrown, and nothing is yielded besides the events of the adapter.  When
    the adapter raises the empty response and [k < 2], the handler sleeps
    [500 * 2^k] ms (500, then 1 000) and calls the same URL again; a success
    is streamed by the next turn, and an answer of status 500 or more is
    followed, after 1 000 ms, by one more call of the same URL, whose success
    is streamed by the next turn.  When the adapter raises the empty
    response and [k >= 2], the handler yields the six events of the
    synthetic message once, after what the adapter yielded, and returns.  The
    loop of an endpoint starts with [k = 0] on the first success, has three
    turns, and makes at most four calls.

    The synthetic text is never emitted when the adapter produced any
    payload, for an adapter that raises only before it has yielded anything:
    then the adapter has yielded nothing when it raises the empty response,
    and the events that a request yields are none, or all that the adapter
    yielded from one response, or the synthetic message alone; in the last
    two cases the request returns. *)
Theorem empty_response_retries :
  let model := model anthropicRequest in
  let headers := buildHeaders token model "text/event-stream" in
  let loop := streamWithEmptyRetries anthropicRequest account token payload in
  let call := AFetch url headers payload in
  let synthetic (hex : string) :=
    [ message_start ("msg_" ++ hex) model (Some 0%Z) (Some 0%Z);
      content_block_start 0 (text_block "");
      content_block_delta 0
        (text_delta (Some "[No response after retries - please try again]"));
      content_block_stop 0;
      message_delta (Some "end_turn") (Some 0%Z);
      message_stop ] in
  streamSSEResponse E currentResponse model (world s) = ((evs, err), w') ->
  (err = None ->
   loop url (S n) k currentResponse s
   = prepend (map AYield evs) (ret (Return tt) (setWorld s w')))
  /\ (forall e, err = Some e -> isEmptyResponseError E e = false ->
      loop url (S n) k currentResponse s
      = prepend (map AYield evs) (throw e (setWorld s w')))
  /\ (forall e, err = Some e -> isEmptyResponseError E e = true ->
      (RaisesBeforeYield -> evs = [])
      /\
      (k < 2 ->
       let backoffMs := (500 * 2 ^ Z.of_nat k)%Z in
       (backoffMs = 500 \/ backoffMs = 1000)%Z
       /\ forall response1 w1,
            fetch E url headers payload (sleep E backoffMs w') = (inr response1, w1) ->
            (ok response1 = true ->
             loop url (S n) k currentResponse s
             = prepend (map AYield evs ++ [ASleep backoffMs; call])
                 (loop url n (S k) response1 (setWorld s w1)))
            /\ ((500 <= status E response1)%Z ->
                forall response2 w2,
                  fetch E url headers payload (sleep E 1000 w1) = (inr response2, w2) ->
                  ok response2 = true ->
                  loop url (S n) k currentResponse s
                  = prepend (map AYield evs ++ [ASleep backoffMs; call; ASleep 1000; call])
                      (loop url n (S k) response2 (setWorld s w2))))
      /\ (2 <= k ->
          forall hex w1,
            randomBytesHex E 16 w' = (hex, w1) ->
            loop url (S n) k currentResponse s
            = prepend (map AYield evs ++ map AYield (synthetic hex))
                (ret (Return tt) (setWorld s w1))))
  /\ (forall endpoint s0 response w1,
        fetch E (sseUrl endpoint) headers payload (world s0) = (inr response, w1) ->
        ok response = true ->
        tryEndpoint anthropicRequest account token payload endpoint s0
        = prepend [AFetch (sseUrl endpoint) headers payload]
            (loop (sseUrl endpoint) 3 0 response (setWorld s0 w1)))
  /\ (forall response s0, fetches (trace (loop url 3 0 response s0)) <= 4)
  /\ (RaisesBeforeYield ->
      forall request fallbackEnabled s0,
        let r := sendMessageStream request fallbackEnabled s0 in
        yielded (trace r) = []
        \/ (outcome r = Ok tt
            /\ (FromAdapter (yielded (trace r)) \/ Synthetic (yielded (trace r)))))
  /\ (forall m hex, syntheticMessage m hex
                    = [ message_start ("msg_" ++ hex) m (Some 0%Z) (Some 0%Z);
                        content_block_start 0 (text_block "");
                        content_block_delta 0
                          (text_delta (Some "[No response after retries - please try again]"));
                        content_block_stop 0;
                        message_delta (Some "end_turn") (Some 0%Z);
                        message_stop ]).
Proof.
  intros model headers loop call synthetic Hstream.
  subst model headers loop call synthetic. cbv beta.
  split; [| split; [| split; [| split; [| split; [| split]]]]].
  - intros ->. apply loop_completed. exact Hstream.
  - intros e -> He. apply loop_raised_other; assumption.
  - intros e -> He. split; [intros Hadapter; exact (Hadapter _ _ _ _ _ _ Hstream) |]. split.
    + intros Hk backoffMs. split.
      * subst backoffMs.
        assert (Hcases : k = 0 \/ k = 1) by lia.
        destruct Hcases as [H0 | H1]; [rewrite H0; left | rewrite H1; right]; reflexivity.
      * intros response1 w1 Hfetch. split.
        -- intros Hok.
           apply (loop_refetch anthropicRequest account token payload url n k
                    currentResponse s evs w' e response1 w1); assumption.
        -- intros H5xx response2 w2 Hfetch2 Hok.
           apply (loop_refetch_5xx anthropicRequest account token payload url n k
                    currentResponse s evs w' e response1 w1 response2 w2); assumption.
    + intros Hk hex w1 Hhex.
      apply (loop_fallback anthropicRequest account token payload url n k
               currentResponse s evs w' e hex w1); assumption.
  - intros endpoint s0 response w1 Hfetch Hok.
    apply stream_tryEndpoint_ok; assumption.
  - intros response s0.
    pose proof (streamWithEmptyRetries_bound anthropicRequest account token payload url
                  3 0 response eq_refl s0) as H.
    cbn [phi noPotential] in H. lia.
  - intros Hadapter request fallbackEnabled s0.
    destruct (sendMessageStream_served request fallbackEnabled s0 Hadapter)
      as [Hquiet | [Hsource ([] & Hreturns & _)]]; [left; exact Hquiet | right].
    split; [exact Hreturns | exact Hsource].
  - intros m hex. reflexivity.
Qed.

End Claim.

(** The third turn of the loop, on an empty stream: the synthetic message
    is yielded and the handler returns. *)
Lemma empty_response_retries_witness :
  let url := sseUrl "https://daily-cloudcode-pa.googleapis.com" in
  let payload := @buildCloudCodeRequest Scenario.env Scenario.sonnet "project-1" "uuid" in
  let response :=
    {| Scenario.r_status := 200; Scenario.r_text := "";
       Scenario.r_resetMs := None; Scenario.r_events := [];
       Scenario.r_error := Some Scenario.emptyError |} in
  let s := @Scenario.start Scenario.env (Scenario.freshWorld ["a@x"] []) in
  streamSSEResponse Scenario.env response "claude-sonnet-4-5" (world s)
  = (([], Some Scenario.emptyError), world s)
  /\ @streamWithEmptyRetries Scenario.env Scenario.sonnet "a@x" "token-1" payload url 1 2
       response s
     = prepend
         (map AYield [] ++
          map AYield
            [ message_start "msg_000102030405060708090a0b0c0d0e0f" "claude-sonnet-4-5"
                (Some 0%Z) (Some 0%Z);
              content_block_start 0 (text_block "");
              content_block_delta 0
                (text_delta (Some "[No response after retries - please try again]"));
              content_block_stop 0;
              message_delta (Some "end_turn") (Some 0%Z);
              message_stop ])
         (ret (Return tt) s).
Proof.
  cbv zeta. split; [reflexivity |].
  pose proof (@empty_response_retries Scenario.env Scenario.sonnet "a@x" "token-1"
                (@buildCloudCodeRequest Scenario.env Scenario.sonnet "project-1" "uuid")
                (sseUrl "https://daily-cloudcode-pa.googleapis.com") 0 2
                {| Scenario.r_status := 200; Scenario.r_text := "";
                   Scenario.r_resetMs := None; Scenario.r_events := [];
                   Scenario.r_error := Some Scenario.emptyError |}
                (@Scenario.start Scenario.env (Scenario.freshWorld ["a@x"] []))
                [] (Some Scenario.emptyError) (Scenario.freshWorld ["a@x"] [])
                eq_refl) as (_ & _ & Hempty & _).
  destruct (Hempty Scenario.emptyError eq_refl eq_refl) as (_ & _ & Hlast).
  exact (Hlast (le_n 2) _ _ eq_refl).
Defined.

(** C4 fails as stated, in two ways.  Each of the two refetches of an empty
    stream is answered with a 503 and called once more, with an empty stream
    for answer: after the first empty stream the endpoint is called four
    more times, not twice, after waits of 500, 1 000, 1 000 and 1 000 ms.
    And with an adapter that has yielded three events of a stream when it
    breaks, the handler goes on to the second endpoint, whose three streams
    are empty: the synthetic message is yielded after the three events of
    the adapter. *)
Lemma empty_response_four_more_calls :
  let r := @sendMessageStream Scenario.env Scenario.sonnet false
             (@Scenario.start Scenario.env Scenario.emptyBetweenErrors) in
  let url := "https://daily-cloudcode-pa.googleapis.com/v1internal:streamGenerateContent?alt=sse" in
  let synthetic :=
    [ message_start "msg_000102030405060708090a0b0c0d0e0f" "claude-sonnet-4-5"
        (Some 0%Z) (Some 0%Z);
      content_block_start 0 (text_block "");
      content_block_delta 0
        (text_delta (Some "[No response after retries - please try again]"));
      content_block_stop 0;
      message_delta (Some "end_turn") (Some 0%Z);
      message_stop ] in
  let broken := @sendMessageStream Scenario.env Scenario.sonnet false
                  (@Scenario.start Scenario.env Scenario.brokenThenEmpty) in
  (steps (trace r)
   = ([ entry "claude-sonnet-4-5" false; attemptNo 0; pickedNext "claude-sonnet-4-5";
        fetched url;
        slept 500; fetched url; slept 1000; fetched url;
        slept 1000; fetched url; slept 1000; fetched url ]
      ++ map yield synthetic)%list
   /\ fetches (trace r) = 5
   /\ outcome r = Ok tt)
  /\ (yielded (trace broken) = (firstn 3 Scenario.hello ++ synthetic)%list
      /\ firstn 3 Scenario.hello
         = [ message_start "msg_1" "claude-sonnet-4-5" (Some 3%Z) (Some 0%Z);
             content_block_start 0 (text_block "");
             content_block_delta 0 (text_delta (Some "hello")) ]
      /\ outcome broken = Ok tt).
Proof. cbv zeta. repeat split; vm_compute; reflexivity. Qed.

(** The same upstream with the adapter that yields nothing of a stream that
    breaks: the synthetic message is all that the request yields. *)
Example synthetic_message_alone :
  let r := @sendMessageStream Scenario.strictEnv Scenario.sonnet false
             (@Scenario.start Scenario.strictEnv Scenario.brokenThenEmpty) in
  yielded (trace r)
  = syntheticMessage "claude-sonnet-4-5" "000102030405060708090a0b0c0d0e0f"
  /\ outcome r = Ok tt.
Proof. cbv zeta. split; vm_compute; reflexivity. Qed.

End EmptyResponseTheorems.

(* ===================================================================== *)
(** ** An attempt that finds every account limited *)
(* ===================================================================== *)

Module WaitFacts.
Import JS Constants RequestBuilder Calls Trace Measure MonadFacts RunFacts.

Lemma long_wait z : (z > 120000)%Z -> (z >? MAX_WAIT_BEFORE_ERROR_MS)%Z = true.
Proof. intros H. apply Z.gtb_lt. unfold MAX_WAIT_BEFORE_ERROR_MS. lia. Qed.

Lemma short_wait z : (z <= 120000)%Z -> (z >? MAX_WAIT_BEFORE_ERROR_MS)%Z = false.
Proof.
  intros H. destruct (z >? MAX_WAIT_BEFORE_ERROR_MS)%Z eqn:Hc; [| reflexivity].
  apply Z.gtb_lt in Hc. unfold MAX_WAIT_BEFORE_ERROR_MS in Hc. lia.
Qed.

Section Stream.
Context {E : Env}.
Variable self : @AnthropicRequest E -> bool -> M unit.
Variable anthropicRequest : @AnthropicRequest E.
Variable fallbackEnabled : bool.
Variable attemptNo : nat.
Variable s : @St E.

Let model := model anthropicRequest.
Let w0 := clearExpiredLimits E (world s).
Let minWaitMs := getMinWaitTimeMs E model w0.
Let s1 := setWorld s (clearExpiredLimits E (sleep E (minWaitMs + 500) w0)).
Let fallback := if fallbackEnabled then StreamingHandler.fallbackModelFor model else None.

Hypothesis Hnone : getAvailableAccounts E model w0 = [].
Hypothesis Hall : isAllRateLimited E model w0 = true.

Lemma stream_no_accounts :
  StreamingHandler.attempt self anthropicRequest fallbackEnabled attemptNo s
  = prepend [AAttempt attemptNo]
      (bind (read (getMinWaitTimeMs E model))
         (fun minWaitMs =>
            bind (read (dateNow E))
              (fun now =>
                 bind (isoString (now + minWaitMs))
                   (fun resetTime =>
                      if (minWaitMs >? MAX_WAIT_BEFORE_ERROR_MS)%Z
                      then
                        match fallback with
                        | Some fallbackModel =>
                            self (withModel anthropicRequest fallbackModel) false ;;; ret (Return tt)
                        | None =>
                            throw (newError ("RESOURCE_EXHAUSTED: Rate limited on " ++ model
                                               ++ ". Quota will reset after "
                                               ++ formatDuration E minWaitMs
                                               ++ ". Next available: " ++ resetTime))
                        end
                      else sleepMs (minWaitMs + 500) ;;; update (clearExpiredLimits E) ;;;
                           ret Next)))
         (setWorld s w0)).
Proof.
  unfold StreamingHandler.attempt. repeat run_step. fold model w0. rewrite Hnone.
  unfold StreamingHandler.onNoAccounts. fold model. repeat run_step. fold w0. rewrite Hall.
  reflexivity.
Qed.

Lemma stream_invalid_time :
  (MAX_TIME_VALUE < Z.abs (dateNow E w0 + minWaitMs))%Z ->
  StreamingHandler.attempt self anthropicRequest fallbackEnabled attemptNo s
  = prepend [AAttempt attemptNo] (throw invalidTime (setWorld s w0)).
Proof.
  intros Hbeyond. rewrite stream_no_accounts. repeat run_step. fold w0 minWaitMs.
  unfold isoString. rewrite (proj2 (Z.leb_gt _ _) Hbeyond). repeat run_step. reflexivity.
Qed.

Lemma stream_hop fallbackModel :
  (Z.abs (dateNow E w0 + minWaitMs) <= MAX_TIME_VALUE)%Z ->
  (minWaitMs > 120000)%Z -> fallback = Some fallbackModel ->
  StreamingHandler.attempt self anthropicRequest fallbackEnabled attemptNo s
  = prepend [AAttempt attemptNo]
      ((self (withModel anthropicRequest fallbackModel) false ;;; ret (Return tt)) (setWorld s w0)).
Proof.
  intros Hvalid Hlong Hfb. rewrite stream_no_accounts. repeat run_step. fold w0 minWaitMs.
  unfold isoString. rewrite (proj2 (Z.leb_le _ _) Hvalid). repeat run_step.
  rewrite (long_wait _ Hlong), Hfb. reflexivity.
Qed.

Lemma stream_exhausted :
  (Z.abs (dateNow E w0 + minWaitMs) <= MAX_TIME_VALUE)%Z ->
  (minWaitMs > 120000)%Z -> fallback = None ->
  StreamingHandler.attempt self anthropicRequest fallbackEnabled attemptNo s
  = prepend [AAttempt attemptNo]
      (throw (newError ("RESOURCE_EXHAUSTED: Rate limited on " ++ model
                          ++ ". Quota will reset after " ++ formatDuration E minWaitMs
                          ++ ". Next available: " ++ toISOString E (dateNow E w0 + minWaitMs)))
         (setWorld s w0)).
Proof.
  intros Hvalid Hlong Hfb. rewrite stream_no_accounts. repeat run_step. fold w0 minWaitMs.
  unfold isoString. rewrite (proj2 (Z.leb_le _ _) Hvalid). repeat run_step.
  rewrite (long_wait _ Hlong), Hfb. reflexivity.
Qed.

Lemma stream_wait :
  (Z.abs (dateNow E w0 + minWaitMs) <= MAX_TIME_VALUE)%Z ->
  (minWaitMs <= 120000)%Z ->
  StreamingHandler.attempt self anthropicRequest fallbackEnabled attemptNo s
  = prepend [AAttempt attemptNo; ASleep (minWaitMs + 500)] (ret Next s1).
Proof.
  intros Hvalid Hshort. rewrite stream_no_accounts. repeat run_step. fold w0 minWaitMs.
  unfold isoString. rewrite (proj2 (Z.leb_le _ _) Hvalid). repeat run_step.
  rewrite (short_wait _ Hshort). unfold sleepMs. repeat run_step.
  rewrite prepend_prepend. reflexivity.
Qed.

Lemma stream_wait_loop remaining :
  (Z.abs (dateNow E w0 + minWaitMs) <= MAX_TIME_VALUE)%Z ->
  (minWaitMs <= 120000)%Z ->
  StreamingHandler.attemptLoop self anthropicRequest fallbackEnabled (S remaining) attemptNo s
  = prepend [AAttempt attemptNo; ASleep (minWaitMs + 500)]
      (StreamingHandler.attemptLoop self anthropicRequest fallbackEnabled remaining (S attemptNo) s1).
Proof.
  intros Hvalid Hshort. cbn [StreamingHandler.attemptLoop].
  erewrite run_bind_then by exact (stream_wait Hvalid Hshort). reflexivity.
Qed.

End Stream.

Section Message.
Context {E : Env}.
Variable self : @AnthropicRequest E -> bool -> M (AnthropicResponse E).
Variable anthropicRequest : @AnthropicRequest E.
Variable fallbackEnabled : bool.
Variable attemptNo : nat.
Variable s : @St E.

Let model := model anthropicRequest.
Let w0 := clearExpiredLimits E (world s).
Let minWaitMs := getMinWaitTimeMs E model w0.
Let s1 := setWorld s (clearExpiredLimits E (sleep E (minWaitMs + 500) w0)).
Let fallback := if fallbackEnabled then MessageHandler.fallbackModelFor model else None.

Hypothesis Hnone : getAvailableAccounts E model w0 = [].
Hypothesis Hall : isAllRateLimited E model w0 = true.

Lemma message_no_accounts :
  MessageHandler.attempt self anthropicRequest fallbackEnabled attemptNo s
  = prepend [AAttempt attemptNo]
      (bind (read (getMinWaitTimeMs E model))
         (fun minWaitMs =>
            bind (read (dateNow E))
              (fun now =>
                 bind (isoString (now + minWaitMs))
                   (fun resetTime =>
                      if (minWaitMs >? MAX_WAIT_BEFORE_ERROR_MS)%Z
                      then
                        match fallback with
                        | Some fallbackModel =>
                            r <- self (withModel anthropicRequest fallbackModel) false ;; ret (Return r)
                        | None =>
                            throw (newError ("RESOURCE_EXHAUSTED: Rate limited on " ++ model
                                               ++ ". Quota will reset after "
                                               ++ formatDuration E minWaitMs
                                               ++ ". Next available: " ++ resetTime))
                        end
                      else sleepMs (minWaitMs + 500) ;;; update (clearExpiredLimits E) ;;;
                           ret Next)))
         (setWorld s w0)).
Proof.
  unfold MessageHandler.attempt. repeat run_step. fold model w0. rewrite Hnone.
  unfold MessageHandler.onNoAccounts. fold model. repeat run_step. fold w0. rewrite Hall.
  reflexivity.
Qed.

Lemma message_invalid_time :
  (MAX_TIME_VALUE < Z.abs (dateNow E w0 + minWaitMs))%Z ->
  MessageHandler.attempt self anthropicRequest fallbackEnabled attemptNo s
  = prepend [AAttempt attemptNo] (throw invalidTime (setWorld s w0)).
Proof.
  intros Hbeyond. rewrite message_no_accounts. repeat run_step. fold w0 minWaitMs.
  unfold isoString. rewrite (proj2 (Z.leb_gt _ _) Hbeyond). repeat run_step. reflexivity.
Qed.

Lemma message_hop fallbackModel :
  (Z.abs (dateNow E w0 + minWaitMs) <= MAX_TIME_VALUE)%Z ->
  (minWaitMs > 120000)%Z -> fallback = Some fallbackModel ->
  MessageHandler.attempt self anthropicRequest fallbackEnabled attemptNo s
  = prepend [AAttempt attemptNo]
      ((r <- self (withModel anthropicRequest fallbackModel) false ;; ret (Return r)) (setWorld s w0)).
Proof.
  intros Hvalid Hlong Hfb. rewrite message_no_accounts. repeat run_step. fold w0 minWaitMs.
  unfold isoString. rewrite (proj2 (Z.leb_le _ _) Hvalid). repeat run_step.
  rewrite (long_wait _ Hlong), Hfb. reflexivity.
Qed.

Lemma message_exhausted :
  (Z.abs (dateNow E w0 + minWaitMs) <= MAX_TIME_VALUE)%Z ->
  (minWaitMs > 120000)%Z -> fallback = None ->
  MessageHandler.attempt self anthropicRequest fallbackEnabled attemptNo s
  = prepend [AAttempt attemptNo]
      (throw (newError ("RESOURCE_EXHAUSTED: Rate limited on " ++ model
                          ++ ". Quota will reset after " ++ formatDuration E minWaitMs
                          ++ ". Next available: " ++ toISOString E (dateNow E w0 + minWaitMs)))
         (setWorld s w0)).
Proof.
  intros Hvalid Hlong Hfb. rewrite message_no_accounts. repeat run_step. fold w0 minWaitMs.
  unfold isoString. rewrite (proj2 (Z.leb_le _ _) Hvalid). repeat run_step.
  rewrite (long_wait _ Hlong), Hfb. reflexivity.
Qed.

Lemma message_wait :
  (Z.abs (dateNow E w0 + minWaitMs) <= MAX_TIME_VALUE)%Z ->
  (minWaitMs <= 120000)%Z ->
  MessageHandler.attempt self anthropicRequest fallbackEnabled attemptNo s
  = prepend [AAttempt attemptNo; ASleep (minWaitMs + 500)] (ret Next s1).
Proof.
  intros Hvalid Hshort. rewrite message_no_accounts. repeat run_step. fold w0 minWaitMs.
  unfold isoString. rewrite (proj2 (Z.leb_le _ _) Hvalid). repeat run_step.
  rewrite (short_wait _ Hshort). unfold sleepMs. repeat run_step.
  rewrite prepend_prepend. reflexivity.
Qed.

Lemma message_wait_loop remaining :
  (Z.abs (dateNow E w0 + minWaitMs) <= MAX_TIME_VALUE)%Z ->
  (minWaitMs <= 120000)%Z ->
  MessageHandler.attemptLoop self anthropicRequest fallbackEnabled (S remaining) attemptNo s
  = prepend [AAttempt attemptNo; ASleep (minWaitMs + 500)]
      (MessageHandler.attemptLoop self anthropicRequest fallbackEnabled remaining (S attemptNo) s1).
Proof.
  intros Hvalid Hshort. cbn [MessageHandler.attemptLoop].
  erewrite run_bind_then by exact (message_wait Hvalid Hshort). reflexivity.
Qed.

End Message.

End WaitFacts.

Module WaitTheorems.
Import JS Constants RequestBuilder Calls Trace Measure MonadFacts RunFacts WaitFacts.

Section Claim.
Context {E : Env}.
Variable streamSelf : @AnthropicRequest E -> bool -> M unit.
Variable messageSelf : @AnthropicRequest E -> bool -> M (AnthropicResponse E).
Variable anthropicRequest : @AnthropicRequest E.
Variable fallbackEnabled : bool.
Variable attemptNo : nat.
Variable s : @St E.

(** C5 (amended): an attempt of either handler that, once the expired limits
    are cleared, finds no account available for the model and all of them
    rate-limited makes no upstream call.  It first writes the instant of the
    reset, now plus the minimum wait, as a date: when that instant is beyond
    the range of a [Date] the attempt, and with it the request, ends with
    the [RangeError] of [toISOString], whatever the wait is.  Else, with a
    minimum wait above 120 000 ms it makes the fallback hop and returns what
    the hop returns, when fallback is enabled and the model has a fallback,
    and else throws the [RESOURCE_EXHAUSTED] error.  Otherwise it sleeps the
    minimum wait and 500 ms, clears the expired limits and ends the
    iteration: the attempt loop goes on with its next iteration, if one
    remains.  The wait uses up the iteration, so a wait in the last one ends
    the loop, and the request then ends as after any exhausted loop: with
    the fallback hop, or with the error [Max retries exceeded]. *)
Theorem all_accounts_limited :
  let model := model anthropicRequest in
  let w0 := clearExpiredLimits E (world s) in
  let s0 := setWorld s w0 in
  let minWaitMs := getMinWaitTimeMs E model w0 in
  let resetInstant := (dateNow E w0 + minWaitMs)%Z in
  let exhausted :=
    newError ("RESOURCE_EXHAUSTED: Rate limited on " ++ model
                ++ ". Quota will reset after " ++ formatDuration E minWaitMs
                ++ ". Next available: " ++ toISOString E resetInstant) in
  let s1 := setWorld s (clearExpiredLimits E (sleep E (minWaitMs + 500) w0)) in
  getAvailableAccounts E model w0 = [] ->
  isAllRateLimited E model w0 = true ->
  (* the streaming handler *)
  (let attempt := StreamingHandler.attempt streamSelf anthropicRequest fallbackEnabled in
   let attemptLoop := StreamingHandler.attemptLoop streamSelf anthropicRequest fallbackEnabled in
   let fallback :=
     if fallbackEnabled then StreamingHandler.fallbackModelFor model else None in
   ((Z.abs resetInstant <= MAX_TIME_VALUE)%Z ->
    ((minWaitMs > 120000)%Z ->
     (forall fallbackModel, fallback = Some fallbackModel ->
        attempt attemptNo s
        = prepend [AAttempt attemptNo]
            ((streamSelf (withModel anthropicRequest fallbackModel) false ;;;
              ret (Return tt)) s0))
     /\ (fallback = None ->
         attempt attemptNo s = prepend [AAttempt attemptNo] (throw exhausted s0)))
    /\ ((minWaitMs <= 120000)%Z ->
        attempt attemptNo s
        = prepend [AAttempt attemptNo; ASleep (minWaitMs + 500)] (ret Next s1)
        /\ (forall remaining,
              attemptLoop (S remaining) attemptNo s
              = prepend [AAttempt attemptNo; ASleep (minWaitMs + 500)]
                  (attemptLoop remaining (S attemptNo) s1))
        /\ (forall fallbackModel, fallback = Some fallbackModel ->
              attemptLoop 1 attemptNo s
              = prepend [AAttempt attemptNo; ASleep (minWaitMs + 500)]
                  (streamSelf (withModel anthropicRequest fallbackModel) false s1))
        /\ (fallback = None ->
            attemptLoop 1 attemptNo s
            = prepend [AAttempt attemptNo; ASleep (minWaitMs + 500)]
                (throw (newError "Max retries exceeded") s1))))
   /\ ((MAX_TIME_VALUE < Z.abs resetInstant)%Z ->
       attempt attemptNo s = prepend [AAttempt attemptNo] (throw invalidTime s0)
       /\ forall remaining,
            attemptLoop (S remaining) attemptNo s
            = prepend [AAttempt attemptNo] (throw invalidTime s0)))
  (* the one-shot handler *)
  /\ (let attempt := MessageHandler.attempt messageSelf anthropicRequest fallbackEnabled in
   let attemptLoop := MessageHandler.attemptLoop messageSelf anthropicRequest fallbackEnabled in
   let fallback :=
     if fallbackEnabled then MessageHandler.fallbackModelFor model else None in
   ((Z.abs resetInstant <= MAX_TIME_VALUE)%Z ->
    ((minWaitMs > 120000)%Z ->
     (forall fallbackModel, fallback = Some fallbackModel ->
        attempt attemptNo s
        = prepend [AAttempt attemptNo]
            ((r <- messageSelf (withModel anthropicRequest fallbackModel) false ;;
              ret (Return r)) s0))
     /\ (fallback = None ->
         attempt attemptNo s = prepend [AAttempt attemptNo] (throw exhausted s0)))
    /\ ((minWaitMs <= 120000)%Z ->
        attempt attemptNo s
        = prepend [AAttempt attemptNo; ASleep (minWaitMs + 500)] (ret Next s1)
        /\ (forall remaining,
              attemptLoop (S remaining) attemptNo s
              = prepend [AAttempt attemptNo; ASleep (minWaitMs + 500)]
                  (attemptLoop remaining (S attemptNo) s1))
        /\ (forall fallbackModel, fallback = Some fallbackModel ->
              attemptLoop 1 attemptNo s
              = prepend [AAttempt attemptNo; ASleep (minWaitMs + 500)]
                  (messageSelf (withModel anthropicRequest fallbackModel) false s1))
        /\ (fallback = None ->
            attemptLoop 1 attemptNo s
            = prepend [AAttempt attemptNo; ASleep (minWaitMs + 500)]
                (throw (newError "Max retries exceeded") s1))))
   /\ ((MAX_TIME_VALUE < Z.abs resetInstant)%Z ->
       attempt attemptNo s = prepend [AAttempt attemptNo] (throw invalidTime s0)
       /\ forall remaining,
            attemptLoop (S remaining) attemptNo s
            = prepend [AAttempt attemptNo] (throw invalidTime s0))).
Proof.
  intros model w0 s0 minWaitMs resetInstant exhausted s1 Hnone Hall.
  subst model w0 s0 minWaitMs resetInstant exhausted s1. split.
  - intros attempt attemptLoop fallback. subst attempt attemptLoop fallback. split.
    + intros Hvalid. split.
      * intros Hlong. split.
        -- intros fallbackModel Hfb. apply stream_hop; assumption.
        -- intros Hfb. apply stream_exhausted; assumption.
      * intros Hshort. split; [apply stream_wait; assumption |].
        split; [intros remaining; apply stream_wait_loop; assumption |].
        split.
        -- intros fallbackModel Hfb. rewrite stream_wait_loop by assumption.
           cbn [StreamingHandler.attemptLoop]. unfold StreamingHandler.afterAttempts.
           rewrite Hfb. reflexivity.
        -- intros Hfb. rewrite stream_wait_loop by assumption.
           cbn [StreamingHandler.attemptLoop]. unfold StreamingHandler.afterAttempts.
           rewrite Hfb. reflexivity.
    + intros Hbeyond. split; [apply stream_invalid_time; assumption |].
      intros remaining. cbn [StreamingHandler.attemptLoop].
      erewrite run_bind_thrown by exact (stream_invalid_time _ _ _ _ _ Hnone Hall Hbeyond).
      reflexivity.
  - intros attempt attemptLoop fallback. subst attempt attemptLoop fallback. split.
    + intros Hvalid. split.
      * intros Hlong. split.
        -- intros fallbackModel Hfb. apply message_hop; assumption.
        -- intros Hfb. apply message_exhausted; assumption.
      * intros Hshort. split; [apply message_wait; assumption |].
        split; [intros remaining; apply message_wait_loop; assumption |].
        split.
        -- intros fallbackModel Hfb. rewrite message_wait_loop by assumption.
           cbn [MessageHandler.attemptLoop]. unfold MessageHandler.afterAttempts.
           rewrite Hfb. reflexivity.
        -- intros Hfb. rewrite message_wait_loop by assumption.
           cbn [MessageHandler.attemptLoop]. unfold MessageHandler.afterAttempts.
           rewrite Hfb. reflexivity.
    + intros Hbeyond. split; [apply message_invalid_time; assumption |].
      intros remaining. cbn [MessageHandler.attemptLoop].
      erewrite run_bind_thrown by exact (message_invalid_time _ _ _ _ _ Hnone Hall Hbeyond).
      reflexivity.
Qed.

End Claim.

(** The one account of the pool is limited for 45 s: the attempt sleeps
    45.5 s and ends its iteration. *)
Lemma all_accounts_limited_witness :
  let self := @StreamingHandler.sendMessageStream Scenario.env in
  let s := @Scenario.start Scenario.env Scenario.limitedPool in
  let w0 := Scenario.clearExpired Scenario.limitedPool in
  (getAvailableAccounts Scenario.env "claude-sonnet-4-5" w0 = []
   /\ isAllRateLimited Scenario.env "claude-sonnet-4-5" w0 = true)
  /\ StreamingHandler.attempt self Scenario.sonnet false 0 s
     = prepend [AAttempt 0; ASleep 45500]
         (ret Next (setWorld s (Scenario.clearExpired (Scenario.advance 45500 w0)))).
Proof.
  cbv zeta. split; [split; reflexivity |].
  pose proof (@all_accounts_limited Scenario.env
                (@StreamingHandler.sendMessageStream Scenario.env)
                (@MessageHandler.sendMessage Scenario.env)
                Scenario.sonnet false 0
                (@Scenario.start Scenario.env Scenario.limitedPool)
                eq_refl eq_refl) as [[Hvalid _] _].
  destruct Hvalid as [_ Hshort]; [vm_compute; discriminate |].
  destruct Hshort as [Hattempt _]; [vm_compute; discriminate |].
  exact Hattempt.
Defined.

(** C5 fails as stated, in two ways.  The one account is limited for 45 s,
    and for 45 s again each time it is used: the first, third and fifth
    attempts wait 45.5 s; the fifth is the last, so after its wait the
    request fails, and the error reaches the client.  And an account that is
    limited until an instant that no [Date] holds gives a minimum wait above
    120 000 ms, but neither the fallback hop, although fallback is enabled
    and the model has a fallback, nor the [RESOURCE_EXHAUSTED] error: the
    request ends with the [RangeError] of [toISOString], in both handlers. *)
Lemma wait_in_last_attempt :
  let r := @StreamingHandler.sendMessageStream Scenario.env Scenario.sonnet false
             (@Scenario.start Scenario.env Scenario.limitedPool) in
  let url := "https://daily-cloudcode-pa.googleapis.com/v1internal:streamGenerateContent?alt=sse" in
  let far := @Scenario.start Scenario.env Scenario.limitedBeyondDate in
  (steps (trace r)
   = [ entry "claude-sonnet-4-5" false;
       attemptNo 0; slept 45500;
       attemptNo 1; pickedNext "claude-sonnet-4-5"; fetched url;
       marked "a@x" (Some 45000%Z) "claude-sonnet-4-5";
       attemptNo 2; slept 45500;
       attemptNo 3; pickedNext "claude-sonnet-4-5"; fetched url;
       marked "a@x" (Some 45000%Z) "claude-sonnet-4-5";
       attemptNo 4; slept 45500 ]
   /\ outcome r = Throw (newError "Max retries exceeded"))
  /\ ((getMinWaitTimeMs Scenario.env "claude-sonnet-4-5" Scenario.limitedBeyondDate
       > 120000)%Z
      /\ @StreamingHandler.fallbackModelFor Scenario.env "claude-sonnet-4-5"
         = Some "gemini-3-flash"
      /\ (let r := @StreamingHandler.sendMessageStream Scenario.env Scenario.sonnet true far in
          steps (trace r) = [entry "claude-sonnet-4-5" true; attemptNo 0]
          /\ outcome r = Throw invalidTime)
      /\ (let r := @MessageHandler.sendMessage Scenario.env Scenario.sonnet true far in
          steps (trace r) = [entry "claude-sonnet-4-5" true; attemptNo 0]
          /\ outcome r = Throw invalidTime)).
Proof.
  cbv zeta. split; [split; vm_compute; reflexivity |].
  split; [reflexivity |]. split; [reflexivity |].
  split; split; vm_compute; reflexivity.
Qed.

End WaitTheorems.

(* ===================================================================== *)
(** ** An endpoint that answers 401 *)
(* ===================================================================== *)

Module AuthTheorems.
Import JS Constants RequestBuilder Calls Trace Measure MonadFacts.

(** C8: the first endpoint answers 401.  Both handlers clear the token and
    the project of the account and go on to the second endpoint, but the
    call to it carries the token that was just refused: the token is read
    once, before the endpoint loop.  The caches are empty after the run, and
    the next read of the token would have been a new one. *)
Theorem stale_token_after_401 :
  let s := @Scenario.start Scenario.env Scenario.unauthorized in
  let stream := @StreamingHandler.sendMessageStream Scenario.env Scenario.sonnet false s in
  let message := @MessageHandler.sendMessage Scenario.env Scenario.sonnet false s in
  let daily := "https://daily-cloudcode-pa.googleapis.com" in
  let prod := "https://cloudcode-pa.googleapis.com" in
  steps (trace stream)
  = ([ entry "claude-sonnet-4-5" false; attemptNo 0; pickedNext "claude-sonnet-4-5";
       fetched (StreamingHandler.sseUrl daily);
       clearedToken "a@x"; clearedProject "a@x";
       fetched (StreamingHandler.sseUrl prod) ]
     ++ map yield Scenario.hello)%list
  /\ calls (trace stream)
     = [ (StreamingHandler.sseUrl daily, Some "Bearer token-1");
         (StreamingHandler.sseUrl prod, Some "Bearer token-1") ]
  /\ steps (trace message)
     = [ entry "claude-sonnet-4-5" false; attemptNo 0; pickedNext "claude-sonnet-4-5";
         fetched (MessageHandler.endpointUrl false daily);
         clearedToken "a@x"; clearedProject "a@x";
         fetched (MessageHandler.endpointUrl false prod) ]
  /\ calls (trace message)
     = [ (MessageHandler.endpointUrl false daily, Some "Bearer token-1");
         (MessageHandler.endpointUrl false prod, Some "Bearer token-1") ]
  /\ Scenario.tokenCache (world (final stream)) = []
  /\ fst (Scenario.tokenFor "a@x" (world (final stream))) = inr "token-2".
Proof. cbv zeta. repeat split; vm_compute; reflexivity. Qed.

End AuthTheorems.

(* ===================================================================== *)
(** ** The Kiro transformer: what reaches the response *)
(* ===================================================================== *)

Module KiroResponse.
Import JS Anthropic Kiro KiroSpec KiroReadings KiroFacts BuilderFacts.

(** The loop writes frames and waits; it does not end the response. *)
Lemma chunkLoop_no_end name toolUseId partialJson i :
  forallb (fun o => negb (isEnd o)) (chunkLoop name toolUseId partialJson i) = true.
Proof.
  funelim (chunkLoop name toolUseId partialJson i); [| reflexivity].
  cbn [app forallb isEnd negb andb]. rewrite forallb_app, H.
  destruct (10 <? String.length partialJson)%nat; reflexivity.
Qed.

Lemma chunkLoop_writes name toolUseId partialJson :
  partialJson <> "" -> written (chunkLoop name toolUseId partialJson 0) <> [].
Proof.
  intros Hne. funelim (chunkLoop name toolUseId partialJson 0).
  - cbn [app written]. discriminate.
  - destruct partialJson; [contradiction | cbn in n; lia].
Qed.

(** The cases of [onEvent]: an event, its block or delta, and the tests of
    the state. *)
Ltac on_event H :=
  match type of H with
  | onEvent _ ?event = _ =>
      destruct event as [? ? ? ? | ? [? | ? | ? ?] | ? [? | ? | ? | ?] | ? | ? ? | | ?];
      cbn [onEvent] in H; cbv zeta in H
  end.

Lemma onEvent_no_end st event outs st' :
  onEvent st event = Ok (outs, st') -> forallb (fun o => negb (isEnd o)) outs = true.
Proof.
  intros H. on_event H;
    repeat match type of H with
           | (if ?c then _ else _) = _ => destruct c
           end;
    try (injection H as <- <-); try discriminate; try reflexivity.
  apply chunkLoop_no_end.
Qed.

(** One event: the flag [hasEmittedContent] is never reset; it is set by
    every event that writes, and only by those. *)
Lemma onEvent_emitted st event outs st' :
  Quiet st -> onEvent st event = Ok (outs, st') ->
  Quiet st'
  /\ (hasEmittedContent st = true -> hasEmittedContent st' = true)
  /\ (hasEmittedContent st' = false -> outs = [])
  /\ (hasEmittedContent st = false -> hasEmittedContent st' = true -> written outs <> []).
Proof.
  unfold Quiet, toolOpen. intros Hq H. on_event H;
    repeat match type of H with
           | (if ?c then _ else _) = _ => destruct c eqn:?
           end;
    try discriminate; injection H as <- <-;
    cbn [hasEmittedContent currentToolId currentToolName truthyOpt andb written];
    repeat split; auto; try congruence; try discriminate.
  all: try (intros Hst; specialize (Hq Hst);
            repeat match goal with
                   | Hc : _ && _ = true |- _ => apply andb_prop in Hc as [? ?]
                   end; congruence).
  all: intros Hst; specialize (Hq Hst);
       repeat match goal with
              | Hc : _ && _ = true |- _ => apply andb_prop in Hc as [? ?]
              end.
  all: intros _; exfalso;
       repeat match goal with
              | Ht : truthyOpt _ = true |- _ => rewrite Ht in Hq
              end; discriminate.
Qed.

Lemma consume_no_end : forall events st outs st' err,
  consume st events = (outs, st', err) ->
  forallb (fun o => negb (isEnd o)) outs = true.
Proof.
  induction events as [|event events IH]; intros st outs st' err H; cbn [consume] in H.
  - injection H as <- <- <-. reflexivity.
  - destruct (onEvent st event) as [[out st1]|e] eqn:Hev;
      [| injection H as <- <- <-; reflexivity].
    destruct (consume st1 events) as [[outs1 st2] err1] eqn:Hrest.
    injection H as <- <- <-.
    rewrite forallb_app, (onEvent_no_end _ _ _ _ Hev). cbn [andb]. eauto.
Qed.

Lemma consume_keeps_flag : forall events st outs st' err,
  Quiet st -> hasEmittedContent st = true ->
  consume st events = (outs, st', err) -> hasEmittedContent st' = true.
Proof.
  induction events as [|event events IH]; intros st outs st' err Hq Hst H; cbn [consume] in H.
  - injection H as <- <- <-. exact Hst.
  - destruct (onEvent st event) as [[out st1]|e] eqn:Hev;
      [| injection H as <- <- <-; exact Hst].
    destruct (consume st1 events) as [[outs1 st2] err1] eqn:Hrest.
    injection H as <- <- <-.
    destruct (onEvent_emitted _ _ _ _ Hq Hev) as (Hq1 & Hmono & _). eauto.
Qed.

(** The loop over the events, from a state in which nothing was emitted:
    the flag tells whether a frame was written. *)
Lemma consume_emitted : forall events st outs st' err,
  Quiet st -> hasEmittedContent st = false ->
  consume st events = (outs, st', err) ->
  (hasEmittedContent st' = false -> outs = [])
  /\ (hasEmittedContent st' = true -> written outs <> []).
Proof.
  induction events as [|event events IH]; intros st outs st' err Hq Hst H; cbn [consume] in H.
  - injection H as <- <- <-. split; congruence.
  - destruct (onEvent st event) as [[out st1]|e] eqn:Hev;
      [| injection H as <- <- <-; split; congruence].
    destruct (consume st1 events) as [[outs1 st2] err1] eqn:Hrest.
    injection H as <- <- <-.
    destruct (onEvent_emitted _ _ _ _ Hq Hev) as (Hq1 & Hmono & Hnil & Hsome).
    destruct (hasEmittedContent st1) eqn:Hst1.
    + rewrite (consume_keeps_flag _ _ _ _ _ Hq1 Hst1 Hrest). split; [discriminate |].
      intros _. rewrite written_app.
      destruct (written out) eqn:Hw; [exfalso; apply (Hsome Hst eq_refl); reflexivity |].
      discriminate.
    + rewrite (Hnil eq_refl). cbn [app]. eauto.
Qed.

Lemma initial_quiet : Quiet initialState.
Proof. intros _. reflexivity. Qed.

Lemma append_assoc (a b c : string) : (a ++ b) ++ c = a ++ (b ++ c).
Proof. induction a as [|x a IH]; cbn; congruence. Qed.

Lemma contents_app a b : contents (a ++ b) = contents a ++ contents b.
Proof.
  induction a as [|f a IH]; [reflexivity |].
  destruct f; cbn [app contents]; rewrite IH; try reflexivity.
  symmetry. apply append_assoc.
Qed.

Lemma chunkLoop_no_content name toolUseId partialJson i :
  contents (written (chunkLoop name toolUseId partialJson i)) = "".
Proof.
  destruct (chunkLoop_chunks name toolUseId partialJson i) as (chunks & -> & _).
  induction chunks; [reflexivity | assumption].
Qed.

(** The text written is the text of the deltas. *)
Lemma consume_texts : forall events st outs st',
  consume st events = (outs, st', None) ->
  contents (written outs) = texts events
  /\ fullContent st' = fullContent st ++ texts events.
Proof.
  induction events as [|event events IH]; intros st outs st' H; cbn [consume] in H.
  - injection H as <- <-. split; [reflexivity | symmetry; apply append_empty].
  - destruct (onEvent st event) as [[out st1]|e] eqn:Hev; [| discriminate].
    destruct (consume st1 events) as [[outs1 st2] err1] eqn:Hrest.
    injection H as <- <- ->. destruct (IH _ _ _ Hrest) as [Hc Hf].
    rewrite written_app, contents_app, Hc, Hf. clear IH Hrest Hc Hf.
    on_event Hev;
      repeat match type of Hev with
             | (if ?c then _ else _) = _ => destruct c eqn:?
             end;
      try discriminate; injection Hev as <- <-;
      cbn [written contents texts fullContent String.append];
      try (split; reflexivity).
    + rewrite append_empty, append_assoc. split; reflexivity.
    + match goal with H : truthy _ = false |- _ => apply truthy_false in H; rewrite H end.
      split; reflexivity.
    + rewrite chunkLoop_no_content. split; reflexivity.
Qed.

Lemma consume_no_error : forall events st,
  forallb (fun ev => negb (isError ev)) events = true ->
  exists outs st', consume st events = (outs, st', None).
Proof.
  induction events as [|event events IH]; intros st H; cbn [consume].
  - eauto.
  - cbn [forallb] in H. apply andb_prop in H as [Hev Hrest].
    destruct (onEvent st event) as [[out st1]|e] eqn:Hon.
    + destruct (IH st1 Hrest) as (outs & st' & ->). eauto.
    + exfalso. on_event Hon;
        repeat match type of Hon with
               | (if ?c then _ else _) = _ => destruct c
               end; discriminate.
Qed.


(** X1: An error reaches the caller of [streamAnthropicToKiro] only when
    nothing was done to the response: no frame written, and no end. *)
Theorem kiro_error_before_output events ended outs e :
  streamAnthropicToKiro events ended = (outs, Some e) -> outs = [].
Proof.
  unfold streamAnthropicToKiro.
  destruct (consume initialState events) as [[outs0 st] err] eqn:Hc.
  destruct (consume_emitted _ _ _ _ _ initial_quiet eq_refl Hc) as [Hnil _].
  destruct (match err with Some e0 => Some e0 | None => ended end);
    [| intros H; discriminate].
  destruct (hasEmittedContent st); [discriminate |].
  intros H. injection H as <- _. auto.
Qed.

(** An error event before any text. *)
Lemma kiro_error_before_output_witness :
  streamAnthropicToKiro [message_start "msg_1" "m" None None; error (Some "overloaded")] None
  = ([], Some (newError "overloaded"))
  /\ @nil Output = [].
Proof.
  split; [reflexivity |].
  exact (kiro_error_before_output
           [message_start "msg_1" "m" None None; error (Some "overloaded")] None []
           (newError "overloaded") eq_refl).
Defined.

(** X2: When no error reaches the caller, the response is ended exactly once,
    and nothing is done to it after that. *)
Theorem kiro_ends_once events ended outs :
  streamAnthropicToKiro events ended = (outs, None) ->
  exists body,
    outs = (body ++ [EndResponse])%list
    /\ forallb (fun o => negb (isEnd o)) body = true.
Proof.
  unfold streamAnthropicToKiro.
  destruct (consume initialState events) as [[outs0 st] err] eqn:Hc.
  pose proof (consume_no_end _ _ _ _ _ Hc) as Hend.
  destruct (match err with Some e0 => Some e0 | None => ended end).
  - destruct (hasEmittedContent st); [| discriminate].
    intros H. injection H as <-. eauto.
  - intros H. injection H as <-.
    exists (outs0
            ++ (if hasEmittedContent st then []
                else [WriteFrame (assistantResponseEvent "...")])
            ++ [ WriteFrame (meteringEvent (Kiro.inputTokens st + Kiro.outputTokens st));
                 WriteFrame (contextUsageEvent (Kiro.inputTokens st)) ])%list.
    split.
    + rewrite <- !app_assoc. reflexivity.
    + rewrite !forallb_app, Hend. destruct (hasEmittedContent st); reflexivity.
Qed.

(** An error event after a text: it is swallowed and the response ended. *)
Lemma kiro_ends_once_witness :
  let events := [content_block_delta 0 (text_delta (Some "hi")); error None] in
  streamAnthropicToKiro events None
  = ([WriteFrame (assistantResponseEvent "hi"); EndResponse], None)
  /\ exists body,
       [WriteFrame (assistantResponseEvent "hi"); EndResponse] = (body ++ [EndResponse])%list
       /\ forallb (fun o => negb (isEnd o)) body = true.
Proof.
  cbv zeta. split; [reflexivity |].
  exact (kiro_ends_once [content_block_delta 0 (text_delta (Some "hi")); error None] None
           _ eq_refl).
Defined.



(** X4: The text written to the response is the text of the deltas: for a
    stream without an error event that carries some text, the contents of
    the [assistantResponseEvent] frames, in order, concatenate to the
    concatenation of the text deltas, whether the generator ends with an
    error or not. *)
Theorem kiro_text_preserved events ended outs err :
  forallb (fun ev => negb (isError ev)) events = true ->
  texts events <> "" ->
  streamAnthropicToKiro events ended = (outs, err) ->
  contents (written outs) = texts events /\ err = None.
Proof.
  intros Hev Htext. unfold streamAnthropicToKiro.
  destruct (consume_no_error events initialState Hev) as (outs0 & st & Hc). rewrite Hc.
  destruct (consume_texts _ _ _ _ Hc) as [Hcontents _].
  destruct (consume_emitted _ _ _ _ _ initial_quiet eq_refl Hc) as [Hnil Hsome].
  assert (Hflag : hasEmittedContent st = true).
  { destruct (hasEmittedContent st); [reflexivity |].
    rewrite (Hnil eq_refl) in Hcontents. cbn in Hcontents. congruence. }
  rewrite Hflag. destruct ended as [e|]; intros H; injection H as <- <-.
  - rewrite written_app, contents_app, Hcontents. cbn. split; [apply append_empty | reflexivity].
  - rewrite written_app, contents_app, Hcontents. cbn. split; [apply append_empty | reflexivity].
Qed.

(** Two text deltas around one without text, on a stream that breaks after them. *)
Lemma kiro_text_preserved_witness :
  let events := [ content_block_delta 0 (text_delta (Some "Hel"));
                  content_block_delta 0 (text_delta None);
                  content_block_delta 0 (text_delta (Some "lo")) ] in
  let outs := [ WriteFrame (assistantResponseEvent "Hel");
                WriteFrame (assistantResponseEvent "lo"); EndResponse ] in
  (forallb (fun ev => negb (isError ev)) events = true /\ texts events <> ""
   /\ streamAnthropicToKiro events (Some (newError "terminated")) = (outs, None))
  /\ contents (written outs) = "Hello" /\ @None JsError = None.
Proof.
  cbv zeta. split; [split; [reflexivity | split; [discriminate | reflexivity]] |].
  exact (kiro_text_preserved
           [ content_block_delta 0 (text_delta (Some "Hel"));
             content_block_delta 0 (text_delta None);
             content_block_delta 0 (text_delta (Some "lo")) ]
           (Some (newError "terminated")) _ None eq_refl ltac:(discriminate) eq_refl).
Defined.

End KiroResponse.

(* ===================================================================== *)
(** ** The Kiro request transformer and the Kiro server *)
(* ===================================================================== *)

Module TransformerFacts.
Import JS KiroTransformer TransformerSpec.

Lemma strictEq_true x lit : strictEq x lit = true <-> x = Some lit.
Proof.
  destruct x as [s|]; cbn; [| split; discriminate].
  rewrite String.eqb_eq. split; congruence.
Qed.

(** A model id that is not taken as it is: missing, empty, or one of the
    two generic ids. *)
Lemma generic_id id :
  truthyOpt id && negb (strictEq id "auto") && negb (strictEq id "simple-task") = false ->
  id = None \/ id = Some "" \/ id = Some "auto" \/ id = Some "simple-task".
Proof.
  destruct id as [s|]; [| auto]. cbn [strictEq truthyOpt orEmpty].
  destruct s as [|c s]; [auto |]. cbn [truthy andb].
  destruct (String.eqb_spec (String c s) "auto") as [-> | _]; [auto |].
  destruct (String.eqb_spec (String c s) "simple-task") as [-> | _]; [auto |].
  discriminate.
Qed.

(** X5: [mapModelId]: a simple task takes the simple model; else an explicit
    model id is taken as it is, whatever it is; else the vibe mode takes the
    primary model and every other mode the secondary one.  The hint of the
    source (an id that includes "sonnet" or "flash") never applies: an id
    that reaches it is missing, empty or "auto". *)
Theorem mapModelId_cases config kiroModelId agentMode :
  mapModelId config kiroModelId agentMode
  = if strictEq kiroModelId "simple-task" || strictEq agentMode "intent-classification"
    then simple config
    else if truthyOpt kiroModelId && negb (strictEq kiroModelId "auto")
    then orEmpty kiroModelId
    else if strictEq agentMode "vibe" then vibe_primary config
    else vibe_secondary config.
Proof.
  unfold mapModelId.
  destruct (strictEq kiroModelId "simple-task") eqn:Hsimple; [reflexivity |].
  cbn [orb]. destruct (strictEq agentMode "intent-classification"); [reflexivity |].
  cbn [negb]. rewrite andb_true_r.
  destruct (truthyOpt kiroModelId && negb (strictEq kiroModelId "auto")) eqn:Hid; [reflexivity |].
  destruct (strictEq agentMode "vibe"); [| reflexivity].
  assert (Hgen : truthyOpt kiroModelId && negb (strictEq kiroModelId "auto")
                 && negb (strictEq kiroModelId "simple-task") = false)
    by (rewrite Hid; reflexivity).
  destruct (generic_id _ Hgen) as [-> | [-> | [-> | ->]]]; reflexivity.
Qed.

Section Facts.
Variable Json : Type.
Variable jsonTruthy : Json -> bool.
Variable jsonToString : Json -> string.
Variable emptyObject : Json.
Variable objectSchema : Json.

Local Abbreviation transformTools := (transformTools Json jsonTruthy objectSchema).
Local Abbreviation kiroToAnthropic :=
  (kiroToAnthropic Json jsonTruthy jsonToString emptyObject objectSchema).

Lemma named_tools (l : list (KiroTool Json)) :
  map (fun t => Some (orEmpty (specName Json t))) (filter (fun t => truthyOpt (specName Json t)) l)
  = filter truthyOpt (map (specName Json) l).
Proof.
  induction l as [|t l IH]; [reflexivity |]. cbn [filter map].
  destruct (truthyOpt (specName Json t)) eqn:Ht; [| exact IH].
  cbn [map]. rewrite IH. f_equal.
  destruct (specName Json t); [reflexivity | discriminate].
Qed.

(** X6: [transformTools]: no tools for a missing or empty list; else the tools
    that have a name, in their order, each under its name.  The result may
    be an empty list: when no tool of a non-empty list has a name. *)
Theorem transformTools_named (kiroTools : option (list (KiroTool Json))) :
  (transformTools kiroTools = None <-> kiroTools = None \/ kiroTools = Some [])
  /\ forall l, transformTools kiroTools = Some l ->
       exists input,
         kiroTools = Some input
         /\ map (fun t => Some (tool_name Json t)) l = filter truthyOpt (map (specName Json) input)
         /\ Forall (fun t => truthy (tool_name Json t) = true) l
         /\ List.length l <= List.length input.
Proof.
  split.
  - destruct kiroTools as [[|t l]|]; cbn; split; auto; try discriminate.
    intros [H | H]; discriminate.
  - intros l H. destruct kiroTools as [[|t input]|]; try discriminate.
    exists (t :: input). split; [reflexivity |].
    cbn [KiroTransformer.transformTools] in H. injection H as <-.
    rewrite map_map. cbn [tool_name]. split; [exact (named_tools (t :: input)) |]. split.
    + apply Forall_forall. intros x Hx. apply in_map_iff in Hx as (y & <- & Hy).
      apply (filter_In (fun t => truthyOpt (specName Json t)) y (t :: input)) in Hy as [_ Hy].
      exact Hy.
    + rewrite length_map.
      exact (filter_length_le (fun t => truthyOpt (specName Json t)) (t :: input)).
Qed.

Local Abbreviation entryMessage := (entryMessage Json jsonTruthy emptyObject).
Local Abbreviation convertedHistory := (convertedHistory Json jsonTruthy emptyObject).
Local Abbreviation currentTurn := (currentTurn Json jsonTruthy jsonToString).
Local Abbreviation conversation := (conversation Json jsonTruthy jsonToString emptyObject).

Lemma textBlocks_truthy (text : option string) :
  (if truthyOpt text then [text_block Json (orEmpty text)] else []) = textBlocks Json text.
Proof. destruct text as [[|c t]|]; reflexivity. Qed.

Lemma assistantBlocks_spec (a : AssistantResponseMessage Json) :
  assistantBlocks Json jsonTruthy emptyObject a
  = (textBlocks Json (arm_content Json a)
     ++ match toolUses Json a with
        | Some uses => map (toolUseBlock Json jsonTruthy emptyObject) uses
        | None => []
        end)%list.
Proof. unfold assistantBlocks. rewrite textBlocks_truthy. reflexivity. Qed.

Lemma historyMessages_entry (msg : ChatMessage Json) :
  historyMessages Json jsonTruthy emptyObject msg = optionList (entryMessage msg).
Proof.
  unfold historyMessages, TransformerSpec.entryMessage.
  destruct (userInputMessage Json msg) as [u|]; [reflexivity |].
  destruct (assistantResponseMessage Json msg) as [a|]; [| reflexivity].
  rewrite assistantBlocks_spec.
  destruct (textBlocks Json (arm_content Json a)
            ++ match toolUses Json a with
               | Some uses => map (toolUseBlock Json jsonTruthy emptyObject) uses
               | None => []
               end)%list; reflexivity.
Qed.

Lemma history_converted (h : list (ChatMessage Json)) :
  flat_map (historyMessages Json jsonTruthy emptyObject) h = convertedHistory h.
Proof.
  induction h as [|msg h IH]; [reflexivity |].
  cbn [flat_map TransformerSpec.convertedHistory]. rewrite historyMessages_entry, IH.
  destruct (entryMessage msg); reflexivity.
Qed.

Lemma resultText_item (c : ToolResultContent Json) :
  resultText Json jsonTruthy jsonToString c = itemText Json jsonTruthy jsonToString c.
Proof. unfold resultText, itemText. destruct (trc_text Json c) as [[|x t]|]; reflexivity. Qed.

Lemma join_concat (l : list string) : join newline l = String.concat lineBreak l.
Proof.
  induction l as [|x l IH]; [reflexivity |].
  destruct l as [|y l]; [reflexivity |].
  change (join newline (x :: y :: l)) with (x ++ newline ++ join newline (y :: l)).
  rewrite IH. reflexivity.
Qed.

Lemma toolResultBlock_spec (result : ToolResult Json) :
  toolResultBlock Json jsonTruthy jsonToString result
  = toolResult Json jsonTruthy jsonToString result.
Proof.
  unfold toolResultBlock, toolResult. f_equal.
  - destruct (tr_content Json result) as [[|c l]|]; [reflexivity | | reflexivity].
    rewrite join_concat. f_equal. apply map_ext. exact resultText_item.
  - destruct (tr_status Json result) as [status|]; [| reflexivity].
    cbn [strictEq]. destruct (string_dec status "error") as [-> | Hne]; [reflexivity |].
    apply String.eqb_neq, Hne.
Qed.

Lemma currentMessages_turn (current : option (ChatMessage Json)) :
  currentMessages Json jsonTruthy jsonToString current = optionList (currentTurn current).
Proof.
  unfold currentMessages, TransformerSpec.currentTurn.
  destruct current as [c|]; [| reflexivity].
  destruct (userInputMessage Json c) as [u|]; [| reflexivity].
  assert (Hb : currentBlocks Json jsonTruthy jsonToString u
               = (textBlocks Json (uim_content Json u)
                  ++ match userInputMessageContext Json u with
                     | Some ctx =>
                         match toolResults Json ctx with
                         | Some results => map (toolResult Json jsonTruthy jsonToString) results
                         | None => []
                         end
                     | None => []
                     end)%list).
  { unfold currentBlocks. rewrite textBlocks_truthy. f_equal.
    destruct (userInputMessageContext Json u) as [ctx|]; [| reflexivity].
    destruct (toolResults Json ctx) as [results|]; [| reflexivity].
    apply map_ext. exact toolResultBlock_spec. }
  rewrite Hb.
  match goal with |- match ?l with _ => _ end = _ => destruct l end; reflexivity.
Qed.

Lemma entry_shape (msg : ChatMessage Json) m :
  entryMessage msg = Some m ->
  (role Json m = "user" /\ exists c, content Json m = plain Json c)
  \/ (role Json m = "assistant" /\ exists b l, content Json m = blocks Json (b :: l)).
Proof.
  unfold TransformerSpec.entryMessage.
  destruct (userInputMessage Json msg) as [u|].
  - intros H. injection H as <-. left. cbn. eauto.
  - destruct (assistantResponseMessage Json msg) as [a|]; [| discriminate].
    match goal with |- match ?content with _ => _ end = _ -> _ =>
      destruct content as [|b l] end; [discriminate |].
    intros H. injection H as <-. right. cbn. eauto.
Qed.

(** X7: when [kiroToAnthropic] returns a request, its messages are those of
    the conversation: the message of each entry of the history that gives
    one, in order, then the message of the current turn if it gives one.  So
    there are no more messages of the history than entries; each is a user
    message with its content as it was found or an assistant message with
    at least one block; the message of the current turn is a user message
    with at least one block; [max_tokens] is 8192 and [stream] is true. *)
Theorem kiroToAnthropic_messages config kiroRequest agentMode request :
  kiroToAnthropic config kiroRequest agentMode = Ok request ->
  exists state,
    let entries := match history Json state with Some h => h | None => [] end in
    let past := convertedHistory entries in
    let current := optionList (currentTurn (currentMessage Json state)) in
    conversationState Json kiroRequest = Some state
    /\ messages Json request = conversation state
    /\ messages Json request = (past ++ current)%list
    /\ List.length past <= List.length entries
    /\ Forall (fun m => (role Json m = "user" /\ exists c, content Json m = plain Json c)
                        \/ (role Json m = "assistant"
                            /\ exists b l, content Json m = blocks Json (b :: l))) past
    /\ (current = []
        \/ exists b l, current = [ {| role := "user"; content := blocks Json (b :: l) |} ])
    /\ max_tokens Json request = 8192%Z
    /\ stream Json request = true.
Proof.
  unfold KiroTransformer.kiroToAnthropic.
  destruct (conversationState Json kiroRequest) as [state|]; [| discriminate].
  cbv zeta. intros H. injection H as <-. cbn [messages max_tokens stream].
  exists state. split; [reflexivity |].
  assert (Hm : (match history Json state with
                | Some h => flat_map (historyMessages Json jsonTruthy emptyObject) h
                | None => []
                end ++ currentMessages Json jsonTruthy jsonToString (currentMessage Json state))%list
               = conversation state).
  { unfold TransformerSpec.conversation. rewrite currentMessages_turn. f_equal.
    destruct (history Json state) as [h|]; [apply history_converted | reflexivity]. }
  split; [exact Hm |]. split; [exact Hm |].
  split; [| split; [| split; [| split; reflexivity]]].
  - induction (match history Json state with Some h => h | None => [] end) as [|msg h IH];
      [cbn; lia |].
    cbn [TransformerSpec.convertedHistory]. destruct (entryMessage msg); cbn [List.length]; lia.
  - induction (match history Json state with Some h => h | None => [] end) as [|msg h IH];
      [constructor |].
    cbn [TransformerSpec.convertedHistory]. destruct (entryMessage msg) as [m|] eqn:Hentry;
      [| exact IH].
    constructor; [exact (entry_shape msg m Hentry) | exact IH].
  - unfold TransformerSpec.currentTurn. destruct (currentMessage Json state) as [c|]; [| auto].
    destruct (userInputMessage Json c) as [u|]; [| auto].
    match goal with |- context [match ?content with [] => None | _ => _ end] =>
      destruct content as [|b l] end; [auto |].
    right. cbn. eauto.
Qed.

End Facts.

(** A conversation of three entries, of which the third gives no message,
    and a current turn with a text and a tool result of two items. *)
Lemma kiroToAnthropic_messages_witness :
  let user := fun text =>
    {| userInputMessage := Some {| uim_content := Some text; modelId := None;
                                   userInputMessageContext := None |};
       assistantResponseMessage := None |} in
  let assistant := fun text uses =>
    {| userInputMessage := None;
       assistantResponseMessage := Some {| arm_content := text; toolUses := uses |} |} in
  let result :=
    {| tr_toolUseId := Some "toolu_1";
       tr_content := Some [ {| trc_text := Some "line 1"; trc_json := None |};
                            {| trc_text := Some "line 2"; trc_json := None |} ];
       tr_status := Some "success" |} in
  let u := {| uim_content := Some "go on"; modelId := Some "auto";
              userInputMessageContext :=
                Some {| toolResults := Some [result]; tools := None |} |} in
  let state :=
    {| currentMessage := Some {| userInputMessage := Some u; assistantResponseMessage := None |};
       history :=
         Some [ user "read the file";
                assistant (Some "reading")
                  (Some [ {| tu_toolUseId := Some "toolu_1"; tu_name := Some "read_file";
                             tu_input := None |} ]);
                assistant None None ];
       agentTaskType := Some "vibe"; conversationId := None |} in
  let kiroRequest := {| conversationState := Some state |} in
  let request :=
    {| model := "gemini-3-pro-high";
       messages :=
         [ {| role := "user"; content := plain unit (Some "read the file") |};
           {| role := "assistant";
              content := blocks unit [ text_block unit "reading";
                                       tool_use_block unit (Some "toolu_1") (Some "read_file") tt ] |};
           {| role := "user";
              content := blocks unit [ text_block unit "go on";
                                       tool_result_block unit (Some "toolu_1")
                                         ("line 1" ++ newline ++ "line 2") false ] |} ];
       max_tokens := 8192; stream := true; request_tools := None |} in
  kiroToAnthropic unit (fun _ => true) (fun _ => "[object Object]") tt tt
    geminiPreset kiroRequest None = Ok request
  /\ exists state,
       let entries := match history unit state with Some h => h | None => [] end in
       let past := convertedHistory unit (fun _ => true) tt entries in
       let current :=
         optionList (currentTurn unit (fun _ => true) (fun _ => "[object Object]")
                       (currentMessage unit state)) in
       conversationState unit kiroRequest = Some state
       /\ messages unit request
          = conversation unit (fun _ => true) (fun _ => "[object Object]") tt state
       /\ messages unit request = (past ++ current)%list
       /\ List.length past <= List.length entries
       /\ Forall (fun m => (role unit m = "user" /\ exists c, content unit m = plain unit c)
                           \/ (role unit m = "assistant"
                               /\ exists b l, content unit m = blocks unit (b :: l))) past
       /\ (current = []
           \/ exists b l, current = [ {| role := "user"; content := blocks unit (b :: l) |} ])
       /\ max_tokens unit request = 8192%Z
       /\ stream unit request = true.
Proof.
  cbv zeta. split; [reflexivity |].
  apply (kiroToAnthropic_messages unit (fun _ => true) (fun _ => "[object Object]") tt tt
           geminiPreset) with (agentMode := None).
  reflexivity.
Defined.

End TransformerFacts.

Module ServerFacts.
Import JS Kiro KiroReadings KiroResponse KiroTransformer KiroServer.

Section Facts.
Variable Json : Type.
Variable jsonTruthy : Json -> bool.
Variable jsonToString : Json -> string.
Variable emptyObject : Json.
Variable objectSchema : Json.


End Facts.
End ServerFacts.

(* ===================================================================== *)
(** ** The checksum of the event stream *)
(* ===================================================================== *)

Module Crc32Facts.
Import Int32 Crc32 Crc32Spec.
Local Open Scope Z_scope.

(** *** The 32-bit operations, read as operations on unsigned numbers *)

Lemma toUint32_range z : 0 <= toUint32 z < 2 ^ 32.
Proof. unfold toUint32. apply Z.mod_pos_bound. reflexivity. Qed.

Lemma toUint32_small z : 0 <= z < 2 ^ 32 -> toUint32 z = z.
Proof. intros H. unfold toUint32. apply Z.mod_small. exact H. Qed.

Lemma toUint32_toInt32 z : toUint32 (toInt32 z) = toUint32 z.
Proof.
  unfold toInt32. destruct (toUint32 z <? 2 ^ 31).
  - apply toUint32_small, toUint32_range.
  - unfold toUint32. replace (z mod 2 ^ 32 - 2 ^ 32) with (z mod 2 ^ 32 + (-1) * 2 ^ 32) by ring.
    rewrite Z.mod_add by discriminate. apply Z.mod_mod. discriminate.
Qed.

Lemma toUint32_bits z i :
  Z.testbit (toUint32 z) i = (i <? 32) && Z.testbit z i.
Proof. unfold toUint32. apply Z.testbit_mod_pow2. discriminate. Qed.

Lemma toInt32_bits z i : 0 <= i < 32 -> Z.testbit (toInt32 z) i = Z.testbit z i.
Proof.
  intros Hi. pose proof (toUint32_bits (toInt32 z) i) as H1.
  rewrite toUint32_toInt32, toUint32_bits in H1.
  destruct (Z.ltb_spec i 32); [| lia]. cbn [andb] in H1. symmetry. exact H1.
Qed.

Lemma toUint32_xor a b : toUint32 (xor a b) = Z.lxor (toUint32 a) (toUint32 b).
Proof.
  apply Z.bits_inj'. intros i Hi. unfold xor.
  rewrite Z.lxor_spec, !toUint32_bits, Z.lxor_spec.
  destruct (Z.ltb_spec i 32); [| reflexivity].
  rewrite !toInt32_bits by lia. reflexivity.
Qed.

Lemma and_low a m :
  0 <= m < 2 ^ 31 -> and a m = Z.land (toUint32 a) m.
Proof.
  intros Hm. unfold and.
  assert (Hs : toInt32 m = m).
  { unfold toInt32. rewrite toUint32_small by lia.
    destruct (Z.ltb_spec m (2 ^ 31)); [reflexivity | lia]. }
  rewrite Hs. apply Z.bits_inj'. intros i Hi. rewrite !Z.land_spec, toUint32_bits.
  destruct (Z.ltb_spec i 32).
  - rewrite toInt32_bits by lia. reflexivity.
  - cbn [andb]. replace (Z.testbit m i) with false; [apply andb_false_r |].
    symmetry. apply Z.bits_above_log2; [lia |].
    destruct (Z.eq_dec m 0) as [-> | Hne]; [cbn; lia |].
    apply Z.lt_le_trans with 31; [| lia]. apply Z.log2_lt_pow2; lia.
Qed.

Lemma land_one u : Z.land u 1 = Z.b2z (Z.testbit u 0).
Proof. change 1 with (Z.ones 1). rewrite Z.land_ones by lia. symmetry. apply Z.bit0_mod. Qed.

Lemma shiftr_range u n : 0 <= u < 2 ^ 32 -> 0 <= n -> 0 <= Z.shiftr u n < 2 ^ 32.
Proof.
  intros Hu Hn. rewrite Z.shiftr_div_pow2 by exact Hn.
  assert (0 < 2 ^ n) by (apply Z.pow_pos_nonneg; lia). split.
  - apply Z.div_pos; lia.
  - apply Z.le_lt_trans with u; [| lia]. apply Z.div_le_upper_bound; nia.
Qed.

Lemma toUint32_ushr c n : 0 <= n -> toUint32 (ushr c n) = Z.shiftr (toUint32 c) n.
Proof. intros Hn. apply toUint32_small, shiftr_range; [apply toUint32_range | exact Hn]. Qed.

(** One turn of the loop that fills the table is one step of the division. *)
Lemma tableStep_unsigned c : toUint32 (tableStep c) = bitStep (toUint32 c).
Proof.
  unfold tableStep, bitStep. rewrite and_low by lia. rewrite land_one.
  destruct (Z.testbit (toUint32 c) 0); cbn [Z.b2z Z.eqb].
  - rewrite toUint32_xor, toUint32_ushr by lia. reflexivity.
  - apply toUint32_ushr. lia.
Qed.

(** *** The division is linear *)

Lemma bitStep_lxor x y : bitStep (Z.lxor x y) = Z.lxor (bitStep x) (bitStep y).
Proof.
  unfold bitStep. rewrite Z.lxor_spec, Z.shiftr_lxor.
  destruct (Z.testbit x 0), (Z.testbit y 0); cbn [xorb];
    apply Z.bits_inj'; intros i Hi; rewrite ?Z.lxor_spec;
    destruct (Z.testbit (Z.shiftr x 1) i), (Z.testbit (Z.shiftr y 1) i),
             (Z.testbit 0xEDB88320 i); reflexivity.
Qed.

Lemma bitSteps_lxor n x y :
  Nat.iter n bitStep (Z.lxor x y) = Z.lxor (Nat.iter n bitStep x) (Nat.iter n bitStep y).
Proof.
  induction n as [|n IH]; [reflexivity |].
  rewrite !Nat.iter_succ, IH. apply bitStep_lxor.
Qed.

(** Steps on a number whose low bits are 0 only shift it. *)
Lemma bitSteps_shifted h : forall k, (k <= 8)%nat ->
  Nat.iter k bitStep (Z.shiftl h 8) = Z.shiftl h (8 - Z.of_nat k).
Proof.
  induction k as [|k IH]; intros Hk; [reflexivity |].
  rewrite Nat.iter_succ, IH by lia. unfold bitStep.
  rewrite Z.shiftl_spec_low by lia.
  rewrite Z.shiftr_shiftl_l by lia. f_equal. lia.
Qed.

Lemma split_low_byte x :
  x = Z.lxor (Z.shiftl (Z.shiftr x 8) 8) (Z.land x 255).
Proof.
  apply Z.bits_inj'. intros i Hi.
  rewrite Z.lxor_spec, Z.land_spec, Z.shiftl_spec by exact Hi.
  change 255 with (Z.ones 8). rewrite Z.testbit_ones_nonneg by lia.
  destruct (Z.ltb_spec i 8).
  - rewrite (Z.testbit_neg_r _ (i - 8)) by lia. rewrite andb_true_r. reflexivity.
  - rewrite Z.shiftr_spec by lia. rewrite andb_false_r, xorb_false_r.
    f_equal. lia.
Qed.

(** One byte: eight steps of the division are a shift and the eight steps
    of the low byte. *)
Lemma byteStep_table c byte :
  isByte byte ->
  byteStep c byte
  = Z.lxor (Z.shiftr c 8) (Nat.iter 8 bitStep (Z.land (Z.lxor c byte) 255)).
Proof.
  intros Hb. unfold byteStep.
  rewrite (split_low_byte (Z.lxor c byte)) at 1.
  rewrite bitSteps_lxor, bitSteps_shifted by lia.
  change (8 - Z.of_nat 8) with 0. rewrite Z.shiftl_0_r, Z.shiftr_lxor.
  replace (Z.shiftr byte 8) with 0; [rewrite Z.lxor_0_r; reflexivity |].
  rewrite Z.shiftr_div_pow2 by lia. symmetry. apply Z.div_small. exact Hb.
Qed.

(** *** The table *)

Lemma table_entries i :
  0 <= i < 256 -> tableAt i = Nat.iter 8 bitStep i /\ 0 <= tableAt i < 2 ^ 32.
Proof.
  intros Hi.
  assert (Hall : forallb (fun n => (tableAt (Z.of_nat n) =? Nat.iter 8 bitStep (Z.of_nat n))
                                   && (0 <=? tableAt (Z.of_nat n))
                                   && (tableAt (Z.of_nat n) <? 2 ^ 32))
                   (seq 0 256) = true) by (vm_compute; reflexivity).
  rewrite forallb_forall in Hall. specialize (Hall (Z.to_nat i)).
  rewrite Z2Nat.id in Hall by lia.
  assert (Hin : In (Z.to_nat i) (seq 0 256)) by (apply in_seq; lia).
  apply Hall in Hin. apply andb_prop in Hin as [Hin Hlt]. apply andb_prop in Hin as [Heq Hle].
  apply Z.eqb_eq in Heq. apply Z.leb_le in Hle. apply Z.ltb_lt in Hlt. auto.
Qed.

Lemma low_byte_range x : 0 <= Z.land x 255 < 256.
Proof.
  change 255 with (Z.ones 8). rewrite Z.land_ones by lia.
  apply Z.mod_pos_bound. reflexivity.
Qed.

(** *** The loop over the bytes *)

Lemma crc_turn crc byte :
  isByte byte ->
  toUint32 (xor (ushr crc 8) (tableAt (and (xor crc byte) 0xFF)))
  = byteStep (toUint32 crc) byte.
Proof.
  intros Hb. rewrite byteStep_table by exact Hb.
  rewrite toUint32_xor, toUint32_ushr by lia.
  rewrite and_low by lia. rewrite toUint32_xor.
  rewrite (toUint32_small byte) by (unfold isByte in Hb; lia).
  set (idx := Z.land (Z.lxor (toUint32 crc) byte) 255).
  destruct (table_entries idx (low_byte_range _)) as [Heq Hrange].
  rewrite (toUint32_small (tableAt idx)) by exact Hrange. rewrite Heq. reflexivity.
Qed.

Lemma crc_loop : forall data crc,
  Forall isByte data ->
  toUint32 (fold_left (fun crc byte => xor (ushr crc 8) (tableAt (and (xor crc byte) 0xFF)))
              data crc)
  = fold_left byteStep data (toUint32 crc).
Proof.
  induction data as [|byte data IH]; intros crc Hdata; [reflexivity |].
  inversion Hdata as [|? ? Hb Hrest]; subst. cbn [fold_left].
  rewrite IH by exact Hrest. rewrite crc_turn by exact Hb. reflexivity.
Qed.

Lemma crc32_by_bits data :
  Forall isByte data -> crc32 data = crcBitwise data.
Proof.
  intros Hdata. unfold crc32, crcBitwise, ushr at 1.
  rewrite Z.shiftr_0_r, toUint32_xor, crc_loop by exact Hdata. reflexivity.
Qed.

(** X9: The table-driven [crc32] computes the CRC-32 of the bytes as the
    division bit by bit defines it. *)
Theorem crc32_bitwise data :
  Forall isByte data -> crc32 data = crcBitwise data.
Proof.
  intros Hdata. unfold crc32, crcBitwise.
  assert (Hloop := crc_loop data 0xFFFFFFFF Hdata).
  change (toUint32 0xFFFFFFFF) with 0xFFFFFFFF in Hloop. rewrite <- Hloop.
  unfold ushr. rewrite Z.shiftr_0_r. apply toUint32_xor.
Qed.

(** The check value of CRC-32: the checksum of the digits 1 to 9. *)
Lemma crc32_bitwise_witness :
  Forall isByte [49; 50; 51; 52; 53; 54; 55; 56; 57]
  /\ crc32 [49; 50; 51; 52; 53; 54; 55; 56; 57]
     = crcBitwise [49; 50; 51; 52; 53; 54; 55; 56; 57].
Proof.
  assert (H : Forall isByte [49; 50; 51; 52; 53; 54; 55; 56; 57])
    by (repeat constructor; unfold isByte; lia).
  split; [exact H | exact (crc32_bitwise _ H)].
Defined.

(** The checksum is an unsigned 32-bit number, whatever the buffer holds. *)
Lemma crc32_range data : 0 <= crc32 data < 2 ^ 32.
Proof.
  unfold crc32, ushr. rewrite Z.shiftr_0_r. apply toUint32_range.
Qed.

End Crc32Facts.

(* ===================================================================== *)
(** ** The frames of [smithy-encoder.js] *)
(* ===================================================================== *)

Module EncoderFacts.
Import Int32 Crc32 Crc32Spec NodeBuffer SmithyEncoder SmithySpec.
Local Open Scope Z_scope.
Local Open Scope list_scope.
Local Open Scope buffer_scope.

(** *** Buffers *)

Lemma length_alloc n : List.length (alloc n) = n.
Proof. apply repeat_length. Qed.

Lemma alloc_add a b : alloc (a + b) = alloc a ++ alloc b.
Proof. apply repeat_app. Qed.

Lemma store_at pre : forall post k j v,
  k = (List.length pre + j)%nat -> store (pre ++ post) k v = pre ++ store post j v.
Proof.
  induction pre as [|p pre IH]; intros post k j v ->; [reflexivity |].
  cbn. f_equal. apply IH. reflexivity.
Qed.

Lemma overlay_exact source : forall mid post,
  List.length mid = List.length source -> overlay source (mid ++ post) = source ++ post.
Proof.
  induction source as [|s source IH]; intros [|m mid] post H; try discriminate H.
  - destruct post; reflexivity.
  - cbn. f_equal. apply IH. cbn in H. lia.
Qed.

Lemma copy_at source pre : forall mid post k,
  k = List.length pre -> List.length mid = List.length source ->
  copy source (pre ++ mid ++ post) k = pre ++ source ++ post.
Proof.
  induction pre as [|p pre IH]; intros mid post k -> H.
  - cbn [app List.length copy]. apply overlay_exact. exact H.
  - cbn. f_equal. apply IH; [reflexivity | exact H].
Qed.

Lemma uint8_mod v : uint8 v = v mod 256.
Proof. unfold uint8. change 255 with (Z.ones 8). apply Z.land_ones. lia. Qed.

Lemma shiftr8 v : Z.shiftr v 8 = v / 256.
Proof. apply Z.shiftr_div_pow2. lia. Qed.

Lemma checkInt_true buf v offset width :
  0 <= v < 2 ^ (8 * Z.of_nat width) -> (offset + width <= List.length buf)%nat ->
  checkInt buf v offset width = true.
Proof.
  intros Hv Hlen. unfold checkInt.
  rewrite !andb_true_iff, Z.leb_le, Z.ltb_lt, Nat.leb_le. lia.
Qed.

Lemma checkInt_value buf v offset width :
  2 ^ (8 * Z.of_nat width) <= v -> checkInt buf v offset width = false.
Proof.
  intros Hv. unfold checkInt.
  replace (v <? 2 ^ (8 * Z.of_nat width)) with false by (symmetry; apply Z.ltb_ge; exact Hv).
  rewrite andb_false_r. reflexivity.
Qed.

Lemma writeUInt8_ok pre b post v n :
  n = List.length pre -> 0 <= v < 256 ->
  writeUInt8 (pre ++ b :: post) v n = Ok (pre ++ v :: post).
Proof.
  intros -> Hv. unfold writeUInt8.
  rewrite checkInt_true by (rewrite ?length_app; cbn; lia).
  rewrite (store_at pre _ _ 0%nat) by lia. reflexivity.
Qed.

Lemma writeUInt8_first b post v :
  0 <= v < 256 -> writeUInt8 (b :: post) v 0 = Ok (v :: post).
Proof. intros Hv. exact (writeUInt8_ok [] b post v 0%nat eq_refl Hv). Qed.

Lemma writeUInt16BE_ok pre two post v n :
  n = List.length pre -> List.length two = 2%nat -> 0 <= v < 65536 ->
  writeUInt16BE (pre ++ two ++ post) v n = Ok (pre ++ bigEndian 2 v ++ post).
Proof.
  intros -> Htwo Hv. destruct two as [|a [|b [|]]]; try discriminate Htwo.
  unfold writeUInt16BE.
  rewrite checkInt_true by (rewrite ?length_app; cbn; lia). cbv zeta.
  rewrite (store_at pre _ _ 0%nat) by lia. cbn [store app].
  rewrite (store_at pre _ _ 1%nat) by lia. cbn [store app].
  rewrite !uint8_mod, shiftr8. reflexivity.
Qed.

Lemma writeUInt32BE_ok pre four post v n :
  n = List.length pre -> List.length four = 4%nat -> 0 <= v < 2 ^ 32 ->
  writeUInt32BE (pre ++ four ++ post) v n = Ok (pre ++ bigEndian 4 v ++ post).
Proof.
  intros -> Hfour Hv. destruct four as [|a [|b [|c [|d [|]]]]]; try discriminate Hfour.
  unfold writeUInt32BE.
  rewrite checkInt_true by (rewrite ?length_app; cbn; lia). cbv zeta.
  rewrite (store_at pre _ _ 3%nat) by lia. cbn [store app].
  rewrite (store_at pre _ _ 2%nat) by lia. cbn [store app].
  rewrite (store_at pre _ _ 1%nat) by lia. cbn [store app].
  rewrite (store_at pre _ _ 0%nat) by lia. cbn [store app].
  rewrite !uint8_mod, !shiftr8. reflexivity.
Qed.

Lemma writeUInt32BE_first four post v :
  List.length four = 4%nat -> 0 <= v < 2 ^ 32 ->
  writeUInt32BE (four ++ post) v 0 = Ok (bigEndian 4 v ++ post).
Proof. intros Hfour Hv. exact (writeUInt32BE_ok [] four post v 0%nat eq_refl Hfour Hv). Qed.

(** *** Bytes *)

Lemma length_bigEndian width : forall v, List.length (bigEndian width v) = width.
Proof.
  induction width as [|k IH]; intros v; [reflexivity |].
  cbn [bigEndian]. rewrite length_app, IH. cbn. lia.
Qed.

Lemma bigEndian_bytes width : forall v, Forall isByte (bigEndian width v).
Proof.
  induction width as [|k IH]; intros v; [constructor |].
  cbn [bigEndian]. apply Forall_app. split; [apply IH |].
  constructor; [| constructor]. apply Z.mod_pos_bound. reflexivity.
Qed.

Lemma beValue_app bytes b : beValue (bytes ++ [b]) = beValue bytes * 256 + b.
Proof. unfold beValue. rewrite fold_left_app. reflexivity. Qed.

Lemma beValue_bigEndian width : forall v,
  0 <= v < 2 ^ (8 * Z.of_nat width) -> beValue (bigEndian width v) = v.
Proof.
  induction width as [|k IH]; intros v Hv.
  - cbn in Hv. cbn. lia.
  - cbn [bigEndian]. rewrite beValue_app, IH.
    + pose proof (Z.div_mod v 256). lia.
    + replace (8 * Z.of_nat (S k)) with (8 * Z.of_nat k + 8) in Hv by lia.
      rewrite Z.pow_add_r in Hv by lia. change (2 ^ 8) with 256 in Hv.
      split; [apply Z.div_pos; lia |]. apply Z.div_lt_upper_bound; lia.
Qed.

Lemma utf8Unit_bytes c : Forall isByte (utf8Unit c).
Proof.
  assert (H : forallb (fun b => (0 <=? b) && (b <? 256)) (utf8Unit c) = true)
    by (destruct c as [[] [] [] [] [] [] [] []]; reflexivity).
  rewrite forallb_forall in H. apply Forall_forall. intros b Hb.
  apply H in Hb. apply andb_prop in Hb as [H0 H1].
  apply Z.leb_le in H0. apply Z.ltb_lt in H1. split; assumption.
Qed.

Lemma from_bytes s : Forall isByte (from s).
Proof.
  unfold from. induction s as [|c s IH]; [constructor |].
  cbn [list_ascii_of_string flat_map]. apply Forall_app. split; [apply utf8Unit_bytes | exact IH].
Qed.

(** *** Headers *)

Lemma alloc_header n m :
  alloc (1 + n + 1 + 2 + m) = 0 :: alloc n ++ 0 :: 0 :: 0 :: alloc m.
Proof.
  replace (1 + n + 1 + 2 + m)%nat with (S (n + S (S (S m))))%nat by lia.
  unfold alloc. cbn [repeat]. rewrite repeat_app. reflexivity.
Qed.

(** Lists of bytes in one shape: appends nested to the right. *)
Ltac flat :=
  repeat (progress (cbn [app andThen]; rewrite <- ?app_assoc, ?app_nil_r)).
Ltac flat_in H :=
  repeat (progress (cbn [app] in H; rewrite <- ?app_assoc, ?app_nil_r in H)).
Ltac sizes :=
  cbn [List.length];
  rewrite ?length_app, ?length_alloc, ?length_bigEndian; cbn [List.length];
  rewrite ?length_app, ?length_alloc, ?length_bigEndian; cbn [List.length];
  rewrite ?length_app;
  lia.
Ltac write lemma :=
  let H := fresh "Hwrite" in
  pose proof lemma as H; flat_in H;
  rewrite H by first [assumption | lia | sizes | reflexivity]; clear H; flat.

Lemma header_layout name value :
  encodeStringHeader name value
  = if (Z.of_nat (List.length (from name)) <=? 255)
       && (Z.of_nat (List.length (from value)) <=? 65535)
    then Ok (stringHeader name value)
    else Throw rangeError.
Proof.
  unfold encodeStringHeader, stringHeader. cbv zeta.
  set (nb := from name). set (vb := from value).
  set (n := List.length nb). set (m := List.length vb).
  rewrite alloc_header.
  destruct (Z.leb_spec (Z.of_nat n) 255) as [Hn | Hn]; cbn [andb].
  - rewrite writeUInt8_first by lia. cbn [andThen].
    write (copy_at nb [Z.of_nat n] (alloc n) (0 :: 0 :: 0 :: alloc m) (0 + 1)%nat).
    write (writeUInt8_ok (Z.of_nat n :: nb) 0 (0 :: 0 :: alloc m) 7 (0 + 1 + n)%nat).
    destruct (Z.leb_spec (Z.of_nat m) 65535) as [Hv | Hv].
    + write (writeUInt16BE_ok (Z.of_nat n :: nb ++ [7]) [0; 0] (alloc m) (Z.of_nat m)
               (0 + 1 + n + 1)%nat).
      write (copy_at vb (Z.of_nat n :: nb ++ [7] ++ bigEndian 2 (Z.of_nat m)) (alloc m) []
               (0 + 1 + n + 1 + 2)%nat).
      reflexivity.
    + unfold writeUInt16BE. rewrite checkInt_value by (cbn; lia). reflexivity.
  - unfold writeUInt8 at 1. rewrite checkInt_value by (cbn; lia). reflexivity.
Qed.

(** X10: A header is laid out as the format has it when the name fits one byte
    of length and the value two; else the write of the length throws.  The
    header is four bytes longer than the name and the value. *)
Theorem encodeStringHeader_layout name value :
  encodeStringHeader name value
  = (if (Z.of_nat (List.length (from name)) <=? 255)
        && (Z.of_nat (List.length (from value)) <=? 65535)
     then Ok (stringHeader name value)
     else Throw rangeError)
  /\ List.length (stringHeader name value)
     = (4 + List.length (from name) + List.length (from value))%nat.
Proof.
  split; [apply header_layout |].
  unfold stringHeader. sizes.
Qed.

(** *** Frames *)

Lemma subarray_prefix pre post k :
  k = List.length pre -> subarray (pre ++ post) 0 k = pre.
Proof.
  intros ->. unfold subarray. rewrite Nat.sub_0_r. cbn [skipn].
  rewrite firstn_app, Nat.sub_diag, firstn_all. cbn [firstn]. apply app_nil_r.
Qed.

Lemma alloc_frame h p :
  alloc (12 + h + p + 4)
  = alloc 4 ++ alloc 4 ++ alloc 4 ++ alloc h ++ alloc p ++ alloc 4.
Proof.
  rewrite <- !alloc_add. f_equal. lia.
Qed.

Lemma event_type_header eventType :
  encodeStringHeader ":event-type" eventType
  = if Z.of_nat (List.length (from eventType)) <=? 65535
    then Ok (stringHeader ":event-type" eventType)
    else Throw rangeError.
Proof. rewrite header_layout. reflexivity. Qed.

Lemma content_type_header :
  encodeStringHeader ":content-type" "application/json"
  = Ok (stringHeader ":content-type" "application/json").
Proof. rewrite header_layout. reflexivity. Qed.

Lemma message_type_header :
  encodeStringHeader ":message-type" "event"
  = Ok (stringHeader ":message-type" "event").
Proof. rewrite header_layout. reflexivity. Qed.

Lemma stringHeader_bytes name value :
  Z.of_nat (List.length (from name)) <= 255 -> Forall isByte (stringHeader name value).
Proof.
  intros Hn. unfold stringHeader. cbn [app].
  constructor; [unfold isByte; lia |].
  apply Forall_app. split; [apply from_bytes |].
  constructor; [unfold isByte; lia |].
  apply Forall_app. split; [apply bigEndian_bytes | apply from_bytes].
Qed.

Lemma eventHeaders_bytes eventType : Forall isByte (eventHeaders eventType).
Proof.
  unfold eventHeaders.
  apply Forall_app. split; [| apply Forall_app; split];
    apply stringHeader_bytes; vm_compute; discriminate.
Qed.

Lemma firstn_prefix (pre post : Buffer) k :
  k = List.length pre -> firstn k (pre ++ post) = pre.
Proof.
  intros ->. rewrite firstn_app, Nat.sub_diag, firstn_all. cbn [firstn]. apply app_nil_r.
Qed.

Lemma skipn_prefix (pre post : Buffer) k :
  k = List.length pre -> skipn k (pre ++ post) = post.
Proof.
  intros ->. rewrite skipn_app, Nat.sub_diag, skipn_all. reflexivity.
Qed.

Lemma crcBitwise_range data : Forall isByte data -> 0 <= crcBitwise data < 2 ^ 32.
Proof.
  intros Hdata. rewrite <- (Crc32Facts.crc32_by_bits data Hdata).
  apply Crc32Facts.crc32_range.
Qed.

Lemma readFrame_frame hb pb rest :
  Forall isByte hb -> Forall isByte pb ->
  Z.of_nat (16 + List.length hb + List.length pb) < 2 ^ 32 ->
  readFrame (frame hb pb ++ rest) = Some (hb, pb, rest).
Proof.
  intros Hhb Hpb Hlen. unfold readFrame, frame. cbv zeta.
  set (h := List.length hb) in *. set (p := List.length pb) in *.
  set (total := (16 + h + p)%nat) in *.
  assert (Hprelude : Forall isByte (bigEndian 4 (Z.of_nat total) ++ bigEndian 4 (Z.of_nat h)))
    by (apply Forall_app; split; apply bigEndian_bytes).
  pose proof (crcBitwise_range _ Hprelude) as Hc1.
  set (c1 := crcBitwise (bigEndian 4 (Z.of_nat total) ++ bigEndian 4 (Z.of_nat h))) in *.
  flat.
  assert (Hfront : Forall isByte (bigEndian 4 (Z.of_nat total) ++ bigEndian 4 (Z.of_nat h)
                                  ++ bigEndian 4 c1 ++ hb ++ pb))
    by (do 3 (apply Forall_app; split; [apply bigEndian_bytes |]);
        apply Forall_app; split; assumption).
  pose proof (crcBitwise_range _ Hfront) as Hc2.
  set (c2 := crcBitwise (bigEndian 4 (Z.of_nat total) ++ bigEndian 4 (Z.of_nat h)
                         ++ bigEndian 4 c1 ++ hb ++ pb)) in *.
  assert (Htotal : beValue (bigEndian 4 (Z.of_nat total)) = Z.of_nat total)
    by (apply beValue_bigEndian; change (8 * Z.of_nat 4) with 32; lia).
  assert (Hh : beValue (bigEndian 4 (Z.of_nat h)) = Z.of_nat h)
    by (apply beValue_bigEndian; change (8 * Z.of_nat 4) with 32; lia).
  assert (H1 : beValue (bigEndian 4 c1) = c1)
    by (apply beValue_bigEndian; exact Hc1).
  assert (H2 : beValue (bigEndian 4 c2) = c2)
    by (apply beValue_bigEndian; exact Hc2).
  assert (LT : List.length (bigEndian 4 (Z.of_nat total)) = 4%nat) by apply length_bigEndian.
  assert (LH : List.length (bigEndian 4 (Z.of_nat h)) = 4%nat) by apply length_bigEndian.
  assert (L1 : List.length (bigEndian 4 c1) = 4%nat) by apply length_bigEndian.
  assert (L2 : List.length (bigEndian 4 c2) = 4%nat) by apply length_bigEndian.
  set (T := bigEndian 4 (Z.of_nat total)) in *. set (H := bigEndian 4 (Z.of_nat h)) in *.
  set (A := bigEndian 4 c1) in *. set (B := bigEndian 4 c2) in *.
  write (firstn_prefix T (H ++ A ++ hb ++ pb ++ B ++ rest) 4%nat).
  write (skipn_prefix T (H ++ A ++ hb ++ pb ++ B ++ rest) 4%nat).
  write (firstn_prefix H (A ++ hb ++ pb ++ B ++ rest) 4%nat).
  write (skipn_prefix (T ++ H) (A ++ hb ++ pb ++ B ++ rest) 8%nat).
  write (firstn_prefix A (hb ++ pb ++ B ++ rest) 4%nat).
  rewrite Htotal, Hh, H1, !Nat2Z.id.
  replace (total <? 16 + h)%nat with false by (symmetry; apply Nat.ltb_ge; lia).
  replace (List.length (T ++ H ++ A ++ hb ++ pb ++ B ++ rest) <? total)%nat with false
    by (symmetry; apply Nat.ltb_ge; sizes).
  cbn [orb].
  write (firstn_prefix (T ++ H ++ A ++ hb ++ pb ++ B) rest total).
  write (skipn_prefix (T ++ H ++ A ++ hb ++ pb) B (total - 4)%nat).
  write (firstn_prefix (T ++ H) (A ++ hb ++ pb ++ B) 8%nat).
  write (firstn_prefix (T ++ H ++ A ++ hb ++ pb) B (total - 4)%nat).
  fold c1 c2. rewrite H2, !Z.eqb_refl. cbn [andb].
  write (skipn_prefix (T ++ H ++ A) (hb ++ pb ++ B) 12%nat).
  write (firstn_prefix hb (pb ++ B) h).
  write (skipn_prefix (T ++ H ++ A ++ hb) (pb ++ B) (12 + h)%nat).
  write (firstn_prefix pb B (total - 16 - h)%nat).
  write (skipn_prefix (T ++ H ++ A ++ hb ++ pb ++ B) rest total).
  reflexivity.
Qed.

Section Frames.
Variable Payload : Type.
Variable stringify : Payload -> string.

Lemma message_frame eventType payload :
  encodeEventStreamMessage Payload stringify eventType payload
  = if (Z.of_nat (List.length (from eventType)) <=? 65535)
       && (Z.of_nat (16 + List.length (eventHeaders eventType)
                     + List.length (from (stringify payload))) <? 2 ^ 32)
    then Ok (frame (eventHeaders eventType) (from (stringify payload)))
    else Throw rangeError.
Proof.
  unfold encodeEventStreamMessage.
  rewrite event_type_header, content_type_header, message_type_header.
  destruct (Z.leb_spec (Z.of_nat (List.length (from eventType))) 65535) as [Ht | Ht];
    cbn [andb andThen]; [| reflexivity].
  cbv zeta. unfold concat. cbn [List.concat]. rewrite app_nil_r.
  change (stringHeader ":event-type" eventType
          ++ stringHeader ":content-type" "application/json"
          ++ stringHeader ":message-type" "event") with (eventHeaders eventType).
  pose proof (eventHeaders_bytes eventType) as Hhb.
  pose proof (from_bytes (stringify payload)) as Hpb.
  set (hb := eventHeaders eventType) in *. set (pb := from (stringify payload)) in *.
  set (h := List.length hb). set (p := List.length pb).
  replace (16 + h + p)%nat with (12 + h + p + 4)%nat by lia.
  set (total := (12 + h + p + 4)%nat).
  unfold frame. fold h p. replace (16 + h + p)%nat with total by (unfold total; lia).
  destruct (Z.ltb_spec (Z.of_nat total) (2 ^ 32)) as [Hlen | Hlen].
  - unfold total at 1. rewrite alloc_frame.
    write (writeUInt32BE_first (alloc 4) (alloc 4 ++ alloc 4 ++ alloc h ++ alloc p ++ alloc 4)
             (Z.of_nat total)).
    write (writeUInt32BE_ok (bigEndian 4 (Z.of_nat total)) (alloc 4)
             (alloc 4 ++ alloc h ++ alloc p ++ alloc 4) (Z.of_nat h) (0 + 4)%nat).
    write (subarray_prefix (bigEndian 4 (Z.of_nat total) ++ bigEndian 4 (Z.of_nat h))
             (alloc 4 ++ alloc h ++ alloc p ++ alloc 4) 8%nat).
    assert (Hprelude : Forall isByte (bigEndian 4 (Z.of_nat total) ++ bigEndian 4 (Z.of_nat h)))
      by (apply Forall_app; split; apply bigEndian_bytes).
    pose proof (Crc32Facts.crc32_range (bigEndian 4 (Z.of_nat total) ++ bigEndian 4 (Z.of_nat h))) as Hc1.
    rewrite (Crc32Facts.crc32_by_bits _ Hprelude) in *.
    set (c1 := crcBitwise (bigEndian 4 (Z.of_nat total) ++ bigEndian 4 (Z.of_nat h))) in *.
    write (writeUInt32BE_ok (bigEndian 4 (Z.of_nat total) ++ bigEndian 4 (Z.of_nat h))
             (alloc 4) (alloc h ++ alloc p ++ alloc 4) c1 (0 + 4 + 4)%nat).
    write (copy_at hb (bigEndian 4 (Z.of_nat total) ++ bigEndian 4 (Z.of_nat h) ++ bigEndian 4 c1)
             (alloc h) (alloc p ++ alloc 4) (0 + 4 + 4 + 4)%nat).
    write (copy_at pb
             (bigEndian 4 (Z.of_nat total) ++ bigEndian 4 (Z.of_nat h) ++ bigEndian 4 c1 ++ hb)
             (alloc p) (alloc 4) (0 + 4 + 4 + 4 + h)%nat).
    write (subarray_prefix
             (bigEndian 4 (Z.of_nat total) ++ bigEndian 4 (Z.of_nat h) ++ bigEndian 4 c1
              ++ hb ++ pb)
             (alloc 4) (0 + 4 + 4 + 4 + h + p)%nat).
    assert (Hfront : Forall isByte (bigEndian 4 (Z.of_nat total) ++ bigEndian 4 (Z.of_nat h)
                                    ++ bigEndian 4 c1 ++ hb ++ pb))
      by (do 3 (apply Forall_app; split; [apply bigEndian_bytes |]);
          apply Forall_app; split; assumption).
    pose proof (Crc32Facts.crc32_range (bigEndian 4 (Z.of_nat total) ++ bigEndian 4 (Z.of_nat h)
                                        ++ bigEndian 4 c1 ++ hb ++ pb)) as Hc2.
    rewrite (Crc32Facts.crc32_by_bits _ Hfront) in *.
    set (c2 := crcBitwise (bigEndian 4 (Z.of_nat total) ++ bigEndian 4 (Z.of_nat h)
                           ++ bigEndian 4 c1 ++ hb ++ pb)) in *.
    write (writeUInt32BE_ok
             (bigEndian 4 (Z.of_nat total) ++ bigEndian 4 (Z.of_nat h) ++ bigEndian 4 c1
              ++ hb ++ pb)
             (alloc 4) [] c2 (0 + 4 + 4 + 4 + h + p)%nat).
    reflexivity.
  - unfold writeUInt32BE at 1. rewrite checkInt_value by exact Hlen. reflexivity.
Qed.

(** X11: A message is the frame of the format around the three headers and the
    JSON text, with both checksums the CRC-32 of the bytes before them; it
    is refused with a [RangeError] when the event type is longer than 65535
    bytes or the frame has no length of 32 bits.  The length that the frame
    announces in its first four bytes is its own. *)
Theorem encodeEventStreamMessage_frame eventType payload :
  let headers := eventHeaders eventType in
  let body := from (stringify payload) in
  let total := (16 + List.length headers + List.length body)%nat in
  encodeEventStreamMessage Payload stringify eventType payload
  = (if (Z.of_nat (List.length (from eventType)) <=? 65535) && (Z.of_nat total <? 2 ^ 32)
     then Ok (frame headers body)
     else Throw rangeError)
  /\ List.length (frame headers body) = total
  /\ firstn 4 (frame headers body) = bigEndian 4 (Z.of_nat total).
Proof.
  cbv zeta. split; [apply message_frame |]. unfold frame. cbv zeta. split.
  - sizes.
  - flat. apply firstn_prefix. symmetry. apply length_bigEndian.
Qed.

(** X12: A receiver that reads the lengths and checks both checksums gets the
    headers and the JSON text back from the front of the stream, and is left
    with the bytes that follow the message. *)
Theorem encodeEventStreamMessage_read eventType payload message rest :
  encodeEventStreamMessage Payload stringify eventType payload = Ok message ->
  readFrame (message ++ rest)
  = Some (eventHeaders eventType, from (stringify payload), rest).
Proof.
  rewrite message_frame.
  destruct (Z.leb_spec (Z.of_nat (List.length (from eventType))) 65535) as [_ | _];
    cbn [andb]; [| discriminate].
  destruct (Z.ltb_spec (Z.of_nat (16 + List.length (eventHeaders eventType)
                                  + List.length (from (stringify payload)))) (2 ^ 32))
    as [Hlen | _]; [| discriminate].
  intros [= <-]. apply readFrame_frame.
  - apply eventHeaders_bytes.
  - apply from_bytes.
  - exact Hlen.
Qed.

End Frames.

(** The frame of an empty object as an assistant response, followed by
    one more byte. *)
Lemma encodeEventStreamMessage_read_witness :
  let message := frame (eventHeaders "assistantResponseEvent") (from "{}") in
  encodeEventStreamMessage string (fun json => json) "assistantResponseEvent" "{}"
  = Ok message
  /\ readFrame (message ++ [0])
     = Some (eventHeaders "assistantResponseEvent", from "{}", [0]).
Proof.
  cbv zeta.
  assert (H : encodeEventStreamMessage string (fun json => json) "assistantResponseEvent" "{}"
              = Ok (frame (eventHeaders "assistantResponseEvent") (from "{}")))
    by (vm_compute; reflexivity).
  split; [exact H |].
  exact (encodeEventStreamMessage_read string (fun json => json)
           "assistantResponseEvent" "{}" _ [0] H).
Defined.

End EncoderFacts.

(* ===================================================================== *)
(** ** The handlers stay with their endpoints and models *)
(* ===================================================================== *)

Module ReachFacts.
Import JS Constants RequestBuilder Calls Trace Measure MonadFacts CallFacts Reach.

Section Facts.
Context {E : Env}.

Lemma among_head x l : among x (x :: l) = true.
Proof. unfold among. cbn [existsb]. rewrite String.eqb_refl. reflexivity. Qed.

Lemma among_tail x y l : among x l = true -> among x (y :: l) = true.
Proof. unfold among. cbn [existsb]. intros ->. apply orb_true_r. Qed.

Lemma among_map (f : string -> string) x l : In x l -> among (f x) (map f l) = true.
Proof.
  intros H. unfold among. apply existsb_exists. exists (f x).
  split; [apply in_map, H | apply String.eqb_refl].
Qed.

Lemma accept_sent token model accept :
  String.eqb accept "application/json" = false ->
  headerOf "Accept" (buildHeaders token model accept) = Some accept.
Proof.
  intros H. unfold buildHeaders, headerOf. rewrite H.
  destruct (getModelFamily (Some model)); [destruct (isThinkingModel (Some model)) | |];
    reflexivity.
Qed.

Lemma accept_default token model :
  headerOf "Accept" (buildHeaders token model "application/json") = None.
Proof.
  unfold buildHeaders, headerOf.
  destruct (getModelFamily (Some model)); [destruct (isThinkingModel (Some model)) | |];
    reflexivity.
Qed.

Variable urlFor : string -> string -> string.
Variable acceptFor : string -> option string.
Variable models : list string.

Local Abbreviation p := (confined urlFor acceptFor models).

Lemma sleepMs_confined ms : Only p (sleepMs ms).
Proof. apply sleepMs_only. reflexivity. Qed.

Lemma clearCaches_confined account : Only p (clearCaches account).
Proof. apply clearCaches_only; reflexivity. Qed.

Lemma yieldAll_confined evs : Only p (yieldAll evs).
Proof. apply yieldAll_only. reflexivity. Qed.

Lemma yieldStream_confined response model : Only p (yieldStream response model).
Proof. apply yieldStream_only. reflexivity. Qed.

Lemma markLimited_confined account resetMs model :
  among model models = true -> Only p (markLimited account resetMs model).
Proof.
  intros H. unfold markLimited. apply only_bind; [| intros; scan].
  apply only_emit. exact H.
Qed.

Lemma pickNextAccount_confined model :
  among model models = true -> Only p (pickNextAccount model).
Proof. intros H. apply pickNextAccount_only. exact H. Qed.

Lemma postJson_confined endpoint token model accept (payload : @Payload E) :
  In endpoint ANTIGRAVITY_ENDPOINT_FALLBACKS ->
  payload_model payload = model ->
  among model models = true ->
  headerOf "Accept" (buildHeaders token model accept) = acceptFor model ->
  Only p (postJson (urlFor model endpoint) token model accept payload).
Proof.
  intros Hin Hpayload Hmodel Haccept. unfold postJson.
  apply only_bind; [| intros; scan].
  apply only_emit. cbn [confined]. rewrite Hpayload, Hmodel, Haccept.
  rewrite (among_map (urlFor model) endpoint _ Hin).
  destruct (acceptFor model); cbn; [apply String.eqb_refl | reflexivity].
Qed.

End Facts.

#[export] Hint Resolve sleepMs_confined clearCaches_confined yieldAll_confined
  yieldStream_confined markLimited_confined pickNextAccount_confined : onlys.

(** *** [sendMessageStream] *)

Section Stream.
Import StreamingHandler.
Context {E : Env}.
Variable models : list string.

Local Abbreviation p :=
  (confined (fun _ : string => sseUrl) (fun _ : string => Some "text/event-stream") models).

Lemma stream_fallback_confined model : Only p (emitEmptyResponseFallback model).
Proof.
  unfold emitEmptyResponseFallback. apply only_bind; [scan |].
  intros hex. apply yieldAll_confined.
Qed.

Hint Resolve stream_fallback_confined : onlys.

Section Attempt.
Variable anthropicRequest : @AnthropicRequest E.
Variable account : Account E.
Variable token : string.
Variable payload : @Payload E.
Hypothesis Hmodel : among (model anthropicRequest) models = true.
Hypothesis Hpayload : payload_model payload = model anthropicRequest.

Lemma stream_post_confined endpoint :
  In endpoint ANTIGRAVITY_ENDPOINT_FALLBACKS ->
  Only p (post anthropicRequest token payload (sseUrl endpoint)).
Proof.
  intros Hin. unfold post.
  apply (postJson_confined (fun _ : string => sseUrl)
           (fun _ : string => Some "text/event-stream") models endpoint);
    [exact Hin | exact Hpayload | exact Hmodel |].
  apply accept_sent. reflexivity.
Qed.

Hint Resolve stream_post_confined : onlys.

Lemma onStreamError_confined endpoint k e :
  In endpoint ANTIGRAVITY_ENDPOINT_FALLBACKS ->
  Only p (onStreamError anthropicRequest account token payload (sseUrl endpoint) k e).
Proof. intros Hin. unfold onStreamError. scan. Qed.

Hint Resolve onStreamError_confined : onlys.

Lemma streamWithEmptyRetries_confined endpoint :
  In endpoint ANTIGRAVITY_ENDPOINT_FALLBACKS ->
  forall remaining k response,
    Only p (streamWithEmptyRetries anthropicRequest account token payload
              (sseUrl endpoint) remaining k response).
Proof.
  intros Hin. induction remaining as [|r IH]; intros k response;
    cbn [streamWithEmptyRetries].
  - scan.
  - apply only_bind; [scan |]. intros step. destruct step; [scan | scan | apply IH].
Qed.

Lemma stream_on429_confined endpoint response errorText :
  In endpoint ANTIGRAVITY_ENDPOINT_FALLBACKS ->
  Only p (on429 anthropicRequest account token payload (sseUrl endpoint) response errorText).
Proof. intros Hin. unfold on429. scan. Qed.

Hint Resolve streamWithEmptyRetries_confined stream_on429_confined : onlys.

Lemma stream_tryEndpoint_confined endpoint :
  In endpoint ANTIGRAVITY_ENDPOINT_FALLBACKS ->
  Only p (tryEndpoint anthropicRequest account token payload endpoint).
Proof. intros Hin. unfold tryEndpoint. scan. Qed.

Lemma stream_onEndpointError_confined e : Only p (onEndpointError e).
Proof. unfold onEndpointError. scan. Qed.

Hint Resolve stream_tryEndpoint_confined stream_onEndpointError_confined : onlys.

Lemma stream_endpointLoop_confined endpoints :
  incl endpoints ANTIGRAVITY_ENDPOINT_FALLBACKS ->
  Only p (endpointLoop anthropicRequest account token payload endpoints).
Proof.
  induction endpoints as [|endpoint rest IH]; intros Hincl; cbn [endpointLoop].
  - scan.
  - assert (Hin : In endpoint ANTIGRAVITY_ENDPOINT_FALLBACKS)
      by (apply Hincl; left; reflexivity).
    apply only_bind; [scan |]. intros c. destruct c; [scan |].
    apply IH. intros x Hx. apply Hincl. right. exact Hx.
Qed.

Lemma stream_afterEndpoints_confined :
  Only p (afterEndpoints anthropicRequest account).
Proof. unfold afterEndpoints. scan. Qed.

End Attempt.

Lemma stream_tryAttempt_confined anthropicRequest account :
  among (model anthropicRequest) models = true ->
  Only p (tryAttempt anthropicRequest account).
Proof.
  intros Hmodel. unfold tryAttempt.
  repeat (apply only_bind; [only_leaf | intros]).
  cbv zeta.
  repeat (apply only_bind; [only_leaf | intros]).
  apply only_bind.
  - apply stream_endpointLoop_confined; [exact Hmodel | reflexivity | apply incl_refl].
  - intros c. destruct c; [scan |].
    apply stream_afterEndpoints_confined. exact Hmodel.
Qed.

Lemma stream_onAttemptError_confined model e :
  among model models = true -> Only p (onAttemptError model e).
Proof. intros Hmodel. unfold onAttemptError. scan. Qed.

Hint Resolve stream_tryAttempt_confined stream_onAttemptError_confined : onlys.

Section Dispatch.
Variable self : @AnthropicRequest E -> bool -> M unit.
Variable anthropicRequest : @AnthropicRequest E.
Variable fallbackEnabled : bool.
Hypothesis Hmodel : among (model anthropicRequest) models = true.
Hypothesis Hself : forall fallbackModel,
  (if fallbackEnabled then fallbackModelFor (model anthropicRequest) else None)
  = Some fallbackModel ->
  Only p (self (withModel anthropicRequest fallbackModel) false).

Lemma stream_afterAttempts_confined :
  Only p (afterAttempts self anthropicRequest fallbackEnabled).
Proof.
  unfold afterAttempts.
  destruct (if fallbackEnabled then fallbackModelFor (model anthropicRequest) else None)
    as [fallbackModel|] eqn:Hfallback; [apply Hself; reflexivity | scan].
Qed.

Lemma stream_onNoAccounts_confined :
  Only p (onNoAccounts self anthropicRequest fallbackEnabled).
Proof.
  unfold onNoAccounts.
  apply only_bind; [scan |]. intros allLimited. destruct allLimited; [| scan].
  apply only_bind; [scan |]. intros minWaitMs.
  apply only_bind; [scan |]. intros now.
  apply only_bind; [scan |]. intros resetTime.
  destruct (minWaitMs >? MAX_WAIT_BEFORE_ERROR_MS)%Z; [| scan].
  destruct (if fallbackEnabled then fallbackModelFor (model anthropicRequest) else None)
    as [fallbackModel|] eqn:Hfallback; [| scan].
  apply only_bind; [apply Hself; reflexivity | intros; scan].
Qed.

Lemma stream_attempt_confined attemptNo :
  Only p (attempt self anthropicRequest fallbackEnabled attemptNo).
Proof.
  unfold attempt.
  apply only_bind; [scan |]. intros _.
  apply only_bind; [scan |]. intros _.
  apply only_bind; [scan |]. intros availableAccounts.
  destruct availableAccounts; [apply stream_onNoAccounts_confined |].
  apply only_bind; [scan |]. intros sticky.
  apply only_bind; [destruct sticky; scan |]. intros account.
  destruct account; scan.
Qed.

Lemma stream_attemptLoop_confined : forall remaining attemptNo,
  Only p (attemptLoop self anthropicRequest fallbackEnabled remaining attemptNo).
Proof.
  induction remaining as [|r IH]; intros attemptNo; cbn [attemptLoop].
  - apply stream_afterAttempts_confined.
  - apply only_bind; [apply stream_attempt_confined |].
    intros c. destruct c; [scan | apply IH].
Qed.

Lemma stream_body_confined :
  Only p (sendMessageStreamBody self anthropicRequest fallbackEnabled).
Proof.
  unfold sendMessageStreamBody.
  apply only_bind; [apply only_emit; exact Hmodel |]. intros _.
  apply only_bind; [scan |]. intros n. apply stream_attemptLoop_confined.
Qed.

End Dispatch.
End Stream.

(** *** [sendMessage] *)

Section Message.
Import MessageHandler.
Context {E : Env}.
Variable models : list string.

Local Abbreviation p :=
  (confined (fun m : string => endpointUrl (isThinkingModel (Some m))) messageAccept models).

Section Attempt.
Variable anthropicRequest : @AnthropicRequest E.
Variable account : Account E.
Variable token : string.
Variable payload : @Payload E.
Hypothesis Hmodel : among (model anthropicRequest) models = true.
Hypothesis Hpayload : payload_model payload = model anthropicRequest.

Lemma message_post_confined endpoint :
  In endpoint ANTIGRAVITY_ENDPOINT_FALLBACKS ->
  Only p (post anthropicRequest token payload
            (endpointUrl (isThinkingModel (Some (model anthropicRequest))) endpoint)).
Proof.
  intros Hin. unfold post.
  apply (postJson_confined (fun m : string => endpointUrl (isThinkingModel (Some m)))
           messageAccept models endpoint);
    [exact Hin | exact Hpayload | exact Hmodel |].
  unfold messageAccept, acceptFor.
  destruct (isThinkingModel (Some (model anthropicRequest)));
    [apply accept_sent; reflexivity | apply accept_default].
Qed.

Hint Resolve message_post_confined : onlys.

Lemma readResponse_confined response :
  Only p (readResponse anthropicRequest response).
Proof. unfold readResponse. scan. Qed.

Hint Resolve readResponse_confined : onlys.

Lemma message_on429_confined endpoint response errorText :
  In endpoint ANTIGRAVITY_ENDPOINT_FALLBACKS ->
  Only p (on429 anthropicRequest account token payload
            (endpointUrl (isThinkingModel (Some (model anthropicRequest))) endpoint)
            response errorText).
Proof. intros Hin. unfold on429. scan. Qed.

Hint Resolve message_on429_confined : onlys.

Lemma message_tryEndpoint_confined endpoint :
  In endpoint ANTIGRAVITY_ENDPOINT_FALLBACKS ->
  Only p (tryEndpoint anthropicRequest account token payload endpoint).
Proof. intros Hin. unfold tryEndpoint. scan. Qed.

Lemma message_onEndpointError_confined e :
  Only p (@onEndpointError E e).
Proof. unfold onEndpointError. scan. Qed.

Hint Resolve message_tryEndpoint_confined message_onEndpointError_confined : onlys.

Lemma message_endpointLoop_confined endpoints :
  incl endpoints ANTIGRAVITY_ENDPOINT_FALLBACKS ->
  Only p (endpointLoop anthropicRequest account token payload endpoints).
Proof.
  induction endpoints as [|endpoint rest IH]; intros Hincl; cbn [endpointLoop].
  - scan.
  - assert (Hin : In endpoint ANTIGRAVITY_ENDPOINT_FALLBACKS)
      by (apply Hincl; left; reflexivity).
    apply only_bind; [scan |]. intros c. destruct c; [scan |].
    apply IH. intros x Hx. apply Hincl. right. exact Hx.
Qed.

Lemma message_afterEndpoints_confined :
  Only p (afterEndpoints anthropicRequest account).
Proof. unfold afterEndpoints. scan. Qed.

End Attempt.

Lemma message_tryAttempt_confined anthropicRequest account :
  among (model anthropicRequest) models = true ->
  Only p (tryAttempt anthropicRequest account).
Proof.
  intros Hmodel. unfold tryAttempt.
  repeat (apply only_bind; [only_leaf | intros]).
  cbv zeta.
  repeat (apply only_bind; [only_leaf | intros]).
  apply only_bind.
  - apply message_endpointLoop_confined; [exact Hmodel | reflexivity | apply incl_refl].
  - intros c. destruct c; [scan |].
    apply message_afterEndpoints_confined. exact Hmodel.
Qed.

Lemma message_onAttemptError_confined model e :
  among model models = true -> Only p (@onAttemptError E model e).
Proof. intros Hmodel. unfold onAttemptError. scan. Qed.

Hint Resolve message_tryAttempt_confined message_onAttemptError_confined : onlys.

Section Dispatch.
Variable self : @AnthropicRequest E -> bool -> M (AnthropicResponse E).
Variable anthropicRequest : @AnthropicRequest E.
Variable fallbackEnabled : bool.
Hypothesis Hmodel : among (model anthropicRequest) models = true.
Hypothesis Hself : forall fallbackModel,
  (if fallbackEnabled then fallbackModelFor (model anthropicRequest) else None)
  = Some fallbackModel ->
  Only p (self (withModel anthropicRequest fallbackModel) false).

Lemma message_afterAttempts_confined :
  Only p (afterAttempts self anthropicRequest fallbackEnabled).
Proof.
  unfold afterAttempts.
  destruct (if fallbackEnabled then fallbackModelFor (model anthropicRequest) else None)
    as [fallbackModel|] eqn:Hfallback; [apply Hself; reflexivity | scan].
Qed.

Lemma message_onNoAccounts_confined :
  Only p (onNoAccounts self anthropicRequest fallbackEnabled).
Proof.
  unfold onNoAccounts.
  apply only_bind; [scan |]. intros allLimited. destruct allLimited; [| scan].
  apply only_bind; [scan |]. intros minWaitMs.
  apply only_bind; [scan |]. intros now.
  apply only_bind; [scan |]. intros resetTime.
  destruct (minWaitMs >? MAX_WAIT_BEFORE_ERROR_MS)%Z; [| scan].
  destruct (if fallbackEnabled then fallbackModelFor (model anthropicRequest) else None)
    as [fallbackModel|] eqn:Hfallback; [| scan].
  apply only_bind; [apply Hself; reflexivity | intros; scan].
Qed.

Lemma message_attempt_confined attemptNo :
  Only p (attempt self anthropicRequest fallbackEnabled attemptNo).
Proof.
  unfold attempt.
  apply only_bind; [scan |]. intros _.
  apply only_bind; [scan |]. intros _.
  apply only_bind; [scan |]. intros availableAccounts.
  destruct availableAccounts; [apply message_onNoAccounts_confined |].
  apply only_bind; [scan |]. intros sticky.
  apply only_bind; [destruct sticky; scan |]. intros account.
  destruct account; scan.
Qed.

Lemma message_attemptLoop_confined : forall remaining attemptNo,
  Only p (attemptLoop self anthropicRequest fallbackEnabled remaining attemptNo).
Proof.
  induction remaining as [|r IH]; intros attemptNo; cbn [attemptLoop].
  - apply message_afterAttempts_confined.
  - apply only_bind; [apply message_attempt_confined |].
    intros c. destruct c; [scan | apply IH].
Qed.

Lemma message_body_confined :
  Only p (sendMessageBody self anthropicRequest fallbackEnabled).
Proof.
  unfold sendMessageBody.
  apply only_bind; [apply only_emit; exact Hmodel |]. intros _.
  apply only_bind; [scan |]. intros n. apply message_attemptLoop_confined.
Qed.

End Dispatch.
End Message.

Section Theorems.
Context {E : Env}.

Lemma served_fallback (fallbackModelFor : string -> option string) model fallbackModel :
  fallbackModelFor model = Some fallbackModel ->
  among fallbackModel (servedModels fallbackModelFor model true) = true.
Proof.
  intros H. unfold servedModels. rewrite H. apply among_tail, among_head.
Qed.

(** X13: Whatever the pool and the upstream do, [sendMessageStream] calls only
    the streaming URL of the two endpoints, asks for an event stream, sends
    the payload of the model of the request or, with the fallback enabled,
    of its fallback model, and marks accounts and moves the pool for these
    models only. *)
Theorem stream_calls_confined (anthropicRequest : @AnthropicRequest E) fallbackEnabled s :
  forallb
    (confined (fun _ : string => StreamingHandler.sseUrl)
       (fun _ : string => Some "text/event-stream")
       (servedModels StreamingHandler.fallbackModelFor (model anthropicRequest)
          fallbackEnabled))
    (trace (StreamingHandler.sendMessageStream anthropicRequest fallbackEnabled s))
  = true.
Proof.
  unfold StreamingHandler.sendMessageStream.
  cbn [StreamingHandler.sendMessageStreamAt].
  apply stream_body_confined; [apply among_head |].
  intros fallbackModel Hfallback.
  destruct fallbackEnabled; [| discriminate].
  apply stream_body_confined.
  - cbn [model withModel]. apply served_fallback. exact Hfallback.
  - intros m H. discriminate.
Qed.

(** X14: The same for [sendMessage], which calls the streaming URL and asks for
    an event stream for a thinking model, and calls [generateContent]
    without an [Accept] header for any other. *)
Theorem message_calls_confined (anthropicRequest : @AnthropicRequest E) fallbackEnabled s :
  forallb
    (confined (fun m : string => MessageHandler.endpointUrl (isThinkingModel (Some m)))
       messageAccept
       (servedModels MessageHandler.fallbackModelFor (model anthropicRequest)
          fallbackEnabled))
    (trace (MessageHandler.sendMessage anthropicRequest fallbackEnabled s))
  = true.
Proof.
  unfold MessageHandler.sendMessage.
  cbn [MessageHandler.sendMessageAt].
  apply message_body_confined; [apply among_head |].
  intros fallbackModel Hfallback.
  destruct fallbackEnabled; [| discriminate].
  apply message_body_confined.
  - cbn [model withModel]. apply served_fallback. exact Hfallback.
  - intros m H. discriminate.
Qed.

End Theorems.
End ReachFacts.

(* ===================================================================== *)
(** ** The handlers at their edges *)
(* ===================================================================== *)

Module HandlerEdges.
Import JS Constants RequestBuilder Calls Trace Measure MonadFacts RunFacts StringFacts.

Lemma stream_maxAttempts_positive {E : Env} (w : World E) :
  exists n, StreamingHandler.maxAttempts w = S n.
Proof.
  unfold StreamingHandler.maxAttempts, MAX_RETRIES.
  exists (Z.to_nat (Z.max 5 (getAccountCount E w + 1)) - 1). lia.
Qed.

Lemma message_maxAttempts_positive {E : Env} (w : World E) :
  exists n, MessageHandler.maxAttempts w = S n.
Proof.
  unfold MessageHandler.maxAttempts, MAX_RETRIES.
  exists (Z.to_nat (Z.max 5 (getAccountCount E w + 1)) - 1). lia.
Qed.

Section NoAccounts.
Context {E : Env}.
Variable anthropicRequest : @AnthropicRequest E.
Variable fallbackEnabled : bool.
Variable s : @St E.

(** X15: With a pool that has no account for the model and is not rate-limited
    as a whole, both handlers throw [No accounts available] in their first
    attempt: nothing is called, awaited, marked or yielded. *)
Theorem no_accounts_available :
  let model := model anthropicRequest in
  let w0 := clearExpiredLimits E (world s) in
  getAvailableAccounts E model w0 = [] ->
  isAllRateLimited E model w0 = false ->
  StreamingHandler.sendMessageStream anthropicRequest fallbackEnabled s
  = prepend [AEnter model fallbackEnabled; AAttempt 0]
      (throw (newError "No accounts available") (setWorld s w0))
  /\ MessageHandler.sendMessage anthropicRequest fallbackEnabled s
     = prepend [AEnter model fallbackEnabled; AAttempt 0]
         (throw (newError "No accounts available") (setWorld s w0)).
Proof.
  cbv zeta. intros Hnone Hall. split.
  - unfold StreamingHandler.sendMessageStream.
    cbn [StreamingHandler.sendMessageStreamAt].
    unfold StreamingHandler.sendMessageStreamBody. repeat run_step.
    destruct (stream_maxAttempts_positive (world s)) as [n ->].
    cbn [StreamingHandler.attemptLoop]. unfold StreamingHandler.attempt.
    repeat run_step. rewrite Hnone. unfold StreamingHandler.onNoAccounts.
    repeat run_step. rewrite Hall. repeat run_step.
    rewrite prepend_prepend. reflexivity.
  - unfold MessageHandler.sendMessage.
    cbn [MessageHandler.sendMessageAt].
    unfold MessageHandler.sendMessageBody. repeat run_step.
    destruct (message_maxAttempts_positive (world s)) as [n ->].
    cbn [MessageHandler.attemptLoop]. unfold MessageHandler.attempt.
    repeat run_step. rewrite Hnone. unfold MessageHandler.onNoAccounts.
    repeat run_step. rewrite Hall. repeat run_step.
    rewrite prepend_prepend. reflexivity.
Qed.

End NoAccounts.

(** A pool without any account. *)
Lemma no_accounts_available_witness :
  let s := @Scenario.start Scenario.env (Scenario.freshWorld [] []) in
  @StreamingHandler.sendMessageStream Scenario.env Scenario.sonnet true s
  = prepend [AEnter "claude-sonnet-4-5" true; AAttempt 0]
      (throw (newError "No accounts available") s)
  /\ @MessageHandler.sendMessage Scenario.env Scenario.sonnet true s
     = prepend [AEnter "claude-sonnet-4-5" true; AAttempt 0]
         (throw (newError "No accounts available") s).
Proof.
  cbv zeta.
  exact (@no_accounts_available Scenario.env Scenario.sonnet true
           (@Scenario.start Scenario.env (Scenario.freshWorld [] [])) eq_refl eq_refl).
Defined.

(** *** Text of an API error *)

Lemma startsWith_append s t prefix :
  startsWith s prefix = true -> startsWith (s ++ t) prefix = true.
Proof.
  intros H. apply startsWith_iff in H as [post ->]. apply startsWith_iff.
  exists (post ++ t). clear. induction prefix as [|c prefix IH]; [reflexivity |].
  cbn. rewrite IH. reflexivity.
Qed.

Lemma startsWith_cancel p s q : startsWith (p ++ s) (p ++ q) = startsWith s q.
Proof.
  induction p as [|c p IH]; [reflexivity |].
  cbn [append startsWith]. rewrite Ascii.eqb_refl, IH. reflexivity.
Qed.

Lemma showZ_5xx status :
  (500 <= status <= 599)%Z -> startsWith (showZ status) "5" = true.
Proof.
  intros H.
  assert (Hall : forallb (fun k => startsWith (showZ (500 + Z.of_nat k)) "5") (seq 0 100) = true)
    by (vm_compute; reflexivity).
  rewrite forallb_forall in Hall. specialize (Hall (Z.to_nat (status - 500))).
  replace (500 + Z.of_nat (Z.to_nat (status - 500)))%Z with status in Hall by lia.
  apply Hall. apply in_seq. lia.
Qed.

Lemma api_error_5xx status body :
  (500 <= status <= 599)%Z ->
  is5xxMessage ("API error " ++ showZ status ++ ": " ++ body) = true.
Proof.
  intros H. unfold is5xxMessage.
  assert (Hhead : startsWith ("API error " ++ showZ status ++ ": " ++ body) "API error 5" = true).
  { change "API error 5" with ("API error " ++ "5"). rewrite startsWith_cancel.
    apply startsWith_append. apply showZ_5xx. exact H. }
  assert (Hinc : includes ("API error " ++ showZ status ++ ": " ++ body) "API error 5" = true).
  { change ("API error " ++ showZ status ++ ": " ++ body)
      with (String "A" ("PI error " ++ showZ status ++ ": " ++ body)) in *.
    cbn [includes]. rewrite Hhead. reflexivity. }
  rewrite Hinc. reflexivity.
Qed.

(** *** An attempt of [sendMessageStream] *)

Section StreamAttempt.
Import StreamingHandler.
Context {E : Env}.
Variable self : @AnthropicRequest E -> bool -> M unit.
Variable anthropicRequest : @AnthropicRequest E.
Variable fallbackEnabled : bool.
Variable attemptNo : nat.
Variable s : @St E.
Variable account : Account E.
Variable token project uuid : string.
Variable w1 w2 w3 w4 : World E.

Let model := model anthropicRequest.
Let w0 := clearExpiredLimits E (world s).
Let payload := buildCloudCodeRequest anthropicRequest project uuid.
Let headers := buildHeaders token model "text/event-stream".
Let daily := sseUrl ANTIGRAVITY_ENDPOINT_DAILY.
Let prod := sseUrl ANTIGRAVITY_ENDPOINT_PROD.

Hypothesis Havailable : getAvailableAccounts E model w0 <> [].
Hypothesis Hsticky : getCurrentStickyAccount E model w0 = (Some account, w1).
Hypothesis Htoken : getTokenForAccount E account w1 = (inr token, w2).
Hypothesis Hproject : getProjectForAccount E account token w2 = (inr project, w3).
Hypothesis Huuid : randomUUID E w3 = (uuid, w4).

(** The attempt up to its endpoint loop. *)
Lemma attempt_begins :
  attempt self anthropicRequest fallbackEnabled attemptNo s
  = prepend [AAttempt attemptNo]
      (tryCatch
         (c <- endpointLoop anthropicRequest account token payload
                 ANTIGRAVITY_ENDPOINT_FALLBACKS ;;
          match c with
          | Return _ => ret (Return tt)
          | Next => afterEndpoints anthropicRequest account
          end)
         (onAttemptError model)
         {| world := w4; lastError := None; retriedOnce := false |}).
Proof.
  unfold attempt. repeat run_step. fold model w0.
  destruct (getAvailableAccounts E model w0) as [|a rest]; [contradiction |].
  repeat run_step. f_equal.
  unfold tryCatch, tryAttempt. repeat run_step. reflexivity.
Qed.

Let s4 : @St E := {| world := w4; lastError := None; retriedOnce := false |}.

Lemma tryEndpoint_5xx endpoint (s0 : @St E) response w' :
  fetch E (sseUrl endpoint) headers payload (world s0) = (inr response, w') ->
  (500 <= status E response)%Z ->
  tryEndpoint anthropicRequest account token payload endpoint s0
  = prepend [AFetch (sseUrl endpoint) headers payload; ASleep 1000]
      (ret Next
         {| world := sleep E 1000 w';
            lastError := Some (newError ("API error " ++ showZ (status E response) ++ ": "
                                           ++ text E response));
            retriedOnce := retriedOnce s0 |}).
Proof.
  intros Hfetch H5xx. unfold tryEndpoint, post, postJson. fold model headers.
  repeat run_step. unfold ok.
  replace (status E response <=? 299)%Z with false by (symmetry; apply Z.leb_gt; lia).
  rewrite andb_false_r. cbn [negb].
  replace (status E response =? 401)%Z with false by (symmetry; apply Z.eqb_neq; lia).
  replace (status E response =? 429)%Z with false by (symmetry; apply Z.eqb_neq; lia).
  replace (500 <=? status E response)%Z with true by (symmetry; apply Z.leb_le; lia).
  unfold sleepMs. repeat run_step. rewrite prepend_prepend. reflexivity.
Qed.

Lemma tryEndpoint_rejected endpoint (s0 : @St E) e w' :
  fetch E (sseUrl endpoint) headers payload (world s0) = (inl e, w') ->
  tryEndpoint anthropicRequest account token payload endpoint s0
  = prepend [AFetch (sseUrl endpoint) headers payload] (throw e (setWorld s0 w')).
Proof.
  intros Hfetch. unfold tryEndpoint, post, postJson. fold model headers.
  repeat run_step. reflexivity.
Qed.

(** X16: When the first endpoint answers with a success and the adapter streams
    it to its end, the attempt is that one call and the events of the
    adapter, and the handler returns. *)
Theorem stream_first_answer response evs w5 w6 :
  fetch E daily headers payload w4 = (inr response, w5) ->
  ok response = true ->
  streamSSEResponse E response model w5 = ((evs, None), w6) ->
  attempt self anthropicRequest fallbackEnabled attemptNo s
  = prepend (AAttempt attemptNo :: AFetch daily headers payload :: map AYield evs)
      (ret (Return tt) {| world := w6; lastError := None; retriedOnce := false |}).
Proof.
  intros Hfetch Hok Hstream. rewrite attempt_begins.
  assert (Hend : tryEndpoint anthropicRequest account token payload
                   ANTIGRAVITY_ENDPOINT_DAILY s4
                 = prepend (AFetch daily headers payload :: map AYield evs)
                     (ret (Return tt)
                        {| world := w6; lastError := None; retriedOnce := false |})).
  { erewrite EmptyResponseFacts.stream_tryEndpoint_ok by eassumption.
    erewrite EmptyResponseFacts.loop_completed by eassumption.
    rewrite prepend_prepend. reflexivity. }
  fold s4. unfold ANTIGRAVITY_ENDPOINT_FALLBACKS. cbn [endpointLoop].
  pose proof (run_tryCatch_ok _ onEndpointError _ _ _ _ Hend) as Hcaught.
  rewrite (run_tryCatch_ok _ (onAttemptError model) s4
             (AFetch daily headers payload :: map AYield evs) (Return tt)
             {| world := w6; lastError := None; retriedOnce := false |}).
  - rewrite prepend_prepend. reflexivity.
  - rewrite run_bind_assoc. rewrite (run_bind_then _ _ _ _ _ _ Hcaught).
    repeat run_step. reflexivity.
Qed.

(** X17: When both endpoints answer with a status of 500 to 599, the attempt
    waits one second after each answer, marks no account and clears no
    cache; the error of the attempt is the second answer, and unless the
    collaborators read it as a rate limit or an invalid credential the pool
    is moved to the next account and the attempt loop goes on. *)
Theorem stream_server_errors response1 response2 w5 w6 next w7 :
  let error := newError ("API error " ++ showZ (status E response2) ++ ": "
                           ++ text E response2) in
  fetch E daily headers payload w4 = (inr response1, w5) ->
  (500 <= status E response1)%Z ->
  fetch E prod headers payload (sleep E 1000 w5) = (inr response2, w6) ->
  (500 <= status E response2 <= 599)%Z ->
  isRateLimitError E error = false ->
  isAuthError E error = false ->
  pickNext E model (sleep E 1000 w6) = (next, w7) ->
  attempt self anthropicRequest fallbackEnabled attemptNo s
  = prepend [ AAttempt attemptNo;
              AFetch daily headers payload; ASleep 1000;
              AFetch prod headers payload; ASleep 1000;
              APickNext model ]
      (ret Next {| world := w7; lastError := Some error; retriedOnce := false |}).
Proof.
  intros error Hfetch1 H1 Hfetch2 H2 Hrate Hauth Hpick. rewrite attempt_begins.
  fold s4. unfold ANTIGRAVITY_ENDPOINT_FALLBACKS.
  rewrite (run_tryCatch_throw _ (onAttemptError model) s4
             [AFetch daily headers payload; ASleep 1000;
              AFetch prod headers payload; ASleep 1000]
             error
             {| world := sleep E 1000 w6; lastError := Some error; retriedOnce := false |}).
  - unfold onAttemptError. rewrite Hrate, Hauth.
    unfold error at 1. cbn [message newError]. rewrite (api_error_5xx _ _ H2).
    unfold pickNextAccount. repeat run_step. rewrite !prepend_prepend. reflexivity.
  - cbn [endpointLoop]. rewrite run_bind_assoc.
    rewrite (run_bind_then _ _ _ _ _ _
               (run_tryCatch_ok _ onEndpointError _ _ _ _
                  (tryEndpoint_5xx ANTIGRAVITY_ENDPOINT_DAILY s4 response1 w5 Hfetch1 H1))).
    cbv beta iota. rewrite !run_bind_assoc.
    rewrite (run_bind_then _ _ _ _ _ _
               (run_tryCatch_ok _ onEndpointError _ _ _ _
                  (tryEndpoint_5xx ANTIGRAVITY_ENDPOINT_PROD
                     {| world := sleep E 1000 w5;
                        lastError := Some (newError ("API error "
                                                       ++ showZ (status E response1) ++ ": "
                                                       ++ text E response1));
                        retriedOnce := false |}
                     response2 w6 Hfetch2 (proj1 H2)))).
    cbv beta iota. repeat run_step. unfold afterEndpoints. repeat run_step.
    cbn [is429 newError]. rewrite !prepend_prepend. reflexivity.
Qed.

(** X18: When the calls of both endpoints are rejected with errors that the
    collaborators read neither as a rate limit nor as an empty response, the
    attempt ends with the second error; unless that error is read as an
    invalid credential, a server error or a network error, the handler
    throws it at once: no other account is tried. *)
Theorem stream_unknown_error e1 e2 w5 w6 :
  fetch E daily headers payload w4 = (inl e1, w5) ->
  isRateLimitError E e1 = false -> isEmptyResponseError E e1 = false ->
  fetch E prod headers payload w5 = (inl e2, w6) ->
  isRateLimitError E e2 = false -> isEmptyResponseError E e2 = false ->
  is429 e2 = false ->
  isAuthError E e2 = false -> is5xxMessage (message e2) = false ->
  isNetworkError E e2 = false ->
  attempt self anthropicRequest fallbackEnabled attemptNo s
  = prepend [AAttempt attemptNo; AFetch daily headers payload; AFetch prod headers payload]
      (throw e2 {| world := w6; lastError := Some e2; retriedOnce := false |}).
Proof.
  intros Hfetch1 Hrate1 Hempty1 Hfetch2 Hrate2 Hempty2 H429 Hauth H5xx Hnet.
  rewrite attempt_begins.
  fold s4. unfold ANTIGRAVITY_ENDPOINT_FALLBACKS.
  assert (Hfirst : tryCatch (tryEndpoint anthropicRequest account token payload
                               ANTIGRAVITY_ENDPOINT_DAILY) onEndpointError s4
                   = prepend [AFetch daily headers payload]
                       (ret Next {| world := w5; lastError := Some e1;
                                    retriedOnce := false |})).
  { rewrite (run_tryCatch_throw _ onEndpointError _ _ _ _
               (tryEndpoint_rejected ANTIGRAVITY_ENDPOINT_DAILY s4 e1 w5 Hfetch1)).
    unfold onEndpointError. rewrite Hrate1, Hempty1. repeat run_step. reflexivity. }
  assert (Hsecond : tryCatch (tryEndpoint anthropicRequest account token payload
                                ANTIGRAVITY_ENDPOINT_PROD) onEndpointError
                      {| world := w5; lastError := Some e1; retriedOnce := false |}
                    = prepend [AFetch prod headers payload]
                        (ret Next {| world := w6; lastError := Some e2;
                                     retriedOnce := false |})).
  { rewrite (run_tryCatch_throw _ onEndpointError _ _ _ _
               (tryEndpoint_rejected ANTIGRAVITY_ENDPOINT_PROD
                  {| world := w5; lastError := Some e1; retriedOnce := false |}
                  e2 w6 Hfetch2)).
    unfold onEndpointError. rewrite Hrate2, Hempty2. repeat run_step. reflexivity. }
  rewrite (run_tryCatch_throw _ (onAttemptError model) s4
             [AFetch daily headers payload; AFetch prod headers payload]
             e2 {| world := w6; lastError := Some e2; retriedOnce := false |}).
  - unfold onAttemptError. rewrite Hrate2, Hauth, H5xx, Hnet.
    rewrite !prepend_prepend. reflexivity.
  - cbn [endpointLoop]. rewrite run_bind_assoc.
    rewrite (run_bind_then _ _ _ _ _ _ Hfirst).
    cbv beta iota. rewrite !run_bind_assoc.
    rewrite (run_bind_then _ _ _ _ _ _ Hsecond).
    cbv beta iota. repeat run_step. unfold afterEndpoints. repeat run_step.
    rewrite H429. rewrite !prepend_prepend. reflexivity.
Qed.

End StreamAttempt.

(** One account; the first endpoint streams the whole message. *)
Lemma stream_first_answer_witness :
  let headers := @buildHeaders Scenario.env "token-1" "claude-sonnet-4-5" "text/event-stream" in
  let payload := @buildCloudCodeRequest Scenario.env Scenario.sonnet "project-1"
                   "00000000-0000-4000-8000-000000000000" in
  let daily := StreamingHandler.sseUrl ANTIGRAVITY_ENDPOINT_DAILY in
  @StreamingHandler.attempt Scenario.env (fun _ _ => ret tt) Scenario.sonnet false 0
    (@Scenario.start Scenario.env (EdgeScenario.pool [Scenario.okStream Scenario.hello]))
  = prepend (AAttempt 0 :: AFetch daily headers payload :: map AYield Scenario.hello)
      (ret (Return tt) (@Scenario.start Scenario.env (EdgeScenario.served 0 []))).
Proof.
  cbv zeta.
  eapply (@stream_first_answer Scenario.env); try reflexivity.
  vm_compute. discriminate.
Defined.

(** One account; both endpoints answer 503. *)
Lemma stream_server_errors_witness :
  let headers := @buildHeaders Scenario.env "token-1" "claude-sonnet-4-5" "text/event-stream" in
  let payload := @buildCloudCodeRequest Scenario.env Scenario.sonnet "project-1"
                   "00000000-0000-4000-8000-000000000000" in
  let daily := StreamingHandler.sseUrl ANTIGRAVITY_ENDPOINT_DAILY in
  let prod := StreamingHandler.sseUrl ANTIGRAVITY_ENDPOINT_PROD in
  @StreamingHandler.attempt Scenario.env (fun _ _ => ret tt) Scenario.sonnet false 0
    (@Scenario.start Scenario.env
       (EdgeScenario.pool [Scenario.unavailable; Scenario.unavailable]))
  = prepend [ AAttempt 0;
              AFetch daily headers payload; ASleep 1000;
              AFetch prod headers payload; ASleep 1000;
              APickNext "claude-sonnet-4-5" ]
      (ret Next
         (@Build_St Scenario.env (EdgeScenario.served 2000 [])
            (Some (newError "API error 503: unavailable")) false)).
Proof.
  cbv zeta.
  eapply (@stream_server_errors Scenario.env)
    with (next := Some "a@x")
         (response2 := {| Scenario.r_status := 503; Scenario.r_text := "unavailable";
                          Scenario.r_resetMs := None; Scenario.r_events := [];
                          Scenario.r_error := None |});
    try reflexivity.
  - vm_compute. discriminate.
  - vm_compute. discriminate.
  - vm_compute. split; discriminate.
Defined.

(** One account; both calls fail on an expired certificate. *)
Lemma stream_unknown_error_witness :
  let headers := @buildHeaders Scenario.env "token-1" "claude-sonnet-4-5" "text/event-stream" in
  let payload := @buildCloudCodeRequest Scenario.env Scenario.sonnet "project-1"
                   "00000000-0000-4000-8000-000000000000" in
  let daily := StreamingHandler.sseUrl ANTIGRAVITY_ENDPOINT_DAILY in
  let prod := StreamingHandler.sseUrl ANTIGRAVITY_ENDPOINT_PROD in
  @StreamingHandler.attempt Scenario.env (fun _ _ => ret tt) Scenario.sonnet false 0
    (@Scenario.start Scenario.env
       (EdgeScenario.pool [inl EdgeScenario.expired; inl EdgeScenario.expired]))
  = prepend [AAttempt 0; AFetch daily headers payload; AFetch prod headers payload]
      (throw EdgeScenario.expired
         (@Build_St Scenario.env (EdgeScenario.served 0 [])
            (Some EdgeScenario.expired) false)).
Proof.
  cbv zeta.
  eapply (@stream_unknown_error Scenario.env) with (e1 := EdgeScenario.expired);
    try reflexivity.
  vm_compute. discriminate.
Defined.

(** *** A status that is neither a success nor an error *)

Section Below400.
Context {E : Env}.
Variable anthropicRequest : @AnthropicRequest E.
Variable account : Account E.
Variable token : string.
Variable payload : @Payload E.
Variable endpoint : string.
Variable response : Response E.

(** X19: An answer whose status is outside 200-299 and below 400 is no error
    for [sendMessage]: it is read like a success.  [sendMessageStream]
    records it as an API error and goes on with the next endpoint, without
    a wait. *)
Theorem status_below_400 :
  let model := model anthropicRequest in
  let isThinking := isThinkingModel (Some model) in
  let url := MessageHandler.endpointUrl isThinking endpoint in
  let headers := buildHeaders token model (MessageHandler.acceptFor isThinking) in
  let sse := StreamingHandler.sseUrl endpoint in
  let sseHeaders := buildHeaders token model "text/event-stream" in
  ok response = false ->
  (status E response < 400)%Z ->
  (forall s w1,
     fetch E url headers payload (world s) = (inr response, w1) ->
     MessageHandler.tryEndpoint anthropicRequest account token payload endpoint s
     = prepend [AFetch url headers payload]
         ((r <- MessageHandler.readResponse anthropicRequest response ;; ret (Return r))
            (setWorld s w1)))
  /\ (forall s w1,
        fetch E sse sseHeaders payload (world s) = (inr response, w1) ->
        StreamingHandler.tryEndpoint anthropicRequest account token payload endpoint s
        = prepend [AFetch sse sseHeaders payload]
            (ret Next
               {| world := w1;
                  lastError := Some (newError ("API error " ++ showZ (status E response)
                                                 ++ ": " ++ text E response));
                  retriedOnce := retriedOnce s |})).
Proof.
  cbv zeta. intros Hok Hstatus.
  assert (H401 : (status E response =? 401)%Z = false) by (apply Z.eqb_neq; lia).
  assert (H429 : (status E response =? 429)%Z = false) by (apply Z.eqb_neq; lia).
  assert (H400 : (400 <=? status E response)%Z = false) by (apply Z.leb_gt; lia).
  assert (H500 : (500 <=? status E response)%Z = false) by (apply Z.leb_gt; lia).
  split; intros s w1 Hfetch.
  - unfold MessageHandler.tryEndpoint, MessageHandler.post, postJson. cbv zeta.
    repeat run_step. rewrite Hok, H401, H429, H400. reflexivity.
  - unfold StreamingHandler.tryEndpoint, StreamingHandler.post, postJson. cbv zeta.
    repeat run_step. rewrite Hok, H401, H429, H500. cbn [negb].
    repeat run_step. reflexivity.
Qed.

End Below400.

(** An answer of status 304 at the second endpoint. *)
Lemma status_below_400_witness :
  let payload := @buildCloudCodeRequest Scenario.env Scenario.sonnet "project-1" "uuid" in
  let s := @Scenario.start Scenario.env
             (Scenario.freshWorld ["a@x"] [inr EdgeScenario.notModified]) in
  let s1 := @Scenario.start Scenario.env (Scenario.freshWorld ["a@x"] []) in
  let url := "https://cloudcode-pa.googleapis.com/v1internal:generateContent" in
  let headers := @buildHeaders Scenario.env "token-1" "claude-sonnet-4-5" "application/json" in
  let sse := "https://cloudcode-pa.googleapis.com/v1internal:streamGenerateContent?alt=sse" in
  let sseHeaders := @buildHeaders Scenario.env "token-1" "claude-sonnet-4-5"
                      "text/event-stream" in
  @MessageHandler.tryEndpoint Scenario.env Scenario.sonnet "a@x" "token-1" payload
    ANTIGRAVITY_ENDPOINT_PROD s
  = prepend [AFetch url headers payload] (ret (Return "") s1)
  /\ @StreamingHandler.tryEndpoint Scenario.env Scenario.sonnet "a@x" "token-1" payload
       ANTIGRAVITY_ENDPOINT_PROD s
     = prepend [AFetch sse sseHeaders payload]
         (ret Next
            (@Build_St Scenario.env (Scenario.freshWorld ["a@x"] [])
               (Some (newError "API error 304: ")) false)).
Proof.
  cbv zeta.
  destruct (@status_below_400 Scenario.env Scenario.sonnet "a@x" "token-1"
              (@buildCloudCodeRequest Scenario.env Scenario.sonnet "project-1" "uuid")
              ANTIGRAVITY_ENDPOINT_PROD EdgeScenario.notModified eq_refl eq_refl)
    as [Hmessage Hstream].
  split.
  - exact (Hmessage (@Scenario.start Scenario.env
                       (Scenario.freshWorld ["a@x"] [inr EdgeScenario.notModified]))
             (Scenario.freshWorld ["a@x"] []) eq_refl).
  - exact (Hstream (@Scenario.start Scenario.env
                      (Scenario.freshWorld ["a@x"] [inr EdgeScenario.notModified]))
             (Scenario.freshWorld ["a@x"] []) eq_refl).
Defined.

End HandlerEdges.
(* ===================================================================== *)
(** ** The model switch *)
(* ===================================================================== *)

Module ModelSwitchFacts.
Import JS ModelSwitch ThinkingSpec StringFacts.

Section Facts.
Variable Number : Type.
Variable isZero : Number -> bool.

Local Abbreviation Json := (Json Number).
Local Abbreviation Props := (Props Number).
Local Abbreviation null := (null Number).
Local Abbreviation boolean := (boolean Number).
Local Abbreviation number := (number Number).
Local Abbreviation str := (str Number).
Local Abbreviation array := (array Number).
Local Abbreviation object := (object Number).
Local Abbreviation get := (get Number).
Local Abbreviation set := (set Number).
Local Abbreviation spread := (spread Number).
Local Abbreviation envOf := (envOf Number).
Local Abbreviation truthyJson := (truthyJson Number isZero).
Local Abbreviation detectModelFamily := (detectModelFamily Number isZero).
Local Abbreviation loadSettings := (loadSettings Number).
Local Abbreviation main := (main Number isZero).
Local Abbreviation Holds := (Holds Number).
Local Abbreviation Missing := (Missing Number).
Local Abbreviation Unreadable := (Unreadable Number).

Lemma get_set k k' v (o : Props) :
  get k (set k' v o) = if String.eqb k k' then Some v else get k o.
Proof.
  induction o as [|[k0 v0] o IH]; cbn [ModelSwitch.set ModelSwitch.get].
  - destruct (String.eqb k k'); reflexivity.
  - destruct (String.eqb_spec k' k0) as [-> | Hne]; cbn [ModelSwitch.get].
    + destruct (String.eqb k k0); reflexivity.
    + rewrite IH. destruct (String.eqb_spec k k0) as [-> | Hne'].
      * destruct (String.eqb_spec k0 k') as [<- | _]; [contradiction | reflexivity].
      * reflexivity.
Qed.

(** A property of the spread is that of its second object, or else that of
    its first. *)
Lemma get_spread k : forall (b a : Props),
  NoDup (map fst b) ->
  get k (spread a b) = match get k b with Some v => Some v | None => get k a end.
Proof.
  induction b as [|[k1 v1] b IH]; intros a Hnodup; [reflexivity |].
  cbn [map fst] in Hnodup. inversion Hnodup as [|? ? Hnotin Hrest]; subst.
  unfold ModelSwitch.spread. cbn [fold_left fst snd]. fold (spread (set k1 v1 a) b).
  rewrite IH by exact Hrest. rewrite get_set. cbn [ModelSwitch.get].
  destruct (String.eqb_spec k k1) as [-> | Hne]; [| reflexivity].
  assert (Hnone : get k1 b = None).
  { clear -Hnotin. induction b as [|[k2 v2] b IHb]; [reflexivity |].
    cbn [ModelSwitch.get]. cbn [map fst In] in Hnotin.
    destruct (String.eqb_spec k1 k2) as [-> | _]; [tauto |].
    apply IHb. tauto. }
  rewrite Hnone. reflexivity.
Qed.

Lemma envOf_keys f : NoDup (map fst (envOf f)).
Proof.
  destruct f; cbn; repeat constructor; cbn; intuition discriminate.
Qed.

Lemma detect_spread (env : Props) f :
  detectModelFamily (Some (object (spread env (envOf f)))) = Returns (Some f).
Proof.
  unfold ModelSwitch.detectModelFamily. cbn [ModelSwitch.truthyJson negb ModelSwitch.property].
  rewrite get_spread by apply envOf_keys.
  destruct f; reflexivity.
Qed.

(** The model that [detectModelFamily] has read when it reports a family. *)
Lemma detect_model (env : option Json) (f : family) :
  detectModelFamily env = Returns (Some f) ->
  exists o s,
    env = Some (object o) /\ get "ANTHROPIC_MODEL" o = Some (str s)
    /\ match f with
       | Claude => Contains (lowerCase s) "claude"
       | Gemini => ~ Contains (lowerCase s) "claude" /\ Contains (lowerCase s) "gemini"
       end.
Proof.
  unfold ModelSwitch.detectModelFamily.
  destruct env as [[| b | n | s | items | o]|];
    cbn [ModelSwitch.truthyJson ModelSwitch.property negb];
    try discriminate;
    try (match goal with |- (if ?c then _ else _) = _ -> _ => destruct c end; discriminate).
  destruct (ModelSwitch.get Number "ANTHROPIC_MODEL" o) as [m|] eqn:Hget; [| discriminate].
  destruct m as [| b | n | s | items | o']; cbn [ModelSwitch.truthyJson negb];
    try discriminate;
    try (match goal with |- (if ?c then _ else _) = _ -> _ => destruct c end; discriminate).
  destruct (negb (truthy s)); [discriminate |].
  cbv zeta. rewrite toLowerCase_lowerCase.
  destruct (includes (lowerCase s) "claude") eqn:Hc.
  { intros H. injection H as <-. exists o, s.
    split; [reflexivity | split; [exact Hget |]]. apply includes_iff, Hc. }
  assert (Hnc : ~ Contains (lowerCase s) "claude")
    by (intros H; apply includes_iff in H; congruence).
  destruct (includes (lowerCase s) "gemini") eqn:Hg; [| discriminate].
  intros H. injection H as <-. exists o, s.
  split; [reflexivity | split; [exact Hget |]]. split; [exact Hnc |].
  apply includes_iff, Hg.
Qed.

(** And it reports the family of every such model. *)
Lemma detect_family (o : Props) (s : string) (f : family) :
  get "ANTHROPIC_MODEL" o = Some (str s) ->
  match f with
  | Claude => Contains (lowerCase s) "claude"
  | Gemini => ~ Contains (lowerCase s) "claude" /\ Contains (lowerCase s) "gemini"
  end ->
  detectModelFamily (Some (object o)) = Returns (Some f).
Proof.
  intros Hget Hf. unfold ModelSwitch.detectModelFamily.
  cbn [ModelSwitch.truthyJson ModelSwitch.property negb].
  change (ModelSwitch.get Number "ANTHROPIC_MODEL" o) with (get "ANTHROPIC_MODEL" o).
  rewrite Hget. cbn [ModelSwitch.truthyJson].
  assert (Hs : truthy s = true).
  { destruct s as [|c s]; [| reflexivity].
    destruct f; [destruct Hf as (pre & post & H) | destruct Hf as [_ (pre & post & H)]];
      destruct pre; discriminate. }
  rewrite Hs. cbn [negb]. cbv zeta. rewrite toLowerCase_lowerCase.
  destruct f.
  - rewrite (proj2 (includes_iff _ _) Hf). reflexivity.
  - destruct Hf as [Hnc Hg].
    destruct (includes (lowerCase s) "claude") eqn:Hc;
      [contradiction Hnc; apply includes_iff, Hc |].
    rewrite (proj2 (includes_iff _ _) Hg). reflexivity.
Qed.

(** The call throws exactly on a model that is truthy and no string. *)
Lemma detect_throws (env : option Json) :
  detectModelFamily env = ThrowsTypeError
  <-> exists o m,
        env = Some (object o) /\ get "ANTHROPIC_MODEL" o = Some m
        /\ truthyJson m = true /\ forall s, m <> str s.
Proof.
  unfold ModelSwitch.detectModelFamily. split.
  - destruct env as [[| b | n | s | items | o]|];
      cbn [ModelSwitch.truthyJson ModelSwitch.property negb];
      try discriminate; try (destruct (_ : bool); discriminate).
    destruct (ModelSwitch.get Number "ANTHROPIC_MODEL" o) as [m|] eqn:Hget; [| discriminate].
    destruct (truthyJson m) eqn:Hm; [| discriminate]. cbn [negb].
    destruct m as [| b | n | s | items | o']; intros H;
      try (exists o; eexists; repeat split; [exact Hget | exact Hm | discriminate]).
    cbv zeta in H. destruct (includes (toLowerCase s) "claude"); [discriminate |].
    destruct (includes (toLowerCase s) "gemini"); discriminate.
  - intros (o & m & -> & Hget & Hm & Hstr).
    cbn [ModelSwitch.truthyJson ModelSwitch.property negb]. rewrite Hget, Hm. cbn [negb].
    destruct m as [| b | n | s | items | o']; try reflexivity.
    contradiction (Hstr s). reflexivity.
Qed.

(** X20: a run of the switch that can write.  When the file is missing, is
    not readable or holds an object whose model, if there is one, is a
    string, the run writes the settings with a model of a known family
    under [env], the other settings in their places, and exits with 0: the
    family is Gemini when the file held a Claude model, and Claude when it
    held a Gemini model, an unknown one or none.  When the file holds an
    object whose model is truthy and no string, or holds [null], a boolean,
    a number or a string, the run ends with the code 1 and writes nothing.
    When the file holds an array, the run writes the array as it was and
    exits with 0. *)
Theorem main_switches_family file :
  let settings := loadSettings file in
  match settings with
  | ModelSwitch.object _ o =>
      match detectModelFamily (get "env" o) with
      | Returns currentFamily =>
          exists env',
            main true file = (Some (object (set "env" (object env') o)), 0%Z)
            /\ detectModelFamily (Some (object env'))
               = Returns (Some (match currentFamily with
                                | Some Claude => Gemini
                                | _ => Claude
                                end))
            /\ (forall k, k <> "env" -> get k (set "env" (object env') o) = get k o)
      | ThrowsTypeError => main true file = (None, 1%Z)
      end
  | ModelSwitch.array _ items => main true file = (Some (array items), 0%Z)
  | _ => main true file = (None, 1%Z)
  end
  /\ (settings = match file with
                 | ModelSwitch.Holds _ value => value
                 | _ => object []
                 end)
  /\ (forall env,
        detectModelFamily env = ThrowsTypeError
        <-> exists o m,
              env = Some (object o) /\ get "ANTHROPIC_MODEL" o = Some m
              /\ truthyJson m = true /\ forall s, m <> str s)
  /\ (forall env f,
        detectModelFamily env = Returns (Some f)
        <-> exists o s,
              env = Some (object o) /\ get "ANTHROPIC_MODEL" o = Some (str s)
              /\ match f with
                 | Claude => Contains (lowerCase s) "claude"
                 | Gemini => ~ Contains (lowerCase s) "claude" /\ Contains (lowerCase s) "gemini"
                 end).
Proof.
  cbv zeta. split; [| split; [destruct file; reflexivity | split; [exact detect_throws |]]].
  - unfold ModelSwitch.main. cbv zeta.
    destruct (loadSettings file) as [| b | n | s | items | o]; try reflexivity.
    cbn [readEnv ModelSwitch.property].
    destruct (detectModelFamily (get "env" o)) as [[[|]|]|] eqn:Hfamily; [| | | reflexivity].
    + destruct (detect_model _ _ Hfamily) as (o' & s & Henv & _).
      change (ModelSwitch.get Number "env" o) with (get "env" o). rewrite Henv.
      cbn [assignEnv saveSettings ownProps]. eexists. split; [reflexivity |]. split.
      * apply (detect_spread _ Gemini).
      * intros k Hk. rewrite get_set. destruct (String.eqb_spec k "env"); [contradiction |].
        reflexivity.
    + destruct (detect_model _ _ Hfamily) as (o' & s & Henv & _).
      change (ModelSwitch.get Number "env" o) with (get "env" o). rewrite Henv.
      cbn [assignEnv saveSettings ownProps]. eexists. split; [reflexivity |]. split.
      * apply (detect_spread _ Claude).
      * intros k Hk. rewrite get_set. destruct (String.eqb_spec k "env"); [contradiction |].
        reflexivity.
    + cbn [assignEnv saveSettings]. eexists. split; [reflexivity |]. split; [reflexivity |].
      intros k Hk. rewrite get_set. destruct (String.eqb_spec k "env"); [contradiction |].
      reflexivity.
  - intros env f. split; [apply detect_model |].
    intros (o & s & -> & Hget & Hf). exact (detect_family o s f Hget Hf).
Qed.

(** X21: A switch between the families changes the seven properties of the new
    model configuration and nothing else: every other property of [env]
    and every other setting is kept, each in its place. *)
Theorem main_keeps_settings (o : Props) currentFamily :
  detectModelFamily (get "env" o) = Returns (Some currentFamily) ->
  exists env env',
    get "env" o = Some (object env)
    /\ main true (Holds (object o)) = (Some (object (set "env" (object env') o)), 0%Z)
    /\ (forall k,
          get k env' = match get k (envOf (other currentFamily)) with
                       | Some v => Some v
                       | None => get k env
                       end)
    /\ (forall k, k <> "env" -> get k (set "env" (object env') o) = get k o)
    /\ map fst (set "env" (object env') o) = map fst o.
Proof.
  intros Hfamily.
  destruct (detect_model _ _ Hfamily) as (env & s & Henv & _).
  exists env, (spread env (envOf (other currentFamily))).
  split; [exact Henv |]. split; [| split; [| split]].
  - unfold ModelSwitch.main. cbv zeta.
    cbn [ModelSwitch.loadSettings readEnv ModelSwitch.property].
    rewrite Hfamily. change (ModelSwitch.get Number "env" o) with (get "env" o).
    rewrite Henv. destruct currentFamily; reflexivity.
  - intros k. apply get_spread, envOf_keys.
  - intros k Hk. rewrite get_set. destruct (String.eqb_spec k "env"); [contradiction |].
    reflexivity.
  - clear Hfamily. induction o as [|[k0 v0] o IH]; [discriminate |].
    cbn [ModelSwitch.set ModelSwitch.get] in Henv |- *.
    destruct (String.eqb_spec "env" k0) as [<- | Hne]; [reflexivity |].
    cbn [map fst]. rewrite IH by exact Henv. reflexivity.
Qed.

End Facts.

(** A Gemini model in mixed case, beside a property of the user's own and
    another setting. *)
Lemma main_keeps_settings_witness :
  let o := [ ("theme", str nat "dark");
             ("env", object nat [ ("ANTHROPIC_MODEL", str nat "Gemini-3-Flash");
                                  ("EDITOR", str nat "vi");
                                  ("RETRIES", number nat 3) ]) ] in
  detectModelFamily nat (Nat.eqb 0) (get nat "env" o) = Returns (Some Gemini)
  /\ exists env env',
       get nat "env" o = Some (object nat env)
       /\ main nat (Nat.eqb 0) true (Holds nat (object nat o))
          = (Some (object nat (set nat "env" (object nat env') o)), 0%Z)
       /\ (forall k,
             get nat k env' = match get nat k (envOf nat (other Gemini)) with
                              | Some v => Some v
                              | None => get nat k env
                              end)
       /\ (forall k, k <> "env" -> get nat k (set nat "env" (object nat env') o) = get nat k o)
       /\ map fst (set nat "env" (object nat env') o) = map fst o.
Proof.
  cbv zeta. split; [reflexivity |].
  exact (main_keeps_settings nat (Nat.eqb 0)
           [ ("theme", str nat "dark");
             ("env", object nat [ ("ANTHROPIC_MODEL", str nat "Gemini-3-Flash");
                                  ("EDITOR", str nat "vi");
                                  ("RETRIES", number nat 3) ]) ]
           Gemini eq_refl).
Defined.

(** Runs of the switch on files that hold no settings object. *)
Example main_on_other_files :
  main nat (Nat.eqb 0) true (Holds nat (null nat)) = (None, 1%Z)
  /\ main nat (Nat.eqb 0) true (Holds nat (number nat 5)) = (None, 1%Z)
  /\ main nat (Nat.eqb 0) true (Holds nat (array nat [])) = (Some (array nat []), 0%Z)
  /\ main nat (Nat.eqb 0) true
       (Holds nat (object nat [("env", object nat [("ANTHROPIC_MODEL", number nat 4)])]))
     = (None, 1%Z)
  /\ main nat (Nat.eqb 0) true (Missing nat)
     = (Some (object nat [("env", object nat (CLAUDE_ENV nat))]), 0%Z).
Proof. repeat split. Qed.

End ModelSwitchFacts.
